(* ===== verification/_CoqProject ===== *)
-Q . S2P
Prelude.v
Hoare.v
Coroutine.v
PyStr.v
PyVal.v
Types.v
ConfirmationBuffer.v
Filters.v
Snapshot.v
Repositories.v
Migrations.v
Watchers.v
Matcher.v
Decoder.v
AbiTypes.v
AbiLookup.v
Registry.v
Pipeline.v
EvmParsers.v
SolanaParsers.v
EventTypes.v
FilterSet.v
RpcPool.v
Lifecycle.v
ChainLock.v
Retry.v
HttpChannel.v
Notifier.v
Channels.v
Schemas.v
WebApi.v
Resubmit.v
IdlFetcher.v
EvmAdapter.v
WsHeads.v
SolanaAdapter.v
ChainRunner.v
EndToEnd.v
DryRun.v
WsFanout.v
WebFront.v
LogBuffer.v
Audits.v
Callbacks.v
System.v
Worker.v
Interrupt.v
Settings.v
Metrics.v
SendPool.v
PoolLedger.v
Adapters.v
HotReload.v
ReplayPath.v
ConfigPath.v
