(* ===== verification/Prelude.v ===== *)
(** * chain_indexer: verification development (root file)

    chain_indexer watches EVM chains and Solana.  Per chain, a worker follows the
    heads reported by RPC endpoints, turns confirmed blocks into events, matches the events
    against the users' subscriptions and notifies their channels:

      RPC endpoints -> endpoint pool -> adapter -> chain runner
        (confirmation buffer, log filter, catch-up, replay)
      -> parser pipeline (over the shared ABI registry) -> matcher -> notifier -> channels

    What to watch and whom to notify is kept in a database that the web API edits.  Every
    change increments a version; a worker's watcher loads snapshots of the configuration, and
    the worker reconciles its runners with each, one worker per chain by a lock in Redis:

      web API -> repositories -> database -> configuration watcher -> worker -> chain runners

    ** Files and what they model

    - [Prelude]: Python exceptions ([exn]) and fallible results ([result], notation
      [let?]), operations that mutate state and may raise ([M], notation [let*]; the
      state left behind by an exception is kept), insertion-ordered and hashed
      dictionaries, the automation shared by the components.  [Hoare]: a weakest-precondition
      calculus for [M], used for the worker.  [Coroutine]: asynchronous functions as trees of pieces
      between their awaits, run without interruption ([complete]) or interleaved by a schedule.
    - [PyStr], [PyVal]: the string, integer-literal and byte operations of Python the code
      uses, and its dynamically typed values ([==], hashing, [int()], [repr()], [get]).
    - [Types], [Snapshot]: core/chains/types.py, core/parser/event.py and the immutable
      configuration of core/config/snapshot.py.
    - [ConfirmationBuffer]: core/chains/confirmation_buffer.py, every method.
    - [Filters], [Matcher]: core/matcher/filters.py (operators on arguments),
      core/matcher/matcher.py (index and matching).
    - [Decoder], [AbiLookup], [Registry]: core/abi/decoder.py; the lookup interface the parsers
      rely on, a type class with laws; core/abi/registry.py with all its indexes and caches,
      which is proved to be an instance.  eth-abi, Keccak, SHA-256, base58 and borsh-construct
      are the operations of the class [AbiLib], with documented behaviour as [AbiLibLaws]
      and a concrete instance [ToyLib] for the witnesses.  [AbiTypes]: Solidity's types as syntax, and
      decoding stated over them.
    - [Pipeline], [EvmParsers], [SolanaParsers]: core/parser/*.py.  A parser is a generator
      ([gen]): the events yielded, the exception that ended it, the registry it leaves.
      [EventTypes]: the type discipline of the events all of them yield, item by item.
    - [FilterSet]: core/matcher/filter_set.py, the server-side eth_getLogs filter.
    - [RpcPool]: core/chains/rpc_pool.py, failover and circuit breaker.
    - [Retry], [HttpChannel], [Notifier]: core/notifier/retry.py, http.py, payload.py,
      notifier.py.  [SendPool]: the tasks of all dispatches of a notifier under its semaphore, with cancellation
      and the metrics of sends; [PoolLedger]: the delivery records they leave.  [Channels]: channel.py (registration), kafka.py, rabbitmq.py,
      redis_streams.py, websocket.py and the factory that builds any of the five drivers;
      the client libraries are the class [Brokers], jsonschema is [JsonSchema].  Retry settings are read as
      the source reads them, unchecked, so [retry_config] and the delays of [backoff] may raise.
    - [EvmAdapter], [SolanaAdapter]: core/chains/evm.py and solana.py, from raw responses to
      the types of the pipeline; web3, httpx and solders are parameters.  [WsHeads]: the queue between web3's
      handler task and the generator of heads.  [Adapters]: their constructors, and the pauses between
      Solana's websocket connections.
    - [ChainRunner]: apps/worker/chain_runner.py, every operation: start, apply_snapshot,
      stop, catch-up and live loops of both kinds of chain, replay.  What the runner calls is the
      interface [RunnerEnv]; theorems assume records of laws over it ([bounded_node],
      [steady], [checkpoint_log], [canonical_node]), and [RunnerSample] is an instance.  A node may refuse
      ranges of blocks with any error; what follows depends on whether the runner recognises it ([hinted]),
      which it never does for an error of the endpoint pool ([pool_raises]).
    - [Repositories]: core/config/models.py and repositories.py over a record of tables ([Db]),
      and load_snapshot.  What an SQL engine leaves open (the order of a scan, foreign keys,
      rejected rows) is the class [Sql], what it promises is [SqlLaws]; [ToySql] is an instance.
    - [Migrations]: the tables of core/config/models.py and the ten revisions of
      migrations/versions/ as lists of schema operations, acting on schemas, rows and the enum types that
      PostgreSQL keeps apart from the tables.  Alembic and the engine are the class [Ddl]; what each of the three
      engines of the README is documented to accept is [supports].
    - [Watchers]: apps/worker/config_watcher.py as a step relation whose steps are single reads,
      the comparison, the hand-over to the bounded queue, and commits of other processes;
      RedisBus.subscribe and replay_watcher.py.
    - [ChainLock]: core/worker/chain_lock.py, the methods over single Redis commands and the
      protocol of any number of workers with expiring keys.
    - [Schemas], [WebApi]: apps/web/schemas.py, deps.py and the routers chains, channels,
      subscriptions, abis, delivery_records.  A request runs in a session with its own view of
      the database ([Web]: committed state, view, the world); only [commit] publishes the view.
      [Resubmit]: the response models, and the client that puts back what it has read.
    - [Callbacks]: the adapter factory, the checkpoint adapter and the callbacks of
      apps/worker/main.py, each in a transaction of its own.  [Worker]: the state of [_Worker],
      start, reconciling, the main loop and shutdown, over the interface [WorkerEnv] and the
      locks of [ChainLock], whose store of keys is what [redis_keys] says of it.  [ReplayPath]: a replay request from the API through the worker to
      the runner's reading of it.  [ConfigPath]: a change of the configuration from the API through the watcher
      and the main loop to the running chains.  [System]: the wiring of a runner in [_reconcile], that is, an instance of
      [RunnerEnv] over the database, the notifiers with their drivers and a node.  [Interrupt]:
      [_reconcile] and [shutdown] as coroutines over the state of [Worker], and run_worker, which stops the main loop
      between two snapshots or inside a reconcile.  [HotReload]: [apply_snapshot] and the
      blocks of a window as coroutines over the state of [System].
    - [Lifecycle]: core/bus/redis_bus.py, core/config/db.py, start and stop of the watchers, what
      [shutdown] waits for first, and the connections of the adapters, over the interface [Platform].
    - [EndToEnd]: the composition of filter, parsers and matcher on one block.  [DryRun]:
      apps/web/routers/test.py, both endpoints with their reports, errors and deliveries; the
      adapters are the class [DryEnv].
    - [IdlFetcher]: core/abi/idl_fetcher.py; key derivation, HTTP, zlib and JSON are the class
      [IdlLib].  [WebApi] takes the fetch as a parameter.  [WsFanout]: apps/web/routers/ws.py as a
      step function of producer, bounded queue, consumer and clock.  [WebFront]: apps/web/main.py, the lifespan,
      the health check and the middlewares around the routers.  [LogBuffer]: the Redis list of
      core/logging.py and routers/logs.py.  [Settings]: core/settings.py, from the sources to the values; the merge and
      the coercions of pydantic-settings are the class [PydanticSettings].  [Metrics]: [track_rpc] of
      core/metrics.py.  [Audits]: channel_health of routers/channels.py and
      scripts/validate_arg_filters.py.

    ** What the theorems show

    - Confirmation: over any heads and reorganisations what is confirmed is one
      hash-linked chain; exactly the headers deep enough are confirmed; reorganisations
      replace exactly the divergent suffix ([ConfirmationBuffer]); the ancestors the runner
      prefetches suffice for any of them ([ChainRunner.prefetch_suffices]).
    - End to end: a runner at work that catches up adds to the table of delivery records at most one record per
      recipient of each matched event of the blocks it covers, exactly one when the table refuses none, and leaves the
      checkpoint at the last of them ([System.catchup_fills_ledger], from the laws of the node, the notifier and
      the callbacks).  Records tell the answers the channels gave; an answer is not fixed beforehand.
    - Completeness: catch-up by windows, bisection and buckets is the block-by-block
      process, as far as the node's refusals are recognised, and its checkpoints are consecutive from the first
      missing block or, above MAX_CATCHUP_BLOCKS, from the safe tip less that number ([ChainRunner]); logs the
      server-side filter leaves out would have notified nobody ([EndToEnd]); polling
      skips no head (adapters).
    - Matching: a subscription is hit exactly when the reference predicate holds
      ([Matcher], [Filters]).
    - ABI: caches are unobservable, hold only current decoders, and lookups answer with
      the declared entries ([Registry]); decoding assigns every argument what its declared type says ([AbiTypes]).
    - Parsers: failures are isolated; encoded transfers, instructions and call traces
      decode back; Anchor data lines go to the innermost program; every event has the shape of
      its kind and carries the origin of its own item ([EventTypes.events_well_typed]).
    - Agreement of the API with the worker: what a dry run reports as matched is what the worker
      dispatches for the block ([DryRun]); an IDL stored on chain is found and completed
      ([IdlFetcher]); a websocket client gets what is published, in order, less what met a full
      queue ([WsFanout]).
    - Delivery: failover refines trying endpoints in order and keeps the breaker's
      invariant ([RpcPool]); every channel type hands one and the same request to its client
      library within its retry bounds ([Channels]); every channel of every hit gets exactly one
      delivery record in the database whatever the interleaving, unless the insert is refused, which the callback
      swallows ([Callbacks]); payloads are always JSON.  The concurrent sends stay within the limit, all end, leave at most one record each even when they are
      cancelled ([PoolLedger]), and do what sending one after the other does ([SendPool]), which justifies the sequential [dispatch] of [Notifier].
    - Composition: after any request of the API and one poll the worker runs exactly the
      chains the committed configuration wants, less those that other workers hold ([ConfigPath]).
    - Configuration: every change is committed together with one version increment
      ([WebApi]); references never dangle and a loaded snapshot is the active configuration
      ([Repositories]); in every interleaving with commits the watcher hands over faithful
      snapshots, and a poll converges ([Watchers]); served configurations are within the bounds
      the runner relies on ([WebApi]); clean-up converges ([Repositories]); a snapshot applied without
      interruption is the one the runner is at work on ([HotReload.applied_at_work]); settings follow their
      precedence field by field ([Settings]).
    - Round trips: GET followed by PUT of the answer changes nothing but the version
      ([Resubmit]); validation is idempotent.
    - Schema: the revisions build what the models declare, up to one enum; on SQLite and PostgreSQL they run on
      any populated database of any revision and keep its rows, and every downgrade undoes its upgrade, up to the
      enum types that the first leaves on PostgreSQL; on MySQL they stop at 0005 and 0008 ([Migrations]).
    - Resources: what the web process opens it closes, with the two exceptions stated ([WebFront]); the
      worker's background tasks all end or their exception is raised ([Lifecycle]); the log endpoint returns
      the newest lines ([LogBuffer]).
    - Work distribution: at most one worker runs a chain ([ChainLock]); one reconcile does
      exactly what the snapshot asks for ([Worker]); unless it is stopped inside a reconcile, the worker ends with no
      key of its own in Redis and no runner alive when its connections close ([Interrupt]); a replay request reaches the runner of its
      chain intact ([ReplayPath]).
    - Defects: theorems and lemmas about inputs for which the code does not do what it means to
      (undecodable topics, overloaded events, success messages, malformed ABI entries, which
      also end the worker's main loop, hints lost in the pool, blocks skipped at a restart,
      Solana heads from slot 1, hidden getBlocks errors, accounts loaded from lookup tables,
      overlapping version bumps, outdated snapshots handed over again, locks that expire on a
      running worker, updates validated against a kind they do not store, a shutdown that a dead
      watcher blocks, a health check that pings another server, a shutdown during a reconcile that leaves
      a runner behind or ends with a KeyError, a lost websocket nobody notices, a runner dropped
      unclosed when its start fails, retry settings that make every send raise, enum types that a downgrade leaves,
      revisions that MySQL refuses, an edit form
      that resets what it does not show, a window of blocks that a new snapshot silences, an enum the migrations
      never extend).

    ** Bounds and fuel

    Loops of the source are structural where they can be: [for] over a range counts
    down its length, the walk of [handle_new_head] has the source's own bound, call traces carry the
    source's depth limit ([CALL_DEPTH] = 65 levels, 0 to 64).  [fetch_logs_with_degrade] takes the
    depth of the bisection as fuel; [degrade_fuel] is the width of the range and is enough
    because each half is narrower ([degrade_covers] shows that it returns).
    [catchup_windows] takes the number of windows, at most the number of blocks when a
    window holds at least one; with [log_query_range_blocks] below 1 the source does not
    terminate and the theorems require at least 1, which [served_configuration_valid] provides.
    Polling generators are unbounded in the source and take a number of rounds; the worker's main
    loop runs over the snapshots it dequeues.  Times and delays are abstract numbers or integers
    in any unit.

    ** Concurrency

    Tasks interleave only where the source awaits.  An operation of the environment may
    change whatever another task may change meanwhile ([RunnerEnv], [RpcPool.call]); the
    deliveries of one dispatch complete in an arbitrary order ([dispatch] takes the
    schedule); the dispatch tasks of one block, isolated from each other, are started in order.
    The two watcher tasks and the writers of the database, and the workers that share a lock,
    interleave step by step ([wstep], [lock_step]); so do the two tasks of a websocket session
    ([session_step]).  The stops that a shutdown gathers end in an
    arbitrary order.  A shutdown that interrupts a reconcile is a schedule of two coroutines ([Interrupt]),
    which without interruption are the operations of [Worker] ([Interrupt.uninterrupted_operations]), and so is a snapshot
    that overtakes a window of the catch-up ([HotReload]).  The tasks of a notifier interleave in any order that its
    semaphore allows ([pool_step]); the pushes
    of log lines interleave command by command ([LogBuffer]).  A transaction of the API is executed at once; overlapping ones appear as
    commits in [Watchers].

    ** Not modelled

    - The CLI entry points with their signal handlers, routing and response serialisation of the web
      framework, the rendering of log lines, the declarations of the Prometheus metrics and the gauges of block
      numbers and worker identity: the system writes them and never reads them back.
    - How pydantic-settings finds the variables of the environment: each source of [Settings] is given as the
      nested dictionary it amounts to.  Floats are integers in a smaller unit.
    - Lost database connections, and the length limits of columns other than as rows the engine
      may reject.  migrations/env.py, which hands the connection to Alembic.
    - More than two tasks interrupting each other inside the worker, beside the sends of a notifier: the stops of one
      shutdown are taken one after the other, in any order. *)
From stdpp Require Export base gmap strings list pretty numbers sorting.
From Stdlib Require Export ZArith Lia.
From Stdlib Require Export Ascii Strings.Byte.

Declare Scope ci_scope.
Delimit Scope ci_scope with ci.
#[global] Open Scope Z_scope.
#[export] Set Warnings "-register-all,-clear-no-such-hyp".

(** ** Exceptions and results

    A Python exception is a value of [exn]; [exn_str] is what [str(exc)]
    returns.  Only the classes the sources raise or catch by name have a
    constructor; everything else is [OtherError]. *)
Inductive exn :=
  | ValueError (msg : string)
  | KeyError (msg : string)
  | TypeError (msg : string)
  | AssertionError (msg : string)
  | RuntimeError (msg : string)
  | FilterError (msg : string)
  | AbiNotFound (msg : string)
  | DecodeFailed (msg : string)
  | RetryAbort (msg : string)
  | RetryExhausted (msg : string) (attempts : Z) (cause : option exn)
  | AllEndpointsFailed (msg : string) (cause : option exn)
  | HTTPException (status_code : Z) (detail : string)
  | IntegrityError (msg : string)
  | OtherError (cls msg : string).

Definition exn_str (e : exn) : string :=
  match e with
  | ValueError m | KeyError m | TypeError m | AssertionError m | RuntimeError m
  | FilterError m | AbiNotFound m | DecodeFailed m | RetryAbort m
  | RetryExhausted m _ _ | AllEndpointsFailed m _ | HTTPException _ m
  | IntegrityError m | OtherError _ m => m
  end.

Inductive result (A : Type) :=
  | Ok (a : A)
  | Err (e : exn).
Arguments Ok {A} a.
Arguments Err {A} e.

Definition rbind {A B} (r : result A) (f : A → result B) : result B :=
  match r with Ok a => f a | Err e => Err e end.

Definition rmap {A B} (f : A → B) (r : result A) : result B :=
  match r with Ok a => Ok (f a) | Err e => Err e end.

Definition is_ok {A} (r : result A) : bool :=
  match r with Ok _ => true | Err _ => false end.

Notation "'let?' x := r 'in' k" := (rbind r (λ x, k))
  (at level 10, x pattern, r at level 100, k at level 200) : ci_scope.
#[global] Open Scope ci_scope.

(** [rtraverse f l]: a list comprehension whose body may raise. *)
Fixpoint rtraverse {A B} (f : A → result B) (l : list A) : result (list B) :=
  match l with
  | [] => Ok []
  | x :: t => let? y := f x in let? ys := rtraverse f t in Ok (y :: ys)
  end.

(** [rfold f l acc]: a loop over an accumulator whose body may raise. *)
Fixpoint rfold {A B} (f : B → A → result B) (l : list A) (acc : B) : result B :=
  match l with
  | [] => Ok acc
  | x :: t => let? acc' := f acc x in rfold f t acc'
  end.

Lemma rfold_app {A B} (f : B → A → result B) l1 l2 acc :
  rfold f (l1 ++ l2) acc = let? acc' := rfold f l1 acc in rfold f l2 acc'.
Proof.
  revert acc. induction l1 as [|x l1 IH]; intros acc; simpl; [done|].
  destruct (f acc x); simpl; auto.
Qed.

(** A property of the accumulator that every successful step keeps. *)
Lemma rfold_ind {A B} (P : B → Prop) (f : B → A → result B) l acc acc' :
  P acc → (∀ b x b', x ∈ l → P b → f b x = Ok b' → P b') →
  rfold f l acc = Ok acc' → P acc'.
Proof.
  revert acc. induction l as [|x l IH]; simpl; intros acc Hacc Hf H; [by simplify_eq|].
  destruct (f acc x) as [b|e] eqn:E; simpl in H; [|done].
  apply (IH b); [by apply (Hf acc x); [left|..]| |done].
  intros b' y b'' Hy. apply Hf. by right.
Qed.

Lemma rtraverse_app {A B} (f : A → result B) l1 l2 :
  rtraverse f (l1 ++ l2) =
    let? r1 := rtraverse f l1 in let? r2 := rtraverse f l2 in Ok (r1 ++ r2).
Proof.
  induction l1 as [|x l1 IH]; simpl; [by destruct (rtraverse f l2)|].
  rewrite IH. destruct (f x), (rtraverse f l1), (rtraverse f l2); done.
Qed.

Lemma rtraverse_ok {A B} (f : A → result B) l r :
  rtraverse f l = Ok r ↔ Forall2 (λ x y, f x = Ok y) l r.
Proof.
  revert r. induction l as [|x l IH]; simpl; intros r.
  { split; [intros [= <-]; done|]. intros ->%Forall2_nil_inv_l. done. }
  destruct (f x) as [y|e] eqn:E; simpl.
  2: { split; [done|]. intros (?&?&?&?&?)%Forall2_cons_inv_l. congruence. }
  destruct (rtraverse f l) as [ys|e] eqn:E2; simpl.
  - split.
    + intros [= <-]. constructor; [done|]. by apply IH.
    + intros (y'&ys'&Hy&Hys&->)%Forall2_cons_inv_l. apply IH in Hys. congruence.
  - split; [done|]. intros (y'&ys'&Hy&Hys&->)%Forall2_cons_inv_l. apply IH in Hys. congruence.
Qed.

Lemma rbind_ok {A B} (r : result A) (f : A → result B) b :
  rbind r f = Ok b ↔ ∃ a, r = Ok a ∧ f a = Ok b.
Proof. destruct r; simpl; naive_solver. Qed.

(** ** State and exceptions

    An operation that mutates objects and may raise is [M S A]: it always
    returns the state it left behind, so a mutation made before an exception
    is kept, as in Python. *)
Definition M (S A : Type) : Type := S → result A * S.

Definition mret {S A} (a : A) : M S A := λ s, (Ok a, s).
Definition mthrow {S A} (e : exn) : M S A := λ s, (Err e, s).
Definition mget {S} : M S S := λ s, (Ok s, s).
Definition mgets {S A} (f : S → A) : M S A := λ s, (Ok (f s), s).
Definition mmodify {S} (f : S → S) : M S unit := λ s, (Ok tt, f s).
Definition mlift {S A} (r : result A) : M S A := λ s, (r, s).

Definition mbind {S A B} (m : M S A) (k : A → M S B) : M S B := λ s,
  match m s with
  | (Ok a, s') => k a s'
  | (Err e, s') => (Err e, s')
  end.

(** [try: m except Exception as e: h e] *)
Definition mcatch {S A} (m : M S A) (h : exn → M S A) : M S A := λ s,
  match m s with
  | (Ok a, s') => (Ok a, s')
  | (Err e, s') => h e s'
  end.

(** [try: m finally: f], where [f] does not raise. *)
Definition mfinally {S A} (m : M S A) (f : S → S) : M S A := λ s,
  let '(r, s') := m s in (r, f s').

(** Runs [m] on a component of the state. *)
Definition mzoom {S T A} (get : S → T) (set : T → S → S) (m : M T A) : M S A := λ s,
  let '(r, t) := m (get s) in (r, set t s).

Notation "'let*' x := m 'in' k" := (mbind m (λ x, k))
  (at level 10, x pattern, m at level 100, k at level 200) : ci_scope.
Notation "m ;;* k" := (mbind m (λ _, k))
  (at level 90, right associativity) : ci_scope.

(** [for x in l: f x] *)
Fixpoint mfor {S A} (l : list A) (f : A → M S unit) : M S unit :=
  match l with
  | [] => mret tt
  | x :: t => f x ;;* mfor t f
  end.

(** ** Python dictionaries that are iterated over keep insertion order *)
Section dict.
Context {V : Type}.
Implicit Types (d : list (string * V)) (k : string) (v : V).

Fixpoint dget (k : string) (d : list (string * V)) : option V :=
  match d with
  | [] => None
  | (k', v) :: t => if decide (k' = k) then Some v else dget k t
  end.

Fixpoint dset (k : string) (v : V) (d : list (string * V)) : list (string * V) :=
  match d with
  | [] => [(k, v)]
  | (k', v') :: t => if decide (k' = k) then (k', v) :: t else (k', v') :: dset k v t
  end.

Definition dmem (k : string) (d : list (string * V)) : bool :=
  match dget k d with Some _ => true | None => false end.

Lemma dget_dset_eq k v d : dget k (dset k v d) = Some v.
Proof.
  induction d as [|[k' v'] d IH]; simpl; [by rewrite decide_True|].
  case_decide; simpl; [by rewrite decide_True|by rewrite decide_False].
Qed.

Lemma dget_dset_ne k k' v d : k ≠ k' → dget k (dset k' v d) = dget k d.
Proof.
  intros Hne. induction d as [|[k2 v2] d IH]; simpl; [by rewrite decide_False|].
  repeat (case_decide; simpl; simplify_eq); done || (by rewrite IH).
Qed.

Lemma dget_None k d : dget k d = None ↔ k ∉ d.*1.
Proof.
  induction d as [|[k' v] d IH]; simpl; [split; [intros _; apply not_elem_of_nil|done]|].
  rewrite not_elem_of_cons. case_decide; subst; naive_solver.
Qed.

Lemma dget_elem_of k v d : dget k d = Some v → (k, v) ∈ d.
Proof.
  induction d as [|[k' v'] d IH]; simpl; [done|].
  case_decide; intros; simplify_eq; set_solver.
Qed.

Lemma elem_of_dget k v d : NoDup d.*1 → (k, v) ∈ d → dget k d = Some v.
Proof.
  induction d as [|[k' v'] d IH]; simpl; intros Hnd Hin; [set_solver|].
  apply NoDup_cons in Hnd as [Hk Hnd].
  apply elem_of_cons in Hin as [?|Hin]; simplify_eq; [by rewrite decide_True|].
  rewrite decide_False; [by apply IH|].
  intros ->. apply Hk, list_elem_of_fmap. by exists (k, v).
Qed.

Lemma dset_keys k v d :
  (dset k v d).*1 = if decide (k ∈ d.*1) then d.*1 else d.*1 ++ [k].
Proof.
  induction d as [|[k' v'] d IH].
  - rewrite decide_False; [done|apply not_elem_of_nil].
  - cbn [dset]. destruct (decide (k' = k)) as [->|Hk].
    + rewrite decide_True; [done|left].
    + rewrite !fmap_cons, IH. cbn [fst].
      destruct (decide (k ∈ d.*1)).
      * rewrite decide_True; [done|by right].
      * rewrite decide_False; [done|rewrite not_elem_of_cons; naive_solver].
Qed.

Lemma dset_NoDup k v d : NoDup d.*1 → NoDup (dset k v d).*1.
Proof.
  intros Hnd. rewrite dset_keys. destruct (decide _); [done|].
  apply NoDup_app. split_and!; [done| |apply NoDup_singleton].
  intros x Hx ->%list_elem_of_singleton. done.
Qed.
End dict.

(** [{k: v for ...}]: a later entry overwrites an earlier one. *)
Definition dict_comp `{Countable K} {V} (l : list (K * V)) : gmap K V :=
  foldl (λ m kv, <[kv.1:=kv.2]> m) ∅ l.

Lemma dict_comp_snoc `{Countable K} {V} (l : list (K * V)) k v :
  dict_comp (l ++ [(k, v)]) = <[k:=v]> (dict_comp l).
Proof. unfold dict_comp. by rewrite foldl_app. Qed.

Lemma dict_comp_elem_of `{Countable K} {V} (l : list (K * V)) k v :
  dict_comp l !! k = Some v → (k, v) ∈ l.
Proof.
  induction l as [|[k' v'] l IH] using rev_ind; [done|].
  rewrite dict_comp_snoc, elem_of_app, list_elem_of_singleton.
  destruct (decide (k' = k)) as [->|]; simplify_map_eq; naive_solver.
Qed.

Lemma dict_comp_None `{Countable K} {V} (l : list (K * V)) k :
  dict_comp l !! k = None ↔ k ∉ l.*1.
Proof.
  induction l as [|[k' v'] l IH] using rev_ind; [set_solver|].
  rewrite dict_comp_snoc, fmap_app, not_elem_of_app, <- IH. simpl.
  rewrite not_elem_of_cons.
  destruct (decide (k' = k)) as [->|]; simplify_map_eq; [naive_solver|].
  split; [|naive_solver]. intros; split_and!; [done..|apply not_elem_of_nil].
Qed.

Lemma dict_comp_lookup `{Countable K} {V} (l : list (K * V)) k v :
  NoDup l.*1 → (k, v) ∈ l → dict_comp l !! k = Some v.
Proof.
  intros Hnd Hin. destruct (dict_comp l !! k) as [v'|] eqn:E.
  - apply dict_comp_elem_of in E. f_equal.
    apply list_elem_of_lookup_1 in Hin as [i Hi]. apply list_elem_of_lookup_1 in E as [j Hj].
    assert (i = j) as ->; [|by simplify_eq].
    apply (NoDup_lookup l.*1 i j k Hnd); rewrite list_lookup_fmap; [by rewrite Hi|by rewrite Hj].
  - apply dict_comp_None in E. destruct E. apply list_elem_of_fmap. by exists (k, v).
Qed.

Lemma elem_of_concat {A} (ls : list (list A)) x : x ∈ concat ls ↔ ∃ l, l ∈ ls ∧ x ∈ l.
Proof.
  rewrite list_elem_of_In, in_concat. setoid_rewrite <- list_elem_of_In. done.
Qed.

Lemma Forall_snoc_last {A} (P : A → Prop) l x : Forall P (l ++ [x]) → P x.
Proof. rewrite Forall_app, Forall_singleton. tauto. Qed.

Lemma filter_all {A} (P : A → Prop) `{∀ x, Decision (P x)} l : Forall P l → filter P l = l.
Proof. induction 1 as [|x l Hx _ IH]; [done|]. by rewrite filter_cons_True, IH. Qed.

Lemma filter_none {A} (P : A → Prop) `{∀ x, Decision (P x)} l :
  Forall (λ x, ¬ P x) l → filter P l = [].
Proof. induction 1 as [|x l Hx _ IH]; [done|]. by rewrite filter_cons_False, IH. Qed.

(** ** Automation *)

(** One goal per element of an explicit list, closed by evaluation *)
Ltac each_elem H :=
  repeat (apply elem_of_cons in H as [->|H]; [first [by vm_compute|idtac]|]);
  try by apply not_elem_of_nil in H.

(** One goal per value of a natural number [d] that [Hd] bounds by 16 at most *)
Ltac small_cases d Hd :=
  let Hin := fresh "Hin" in
  assert (d ∈ [0;1;2;3;4;5;6;7;8;9;10;11;12;13;14;15]%N) as Hin by (rewrite !elem_of_cons; lia);
  repeat (apply elem_of_cons in Hin as [->|Hin]; [first [by vm_compute|lia]|]);
  by apply not_elem_of_nil in Hin.

(** Facts about dictionaries and results that component proofs use without naming *)
Create HintDb ci discriminated.
#[export] Hint Resolve dset_NoDup dget_dset_eq dget_elem_of elem_of_dget : ci.
#[export] Hint Resolve NoDup_nil_2 filter_all filter_none : ci.
