(* ===== verification/Hoare.v ===== *)
(** * Program logic for the state and error monad

    [wp m Q E s]: run from [s], [m] ends with a value and a state that satisfy [Q], or raises
    an exception and leaves a state that satisfy [E].  One rule per combinator of the prelude. *)
From S2P Require Import Prelude.

Definition wp {S A} (m : M S A) (Q : A → S → Prop) (E : exn → S → Prop) (s : S) : Prop :=
  match m s with
  | (Ok a, s') => Q a s'
  | (Err e, s') => E e s'
  end.

Section rules.
Context {S : Type}.
Implicit Types (s : S) (E : exn → S → Prop).

Lemma wp_mono {A} (m : M S A) (Q Q' : A → S → Prop) E E' s :
  wp m Q E s → (∀ a s', Q a s' → Q' a s') → (∀ e s', E e s' → E' e s') → wp m Q' E' s.
Proof. unfold wp. destruct (m s) as [[a|e] s']; eauto. Qed.

Lemma wp_bind {A B} (m : M S A) (k : A → M S B) Q E s :
  wp (mbind m k) Q E s ↔ wp m (λ a, wp (k a) Q E) E s.
Proof. unfold wp, mbind. by destruct (m s) as [[a|e] s']. Qed.

Lemma wp_ret {A} (a : A) (Q : A → S → Prop) E s : wp (mret a) Q E s ↔ Q a s.
Proof. done. Qed.

Lemma wp_throw {A} e (Q : A → S → Prop) E s : wp (mthrow e) Q E s ↔ E e s.
Proof. done. Qed.

Lemma wp_get (Q : S → S → Prop) E s : wp mget Q E s ↔ Q s s.
Proof. done. Qed.

Lemma wp_modify (f : S → S) (Q : unit → S → Prop) E s : wp (mmodify f) Q E s ↔ Q tt (f s).
Proof. done. Qed.

Lemma wp_lift {A} (r : result A) (Q : A → S → Prop) E s :
  wp (mlift r) Q E s ↔ match r with Ok a => Q a s | Err e => E e s end.
Proof. by destruct r. Qed.

Lemma wp_catch {A} (m : M S A) (h : exn → M S A) Q E s :
  wp (mcatch m h) Q E s ↔ wp m Q (λ e, wp (h e) Q E) s.
Proof. unfold wp, mcatch. by destruct (m s) as [[a|e] s']. Qed.

Lemma wp_zoom {T A} (get : S → T) (set : T → S → S) (m : M T A) Q E s :
  wp (mzoom get set m) Q E s ↔
  wp m (λ a t, Q a (set t s)) (λ e t, E e (set t s)) (get s).
Proof. unfold wp, mzoom. by destruct (m (get s)) as [[a|e] t]. Qed.

(** The loop rule: the invariant speaks of the elements done so far. *)
Lemma wp_mfor {A} (I : list A → S → Prop) (l : list A) (f : A → M S unit) E s :
  I [] s →
  (∀ done x todo s', l = done ++ x :: todo → I done s' → wp (f x) (λ _, I (done ++ [x])) E s') →
  wp (mfor l f) (λ _, I l) E s.
Proof.
  intros H0 Hf.
  assert (∀ todo done s, l = done ++ todo → I done s → wp (mfor todo f) (λ _, I l) E s) as Hgen.
  { induction todo as [|x todo IH]; intros dn s' Hl HI.
    - by rewrite Hl, app_nil_r.
    - simpl. apply wp_bind. eapply wp_mono; [by apply (Hf dn x todo)| |done].
      intros [] s2 H2. eapply IH; [|exact H2]. by rewrite <- app_assoc. }
  by apply (Hgen l []).
Qed.

(** The same invariant before and after every round *)
Lemma wp_mfor_inv {A} (I : S → Prop) (l : list A) (f : A → M S unit) E s :
  I s → (∀ x s', x ∈ l → I s' → wp (f x) (λ _, I) E s') → wp (mfor l f) (λ _, I) E s.
Proof.
  intros H0 Hf. apply (wp_mfor (λ _, I)); [done|]. intros dn x todo s' -> HI. apply Hf; [|done].
  set_solver.
Qed.

Lemma wp_ok {A} (m : M S A) (Q : A → S → Prop) s :
  wp m Q (λ _ _, False) s ↔ ∃ a s', m s = (Ok a, s') ∧ Q a s'.
Proof.
  unfold wp. destruct (m s) as [[a|e] s'].
  - split; [eauto|]. by intros (? & ? & [= <- <-] & ?).
  - split; [done|]. by intros (? & ? & ? & ?).
Qed.

Lemma wp_run {A} (m : M S A) (Q : A → S → Prop) E a s s' :
  m s = (Ok a, s') → wp m Q E s → Q a s'.
Proof. unfold wp. by intros ->. Qed.

Lemma wp_state {A} (m : M S A) (P : S → Prop) s :
  wp m (λ _, P) (λ _, P) s ↔ P (m s).2.
Proof. unfold wp. by destruct (m s) as [[a|e] s']. Qed.

(** [m] preserves [P], whether it returns or raises. *)
Definition keeps {A} (P : S → Prop) (m : M S A) : Prop := ∀ s, P s → wp m (λ _, P) (λ _, P) s.

Lemma keeps_state {A} P (m : M S A) s : keeps P m → P s → P (m s).2.
Proof. intros Hk Hs. by apply wp_state, Hk. Qed.

Lemma keeps_bind {A B} P (m : M S A) (k : A → M S B) :
  keeps P m → (∀ a, keeps P (k a)) → keeps P (mbind m k).
Proof. intros Hm Hk s Hs. apply wp_bind. eapply wp_mono; [by apply Hm| |done]. intros a. apply Hk. Qed.

Lemma keeps_catch {A} P (m : M S A) (h : exn → M S A) :
  keeps P m → (∀ e, keeps P (h e)) → keeps P (mcatch m h).
Proof. intros Hm Hh s Hs. apply wp_catch. eapply wp_mono; [by apply Hm|done|]. intros e. apply Hh. Qed.

Lemma keeps_modify P f : (∀ s, P s → P (f s)) → keeps P (mmodify f).
Proof. intros H s Hs. by apply H. Qed.

Lemma keeps_ret {A} P (a : A) : keeps P (mret a).
Proof. by intros s Hs. Qed.

Lemma keeps_throw {A} P e : keeps P (mthrow (A:=A) e).
Proof. by intros s Hs. Qed.

Lemma keeps_get P : keeps P mget.
Proof. by intros s Hs. Qed.

Lemma keeps_zoom {T A} P (get : S → T) (set : T → S → S) (m : M T A) :
  (∀ t s, P s → P (set t s)) → keeps P (mzoom get set m).
Proof.
  intros H s Hs. apply wp_zoom. unfold wp. destruct (m (get s)) as [[a|e] t]; by apply H.
Qed.

Lemma keeps_mfor {A} P (l : list A) f : (∀ x, keeps P (f x)) → keeps P (mfor l f).
Proof.
  intros H. induction l as [|x l IH]; simpl; [apply keeps_ret|]. apply keeps_bind; [done|].
  by intros [].
Qed.
End rules.

(** One symbolic step *)
Ltac wp_step :=
  lazymatch goal with
  | |- wp (mbind _ _) _ _ _ => apply wp_bind
  | |- wp (mret _) _ _ _ => apply wp_ret
  | |- wp mget _ _ _ => apply wp_get
  | |- wp (mmodify _) _ _ _ => apply wp_modify
  | |- wp (mcatch _ _) _ _ _ => apply wp_catch
  | |- wp (mthrow _) _ _ _ => apply wp_throw
  end.
Ltac wp_steps := repeat (wp_step; cbn beta).
