(* ===== verification/Coroutine.v ===== *)
(** * Coroutines

    An [async] function as a tree of pieces of code: a piece that goes on at once ([Now]), or
    one that ends in an [await] ([Await]): it performs the awaited operation, then the task is
    suspended and other tasks may run before the rest.  [M] describes the same code without
    interruption; [complete] forgets the suspensions, and [interleave] is the event loop over two tasks. *)
From S2P Require Import Prelude.

Inductive co (S A : Type) :=
  | Ret (r : result A)
  | Now (f : S → co S A * S)
  | Await (f : S → co S A * S).
Arguments Ret {S A}. Arguments Now {S A}. Arguments Await {S A}.

Section co.
Context {S : Type}.

(** A task that goes on with [k] after [m], or ends with its exception *)
Definition then_ {A B} (m : M S A) (k : A → co S B) : S → co S B * S := λ s,
  match m s with
  | (Ok a, s') => (k a, s')
  | (Err e, s') => (Ret (Err e), s')
  end.
Definition now {A B} (m : M S A) (k : A → co S B) : co S B := Now (then_ m k).
Definition await {A B} (m : M S A) (k : A → co S B) : co S B := Await (then_ m k).
Definition awaited {A} (m : M S A) : co S A := await m (λ a, Ret (Ok a)).
Definition return_ {A} (a : A) : co S A := Ret (Ok a).

Fixpoint co_bind {A B} (c : co S A) (k : A → co S B) : co S B :=
  match c with
  | Ret (Ok a) => k a
  | Ret (Err e) => Ret (Err e)
  | Now f => Now (λ s, let '(c', s') := f s in (co_bind c' k, s'))
  | Await f => Await (λ s, let '(c', s') := f s in (co_bind c' k, s'))
  end.

(** [try: c except Exception as e: h(e)] *)
Fixpoint co_catch {A} (c : co S A) (h : exn → co S A) : co S A :=
  match c with
  | Ret (Ok a) => Ret (Ok a)
  | Ret (Err e) => h e
  | Now f => Now (λ s, let '(c', s') := f s in (co_catch c' h, s'))
  | Await f => Await (λ s, let '(c', s') := f s in (co_catch c' h, s'))
  end.

Fixpoint co_for {X} (l : list X) (f : X → co S unit) : co S unit :=
  match l with
  | [] => return_ tt
  | x :: t => co_bind (f x) (λ _, co_for t f)
  end.

(** ** Running *)

(** Without interruption *)
Fixpoint complete {A} (c : co S A) : M S A := λ s,
  match c with
  | Ret r => (r, s)
  | Now f | Await f => let '(c', s') := f s in complete c' s'
  end.

(** Up to the next suspension *)
Fixpoint resume {A} (c : co S A) (s : S) : co S A * S :=
  match c with
  | Ret r => (Ret r, s)
  | Now f => let '(c', s') := f s in resume c' s'
  | Await f => f s
  end.

(** [true] resumes the first task, [false] the second. *)
Fixpoint interleave {A B} (schedule : list bool) (c1 : co S A) (c2 : co S B) (s : S)
    : co S A * co S B * S :=
  match schedule with
  | [] => (c1, c2, s)
  | true :: t => let '(c1', s') := resume c1 s in interleave t c1' c2 s'
  | false :: t => let '(c2', s') := resume c2 s in interleave t c1 c2' s'
  end.

(** ** [complete] is a homomorphism to [M] *)
Lemma complete_then {A B} (m : M S A) (k : A → co S B) s :
  (let '(c', s') := then_ m k s in complete c' s') = mbind m (λ a, complete (k a)) s.
Proof. unfold then_, mbind. by destruct (m s) as [[a|e] s']. Qed.

Lemma complete_now {A B} (m : M S A) (k : A → co S B) s : complete (now m k) s = mbind m (λ a, complete (k a)) s.
Proof. apply complete_then. Qed.

Lemma complete_await {A B} (m : M S A) (k : A → co S B) s : complete (await m k) s = mbind m (λ a, complete (k a)) s.
Proof. apply complete_then. Qed.

Lemma complete_awaited {A} (m : M S A) s : complete (awaited m) s = m s.
Proof. unfold awaited. rewrite complete_await. unfold mbind. by destruct (m s) as [[a|e] s']. Qed.

Lemma complete_bind {A B} (c : co S A) (k : A → co S B) s :
  complete (co_bind c k) s = mbind (complete c) (λ a, complete (k a)) s.
Proof.
  revert c s. fix IH 1. intros [[a|e]|f|f] s; [reflexivity..| |]; cbn [co_bind complete];
    unfold mbind; cbn [complete]; destruct (f s) as [c' s']; exact (IH c' s').
Qed.

Lemma complete_catch {A} (c : co S A) (h : exn → co S A) s :
  complete (co_catch c h) s = mcatch (complete c) (λ e, complete (h e)) s.
Proof.
  revert c s. fix IH 1. intros [[a|e]|f|f] s; [reflexivity..| |]; cbn [co_catch complete];
    unfold mcatch; cbn [complete]; destruct (f s) as [c' s']; exact (IH c' s').
Qed.

Lemma complete_for {X} (l : list X) (f : X → co S unit) (g : X → M S unit) s :
  (∀ x s, x ∈ l → complete (f x) s = g x s) → complete (co_for l f) s = mfor l g s.
Proof.
  revert s. induction l as [|x l IH]; intros s Hf; [done|]. cbn [co_for mfor]. rewrite complete_bind.
  unfold mbind. rewrite Hf by left. destruct (g x s) as [[[]|e] s']; [|done].
  apply IH. intros y s2 Hy. apply Hf. by right.
Qed.

(** Resumed as often as needed and never interrupted, a task runs as [complete] says. *)
Lemma complete_resume {A} (c : co S A) s : (let '(c', s') := resume c s in complete c' s') = complete c s.
Proof.
  revert c s. fix IH 1. intros [r|f|f] s; [reflexivity| |reflexivity]. cbn [resume complete].
  destruct (f s) as [c' s']. exact (IH c' s').
Qed.

Lemma interleave_app {A B} l1 l2 (c1 : co S A) (c2 : co S B) s :
  interleave (l1 ++ l2) c1 c2 s =
  (let '(c1', c2', s') := interleave l1 c1 c2 s in interleave l2 c1' c2' s').
Proof.
  revert c1 c2 s. induction l1 as [|[] l1 IH]; intros c1 c2 s; cbn [app interleave]; [done|..].
  - destruct (resume c1 s) as [c1' s']. apply IH.
  - destruct (resume c2 s) as [c2' s']. apply IH.
Qed.

Lemma resume_now {A B} (m : M S A) (k : A → co S B) s a s' :
  m s = (Ok a, s') → resume (now m k) s = resume (k a) s'.
Proof. intros H. unfold now, then_. cbn [resume]. by rewrite H. Qed.

Lemma resume_await {A B} (m : M S A) (k : A → co S B) s a s' :
  m s = (Ok a, s') → resume (await m k) s = (k a, s').
Proof. intros H. unfold await, then_. cbn [resume]. by rewrite H. Qed.

(** The pieces of a task run from [s]: resumed so often, it comes to its end. *)
Fixpoint pieces {A} (c : co S A) (s : S) : nat :=
  match c with
  | Ret _ => 0
  | Now f | Await f => let '(c', s') := f s in Datatypes.S (pieces c' s')
  end.

Lemma second_completes {A B} n (c1 : co S A) (c2 : co S B) s :
  (pieces c2 s <= n)%nat →
  interleave (replicate n false) c1 c2 s = (c1, Ret (complete c2 s).1, (complete c2 s).2).
Proof.
  revert c2 s n. fix IH 1. intros [r|f|f] s n Hn; cbn [pieces complete] in *.
  - clear IH Hn. induction n as [|n IHn]; [reflexivity|exact IHn].
  - destruct n as [|n]; [destruct (f s); lia|]. cbn [replicate interleave resume].
    destruct (f s) as [c' s']. apply (IH c' s' (Datatypes.S n)). lia.
  - destruct n as [|n]; [destruct (f s); lia|]. cbn [replicate interleave resume].
    destruct (f s) as [c' s']. apply (IH c' s' n). lia.
Qed.

Lemma first_completes {A B} n (c1 : co S A) (c2 : co S B) s :
  (pieces c1 s <= n)%nat →
  interleave (replicate n true) c1 c2 s = (Ret (complete c1 s).1, c2, (complete c1 s).2).
Proof.
  revert c1 s n. fix IH 1. intros [r|f|f] s n Hn; cbn [pieces complete] in *.
  - clear IH Hn. induction n as [|n IHn]; [reflexivity|exact IHn].
  - destruct n as [|n]; [destruct (f s); lia|]. cbn [replicate interleave resume].
    destruct (f s) as [c' s']. apply (IH c' s' (Datatypes.S n)). lia.
  - destruct n as [|n]; [destruct (f s); lia|]. cbn [replicate interleave resume].
    destruct (f s) as [c' s']. apply (IH c' s' n). lia.
Qed.

(** Some schedule runs the second task to its end, and then the first. *)
Lemma second_then_first {A B} (c1 : co S A) (c2 : co S B) s :
  ∃ schedule, interleave schedule c1 c2 s =
    (let '(r2, s2) := complete c2 s in let '(r1, s1) := complete c1 s2 in (Ret r1, Ret r2, s1)).
Proof.
  exists (replicate (pieces c2 s) false ++ replicate (pieces c1 (complete c2 s).2) true).
  rewrite interleave_app, second_completes by done. destruct (complete c2 s) as [r2 s2]. cbn [fst snd].
  rewrite first_completes by done. by destruct (complete c1 s2).
Qed.
End co.
