(* ===== verification/PyStr.v ===== *)
(** * Python strings and integers

    The [str] methods and the [int]/[str] conversions the sources use, on ASCII
    strings (hex, base58, decimal and identifier data); bytes as [list byte]. *)
From S2P Require Import Prelude.

(** ** str methods *)

Definition lower_ascii (c : ascii) : ascii :=
  let n := N_of_ascii c in
  if ((65 <=? n) && (n <=? 90))%N then ascii_of_N (n + 32) else c.

Fixpoint lower (s : string) : string :=
  match s with
  | EmptyString => EmptyString
  | String c t => String (lower_ascii c) (lower t)
  end.

Definition upper_ascii (c : ascii) : ascii :=
  let n := N_of_ascii c in
  if ((97 <=? n) && (n <=? 122))%N then ascii_of_N (n - 32) else c.

Fixpoint upper (s : string) : string :=
  match s with
  | EmptyString => EmptyString
  | String c t => String (upper_ascii c) (upper t)
  end.

Fixpoint startswith (s p : string) : bool :=
  match p, s with
  | EmptyString, _ => true
  | String a p', String b s' => Ascii.eqb a b && startswith s' p'
  | String _ _, EmptyString => false
  end.

(** [s[n:]] and [s[:n]] for [n >= 0] *)
Fixpoint str_drop (n : nat) (s : string) : string :=
  match n, s with
  | O, _ => s
  | S n', String _ t => str_drop n' t
  | S _, EmptyString => EmptyString
  end.

Fixpoint str_take (n : nat) (s : string) : string :=
  match n, s with
  | O, _ => EmptyString
  | S n', String c t => String c (str_take n' t)
  | S _, EmptyString => EmptyString
  end.

Definition endswith (s suf : string) : bool :=
  bool_decide (String.length suf ≤ String.length s)%nat &&
  String.eqb (str_drop (String.length s - String.length suf) s) suf.

Definition removeprefix (s p : string) : string :=
  if startswith s p then str_drop (String.length p) s else s.

(** [s[-n:]] *)
Definition str_last_n (n : nat) (s : string) : string :=
  str_drop (String.length s - n) s.

(** [needle in hay] *)
Fixpoint str_contains (needle hay : string) : bool :=
  startswith hay needle ||
  match hay with
  | EmptyString => false
  | String _ t => str_contains needle t
  end.

Definition str_len (s : string) : Z := Z.of_nat (String.length s).

(** C's isspace, the blanks [int()] skips *)
Definition is_space (c : ascii) : bool :=
  let n := N_of_ascii c in ((n =? 32) || ((9 <=? n) && (n <=? 13)))%N.

Fixpoint lskip (s : string) : string :=
  match s with
  | String c t => if is_space c then lskip t else s
  | EmptyString => EmptyString
  end.

(** ** int(s) and int(s, 16) *)

Definition digit_val (c : ascii) : option Z :=
  let n := Z.of_N (N_of_ascii c) in
  if (48 <=? n) && (n <=? 57) then Some (n - 48)
  else if (97 <=? n) && (n <=? 122) then Some (n - 87)
  else if (65 <=? n) && (n <=? 90) then Some (n - 55)
  else None.

(** CPython's digit scan: single underscores are allowed between digits.
    Returns the value, the number of digits and the rest. *)
Fixpoint scan_digits (base : Z) (s : string) (acc n : Z) (prev_us : bool)
    : option (Z * Z * string) :=
  let stop := if prev_us then None else Some (acc, n, s) in
  match s with
  | EmptyString => stop
  | String c t =>
      if Ascii.eqb c "_"%char then
        if prev_us then None else scan_digits base t acc n true
      else match digit_val c with
           | Some d => if d <? base then scan_digits base t (acc * base + d) (n + 1) false
                       else stop
           | None => stop
           end
  end.

(** The decimal digits CPython converts at most (sys.int_info). *)
Definition max_str_digits : Z := 4300.

Definition int_sign (s : string) : Z * string :=
  match s with
  | String c t =>
      if Ascii.eqb c "-"%char then (-1, t)
      else if Ascii.eqb c "+"%char then (1, t) else (1, s)
  | EmptyString => (1, s)
  end.

(** The optional [0x] of base 16, after which one underscore may stand. *)
Definition int_prefix (base : Z) (s : string) : string :=
  if (base =? 16) && (startswith s "0x" || startswith s "0X") then
    let t := str_drop 2 s in if startswith t "_" then str_drop 1 t else t
  else s.

Definition py_int (base : Z) (s : string) : result Z :=
  let bad := Err (ValueError "invalid literal for int()") in
  let '(sg, s1) := int_sign (lskip s) in
  let s2 := int_prefix base s1 in
  if startswith s2 "_" then bad else
  match scan_digits base s2 0 0 false with
  | Some (v, n, rest) =>
      if n =? 0 then bad
      else if negb (String.eqb (lskip rest) "") then bad
      else if (base =? 10) && (max_str_digits <? n) then
        Err (ValueError "Exceeds the limit for integer string conversion")
      else Ok (sg * v)
  | None => bad
  end.

(** [str(z)] *)
Definition py_str (z : Z) : string := pretty z.

Example py_int_ex1 : py_int 16 "0xfF" = Ok 255. Proof. reflexivity. Qed.
Example py_int_ex2 : py_int 10 " -1_000 " = Ok (-1000). Proof. reflexivity. Qed.
Example py_int_ex3 : is_ok (py_int 16 "0x_") = false. Proof. reflexivity. Qed.
Example py_int_ex4 : is_ok (py_int 10 "1__0") = false. Proof. reflexivity. Qed.
Example py_str_ex1 : py_str (-120) = "-120". Proof. reflexivity. Qed.

(** ** bytes *)

#[export] Instance byte_eq_decision : EqDecision byte := Byte.byte_eq_dec.

Definition byte_Z (b : byte) : Z := Z.of_N (Byte.to_N b).

Definition hex_digit (n : N) : ascii :=
  ascii_of_N (if (n <? 10)%N then 48 + n else 87 + n).

(** [b.hex()] *)
Fixpoint bytes_hex (l : list byte) : string :=
  match l with
  | [] => EmptyString
  | b :: t => String (hex_digit (Byte.to_N b / 16)) (String (hex_digit (Byte.to_N b mod 16)) (bytes_hex t))
  end.

(** [bytes.fromhex(s)]: blanks are skipped between bytes; None is the ValueError. *)
Fixpoint bytes_fromhex (s : string) : option (list byte) :=
  match s with
  | EmptyString => Some []
  | String c t =>
      if is_space c then bytes_fromhex t else
      match t with
      | EmptyString => None
      | String d t' =>
          match digit_val c, digit_val d with
          | Some x, Some y =>
              if (x <? 16) && (y <? 16) then
                match Byte.of_N (Z.to_N (x * 16 + y)), bytes_fromhex t' with
                | Some b, Some bs => Some (b :: bs)
                | _, _ => None
                end
              else None
          | _, _ => None
          end
      end
  end.

(** [struct.unpack("<Q", b)] on eight bytes *)
Fixpoint le_unpack (l : list byte) : Z :=
  match l with
  | [] => 0
  | b :: t => byte_Z b + 256 * le_unpack t
  end.

(** [struct.pack("<Q", z)]: the inverse, [n] bytes *)
Fixpoint le_pack (n : nat) (z : Z) : list byte :=
  match n with
  | O => []
  | S n' => match Byte.of_N (Z.to_N (z mod 256)) with
            | Some b => b :: le_pack n' (z / 256)
            | None => []
            end
  end.

(** ** Lemmas: case folding and prefixes *)

Lemma lower_ascii_idemp c : lower_ascii (lower_ascii c) = lower_ascii c.
Proof. destruct c as [[] [] [] [] [] [] [] []]; reflexivity. Qed.

Lemma lower_idemp s : lower (lower s) = lower s.
Proof. induction s as [|c s IH]; simpl; [done|]. by rewrite lower_ascii_idemp, IH. Qed.

Lemma lower_length s : String.length (lower s) = String.length s.
Proof. induction s; simpl; congruence. Qed.

Lemma lower_app s t : lower (s +:+ t) = lower s +:+ lower t.
Proof. induction s as [|c s IH]; simpl; [done|]. by rewrite IH. Qed.

Lemma startswith_app s t : startswith (s +:+ t) s = true.
Proof. induction s as [|c s IH]; simpl; [by destruct t|]. by rewrite Ascii.eqb_refl. Qed.

Lemma startswith_spec s p : startswith s p = true ↔ ∃ t, s = p +:+ t.
Proof.
  split; [|intros [t ->]; apply startswith_app].
  revert s. induction p as [|c p IH]; intros s; simpl; [by exists s|].
  destruct s as [|d s]; simpl; [done|]. rewrite andb_true_iff, Ascii.eqb_eq.
  intros [-> [t ->]%IH]. by exists t.
Qed.

Lemma str_drop_app p t : str_drop (String.length p) (p +:+ t) = t.
Proof. induction p; [done|]. done. Qed.

Lemma str_length_app s t :
  String.length (s +:+ t) = (String.length s + String.length t)%nat.
Proof. induction s as [|c s IH]; [done|]. simpl. by rewrite IH. Qed.

Lemma str_drop_app_add p t n : str_drop (String.length p + n) (p +:+ t) = str_drop n t.
Proof. induction p; [done|]. done. Qed.

Lemma str_take_app p t : str_take (String.length p) (p +:+ t) = p.
Proof. induction p as [|c p IH]; [by destruct t|]. simpl. by rewrite IH. Qed.

Lemma str_app_assoc (s t u : string) : s +:+ (t +:+ u) = (s +:+ t) +:+ u.
Proof. induction s as [|c s IH]; [done|].
  change (String c (s +:+ (t +:+ u)) = String c ((s +:+ t) +:+ u)). by f_equal.
Qed.

(** A suffix test on [p + t] looks at [t] alone when the suffix is no longer. *)
Lemma endswith_app p t suf :
  (String.length suf <= String.length t)%nat → endswith (p +:+ t) suf = endswith t suf.
Proof.
  intros Hle. unfold endswith. rewrite str_length_app, !bool_decide_true by lia.
  rewrite <- Nat.add_sub_assoc by done. by rewrite str_drop_app_add.
Qed.

Lemma removeprefix_app p t : removeprefix (p +:+ t) p = t.
Proof. unfold removeprefix. by rewrite startswith_app, str_drop_app. Qed.

(** ** Lemmas: little-endian integers and hex *)

Lemma byte_Z_bound b : 0 <= byte_Z b < 256.
Proof. unfold byte_Z. pose proof (Byte.to_N_bounded b). lia. Qed.

Lemma byte_Z_of_N z b : Byte.of_N (Z.to_N z) = Some b → 0 <= z → byte_Z b = z.
Proof. intros H Hz. unfold byte_Z. apply Byte.to_of_N in H. rewrite H. lia. Qed.

Lemma byte_of_Z_some z : 0 <= z < 256 → ∃ b, Byte.of_N (Z.to_N z) = Some b.
Proof.
  intros Hz. destruct (Byte.of_N (Z.to_N z)) as [b|] eqn:E; [by exists b|].
  apply Byte.of_N_None_iff in E. lia.
Qed.

Lemma byte_of_byte_Z b : Byte.of_N (Z.to_N (byte_Z b)) = Some b.
Proof. unfold byte_Z. rewrite N2Z.id. apply Byte.of_to_N. Qed.

Lemma le_unpack_bound l : 0 <= le_unpack l < 256 ^ Z.of_nat (length l).
Proof.
  induction l as [|b l IH]; cbn [le_unpack]; [simpl; lia|].
  rewrite length_cons, Nat2Z.inj_succ, Z.pow_succ_r by lia.
  pose proof (byte_Z_bound b). nia.
Qed.

Lemma le_pack_length n z : length (le_pack n z) = n.
Proof.
  revert z. induction n as [|n IH]; intros z; cbn [le_pack]; [done|].
  destruct (byte_of_Z_some (z mod 256)) as [b ->]; [by apply Z.mod_pos_bound|].
  simpl. by rewrite IH.
Qed.

Lemma le_unpack_pack n z : 0 <= z < 256 ^ Z.of_nat n → le_unpack (le_pack n z) = z.
Proof.
  revert z. induction n as [|n IH]; intros z Hz; [simpl in *; lia|].
  rewrite Nat2Z.inj_succ, Z.pow_succ_r in Hz by lia. cbn [le_pack].
  destruct (byte_of_Z_some (z mod 256)) as [b Hb]; [by apply Z.mod_pos_bound|].
  rewrite Hb. cbn [le_unpack]. apply byte_Z_of_N in Hb as ->; [|by apply Z.mod_pos_bound].
  rewrite IH; [pose proof (Z.div_mod z 256); lia|].
  split; [apply Z.div_pos; lia|apply Z.div_lt_upper_bound; lia].
Qed.

Lemma le_pack_unpack l : le_pack (length l) (le_unpack l) = l.
Proof.
  induction l as [|b l IH]; [done|]. cbn [length le_unpack le_pack].
  pose proof (byte_Z_bound b).
  rewrite (Z.mul_comm 256), Z.mod_add, Z.mod_small, byte_of_byte_Z by lia.
  rewrite Z.div_add, Z.div_small, Z.add_0_l by lia. by rewrite IH.
Qed.

(** ** Lemmas: decimal printing and parsing *)

Definition digit_head (s : string) : Prop :=
  ∃ d t, (d < 10)%N ∧ s = String (pretty_N_char d) t.

Lemma pretty_char_val d : (d < 10)%N →
  digit_val (pretty_N_char d) = Some (Z.of_N d) ∧
  Ascii.eqb (pretty_N_char d) "_"%char = false ∧ is_space (pretty_N_char d) = false ∧
  Ascii.eqb (pretty_N_char d) "-"%char = false ∧ Ascii.eqb (pretty_N_char d) "+"%char = false.
Proof.
  intros Hd. small_cases d Hd.
Qed.

Lemma scan_pretty_go m x s acc n :
  (x < 10 ^ N.of_nat m)%N →
  ∃ k, 0 <= k <= Z.of_nat m ∧ ((0 < x)%N → 0 < k) ∧
    scan_digits 10 (pretty_N_go x s) acc n false =
    scan_digits 10 s (acc * 10 ^ k + Z.of_N x) (n + k) false.
Proof.
  revert x s. induction m as [|m IH]; intros x s Hx.
  - assert (x = 0%N) as -> by (simpl in Hx; lia). exists 0.
    rewrite pretty_N_go_0. split_and!; [lia..|]. f_equal; lia.
  - destruct (decide (x = 0%N)) as [->|Hne].
    { exists 0. rewrite pretty_N_go_0. split_and!; [lia..|]. f_equal; lia. }
    rewrite pretty_N_go_step by lia.
    destruct (IH (x `div` 10)%N (String (pretty_N_char (x `mod` 10)) s)) as (k&Hk&_&->).
    { apply N.Div0.div_lt_upper_bound. rewrite Nat2N.inj_succ, N.pow_succ_r' in Hx. lia. }
    exists (k + 1). split_and!; [lia..|]. cbn [scan_digits].
    destruct (pretty_char_val (x `mod` 10)) as (->&->&_); [by apply N.mod_lt|].
    destruct (Z.ltb_spec (Z.of_N (x `mod` 10)) 10); [|pose proof (N.mod_lt x 10); lia].
    f_equal; [|lia]. rewrite Z.pow_add_r by lia.
    pose proof (N.div_mod x 10 ltac:(done)). lia.
Qed.

Lemma pretty_go_digit_head x s : digit_head s → digit_head (pretty_N_go x s).
Proof.
  revert s. induction (N.lt_wf_0 x) as [x _ IH]; intros s Hs.
  destruct (decide (x = 0%N)) as [->|]; [by rewrite pretty_N_go_0|].
  rewrite pretty_N_go_step by lia. apply IH; [by apply N.div_lt; lia|].
  exists (x `mod` 10)%N, s. split; [by apply N.mod_lt|done].
Qed.

Lemma pretty_N_digit_head (x : N) : digit_head (pretty x).
Proof.
  unfold pretty, pretty_N. case_decide; [by exists 0%N, ""|].
  rewrite pretty_N_go_step by lia. apply pretty_go_digit_head.
  exists (x `mod` 10)%N, "". split; [by apply N.mod_lt|done].
Qed.

Lemma max_str_digits_pos : 0 < max_str_digits.
Proof. done. Qed.

Lemma scan_pretty_N (x : N) :
  Z.of_N x < 10 ^ max_str_digits → ∃ k, 0 < k <= max_str_digits ∧
    scan_digits 10 (pretty x) 0 0 false = Some (Z.of_N x, k, "").
Proof.
  pose proof max_str_digits_pos as Hpos. revert Hpos. generalize max_str_digits as m.
  intros m Hm Hx. unfold pretty, pretty_N. case_decide as H0.
  { subst. exists 1. split; [lia|done]. }
  destruct (scan_pretty_go (Z.to_nat m) x "" 0 0) as (k&Hk&Hpos&->).
  { apply N2Z.inj_lt. rewrite N2Z.inj_pow, nat_N_Z, Z2Nat.id by lia. done. }
  exists k. split; [lia|]. simpl. f_equal.
Qed.

Lemma int_digits_pretty sg s (x : N) :
  Z.of_N x < 10 ^ max_str_digits →
  int_sign (lskip s) = (sg, pretty x) → py_int 10 s = Ok (sg * Z.of_N x).
Proof.
  intros Hx Hs. unfold py_int. rewrite Hs. cbv beta iota zeta.
  change (int_prefix 10 (pretty x)) with (pretty x).
  destruct (pretty_N_digit_head x) as (d&t&Hd&Hp).
  destruct (pretty_char_val d Hd) as (_&Hus&_).
  assert (startswith (pretty x) "_" = false) as ->.
  { rewrite Hp. cbn [startswith]. rewrite Ascii.eqb_sym, Hus. done. }
  destruct (scan_pretty_N x Hx) as (k&Hk&->).
  destruct (Z.eqb_spec k 0); [lia|]. cbn [lskip String.eqb negb Z.eqb Pos.eqb andb].
  by destruct (Z.ltb_spec max_str_digits k); [lia|].
Qed.

(** [int(str(z)) = z] for every integer Python can print. *)
Lemma py_int_py_str z : Z.abs z < 10 ^ max_str_digits → py_int 10 (py_str z) = Ok z.
Proof.
  intros Hz. unfold py_str. destruct z as [|p|p].
  - done.
  - rewrite (int_digits_pretty 1 _ (N.pos p)); [f_equal; lia|exact Hz|].
    change (pretty (Z.pos p)) with (pretty (N.pos p)).
    destruct (pretty_N_digit_head (N.pos p)) as (d&t&Hd&Hp).
    destruct (pretty_char_val d Hd) as (_&_&Hsp&Hm&Hpl). rewrite Hp.
    cbn [lskip int_sign]. rewrite Hsp. cbn [int_sign]. by rewrite Hm, Hpl.
  - rewrite (int_digits_pretty (-1) _ (N.pos p)); [f_equal; lia|exact Hz|done].
Qed.

Lemma bytes_hex_length l : String.length (bytes_hex l) = (2 * length l)%nat.
Proof. induction l as [|b l IH]; simpl; [done|]. rewrite IH. lia. Qed.

(** ** Lemmas: hexadecimal *)

(** The big-endian value of a byte string *)
Definition be_unpack (l : list byte) : Z := foldl (λ acc b, acc * 256 + byte_Z b) 0 l.

Lemma hex_digit_val n : (n < 16)%N →
  digit_val (hex_digit n) = Some (Z.of_N n) ∧ Ascii.eqb (hex_digit n) "_"%char = false ∧
  is_space (hex_digit n) = false ∧ Ascii.eqb (hex_digit n) "-"%char = false ∧
  Ascii.eqb (hex_digit n) "+"%char = false ∧ Ascii.eqb (hex_digit n) "x"%char = false ∧
  Ascii.eqb (hex_digit n) "X"%char = false ∧ lower_ascii (hex_digit n) = hex_digit n.
Proof.
  intros Hn. small_cases n Hn.
Qed.

Lemma byte_nibbles b :
  (Byte.to_N b / 16 < 16)%N ∧ (Byte.to_N b mod 16 < 16)%N ∧
  byte_Z b = Z.of_N (Byte.to_N b / 16) * 16 + Z.of_N (Byte.to_N b mod 16).
Proof.
  pose proof (byte_Z_bound b) as Hb. unfold byte_Z in *.
  pose proof (N.div_mod (Byte.to_N b) 16 ltac:(done)).
  split_and!; [apply N.Div0.div_lt_upper_bound; lia|by apply N.mod_lt|lia].
Qed.

Lemma scan_bytes_hex l acc n :
  scan_digits 16 (bytes_hex l) acc n false =
  Some (foldl (λ acc b, acc * 256 + byte_Z b) acc l, n + 2 * Z.of_nat (length l), "").
Proof.
  revert acc n. induction l as [|b l IH]; intros acc n.
  { simpl. repeat f_equal. lia. }
  destruct (byte_nibbles b) as (Hh&Hl&Hb). cbn [bytes_hex scan_digits].
  destruct (hex_digit_val _ Hh) as (->&->&_), (hex_digit_val _ Hl) as (->&->&_).
  rewrite !(proj2 (Z.ltb_lt _ _)) by lia. rewrite IH. cbn [foldl length].
  replace ((acc * 16 + Z.of_N (Byte.to_N b / 16)) * 16 + Z.of_N (Byte.to_N b mod 16))
    with (acc * 256 + byte_Z b) by lia.
  do 3 f_equal. lia.
Qed.

(** [int(b.hex(), 16)] *)
Lemma py_int_bytes_hex l : l ≠ [] → py_int 16 (bytes_hex l) = Ok (be_unpack l).
Proof.
  destruct l as [|b l]; [done|]. intros _.
  destruct (byte_nibbles b) as (Hh&Hl&_).
  destruct (hex_digit_val _ Hh) as (_&Hu&Hs&Hm&Hp&_), (hex_digit_val _ Hl) as (_&_&_&_&_&Hx&HX&_).
  unfold py_int. set (s := bytes_hex (b :: l)).
  assert (int_sign (lskip s) = (1, s)) as ->.
  { unfold s. cbn [bytes_hex lskip]. rewrite Hs. cbn [int_sign]. by rewrite Hm, Hp. }
  assert (int_prefix 16 s = s) as ->.
  { unfold int_prefix, s. cbn [Z.eqb Pos.eqb andb bytes_hex startswith].
    rewrite (Ascii.eqb_sym "x"), (Ascii.eqb_sym "X"), Hx, HX.
    by rewrite !andb_false_r. }
  assert (startswith s "_" = false) as ->.
  { unfold s. cbn [bytes_hex startswith]. by rewrite Ascii.eqb_sym, Hu. }
  unfold s. rewrite scan_bytes_hex. cbn [length].
  destruct (Z.eqb_spec (0 + 2 * Z.of_nat (S (length l))) 0); [lia|].
  cbn [lskip String.eqb negb Z.eqb Pos.eqb andb]. f_equal. unfold be_unpack. lia.
Qed.

Lemma lower_bytes_hex l : lower (bytes_hex l) = bytes_hex l.
Proof.
  induction l as [|b l IH]; [done|]. destruct (byte_nibbles b) as (Hh&Hl&_). simpl.
  destruct (hex_digit_val _ Hh) as (_&_&_&_&_&_&_&->), (hex_digit_val _ Hl) as (_&_&_&_&_&_&_&->).
  by rewrite IH.
Qed.

Lemma bytes_fromhex_hex l : bytes_fromhex (bytes_hex l) = Some l.
Proof.
  induction l as [|b l IH]; [done|]. destruct (byte_nibbles b) as (Hh&Hl&Hb). cbn [bytes_hex bytes_fromhex].
  destruct (hex_digit_val _ Hh) as (->&_&->&_), (hex_digit_val _ Hl) as (->&_).
  rewrite !(proj2 (Z.ltb_lt _ _)) by lia. cbn [andb]. rewrite <- Hb, byte_of_byte_Z, IH. done.
Qed.

Lemma bytes_hex_app l m : bytes_hex (l ++ m) = bytes_hex l +:+ bytes_hex m.
Proof. induction l as [|b l IH]; simpl; [done|]. by rewrite IH. Qed.

(** Big-endian encoding of a value on [n] bytes *)
Definition be_pack (n : nat) (z : Z) : list byte := reverse (le_pack n z).

Lemma be_unpack_reverse l : be_unpack (reverse l) = le_unpack l.
Proof.
  unfold be_unpack. induction l as [|b l IH]; [done|].
  rewrite reverse_cons, foldl_app, IH. simpl. lia.
Qed.

Lemma be_unpack_pack n z : 0 <= z < 256 ^ Z.of_nat n → be_unpack (be_pack n z) = z.
Proof. intros. unfold be_pack. by rewrite be_unpack_reverse, le_unpack_pack. Qed.

Lemma be_pack_length n z : length (be_pack n z) = n.
Proof. unfold be_pack. by rewrite length_reverse, le_pack_length. Qed.

(** ** Lemmas: characters of a string *)

Fixpoint str_has (c : ascii) (s : string) : bool :=
  match s with EmptyString => false | String c' t => Ascii.eqb c c' || str_has c t end.

Lemma str_has_app c s t : str_has c (s +:+ t) = str_has c s || str_has c t.
Proof.
  induction s as [|c' s IH]; [done|].
  change (String c' s +:+ t) with (String c' (s +:+ t)). cbn [str_has]. rewrite IH.
  by rewrite orb_assoc.
Qed.

Lemma startswith_has c s p : startswith s p = true → str_has c p = true → str_has c s = true.
Proof.
  revert s. induction p as [|c' p IH]; intros [|d s]; cbn; try done.
  rewrite andb_true_iff, !orb_true_iff, !Ascii.eqb_eq. naive_solver.
Qed.

(** A needle with a character the string does not have is not in it. *)
Lemma str_contains_has c needle s :
  str_has c needle = true → str_has c s = false → str_contains needle s = false.
Proof.
  intros Hn. induction s as [|d s IH]; cbn [str_contains]; intros Hs; apply orb_false_iff; split.
  - apply not_true_iff_false. intros Hp. rewrite (startswith_has c _ _ Hp Hn) in Hs. done.
  - done.
  - apply not_true_iff_false. intros Hp. rewrite (startswith_has c _ _ Hp Hn) in Hs. done.
  - apply IH. by apply orb_false_iff in Hs as [_ ?].
Qed.

Lemma pretty_go_has c x s :
  (∀ d, (d < 10)%N → Ascii.eqb c (pretty_N_char d) = false) →
  str_has c (pretty_N_go x s) = str_has c s.
Proof.
  intros Hc. revert s. induction x as [x IH] using (well_founded_induction N.lt_wf_0). intros s.
  destruct (decide (x = 0%N)) as [->|Hx]; [by rewrite pretty_N_go_0|].
  rewrite pretty_N_go_step by lia. rewrite IH by (by apply N.div_lt; lia).
  cbn [str_has]. rewrite Hc; [done|]. by apply N.mod_lt.
Qed.

(** Decimal numerals have no other characters than digits. *)
Lemma py_str_has c (n : nat) :
  (∀ d, (d < 10)%N → Ascii.eqb c (pretty_N_char d) = false) →
  str_has c (py_str (Z.of_nat n)) = false.
Proof.
  intros Hc. unfold py_str. destruct n as [|n].
  - change (Ascii.eqb c (pretty_N_char 0) || false = false). by rewrite Hc by lia.
  - change (pretty (Z.of_nat (S n))) with (pretty (N.pos (Pos.of_succ_nat n))).
    unfold pretty, pretty_N. case_decide; [done|]. by rewrite pretty_go_has.
Qed.

Lemma lower_pretty_go x s : lower (pretty_N_go x s) = pretty_N_go x (lower s).
Proof.
  revert s. induction x as [x IH] using (well_founded_induction N.lt_wf_0). intros s.
  destruct (decide (x = 0%N)) as [->|Hx]; [by rewrite !pretty_N_go_0|].
  rewrite (pretty_N_go_step x s), (pretty_N_go_step x (lower s)) by lia.
  rewrite IH by (by apply N.div_lt; lia).
  cbn [lower]. do 2 f_equal. pose proof (N.mod_lt x 10 ltac:(lia)) as Hm.
  generalize dependent (x `mod` 10)%N. intros d Hd.
  small_cases d Hd.
Qed.

Lemma lower_py_str (n : nat) : lower (py_str (Z.of_nat n)) = py_str (Z.of_nat n).
Proof.
  unfold py_str. destruct n as [|n]; [done|].
  change (pretty (Z.of_nat (S n))) with (pretty (N.pos (Pos.of_succ_nat n))).
  unfold pretty, pretty_N. case_decide; [done|]. apply lower_pretty_go.
Qed.
