(* ===== verification/PyVal.v ===== *)
(** * Dynamically typed Python values

    Event arguments, filter operands and payload fields are values of [pyval]:
    what JSON, eth-abi and borsh-construct decoding produce (no floats occur in
    them).  [py_eq] is [==], [py_hashable] what a set accepts, [py_int_of] is
    [int(v)]. *)
From S2P Require Import Prelude PyStr.

Inductive pyval :=
  | PNone
  | PBool (b : bool)
  | PInt (z : Z)
  | PStr (s : string)
  | PBytes (l : list byte)
  | PList (l : list pyval)
  | PTuple (l : list pyval)
  | PDict (d : list (string * pyval)).

Section pyval_ind.
Variable P : pyval → Prop.
Hypothesis HNone : P PNone.
Hypothesis HBool : ∀ b, P (PBool b).
Hypothesis HInt : ∀ z, P (PInt z).
Hypothesis HStr : ∀ s, P (PStr s).
Hypothesis HBytes : ∀ l, P (PBytes l).
Hypothesis HList : ∀ l, Forall P l → P (PList l).
Hypothesis HTuple : ∀ l, Forall P l → P (PTuple l).
Hypothesis HDict : ∀ d, Forall (λ kv, P kv.2) d → P (PDict d).

Fixpoint pyval_rect' (v : pyval) : P v :=
  let go_list := fix go (l : list pyval) : Forall P l :=
    match l with
    | [] => Forall_nil_2 _
    | x :: t => Forall_cons_2 _ _ _ (pyval_rect' x) (go t)
    end in
  match v with
  | PNone => HNone
  | PBool b => HBool b
  | PInt z => HInt z
  | PStr s => HStr s
  | PBytes l => HBytes l
  | PList l => HList l (go_list l)
  | PTuple l => HTuple l (go_list l)
  | PDict d => HDict d
      ((fix go (d : list (string * pyval)) : Forall (λ kv, P kv.2) d :=
        match d with
        | [] => Forall_nil_2 _
        | kv :: t => Forall_cons_2 _ _ _ (pyval_rect' kv.2) (go t)
        end) d)
  end.
End pyval_ind.

(** [bool] is a subclass of [int]. *)
Definition as_int (v : pyval) : option Z :=
  match v with
  | PInt z => Some z
  | PBool b => Some (if b then 1 else 0)
  | _ => None
  end.

(** [a == b] *)
Fixpoint py_eq (a b : pyval) : bool :=
  let list_eq := fix go (l m : list pyval) : bool :=
    match l, m with
    | [], [] => true
    | x :: l', y :: m' => py_eq x y && go l' m'
    | _, _ => false
    end in
  match a, b with
  | PNone, PNone => true
  | PStr s, PStr t => String.eqb s t
  | PBytes l, PBytes m => bool_decide (l = m)
  | PList l, PList m | PTuple l, PTuple m => list_eq l m
  | PDict d, PDict e =>
      Nat.eqb (length d) (length e) &&
      (fix go (d : list (string * pyval)) : bool :=
        match d with
        | [] => true
        | (k, x) :: d' =>
            match dget k e with Some y => py_eq x y && go d' | None => false end
        end) d
  | PInt z, PInt w => z =? w
  | PBool b, PBool c => Bool.eqb b c
  | PInt z, PBool c => z =? (if c then 1 else 0)
  | PBool b, PInt w => (if b then 1 else 0) =? w
  | _, _ => false
  end.

(** [hash(v)] does not raise. *)
Fixpoint py_hashable (v : pyval) : bool :=
  match v with
  | PList _ | PDict _ => false
  | PTuple l => forallb py_hashable l
  | _ => true
  end.

Definition bytes_str (l : list byte) : string := String.string_of_list_byte l.

(** [int(v)] *)
Definition py_int_of (v : pyval) : result Z :=
  match v with
  | PInt z => Ok z
  | PBool b => Ok (if b then 1 else 0)
  | PStr s => py_int 10 s
  | PBytes l => py_int 10 (bytes_str l)
  | _ => Err (TypeError "int() argument must be a string, a bytes-like object or a real number")
  end.

(** [for x in v]: the elements an iteration yields. *)
Definition py_iter (v : pyval) : result (list pyval) :=
  match v with
  | PList l | PTuple l => Ok l
  | PStr s => Ok ((λ c, PStr (String c "")) <$> String.list_ascii_of_string s)
  | PBytes l => Ok ((λ b, PInt (byte_Z b)) <$> l)
  | PDict d => Ok ((λ kv, PStr kv.1) <$> d)
  | _ => Err (TypeError "object is not iterable")
  end.

(** [v in s] for a set [s] given by its elements: hashing may raise. *)
Definition py_in_set (v : pyval) (s : list pyval) : result bool :=
  if py_hashable v then Ok (existsb (py_eq v) s)
  else Err (TypeError "unhashable type").

(** Truth value of an optional string, [if s:] *)
Definition str_truthy (s : option string) : bool :=
  match s with Some (String _ _) => true | _ => false end.

(** ** Access to decoded JSON

    The exceptions are those of a value of the wrong shape. *)

Definition attribute_error (a : string) : exn :=
  OtherError "AttributeError" ("object has no attribute '" +:+ a +:+ "'").

(** [v.get(k, default)] *)
Definition py_get (v : pyval) (k : string) (default : pyval) : result pyval :=
  match v with
  | PDict d => Ok (match dget k d with Some x => x | None => default end)
  | _ => Err (attribute_error "get")
  end.

(** [v[k]] for a string key *)
Definition py_getitem (v : pyval) (k : string) : result pyval :=
  match v with
  | PDict d => match dget k d with Some x => Ok x | None => Err (KeyError k) end
  | PList _ | PTuple _ | PStr _ | PBytes _ => Err (TypeError "indices must be integers or slices")
  | _ => Err (TypeError "object is not subscriptable")
  end.

(** [k in v] for a dict [v] *)
Definition py_has (v : pyval) (k : string) : bool :=
  match v with PDict d => dmem k d | _ => false end.

(** [if v:] *)
Definition py_truth (v : pyval) : bool :=
  match v with
  | PNone => false
  | PBool b => b
  | PInt z => negb (z =? 0)
  | PStr s => negb (String.eqb s "")
  | PBytes l => negb (bool_decide (l = []))
  | PList l | PTuple l => match l with [] => false | _ => true end
  | PDict d => match d with [] => false | _ => true end
  end.

Definition is_list (v : pyval) : bool := match v with PList _ => true | _ => false end.
Definition is_dict (v : pyval) : bool := match v with PDict _ => true | _ => false end.

(** A value used where the code expects [str] (a method call on it, a JSON name). *)
Definition py_as_str (v : pyval) : result string :=
  match v with PStr s => Ok s | _ => Err (attribute_error "startswith") end.

(** [s.join(l)] *)
Definition py_join (sep : string) (l : list string) : string := String.concat sep l.

(** ** repr(v) and str(v)

    Strings are kept as bytes; characters beyond ASCII are printed as they are. *)

Definition hex_escape (c : ascii) : string :=
  "\x" +:+ bytes_hex [byte_of_ascii c].

Definition repr_char (escape_high : bool) (quote c : ascii) : string :=
  let n := N_of_ascii c in
  if Ascii.eqb c quote || (n =? 92)%N then String (ascii_of_N 92) (String c "")
  else if (n =? 9)%N then "\t" else if (n =? 10)%N then "\n" else if (n =? 13)%N then "\r"
  else if ((n <? 32) || (n =? 127) || (escape_high && (127 <? n)))%N then hex_escape c
  else String c "".

Definition repr_text (escape_high : bool) (s : string) : string :=
  let l := String.list_ascii_of_string s in
  let dq := ascii_of_N 34 in
  let quote := if existsb (Ascii.eqb "'"%char) l && negb (existsb (Ascii.eqb dq) l)
               then dq else "'"%char in
  String quote (String.concat "" (repr_char escape_high quote <$> l)) +:+ String quote "".

Fixpoint py_repr (v : pyval) : string :=
  match v with
  | PNone => "None"
  | PBool b => if b then "True" else "False"
  | PInt z => py_str z
  | PStr s => repr_text false s
  | PBytes l => "b" +:+ repr_text true (bytes_str l)
  | PList l => "[" +:+ py_join ", " (py_repr <$> l) +:+ "]"
  | PTuple [x] => "(" +:+ py_repr x +:+ ",)"
  | PTuple l => "(" +:+ py_join ", " (py_repr <$> l) +:+ ")"
  | PDict d => "{" +:+ py_join ", " ((λ kv, repr_text false kv.1 +:+ ": " +:+ py_repr kv.2) <$> d) +:+ "}"
  end.

Definition py_str_of (v : pyval) : string :=
  match v with PStr s => s | _ => py_repr v end.

Example py_repr_ex :
  py_repr (PDict [("code", PInt (-32007)); ("message", PStr "it's"); ("data", PList [PNone; PBytes [x00; x41]])])
  = "{'code': -32007, 'message': " +:+ String (ascii_of_N 34) "it's" +:+ String (ascii_of_N 34) ""
    +:+ ", 'data': [None, b'\x00A']}".
Proof. vm_compute. reflexivity. Qed.

(** [v or d] *)
Definition py_or (v d : pyval) : pyval := if py_truth v then v else d.
