(* ===== verification/Types.v ===== *)
(** * Chain data (core/chains/types.py) and parsed events (core/parser/event.py). *)
From S2P Require Import Prelude PyStr PyVal.

Record BlockHeader := mkHeader {
  hdr_number : Z;
  hdr_hash : string;
  hdr_parent_hash : string;
  hdr_timestamp : Z;
}.

#[export] Instance BlockHeader_eq_dec : EqDecision BlockHeader.
Proof. solve_decision. Defined.

Record Tx := mkTx {
  tx_hash : string;
  tx_index : Z;
  tx_from_addr : string;
  tx_to_addr : option string;   (** None for contract creation *)
  tx_value : Z;
  tx_input : string;
  tx_status : Z;
}.

Record Log := mkLog {
  log_tx_hash : string;
  log_log_index : Z;
  log_address : string;
  log_topics : list string;
  log_data : string;
  log_block_number : Z;
}.

Record Block := mkBlock {
  blk_header : BlockHeader;
  blk_txs : list Tx;
  blk_logs : list Log;
}.

(** [dataclasses.replace(block, logs=logs)] *)
Definition with_logs (b : Block) (logs : list Log) : Block :=
  mkBlock (blk_header b) (blk_txs b) logs.

Record SolanaTokenBalance := mkTokenBalance {
  tb_account_index : Z;
  tb_mint : string;
  tb_owner : option string;
  tb_amount : Z;
  tb_decimals : Z;
}.

Record SolanaInstruction := mkInstruction {
  ix_program_id : string;
  ix_accounts : list string;
  ix_data_b58 : string;
  ix_stack_depth : Z;
}.

Record SolanaTransaction := mkSolTx {
  stx_signature : string;
  stx_slot : Z;
  stx_success : bool;
  stx_fee : Z;
  stx_account_keys : list string;
  stx_pre_balances : list Z;
  stx_post_balances : list Z;
  stx_pre_token_balances : list SolanaTokenBalance;
  stx_post_token_balances : list SolanaTokenBalance;
  stx_log_messages : list string;
  stx_instructions : list SolanaInstruction;
}.

Record SolanaBlock := mkSolBlock {
  sb_slot : Z;
  sb_block_hash : string;
  sb_parent_slot : Z;
  sb_block_time : option Z;
  sb_transactions : list SolanaTransaction;
}.

(** A call trace: a tree of calls. *)
Inductive InternalCall := mkCall {
  ic_type : string;
  ic_from_addr : string;
  ic_to_addr : option string;
  ic_value : Z;
  ic_gas : Z;
  ic_input : string;
  ic_output : string;
  ic_error : option string;
  ic_calls : list InternalCall;
  ic_created_address : option string;
}.

(** [EventKind = Literal["native_transfer", "token_transfer", "event", "call"]] is
    a string in the code and is compared with [match_kind]; it stays one here. *)
Record Event := mkEvent {
  ev_chain_id : string;
  ev_block_number : Z;
  ev_block_hash : string;
  ev_block_timestamp : Z;
  ev_tx_hash : string;
  ev_tx_index : option Z;
  ev_log_index : option Z;
  ev_kind : string;
  ev_contract : option string;
  ev_name : option string;
  ev_args : list (string * pyval);
  ev_raw : list (string * pyval);
}.
