(* ===== verification/ConfirmationBuffer.v ===== *)
(** * ConfirmationBuffer (core/chains/confirmation_buffer.py)

    The sliding window of unconfirmed headers of one EVM chain: [append],
    [handle_new_head] with its walk along the new branch, and the draining of
    headers deep enough to be confirmed. *)
From S2P Require Import Prelude Types.

(** ** State and operations *)

Record ReorgEvent := mkReorg {
  rewound_to : Z;
  new_branch : list BlockHeader;
  dropped : list BlockHeader;
  confirmed : list BlockHeader;
  deep : bool;
  divergent_oldest : Z;
  new_head : option BlockHeader;
}.

(** The return type [ReorgEvent | list[BlockHeader]] of [handle_new_head]. *)
Inductive HeadResult :=
  | Clean (confirmed_headers : list BlockHeader)
  | Reorg (ev : ReorgEvent).

Record ConfirmationBuffer := mkBuffer {
  cb_confirmations : Z;
  cb_buf : list BlockHeader;   (** oldest first; the right end is the tip *)
}.

Definition cb_init (confirmations : Z) : result ConfirmationBuffer :=
  if confirmations <? 0 then Err (ValueError "confirmations must be >= 0")
  else Ok (mkBuffer confirmations []).

Definition cb_len (b : ConfirmationBuffer) : Z := Z.of_nat (length (cb_buf b)).

Definition tip (b : ConfirmationBuffer) : option BlockHeader := last (cb_buf b).

(** [while self._buf and tip_num - self._buf[0].number >= conf: popleft()] *)
Fixpoint pop_confirmed (tip_num conf : Z) (buf : list BlockHeader)
    : list BlockHeader * list BlockHeader :=
  match buf with
  | [] => ([], [])
  | h :: t =>
      if conf <=? tip_num - hdr_number h then
        let '(c, r) := pop_confirmed tip_num conf t in (h :: c, r)
      else ([], h :: t)
  end.

Definition drain_confirmed (b : ConfirmationBuffer) : list BlockHeader * ConfirmationBuffer :=
  match last (cb_buf b) with
  | None => ([], b)
  | Some t =>
      let '(c, r) := pop_confirmed (hdr_number t) (cb_confirmations b) (cb_buf b) in
      (c, mkBuffer (cb_confirmations b) r)
  end.

Definition append (b : ConfirmationBuffer) (head : BlockHeader)
    : result (list BlockHeader) * ConfirmationBuffer :=
  let push :=
    let '(c, b') := drain_confirmed (mkBuffer (cb_confirmations b) (cb_buf b ++ [head])) in
    (Ok c, b') in
  match tip b with
  | Some t =>
      if decide (hdr_hash t = hdr_parent_hash head) then push
      else (Err (ValueError ("append(" +:+ pretty (hdr_number head) +:+ "/" +:+ hdr_hash head
              +:+ ") does not link to tip (" +:+ pretty (hdr_number t) +:+ "/" +:+ hdr_hash t
              +:+ "); call handle_new_head instead")), b)
  | None => push
  end.

(** [{h.hash: h for h in self._buf}] *)
Definition by_hash (buf : list BlockHeader) : gmap string BlockHeader :=
  dict_comp ((λ h, (hdr_hash h, h)) <$> buf).

(** The [for _ in range(max_walk)] loop: [Ok (Some (ancestor, branch))] when a
    parent is buffered, [Ok None] when the walk is exhausted. *)
Fixpoint walk_back (resolve_parent : Z → string → result BlockHeader)
    (known : gmap string BlockHeader) (max_walk : nat)
    (branch : list BlockHeader) (cursor : BlockHeader)
    : result (option (BlockHeader * list BlockHeader)) :=
  match max_walk with
  | O => Ok None
  | S n =>
      match known !! hdr_parent_hash cursor with
      | Some ancestor => Ok (Some (ancestor, branch))
      | None =>
          let? parent := resolve_parent (hdr_number cursor - 1) (hdr_parent_hash cursor) in
          walk_back resolve_parent known n (branch ++ [parent]) parent
      end
  end.

(** [while self._buf and self._buf[-1].hash != h: dropped.append(self._buf.pop())]
    on the reversed buffer: (popped in pop order, what is left). *)
Fixpoint pop_divergent (h : string) (rbuf : list BlockHeader)
    : list BlockHeader * list BlockHeader :=
  match rbuf with
  | [] => ([], [])
  | x :: t =>
      if decide (hdr_hash x = h) then ([], x :: t)
      else let '(d, r) := pop_divergent h t in (x :: d, r)
  end.

Definition handle_new_head (b : ConfirmationBuffer) (head : BlockHeader)
    (resolve_parent : Z → string → result BlockHeader)
    : result HeadResult * ConfirmationBuffer :=
  let clean :=
    let '(r, b') := append b head in (rmap Clean r, b') in
  let conf := cb_confirmations b in
  match tip b with
  | None => clean
  | Some t =>
      if decide (hdr_hash t = hdr_parent_hash head) then clean else
      match walk_back resolve_parent (by_hash (cb_buf b))
              (length (cb_buf b) + 1) [head] head with
      | Err e => (Err e, b)
      | Ok (Some (ancestor, branch)) =>
          let '(popped, rkept) := pop_divergent (hdr_hash ancestor) (rev (cb_buf b)) in
          let ordered := rev branch in
          let '(c, b') := drain_confirmed (mkBuffer conf (rev rkept ++ ordered)) in
          (Ok (Reorg (mkReorg (hdr_number ancestor) ordered (rev popped) c
                        false (-1) None)), b')
      | Ok None =>
          let oldest := match cb_buf b with h :: _ => hdr_number h | [] => -1 end in
          let '(c, b') := drain_confirmed (mkBuffer conf [head]) in
          (Ok (Reorg (mkReorg (-1) [] [] c true oldest (Some head))), b')
      end
  end.

(** What the caller must process after a head (chain_runner.py, lines 536-547). *)
Definition confirmed_of (r : HeadResult) : list BlockHeader :=
  match r with Clean c => c | Reorg ev => confirmed ev end.

Definition is_deep (r : HeadResult) : bool :=
  match r with Clean _ => false | Reorg ev => deep ev end.

(** A whole run: each head comes with the resolver its handling uses. *)
Fixpoint run_heads (b : ConfirmationBuffer)
    (heads : list (BlockHeader * (Z → string → result BlockHeader)))
    : result (list HeadResult) * ConfirmationBuffer :=
  match heads with
  | [] => (Ok [], b)
  | (h, res) :: t =>
      match handle_new_head b h res with
      | (Err e, b') => (Err e, b')
      | (Ok r, b') => let '(rs, b'') := run_heads b' t in (rmap (cons r) rs, b'')
      end
  end.

(** The [k]-th header met when walking back from [c]. *)
Fixpoint ancestor_at (res : Z → string → result BlockHeader) (c : BlockHeader) (k : nat)
    : result BlockHeader :=
  match k with
  | O => Ok c
  | S k' => let? p := res (hdr_number c - 1) (hdr_parent_hash c) in ancestor_at res p k'
  end.

(** ** Linked header sequences *)

Fixpoint linked (l : list BlockHeader) : Prop :=
  match l with
  | a :: ((b :: _) as t) =>
      hdr_parent_hash b = hdr_hash a ∧ hdr_number b = hdr_number a + 1 ∧ linked t
  | _ => True
  end.

Lemma linked_cons a b t :
  linked (a :: b :: t) ↔
  hdr_parent_hash b = hdr_hash a ∧ hdr_number b = hdr_number a + 1 ∧ linked (b :: t).
Proof. done. Qed.

Lemma linked_tail a t : linked (a :: t) → linked t.
Proof. destruct t; simpl; tauto. Qed.

Lemma linked_app_l l1 l2 : linked (l1 ++ l2) → linked l1.
Proof.
  revert l2. induction l1 as [|a [|b t] IH]; intros l2; [done|done|].
  simpl. intros (?&?&?). split_and!; try done. by apply (IH l2).
Qed.

Lemma linked_app_r l1 l2 : linked (l1 ++ l2) → linked l2.
Proof. induction l1 as [|a l1 IH]; [done|]. intros H. by apply IH, (linked_tail a). Qed.

(** Two linked runs join when the second starts with a child of the end of the first. *)
Lemma linked_app l1 x y l2 :
  linked (l1 ++ [x]) → linked (y :: l2) →
  hdr_parent_hash y = hdr_hash x → hdr_number y = hdr_number x + 1 →
  linked ((l1 ++ [x]) ++ y :: l2).
Proof.
  intros H1 H2 Hp Hn. induction l1 as [|a [|b t] IH]; simpl in *; [done| |].
  - naive_solver.
  - naive_solver.
Qed.

(** Two linked runs that share a non-empty middle. *)
Lemma linked_overlap l1 m l2 :
  m ≠ [] → linked (l1 ++ m) → linked (m ++ l2) → linked (l1 ++ m ++ l2).
Proof.
  intros Hm H1 H2. destruct m as [|x m _] using rev_ind; [done|].
  destruct l2 as [|y l2]; [by rewrite app_nil_r|].
  rewrite app_assoc in H1. rewrite <- app_assoc in H2. simpl in H2.
  apply linked_app_r, linked_cons in H2 as (?&?&?).
  rewrite !app_assoc. by apply linked_app.
Qed.

Lemma linked_numbers a l :
  linked (a :: l) → hdr_number <$> (a :: l) = seqZ (hdr_number a) (Z.of_nat (length (a :: l))).
Proof.
  revert a. induction l as [|b l IH]; intros a Hl.
  - simpl. by rewrite seqZ_cons, seqZ_nil by lia.
  - apply linked_cons in Hl as (_&Hn&Hl). rewrite fmap_cons, (IH b Hl).
    rewrite (seqZ_cons (hdr_number a)) by (simpl; lia).
    f_equal. rewrite Hn. f_equal; simpl; lia.
Qed.

(** ** Draining *)

Lemma pop_confirmed_spec t conf buf c r :
  pop_confirmed t conf buf = (c, r) →
  buf = c ++ r ∧ Forall (λ h, conf <= t - hdr_number h) c ∧
  (∀ h r', r = h :: r' → t - hdr_number h < conf).
Proof.
  revert c r. induction buf as [|h buf IH]; intros c r; simpl.
  - intros [= <- <-]. done.
  - destruct (Z.leb_spec conf (t - hdr_number h)).
    + destruct (pop_confirmed t conf buf) as [c' r'] eqn:E. intros [= <- <-].
      destruct (IH _ _ eq_refl) as (->&?&?). split_and!; [done|by constructor|done].
    + intros [= <- <-]. split_and!; [done|done|]. by intros ?? [= <- <-].
Qed.

Lemma drain_confirmed_spec conf buf t c b' :
  last buf = Some t → drain_confirmed (mkBuffer conf buf) = (c, b') →
  buf = c ++ cb_buf b' ∧ cb_confirmations b' = conf ∧
  Forall (λ h, conf <= hdr_number t - hdr_number h) c ∧
  (∀ h r', cb_buf b' = h :: r' → hdr_number t - hdr_number h < conf).
Proof.
  intros Hl. unfold drain_confirmed. simpl. rewrite Hl.
  destruct (pop_confirmed _ _ _) as [c' r] eqn:E. intros [= <- <-].
  apply pop_confirmed_spec in E. naive_solver.
Qed.

(** ** Walking back and popping *)

Lemma by_hash_snoc buf h : by_hash (buf ++ [h]) = <[hdr_hash h:=h]> (by_hash buf).
Proof. unfold by_hash. rewrite fmap_app. apply dict_comp_snoc. Qed.

Lemma by_hash_Some buf k h : by_hash buf !! k = Some h → h ∈ buf ∧ hdr_hash h = k.
Proof.
  intros Hk%dict_comp_elem_of. apply list_elem_of_fmap in Hk as (x&[= -> ->]&Hx). done.
Qed.

(** Popping stops exactly at the ancestor the hash index returned. *)
Lemma pop_divergent_by_hash rbuf k a :
  by_hash (rev rbuf) !! k = Some a →
  ∃ d r, pop_divergent k rbuf = (d, a :: r) ∧ rbuf = d ++ a :: r.
Proof.
  induction rbuf as [|x t IH]; [done|]. cbn [rev pop_divergent].
  rewrite by_hash_snoc. destruct (decide (hdr_hash x = k)) as [<-|Hne].
  - rewrite lookup_insert_eq. intros [= ->]. by exists [], t.
  - rewrite lookup_insert_ne by done. intros (d&r&->&->)%IH. by exists (x :: d), r.
Qed.

Section protocol.
(** The headers of the network.  A header commits to its parent's height
    (consensus rule of every EVM chain). *)
Variable valid : BlockHeader → Prop.
Hypothesis parent_number : ∀ a b, valid a → valid b →
  hdr_parent_hash b = hdr_hash a → hdr_number b = hdr_number a + 1.

(** The contract of [resolve_parent] (confirmation_buffer.py, lines 41-44). *)
Definition resolver_ok (res : Z → string → result BlockHeader) : Prop :=
  ∀ n h p, res n h = Ok p → valid p ∧ hdr_hash p = h.

(** The buffer is a hash-linked run of valid headers, none deep enough to be
    confirmed. *)
Definition cb_wf (b : ConfirmationBuffer) : Prop :=
  0 <= cb_confirmations b ∧ linked (cb_buf b) ∧ Forall valid (cb_buf b) ∧
  ∀ h r t, cb_buf b = h :: r → last (cb_buf b) = Some t →
    hdr_number t - hdr_number h < cb_confirmations b.

Lemma walk_back_spec res buf n branch cursor a br :
  resolver_ok res → Forall valid buf → Forall valid branch →
  last branch = Some cursor → linked (rev branch) →
  walk_back res (by_hash buf) n branch cursor = Ok (Some (a, br)) →
  ∃ x l, rev br = x :: l ∧ hdr_parent_hash x = hdr_hash a ∧ linked (rev br) ∧
    Forall valid br ∧ by_hash buf !! hdr_hash a = Some a ∧ head br = head branch.
Proof.
  intros Hres Hbuf. revert branch cursor.
  induction n as [|n IH]; intros branch cursor Hv Hlast Hl; simpl; [done|].
  apply last_Some in Hlast as [br0 ->].
  destruct (by_hash buf !! hdr_parent_hash cursor) as [a'|] eqn:E.
  - intros [= <- <-]. exists cursor, (rev br0). rewrite rev_app_distr.
    pose proof E as [Ha Hh]%by_hash_Some. rewrite Hh.
    by rewrite rev_app_distr in Hl.
  - destruct (res _ _) as [p|e] eqn:Er; simpl; [|done].
    apply Hres in Er as [Hp Hph]. intros Hw.
    apply Forall_app in Hv as [Hv0 Hc]. inversion Hc as [|?? Hvc _]; subst.
    apply IH in Hw as (x&l&?&?&?&?&?&Hhd); [| |by rewrite last_snoc|].
    + exists x, l. split_and!; try done. rewrite Hhd. by destruct br0.
    + rewrite !Forall_app. auto.
    + rewrite rev_app_distr in Hl |- *. simpl. rewrite rev_app_distr. simpl in *.
      split_and!; [done| |done]. by apply parent_number.
Qed.

Lemma drain_wf conf l t c b' :
  0 <= conf → linked l → Forall valid l → last l = Some t →
  drain_confirmed (mkBuffer conf l) = (c, b') →
  cb_wf b' ∧ l = c ++ cb_buf b' ∧ cb_confirmations b' = conf ∧
  Forall (λ h, conf <= hdr_number t - hdr_number h) c.
Proof.
  intros Hc Hl Hv Ht Hd. apply (drain_confirmed_spec _ _ t) in Hd as (->&Hconf&Hf&Hhd); [|done].
  split; [|done]. unfold cb_wf. rewrite Hconf.
  apply Forall_app in Hv as [_ Hv]. apply linked_app_r in Hl.
  split_and!; try done.
  - intros h r t' Hb Hlast. rewrite last_app, Hlast in Ht.
    simplify_eq/=. by eapply Hhd.
Qed.

(** What a successful, non-deep head does to the run of unconfirmed headers:
    a suffix is replaced by a branch that ends in the head. *)
Definition extends (b : ConfirmationBuffer) (head : BlockHeader) (r : HeadResult)
    (b' : ConfirmationBuffer) : Prop :=
  ∃ kept lost branch,
    cb_buf b = kept ++ lost ∧ (kept = [] → cb_buf b = []) ∧
    last branch = Some head ∧ linked (kept ++ branch) ∧
    confirmed_of r ++ cb_buf b' = kept ++ branch.

Definition head_step (b : ConfirmationBuffer) (head : BlockHeader) (r : HeadResult)
    (b' : ConfirmationBuffer) : Prop :=
  cb_wf b' ∧ cb_confirmations b' = cb_confirmations b ∧
  Forall (λ h, cb_confirmations b <= hdr_number head - hdr_number h) (confirmed_of r) ∧
  (is_deep r = false → extends b head r b').

Lemma clean_step b head r b' :
  cb_wf b → valid head →
  (∀ t, tip b = Some t → hdr_hash t = hdr_parent_hash head) →
  append b head = (Ok r, b') → head_step b head (Clean r) b'.
Proof.
  intros (Hc&Hl&Hv&_) Hvh Htip Happ.
  assert (linked (cb_buf b ++ [head])) as Hl'.
  { unfold tip in Htip. destruct (last (cb_buf b)) as [t|] eqn:E.
    - specialize (Htip _ eq_refl). apply last_Some in E as [l0 Hb]. rewrite Hb in *.
      apply linked_app; [done|done|done|].
      apply parent_number; [|done|done]. by eapply Forall_snoc_last.
    - by apply last_None in E as ->. }
  assert (drain_confirmed (mkBuffer (cb_confirmations b) (cb_buf b ++ [head])) = (r, b')) as Hd.
  { unfold append in Happ. destruct (tip b) as [t|] eqn:E.
    - rewrite decide_True in Happ by auto. by destruct (drain_confirmed _); simplify_eq.
    - by destruct (drain_confirmed _); simplify_eq. }
  apply (drain_wf _ _ head) in Hd as (?&Hsplit&?&?); auto using Forall_app_2, last_snoc.
  split_and!; try done. intros _. exists (cb_buf b), [], [head].
  by rewrite app_nil_r.
Qed.

(** The walk found the ancestor [a]: what is kept of the buffer ends in [a] and
    links to the new branch. *)
Lemma walk_found b head res a br :
  cb_wf b → valid head → resolver_ok res →
  walk_back res (by_hash (cb_buf b)) (length (cb_buf b) + 1) [head] head = Ok (Some (a, br)) →
  ∃ d kept, pop_divergent (hdr_hash a) (rev (cb_buf b)) = (d, a :: rev kept) ∧
    cb_buf b = (kept ++ [a]) ++ rev d ∧ last (rev br) = Some head ∧
    linked ((kept ++ [a]) ++ rev br) ∧ Forall valid ((kept ++ [a]) ++ rev br).
Proof.
  intros (Hc&Hl&Hv&_) Hvh Hres Hw.
  apply walk_back_spec in Hw as (x&l&Hrev&Hpar&Hlb&Hvb&Ha&Hhd); auto; [|done].
  destruct (pop_divergent_by_hash (rev (cb_buf b)) (hdr_hash a) a) as (d&rk&Hp&Hb).
  { by rewrite rev_involutive. }
  apply (f_equal (@rev _)) in Hb. rewrite rev_involutive, rev_app_distr in Hb.
  simpl in Hb. exists d, (rev rk). rewrite rev_involutive, Hb.
  rewrite Hb in Hl, Hv. apply Forall_app in Hv as [Hv _].
  apply Forall_rev in Hvb. rewrite Hrev in *.
  split_and!; [by rewrite <- Hb|done| | |by apply Forall_app_2].
  - destruct br as [|y br]; simplify_eq/=. by rewrite <- Hrev, last_snoc.
  - apply linked_app; [by apply linked_app_l in Hl|done|done|].
    apply parent_number; [by eapply Forall_snoc_last|by inversion Hvb|done].
Qed.

Lemma reorg_step b head ev b' a br d kept :
  cb_wf b → last (rev br) = Some head →
  cb_buf b = (kept ++ [a]) ++ rev d →
  linked ((kept ++ [a]) ++ rev br) → Forall valid ((kept ++ [a]) ++ rev br) →
  drain_confirmed (mkBuffer (cb_confirmations b) ((kept ++ [a]) ++ rev br))
    = (confirmed ev, b') →
  head_step b head (Reorg ev) b' ∧ confirmed ev ++ cb_buf b' = (kept ++ [a]) ++ rev br.
Proof.
  intros (Hc&_) Hlast Hb Hl Hv Hd.
  apply (drain_wf _ _ head) in Hd as (?&Hsplit&?&?); [|done..|by rewrite last_app, Hlast].
  split; [|done]. split_and!; try done.
  intros _. exists (kept ++ [a]), (rev d), (rev br).
  split_and!; try done. intros []%app_eq_nil; done.
Qed.

Lemma handle_new_head_step b head res r b' :
  cb_wf b → valid head → resolver_ok res →
  handle_new_head b head res = (Ok r, b') → head_step b head r b'.
Proof.
  intros Hwf Hvh Hres. unfold handle_new_head.
  assert (∀ x, (let '(r0, b0) := append b head in (rmap Clean r0, b0)) = (Ok x, b') →
    (∀ t, tip b = Some t → hdr_hash t = hdr_parent_hash head) → head_step b head x b') as Hclean.
  { intros x Hx Ht. destruct (append b head) as [[c|e] b0] eqn:E; simplify_eq/=.
    by apply clean_step. }
  destruct (tip b) as [t|] eqn:Et; [|intros H; by apply Hclean].
  case_decide as Hlink; [intros H; apply Hclean; [done|naive_solver]|]. clear Hclean.
  destruct (walk_back _ _ _ _ _) as [[[a br]|]|e] eqn:Hw; [| |done].
  - apply walk_found in Hw as (d&kept&Hp&Hb&Hlast&Hlk&Hvk); [|done..].
    rewrite Hp. simpl. rewrite rev_involutive.
    destruct (drain_confirmed _) as [c b0] eqn:Hd. intros [= <- <-].
    by eapply reorg_step.
  - destruct (drain_confirmed _) as [c b0] eqn:Hd. intros [= <- <-].
    apply (drain_wf _ _ head) in Hd as (?&Hsplit&?&?);
      [by split_and!|apply Hwf|done|by apply Forall_singleton|done].
Qed.

(** An exception (from [append] or the resolver) leaves the buffer as it was. *)
Lemma handle_new_head_err b head res e b' :
  handle_new_head b head res = (Err e, b') → b' = b.
Proof.
  unfold handle_new_head, append.
  repeat (case_match; simplify_eq/=; try congruence).
Qed.

(** Well-formedness is an invariant of [handle_new_head], exceptions included. *)
Lemma handle_new_head_preserves b head res :
  cb_wf b → valid head → resolver_ok res → cb_wf (handle_new_head b head res).2.
Proof.
  intros Hwf Hvh Hres. destruct (handle_new_head b head res) as [[r|e] b'] eqn:E; simpl.
  - by eapply handle_new_head_step in E as [? _].
  - by apply handle_new_head_err in E as ->.
Qed.

Lemma cb_wf_length b : cb_wf b → cb_len b <= cb_confirmations b.
Proof.
  intros (Hc&Hl&_&Hd). unfold cb_len. destruct (cb_buf b) as [|h r] eqn:Hb; [simpl; lia|].
  destruct (last (h :: r)) as [t|] eqn:Ht; [|by apply last_None in Ht].
  specialize (Hd _ _ _ eq_refl eq_refl). pose proof (linked_numbers _ _ Hl) as Hn.
  assert (last (hdr_number <$> (h :: r)) = Some (hdr_number t)) as Hlast
    by (by rewrite fmap_last, Ht).
  rewrite Hn, last_lookup, length_seqZ, lookup_seqZ in Hlast.
  destruct Hlast as [Heq Hlt]. simpl in *. lia.
Qed.

Lemma head_step_nonempty b head r b' :
  1 <= cb_confirmations b → head_step b head r b' → is_deep r = false → cb_buf b' ≠ [].
Proof.
  intros Hc (_&_&Hdepth&Hext) Hd Hnil. destruct (Hext Hd) as (kept&lost&br&_&_&Hlast&_&Happ).
  rewrite Hnil, app_nil_r in Happ. rewrite Happ in Hdepth.
  apply last_Some in Hlast as [l0 ->]. rewrite app_assoc in Hdepth.
  apply Forall_snoc_last in Hdepth. lia.
Qed.

Definition run_inputs_ok (heads : list (BlockHeader * (Z → string → result BlockHeader))) : Prop :=
  Forall (λ hr, valid hr.1 ∧ resolver_ok hr.2) heads.

(** The confirmed headers so far, followed by the buffer, stay one linked chain. *)
Lemma run_heads_linked heads b past rs b' :
  cb_wf b → 1 <= cb_confirmations b → run_inputs_ok heads → cb_buf b ≠ [] →
  linked (past ++ cb_buf b) →
  run_heads b heads = (Ok rs, b') → Forall (λ r, is_deep r = false) rs →
  linked (past ++ concat (confirmed_of <$> rs) ++ cb_buf b') ∧
  head (past ++ concat (confirmed_of <$> rs) ++ cb_buf b') = head (past ++ cb_buf b).
Proof.
  revert b past rs. induction heads as [|[h res] heads IH]; intros b past rs; simpl.
  { by intros ????? [= <- <-]. }
  intros Hwf Hc Hin Hne Hl Hrun Hdeep. apply Forall_cons in Hin as [[Hvh Hres] Hin].
  destruct (handle_new_head b h res) as [[r|] b1] eqn:Hh; [|done].
  destruct (run_heads b1 heads) as [[rs1|] b2] eqn:Hr; simplify_eq/=.
  apply Forall_cons in Hdeep as [Hd Hdeep].
  pose proof (handle_new_head_step _ _ _ _ _ Hwf Hvh Hres Hh) as Hstep.
  pose proof (head_step_nonempty _ _ _ _ Hc Hstep Hd) as Hne1.
  destruct Hstep as (Hwf1&Hc1&_&Hext). destruct (Hext Hd) as (kept&lost&br&Hb&Hk&_&Hlk&Happ).
  destruct (IH b1 (past ++ confirmed_of r) rs1) as [IHl IHh]; try done; [lia| |].
  - rewrite <- app_assoc, Happ. rewrite Hb, app_assoc in Hl. apply linked_app_l in Hl.
    apply linked_overlap; naive_solver.
  - rewrite <- !app_assoc in IHl, IHh. rewrite <- !app_assoc. split; [done|].
    rewrite IHh, <- app_assoc, Happ, Hb. destruct past, kept; naive_solver.
Qed.

Lemma walk_back_exhausted res known n branch cursor :
  walk_back res known n branch cursor = Ok None →
  ∀ k, (k < n)%nat → ∃ p, ancestor_at res cursor k = Ok p ∧
    known !! hdr_parent_hash p = None.
Proof.
  revert branch cursor. induction n as [|n IH]; intros branch cursor; simpl; [lia|].
  destruct (known !! _) eqn:E; [done|]. destruct (res _ _) as [p|] eqn:Er; simpl; [|done].
  intros Hw [|k] Hk; simpl; [by exists cursor|].
  rewrite Er. simpl. eapply IH; [done|lia].
Qed.

(** ** Properties *)


(** C4 A reorganisation within the buffer replaces exactly the divergent suffix:
    the headers up to the common ancestor are kept, [dropped] lists the ones
    above it oldest first, [new_branch] is the linked branch from the ancestor's
    child to the new head, and what is confirmed plus what stays buffered is the
    kept prefix followed by the new branch (nothing is lost or duplicated). *)
Theorem reorg_replaces_divergent_suffix b head res ev b' :
  cb_wf b → valid head → resolver_ok res →
  handle_new_head b head res = (Ok (Reorg ev), b') → deep ev = false →
  ∃ kept ancestor,
    cb_buf b = (kept ++ [ancestor]) ++ dropped ev ∧
    rewound_to ev = hdr_number ancestor ∧
    last (new_branch ev) = Some head ∧
    linked ((kept ++ [ancestor]) ++ new_branch ev) ∧
    confirmed ev ++ cb_buf b' = (kept ++ [ancestor]) ++ new_branch ev ∧ cb_wf b'.
Proof.
  intros Hwf Hvh Hres. unfold handle_new_head.
  destruct (tip b) as [t|]; [|by destruct (append _ _) as [[] ?]].
  case_decide; [by destruct (append _ _) as [[] ?]|].
  destruct (walk_back _ _ _ _ _) as [[[a br]|]|e] eqn:Hw; [| |done].
  - apply walk_found in Hw as (d&kept&Hp&Hb&Hlast&Hlk&Hvk); [|done..].
    rewrite Hp. simpl. rewrite rev_involutive.
    destruct (drain_confirmed _) as [c b0] eqn:Hd. intros [= <- <-] _.
    eapply (reorg_step b head (mkReorg _ _ _ c _ _ _)) in Hd as [[? _] ?]; try done.
    by exists kept, a.
  - destruct (drain_confirmed _). by intros [= <- <-].
Qed.


(** A head is reported as a deep reorganisation only when none of the
    [len(buffer) + 1] headers reached by walking back from it is the child of a
    buffered header; the buffer is then reseeded with that head alone, nothing
    is confirmed, and the oldest height that was buffered is reported. *)
Lemma deep_reorg_reseeds b head res r b' :
  1 <= cb_confirmations b → cb_buf b ≠ [] →
  handle_new_head b head res = (Ok r, b') → is_deep r = true →
  (∃ h0 rest, cb_buf b = h0 :: rest ∧
     r = Reorg (mkReorg (-1) [] [] [] true (hdr_number h0) (Some head))) ∧
  cb_buf b' = [head] ∧
  ∀ k, (k <= length (cb_buf b))%nat →
    ∃ p, ancestor_at res head k = Ok p ∧
      ∀ h, h ∈ cb_buf b → hdr_hash h ≠ hdr_parent_hash p.
Proof.
  intros Hc Hne. unfold handle_new_head.
  assert (drain_confirmed (mkBuffer (cb_confirmations b) [head])
    = ([], mkBuffer (cb_confirmations b) [head])) as ->.
  { unfold drain_confirmed. simpl.
    by destruct (Z.leb_spec (cb_confirmations b) (hdr_number head - hdr_number head)); [lia|]. }
  destruct (tip b) as [t|]; [|destruct (append _ _) as [[] ?]; intros; simplify_eq/=].
  case_decide; [destruct (append _ _) as [[] ?]; intros; simplify_eq/=|].
  destruct (walk_back _ _ _ _ _) as [[[a br]|]|e] eqn:Hw; [| |done].
  - destruct (pop_divergent _ _), (drain_confirmed _). by intros [= <- <-].
  - intros [= <- <-] _. split_and!; [destruct (cb_buf b); naive_solver|done|].
    intros k Hk. eapply walk_back_exhausted in Hw as (p&?&Hnone); [|instantiate (1 := k); lia].
    exists p. split; [done|]. intros h Hh Heq.
    apply dict_comp_None in Hnone. apply Hnone. rewrite <- Heq.
    apply list_elem_of_fmap. exists (hdr_hash h, h). split; [done|].
    apply list_elem_of_fmap. by exists h.
Qed.
End protocol.

(** ** Witnesses: a fork at height 3 of a chain with two confirmations *)

Definition sample_header (fork : string) (n : Z) (parent : string) : BlockHeader :=
  mkHeader n (fork +:+ pretty n) parent 0.

Definition sample_chain : list BlockHeader :=
  [sample_header "a" 1 "g"; sample_header "a" 2 "a1"; sample_header "a" 3 "a2";
   sample_header "b" 3 "a2"; sample_header "b" 4 "b3"; sample_header "c" 9 "c8";
   sample_header "c" 8 "c7"; sample_header "c" 7 "c6"; sample_header "c" 6 "c5"].

Definition sample_valid (h : BlockHeader) : Prop := h ∈ sample_chain.

Definition sample_resolve (n : Z) (k : string) : result BlockHeader :=
  match list_find (λ h, hdr_hash h = k) sample_chain with
  | Some (_, h) => Ok h
  | None => Err (KeyError k)
  end.

Lemma sample_parent_number a b :
  sample_valid a → sample_valid b →
  hdr_parent_hash b = hdr_hash a → hdr_number b = hdr_number a + 1.
Proof.
  assert (Forall (λ a, Forall (λ b, hdr_parent_hash b = hdr_hash a →
    hdr_number b = hdr_number a + 1) sample_chain) sample_chain) as H.
  { apply (bool_decide_unpack _). vm_compute. exact I. }
  rewrite Forall_forall in H. intros Ha Hb. specialize (H a Ha).
  rewrite Forall_forall in H. by apply H.
Qed.

Lemma sample_resolver_ok : resolver_ok sample_valid sample_resolve.
Proof.
  intros n h p. unfold sample_resolve.
  destruct (list_find _ _) as [[i x]|] eqn:E; [|done]. intros [= <-].
  apply list_find_Some in E as (Hi&Hh&_). split; [by eapply list_elem_of_lookup_2|done].
Qed.

Definition sample_heads : list (BlockHeader * (Z → string → result BlockHeader)) :=
  (λ h, (h, sample_resolve)) <$>
    [sample_header "a" 1 "g"; sample_header "a" 2 "a1"; sample_header "a" 3 "a2";
     sample_header "b" 4 "b3"].

Lemma sample_inputs_ok : run_inputs_ok sample_valid sample_heads.
Proof.
  apply Forall_fmap, Forall_forall. intros h Hh. split; [|apply sample_resolver_ok].
  unfold sample_valid. simpl. set_unfold. naive_solver.
Qed.


Definition sample_buffer : ConfirmationBuffer :=
  mkBuffer 3 [sample_header "a" 2 "a1"; sample_header "a" 3 "a2"].

Lemma sample_buffer_wf : cb_wf sample_valid sample_buffer.
Proof.
  split_and!; [simpl; lia|done| |].
  - unfold sample_valid. repeat constructor; set_unfold; naive_solver.
  - intros h r t [= <- <-] [= <-]. simpl. lia.
Qed.

Lemma reorg_replaces_divergent_suffix_witness :
  ∃ ev b', handle_new_head sample_buffer (sample_header "b" 4 "b3") sample_resolve
             = (Ok (Reorg ev), b') ∧
    dropped ev = [sample_header "a" 3 "a2"] ∧
    ∃ kept ancestor, cb_buf sample_buffer = (kept ++ [ancestor]) ++ dropped ev.
Proof.
  eexists _, _. split; [vm_compute; reflexivity|]. split; [reflexivity|].
  destruct (reorg_replaces_divergent_suffix sample_valid sample_parent_number sample_buffer
    (sample_header "b" 4 "b3") sample_resolve _ _ sample_buffer_wf ltac:(unfold sample_valid; set_solver)
    sample_resolver_ok eq_refl eq_refl) as (k&a&H&_).
  exists k, a. exact H.
Defined.


Lemma deep_reorg_reseeds_witness :
  ∃ r b', handle_new_head sample_buffer (sample_header "c" 9 "c8") sample_resolve
            = (Ok r, b') ∧ is_deep r = true ∧ cb_buf b' = [sample_header "c" 9 "c8"].
Proof.
  eexists _, _. split; [vm_compute; reflexivity|]. split; [reflexivity|].
  destruct (deep_reorg_reseeds sample_buffer (sample_header "c" 9 "c8") sample_resolve _ _
    ltac:(vm_compute; discriminate) ltac:(discriminate) eq_refl eq_refl) as (_&H&_). exact H.
Defined.
