(* ===== verification/Filters.v ===== *)
(** * Argument filters (core/matcher/filters.py)

    The operator grammar of [arg_filters] keys ([validate]) and the AND of all
    entries over an event's arguments ([evaluate]). *)
From S2P Require Import Prelude PyStr PyVal.

(** ** Operations *)

Definition OPERATOR_SUFFIXES : list string := ["_in"; "_gte"; "_lte"].
Definition FORBIDDEN_TYPO_SUFFIXES : list string :=
  ["_eq"; "_ne"; "_gt"; "_lt"; "_ge"; "_le"; "_neq"; "_like"].

Fixpoint split_suffix (suffixes : list string) (key : string) : string * string :=
  match suffixes with
  | [] => (key, "eq")
  | s :: t =>
      if endswith key s then
        (str_take (String.length key - String.length s) key, str_drop 1 s)
      else split_suffix t key
  end.

(** [_split(key)]: (field, op) *)
Definition split_key (key : string) : string * string := split_suffix OPERATOR_SUFFIXES key.

(** [_norm(v)]: only 0x-strings are case-folded. *)
Definition norm (v : pyval) : pyval :=
  match v with
  | PStr s => if startswith s "0x" then PStr (lower s) else v
  | _ => v
  end.

Fixpoint validate (keys : list string) : result unit :=
  match keys with
  | [] => Ok tt
  | k :: t =>
      if existsb (endswith k) OPERATOR_SUFFIXES then validate t
      else if existsb (endswith k) FORBIDDEN_TYPO_SUFFIXES then
        Err (FilterError ("unknown operator in filter key: '" +:+ k +:+
          "'; allowed: <field>, <field>_in, <field>_gte, <field>_lte"))
      else validate t
  end.

(** [{_norm(v) for v in expected}]; raises on an unhashable element. *)
Definition allowed_set (expected : pyval) : result (list pyval) :=
  let? l := py_iter expected in
  rtraverse (λ v, if py_hashable (norm v) then Ok (norm v)
                  else Err (TypeError "unhashable type")) l.

(** One entry of the loop: does it let the loop go on? *)
Definition check_entry (args : list (string * pyval)) (key : string) (expected : pyval)
    : result bool :=
  let '(field, op) := split_key key in
  match dget field args with
  | None => Ok false
  | Some actual =>
      if String.eqb op "eq" then Ok (py_eq (norm actual) (norm expected))
      else if String.eqb op "in" then
        let? allowed := allowed_set expected in py_in_set (norm actual) allowed
      else if String.eqb op "gte" then
        let? a := py_int_of actual in let? e := py_int_of expected in Ok (negb (a <? e))
      else if String.eqb op "lte" then
        let? a := py_int_of actual in let? e := py_int_of expected in Ok (negb (e <? a))
      else Ok true
  end.

Fixpoint evaluate (filters args : list (string * pyval)) : result bool :=
  match filters with
  | [] => Ok true
  | (key, expected) :: t =>
      let? ok := check_entry args key expected in
      if ok then evaluate t args else Ok false
  end.

(** ** The declarative meaning of one entry *)

Inductive entry_holds (args : list (string * pyval)) : string * pyval → Prop :=
  | holds_eq key field actual expected :
      split_key key = (field, "eq") → dget field args = Some actual →
      py_eq (norm actual) (norm expected) = true →
      entry_holds args (key, expected)
  | holds_in key field actual expected vs v :
      split_key key = (field, "in") → dget field args = Some actual →
      py_iter expected = Ok vs → Forall (λ v, py_hashable (norm v) = true) vs →
      py_hashable (norm actual) = true →
      v ∈ vs → py_eq (norm actual) (norm v) = true →
      entry_holds args (key, expected)
  | holds_gte key field actual expected a e :
      split_key key = (field, "gte") → dget field args = Some actual →
      py_int_of actual = Ok a → py_int_of expected = Ok e → e <= a →
      entry_holds args (key, expected)
  | holds_lte key field actual expected a e :
      split_key key = (field, "lte") → dget field args = Some actual →
      py_int_of actual = Ok a → py_int_of expected = Ok e → a <= e →
      entry_holds args (key, expected).

(** ** Lemmas *)

Lemma split_key_op key :
  let op := (split_key key).2 in op = "in" ∨ op = "gte" ∨ op = "lte" ∨ op = "eq".
Proof.
  unfold split_key. simpl. repeat (case_match; simpl; auto).
Qed.

Lemma allowed_set_ok expected l :
  allowed_set expected = Ok l ↔
  ∃ vs, py_iter expected = Ok vs ∧ Forall (λ v, py_hashable (norm v) = true) vs ∧
    l = norm <$> vs.
Proof.
  unfold allowed_set. destruct (py_iter expected) as [vs|e]; simpl; [|naive_solver].
  assert (∀ l, rtraverse (λ v, if py_hashable (norm v) then Ok (norm v)
      else Err (TypeError "unhashable type")) vs = Ok l ↔
    Forall (λ v, py_hashable (norm v) = true) vs ∧ l = norm <$> vs) as H; [|naive_solver].
  clear l. induction vs as [|v vs IH]; intros l; simpl; [naive_solver|].
  rewrite Forall_cons. destruct (py_hashable (norm v)); simpl; [|naive_solver].
  destruct (rtraverse _ vs) as [ys|e]; simpl.
  2: { split; [done|]. intros [[_ Hf] _]. by specialize (proj2 (IH _) (conj Hf eq_refl)). }
  split; [intros [= <-]; naive_solver|].
  intros [[_ Hf] ->]. by assert (Ok ys = Ok (norm <$> vs)) as [= ->] by (by apply IH).
Qed.

Lemma existsb_norm actual vs :
  existsb (py_eq (norm actual)) (norm <$> vs) = true ↔
  ∃ v, v ∈ vs ∧ py_eq (norm actual) (norm v) = true.
Proof.
  rewrite existsb_exists. setoid_rewrite <- list_elem_of_In.
  setoid_rewrite list_elem_of_fmap. naive_solver.
Qed.

Lemma check_entry_true args key expected :
  check_entry args key expected = Ok true ↔ entry_holds args (key, expected).
Proof.
  unfold check_entry. destruct (split_key key) as [field op] eqn:Hs.
  pose proof (split_key_op key) as Hop. rewrite Hs in Hop. simpl in Hop.
  split.
  - destruct (dget field args) as [actual|] eqn:Hg; [|done].
    destruct Hop as [-> | [-> | [-> | ->]]]; simpl.
    + destruct (allowed_set expected) as [l|] eqn:Ha; simpl; [|done].
      apply allowed_set_ok in Ha as (vs&Hi&Hf&->).
      unfold py_in_set. destruct (py_hashable (norm actual)) eqn:Hh; [|done]. intros [= (v&?&?)%existsb_norm].
      by eapply holds_in.
    + destruct (py_int_of actual) as [a|?] eqn:?; simpl; [|done];
      destruct (py_int_of expected) as [b|?] eqn:?; simpl; [|done].
      intros [= ?]. eapply holds_gte; try done. lia.
    + destruct (py_int_of actual) as [a|?] eqn:?; simpl; [|done];
      destruct (py_int_of expected) as [b|?] eqn:?; simpl; [|done].
      intros [= ?]. eapply holds_lte; try done. lia.
    + intros [= ?]. by eapply holds_eq.
  - intros H. inversion H as [???? Hs' Hg|?????? Hs' Hg Hi Hf Hh Hv He
      |?????? Hs' Hg Ha He|?????? Hs' Hg Ha He]; subst;
      rewrite Hs in Hs'; simplify_eq; rewrite Hg; simpl.
    + by f_equal.
    + rewrite (proj2 (allowed_set_ok expected (norm <$> vs)) ltac:(by exists vs)). simpl.
      unfold py_in_set. rewrite Hh. f_equal. apply existsb_norm. eauto.
    + rewrite Ha, He. simpl. f_equal. lia.
    + rewrite Ha, He. simpl. f_equal. lia.
Qed.

Lemma split_key_suffixed field suf :
  suf ∈ OPERATOR_SUFFIXES → split_key (field +:+ suf) = (field, str_drop 1 suf).
Proof.
  intros Hin. assert (∀ s, s ∈ OPERATOR_SUFFIXES → (String.length s <= String.length suf)%nat →
    endswith (field +:+ suf) s = endswith suf s) as He.
  { intros s Hs Hle. by apply endswith_app. }
  assert (str_take (String.length (field +:+ suf) - String.length suf) (field +:+ suf) = field) as Ht.
  { rewrite str_length_app, Nat.add_sub. apply str_take_app. }
  unfold split_key, OPERATOR_SUFFIXES in *. cbn [split_suffix].
  repeat (apply elem_of_cons in Hin as [->|Hin]; [
    repeat (rewrite He; [simpl (endswith _ _)|set_solver|simpl; lia]); by rewrite Ht|]).
  set_solver.
Qed.

Lemma evaluate_app fs gs args :
  evaluate (fs ++ gs) args =
    let? b := evaluate fs args in if b then evaluate gs args else Ok false.
Proof.
  induction fs as [|[k v] fs IH]; simpl; [by destruct (evaluate gs args) as [[]|]|].
  destruct (check_entry args k v) as [[]|]; simpl; auto.
Qed.

Lemma evaluate_true_forall filters args :
  evaluate filters args = Ok true ↔ Forall (entry_holds args) filters.
Proof.
  induction filters as [|[k v] fs IH]; simpl; [by split|].
  rewrite Forall_cons, <- check_entry_true, <- IH.
  destruct (check_entry args k v) as [[]|]; simpl; naive_solver.
Qed.

(** ** Properties *)

(** [evaluate] accepts exactly when every entry of the filter holds of the
    arguments: the named field is present and compares as its operator says
    (case-folded equality, membership, integer bounds), whatever the order of the
    entries, and without any entry raising. *)
Lemma evaluate_true_iff filters args :
  evaluate filters args = Ok true ↔ Forall (entry_holds args) filters.
Proof. apply evaluate_true_forall. Qed.

(** A [_gte]/[_lte] pair on any field compares decimal strings as integers of
    any size (never as text): the filter accepts exactly the values between the
    bounds. *)
Lemma numeric_range_filter field lo hi v :
  Z.abs lo < 10 ^ max_str_digits → Z.abs hi < 10 ^ max_str_digits →
  Z.abs v < 10 ^ max_str_digits →
  evaluate [(field +:+ "_gte", PStr (py_str lo)); (field +:+ "_lte", PStr (py_str hi))]
    [(field, PStr (py_str v))] = Ok ((lo <=? v) && (v <=? hi)).
Proof.
  intros Hlo Hhi Hv. unfold evaluate, check_entry.
  rewrite !split_key_suffixed by (unfold OPERATOR_SUFFIXES; set_solver). cbn [str_drop].
  cbn [dget]. rewrite decide_True by done. cbn [String.eqb Ascii.eqb Bool.eqb py_int_of].
  rewrite !py_int_py_str by done. cbn [rbind].
  rewrite (Z.leb_antisym v lo), (Z.leb_antisym hi v). by destruct (v <? lo), (hi <? v).
Qed.

(** A field whose own name ends in an operator suffix cannot be filtered for
    equality: the key is always read as an operator on the shorter name, so
    without that shorter field the filter never accepts, although the event
    carries the very value asked for. *)
Lemma operator_suffixed_field_unreachable field suf v args :
  suf ∈ OPERATOR_SUFFIXES → dget field args = None →
  validate [field +:+ suf] = Ok tt ∧
  evaluate [(field +:+ suf, v)] (dset (field +:+ suf) v args) = Ok false.
Proof.
  intros Hin Hnone. split.
  - assert (endswith (field +:+ suf) suf = true) as He.
    { rewrite endswith_app by done. unfold endswith. rewrite bool_decide_true by lia.
      rewrite Nat.sub_diag. simpl. apply String.eqb_refl. }
    simpl. destruct (endswith (field +:+ suf) "_in" ||
      (endswith (field +:+ suf) "_gte" || (endswith (field +:+ suf) "_lte" || false))) eqn:E; [done|].
    unfold OPERATOR_SUFFIXES in Hin. set_unfold. rewrite !orb_false_iff in E. naive_solver congruence.
  - unfold evaluate, check_entry. rewrite split_key_suffixed by done.
    rewrite dget_dset_ne, Hnone; [done|]. intros Heq.
    apply (f_equal String.length) in Heq. rewrite str_length_app in Heq.
    unfold OPERATOR_SUFFIXES in Hin. set_unfold. destruct_or!; subst; simpl in Heq; lia.
Qed.

Lemma numeric_range_filter_witness :
  evaluate [("value_gte", PStr "1000000000000000000"); ("value_lte", PStr "9")]
    [("value", PStr "80")] = Ok false.
Proof.
  apply (numeric_range_filter "value" 1000000000000000000 9 80);
    apply Z.ltb_lt; vm_compute; reflexivity.
Defined.

Lemma operator_suffixed_field_unreachable_witness :
  validate ["amount_in"] = Ok tt ∧
  evaluate [("amount_in", PInt 5)] [("amount_in", PInt 5)] = Ok false.
Proof.
  apply (operator_suffixed_field_unreachable "amount" "_in" (PInt 5) []);
    [unfold OPERATOR_SUFFIXES; set_solver|reflexivity].
Defined.
