(* ===== verification/Snapshot.v ===== *)
(** * Configuration snapshots (core/config/snapshot.py, lines 16-87) *)
From S2P Require Import Prelude PyStr PyVal.

Record SnapshotSubscription := mkSub {
  sub_id : string;
  sub_name : string;
  sub_chain_id : string;
  sub_address : option string;
  sub_abi_id : option string;
  sub_match_kind : string;
  sub_match_name : option string;
  sub_arg_filters : list (string * pyval);
  sub_enabled : bool;
  sub_channel_ids : list string;
  sub_start_block : option Z;
  sub_business_name : option string;
}.

Record SnapshotChannel := mkChannel {
  ch_id : string;
  ch_name : string;
  ch_type : string;
  ch_config : list (string * pyval);
}.

Record SnapshotChain := mkChain {
  chain_id : string;
  chain_kind : string;
  chain_rpc_http : string;
  chain_rpc_ws : option string;
  chain_confirmations : Z;
  chain_poll_interval_ms : Z;
  chain_commitment : option string;
  chain_trace_internal_calls : bool;
  chain_log_query_range_blocks : Z;
  chain_slot_query_range_blocks : Z;
  chain_rpc_http_fallbacks : list string;
  chain_rpc_timeout_ms : Z;
}.

Record SnapshotAbi := mkAbi {
  abi_id : string;
  abi_name : string;
  abi_kind : string;
  abi_body : pyval;
}.

Record ConfigSnapshot := mkSnapshot {
  snap_version : Z;
  snap_subscriptions : list SnapshotSubscription;
  snap_channels : list SnapshotChannel;
  snap_chains : list SnapshotChain;
  snap_abis : list SnapshotAbi;
}.

Definition subscriptions_for_chain (s : ConfigSnapshot) (cid : string)
    : list SnapshotSubscription :=
  filter (λ x, sub_chain_id x = cid ∧ sub_enabled x = true) (snap_subscriptions s).

(** [{c.id: c for c in channels}] *)
Definition channels_by_id (cs : list SnapshotChannel) : gmap string SnapshotChannel :=
  dict_comp ((λ c, (ch_id c, c)) <$> cs).

(** [[by_id[cid] for cid in ids if cid in by_id]] *)
Definition resolve_channels (by_id : gmap string SnapshotChannel) (ids : list string)
    : list SnapshotChannel :=
  omap (λ cid, by_id !! cid) ids.

Definition channels_for_subscription (s : ConfigSnapshot) (x : SnapshotSubscription)
    : list SnapshotChannel :=
  resolve_channels (channels_by_id (snap_channels s)) (sub_channel_ids x).

Fixpoint find_abi (abis : list SnapshotAbi) (id : string) : option SnapshotAbi :=
  match abis with
  | [] => None
  | a :: t => if decide (abi_id a = id) then Some a else find_abi t id
  end.

Definition abi_by_id (s : ConfigSnapshot) (id : string) : option SnapshotAbi :=
  find_abi (snap_abis s) id.
