(* ===== verification/Repositories.v ===== *)
(** * The configuration database (core/config/models.py, core/config/repositories.py)

    A [Db] is what one session sees: a finite map from primary key to row for each
    table.  The models' [created_at] and [updated_at] columns are kept for delivery records only,
    the one table whose code reads them.  What the database engine decides is the class [Sql]: the
    order in which a SELECT returns rows, whether foreign keys are enforced (SQLite does not unless
    asked to), and the rows a column type refuses (lengths, integer widths).  Server defaults
    ([now()], [uuid4()]) are arguments of the operations that insert. *)
From S2P Require Import Prelude PyStr PyVal Snapshot.

(** ** Enumerations and rows *)

Inductive ChainKind := ChainKind_evm | ChainKind_solana.
Inductive MatchKind :=
  MatchKind_native_transfer | MatchKind_token_transfer | MatchKind_event | MatchKind_call.
Inductive AbiKind := AbiKind_evm_abi | AbiKind_solana_idl.
Inductive ChannelType :=
  ChannelType_mq | ChannelType_http | ChannelType_ws | ChannelType_kafka | ChannelType_rabbitmq.
Inductive DeliveryStatus :=
  Delivery_success | Delivery_failed | Delivery_retrying | Delivery_resolved.

#[export] Instance ChainKind_eq_dec : EqDecision ChainKind.
Proof. solve_decision. Defined.
#[export] Instance MatchKind_eq_dec : EqDecision MatchKind.
Proof. solve_decision. Defined.
#[export] Instance AbiKind_eq_dec : EqDecision AbiKind.
Proof. solve_decision. Defined.
#[export] Instance ChannelType_eq_dec : EqDecision ChannelType.
Proof. solve_decision. Defined.
#[export] Instance DeliveryStatus_eq_dec : EqDecision DeliveryStatus.
Proof. solve_decision. Defined.

Definition ChainKind_value (k : ChainKind) : string :=
  match k with ChainKind_evm => "evm" | ChainKind_solana => "solana" end.

Definition MatchKind_value (k : MatchKind) : string :=
  match k with
  | MatchKind_native_transfer => "native_transfer"
  | MatchKind_token_transfer => "token_transfer"
  | MatchKind_event => "event"
  | MatchKind_call => "call"
  end.

Definition AbiKind_value (k : AbiKind) : string :=
  match k with AbiKind_evm_abi => "evm_abi" | AbiKind_solana_idl => "solana_idl" end.

Definition ChannelType_value (t : ChannelType) : string :=
  match t with
  | ChannelType_mq => "mq"
  | ChannelType_http => "http"
  | ChannelType_ws => "ws"
  | ChannelType_kafka => "kafka"
  | ChannelType_rabbitmq => "rabbitmq"
  end.

Definition DeliveryStatus_value (s : DeliveryStatus) : string :=
  match s with
  | Delivery_success => "success"
  | Delivery_failed => "failed"
  | Delivery_retrying => "retrying"
  | Delivery_resolved => "resolved"
  end.

(** [DeliveryStatus(s)] *)
Definition DeliveryStatus_of (s : string) : result DeliveryStatus :=
  match s with
  | "success" => Ok Delivery_success
  | "failed" => Ok Delivery_failed
  | "retrying" => Ok Delivery_retrying
  | "resolved" => Ok Delivery_resolved
  | _ => Err (ValueError (repr_text false s +:+ " is not a valid DeliveryStatus"))
  end%string.

Record ChainRow := mkChainRow {
  c_kind : ChainKind;
  c_rpc_http : string;
  c_rpc_ws : option string;
  c_confirmations : Z;
  c_poll_interval_ms : Z;
  c_enabled : bool;
  c_commitment : option string;
  c_trace_internal_calls : option bool;
  c_log_query_range_blocks : Z;
  c_slot_query_range_blocks : Z;
  c_rpc_http_fallbacks : list string;
  c_rpc_timeout_ms : Z;
}.

Record AbiRow := mkAbiRow {
  a_name : string;
  a_kind : AbiKind;
  a_body : pyval;
}.

Record SubscriptionRow := mkSubscriptionRow {
  s_name : string;
  s_chain_id : string;
  s_address : option string;
  s_abi_id : option string;
  s_match_kind : MatchKind;
  s_match_name : option string;
  s_arg_filters : list (string * pyval);
  s_enabled : bool;
  s_start_block : option Z;
  s_last_processed_block : option Z;
  s_business_name : option string;
}.

Record ChannelRow := mkChannelRow {
  h_name : string;
  h_type : ChannelType;
  h_config : list (string * pyval);
}.

Record CheckpointRow := mkCheckpointRow {
  k_last_block : Z;
  k_last_block_hash : string;
}.

Record DeliveryRecordRow := mkDeliveryRecordRow {
  d_subscription_id : string;
  d_channel_id : string;
  d_chain_id : string;
  d_event_payload : list (string * pyval);
  d_error : option string;
  d_attempts : Z;
  d_status : DeliveryStatus;
  d_created_at : Z;
  d_resolved_at : option Z;
  d_is_replay : bool;
}.

(** [db_version] is the single row of [config_version] *)
Record Db := mkDb {
  db_chains : gmap string ChainRow;
  db_abis : gmap string AbiRow;
  db_subscriptions : gmap string SubscriptionRow;
  db_channels : gmap string ChannelRow;
  db_bindings : gset (string * string);
  db_checkpoints : gmap string CheckpointRow;
  db_version : option Z;
  db_deliveries : gmap string DeliveryRecordRow;
}.

Definition empty_db : Db := mkDb ∅ ∅ ∅ ∅ ∅ ∅ None ∅.

Definition set_chains m d :=
  mkDb m (db_abis d) (db_subscriptions d) (db_channels d) (db_bindings d) (db_checkpoints d)
    (db_version d) (db_deliveries d).
Definition set_abis m d :=
  mkDb (db_chains d) m (db_subscriptions d) (db_channels d) (db_bindings d) (db_checkpoints d)
    (db_version d) (db_deliveries d).
Definition set_subscriptions m d :=
  mkDb (db_chains d) (db_abis d) m (db_channels d) (db_bindings d) (db_checkpoints d)
    (db_version d) (db_deliveries d).
Definition set_channels m d :=
  mkDb (db_chains d) (db_abis d) (db_subscriptions d) m (db_bindings d) (db_checkpoints d)
    (db_version d) (db_deliveries d).
Definition set_bindings m d :=
  mkDb (db_chains d) (db_abis d) (db_subscriptions d) (db_channels d) m (db_checkpoints d)
    (db_version d) (db_deliveries d).
Definition set_checkpoints m d :=
  mkDb (db_chains d) (db_abis d) (db_subscriptions d) (db_channels d) (db_bindings d) m
    (db_version d) (db_deliveries d).
Definition set_version v d :=
  mkDb (db_chains d) (db_abis d) (db_subscriptions d) (db_channels d) (db_bindings d)
    (db_checkpoints d) v (db_deliveries d).
Definition set_deliveries m d :=
  mkDb (db_chains d) (db_abis d) (db_subscriptions d) (db_channels d) (db_bindings d)
    (db_checkpoints d) (db_version d) m.

(** ** The database engine *)

Inductive row :=
  | RChain (id : string) (r : ChainRow)
  | RAbi (id : string) (r : AbiRow)
  | RSubscription (id : string) (r : SubscriptionRow)
  | RChannel (id : string) (r : ChannelRow)
  | RCheckpoint (id : string) (r : CheckpointRow)
  | RDelivery (id : string) (r : DeliveryRecordRow).

Class Sql := {
  sql_scan : ∀ {A : Type}, Db → list A → list A;
  sql_newest_first : Db → list (string * DeliveryRecordRow) → list (string * DeliveryRecordRow);
  sql_fk : bool;
  sql_reject : row → option exn;
}.

(** [ORDER BY created_at DESC] puts [a] before [b] *)
Definition newer (a b : string * DeliveryRecordRow) : Prop :=
  d_created_at b.2 ≤ d_created_at a.2.

#[export] Instance newer_dec : RelDecision newer.
Proof. intros a b. unfold newer. apply _. Defined.
#[export] Instance newer_trans : Transitive newer.
Proof. intros a b c. unfold newer. lia. Qed.
#[export] Instance newer_total : Total newer.
Proof. intros a b. unfold newer. lia. Qed.

(** A SELECT returns every row once, in any order; ORDER BY created_at DESC sorts *)
Class SqlLaws `{Sql} : Prop := {
  sql_scan_perm : ∀ A d (l : list A), sql_scan d l ≡ₚ l;
  sql_newest_first_perm : ∀ d l, sql_newest_first d l ≡ₚ l;
  sql_newest_first_sorted : ∀ d l, StronglySorted newer (sql_newest_first d l);
}.

(** An engine that scans in key order, sorts stably, enforces foreign keys and refuses nothing *)
Definition ToySql : Sql := {|
  sql_scan := λ _ _ l, l;
  sql_newest_first := λ _ l, merge_sort newer l;
  sql_fk := true;
  sql_reject := λ _, None;
|}.

Lemma ToySql_laws : SqlLaws (H:=ToySql).
Proof.
  split; intros; [done|apply merge_sort_Permutation|].
  apply (StronglySorted_merge_sort newer); apply _.
Qed.

(** ** Statements

    [INSERT]: a duplicate key or a dangling reference is an [IntegrityError], a value its column
    refuses the engine's data error.  [UPDATE ... WHERE id = k] of no row is no error. *)
Section repos.
Context `{L : Sql}.

Definition duplicate_key : exn := IntegrityError "UNIQUE constraint failed".
Definition fk_violation : exn := IntegrityError "FOREIGN KEY constraint failed".

Definition check_row (r : row) : result unit :=
  match sql_reject r with Some e => Err e | None => Ok tt end.

Definition check_fk (ok : bool) : result unit :=
  if sql_fk && negb ok then Err fk_violation else Ok tt.

Definition has {V} (m : gmap string V) (k : string) : bool := bool_decide (is_Some (m !! k)).

Definition opt_has {V} (m : gmap string V) (k : option string) : bool :=
  match k with Some k => has m k | None => true end.

Definition subscription_refs_ok (d : Db) (r : SubscriptionRow) : bool :=
  has (db_chains d) (s_chain_id r) && opt_has (db_abis d) (s_abi_id r).

(** *** ChainRepo *)
Definition chain_create (id : string) (r : ChainRow) : M Db (string * ChainRow) := λ d,
  if has (db_chains d) id then (Err duplicate_key, d) else
  match check_row (RChain id r) with
  | Err e => (Err e, d)
  | Ok _ => (Ok (id, r), set_chains (<[id := r]> (db_chains d)) d)
  end.

Definition chain_get (id : string) (d : Db) : option ChainRow := db_chains d !! id.

Definition chain_list_enabled (d : Db) : list (string * ChainRow) :=
  sql_scan d (filter (λ c, c_enabled c.2 = true) (map_to_list (db_chains d))).

Definition chain_list_all (d : Db) : list (string * ChainRow) :=
  sql_scan d (map_to_list (db_chains d)).

Definition chain_update (id : string) (f : ChainRow → ChainRow) : M Db unit := λ d,
  match db_chains d !! id with
  | None => (Ok tt, d)
  | Some r =>
      match check_row (RChain id (f r)) with
      | Err e => (Err e, d)
      | Ok _ => (Ok tt, set_chains (<[id := f r]> (db_chains d)) d)
      end
  end.

(** The rows of [DELETE FROM chains] with [ON DELETE CASCADE] when the engine enforces it *)
Definition cascade_subscriptions (gone : SubscriptionRow → bool) (d : Db) : Db :=
  let kept := filter (λ kr, gone kr.2 = false) (db_subscriptions d) in
  let dropped (k : string) := has (db_subscriptions d) k && negb (has kept k) in
  set_bindings (filter (λ b, dropped b.1 = false) (db_bindings d)) (set_subscriptions kept d).

Definition chain_delete (id : string) (d : Db) : Db :=
  match db_chains d !! id with
  | None => d
  | Some _ =>
      let d1 := set_chains (delete id (db_chains d)) d in
      if sql_fk
      then cascade_subscriptions (λ r, bool_decide (s_chain_id r = id))
             (set_checkpoints (delete id (db_checkpoints d1)) d1)
      else d1
  end.

(** *** ChannelRepo *)
Definition channel_create (id : string) (r : ChannelRow) : M Db (string * ChannelRow) := λ d,
  if has (db_channels d) id then (Err duplicate_key, d) else
  match check_row (RChannel id r) with
  | Err e => (Err e, d)
  | Ok _ => (Ok (id, r), set_channels (<[id := r]> (db_channels d)) d)
  end.

Definition channel_get (id : string) (d : Db) : option ChannelRow := db_channels d !! id.

Definition channel_list_all (d : Db) : list (string * ChannelRow) :=
  sql_scan d (map_to_list (db_channels d)).

Definition channel_update (id : string) (f : ChannelRow → ChannelRow) : M Db unit := λ d,
  match db_channels d !! id with
  | None => (Ok tt, d)
  | Some r =>
      match check_row (RChannel id (f r)) with
      | Err e => (Err e, d)
      | Ok _ => (Ok tt, set_channels (<[id := f r]> (db_channels d)) d)
      end
  end.

Definition channel_delete (id : string) (d : Db) : Db :=
  match db_channels d !! id with
  | None => d
  | Some _ =>
      let d1 := set_channels (delete id (db_channels d)) d in
      if sql_fk then set_bindings (filter (λ b, b.2 ≠ id) (db_bindings d1)) d1 else d1
  end.

(** *** SubscriptionRepo *)
Definition subscription_create (id : string) (r : SubscriptionRow)
    : M Db (string * SubscriptionRow) := λ d,
  if has (db_subscriptions d) id then (Err duplicate_key, d) else
  match check_row (RSubscription id r) with
  | Err e => (Err e, d)
  | Ok _ =>
      match check_fk (subscription_refs_ok d r) with
      | Err e => (Err e, d)
      | Ok _ => (Ok (id, r), set_subscriptions (<[id := r]> (db_subscriptions d)) d)
      end
  end.

Definition subscription_get (id : string) (d : Db) : option SubscriptionRow :=
  db_subscriptions d !! id.

Definition subscription_list_all (d : Db) : list (string * SubscriptionRow) :=
  sql_scan d (map_to_list (db_subscriptions d)).

(** [select(Channel).join(SubscriptionChannel).where(subscription_id == sub_id)] *)
Definition channels_of (sub_id : string) (d : Db) : list (string * ChannelRow) :=
  sql_scan d (filter (λ c, (sub_id, c.1) ∈ db_bindings d) (map_to_list (db_channels d))).

Definition list_enabled_with_channels (d : Db)
    : list ((string * SubscriptionRow) * list (string * ChannelRow)) :=
  (λ sub, (sub, channels_of sub.1 d)) <$>
    sql_scan d (filter (λ s, s_enabled s.2 = true) (map_to_list (db_subscriptions d))).

Definition bind_channel_row (sub_id channel_id : string) : M Db unit := λ d,
  if bool_decide ((sub_id, channel_id) ∈ db_bindings d) then (Err duplicate_key, d) else
  match check_fk (has (db_subscriptions d) sub_id && has (db_channels d) channel_id) with
  | Err e => (Err e, d)
  | Ok _ => (Ok tt, set_bindings ({[(sub_id, channel_id)]} ∪ db_bindings d) d)
  end.

Definition unbind_channel_row (sub_id channel_id : string) (d : Db) : Db :=
  set_bindings (db_bindings d ∖ {[(sub_id, channel_id)]}) d.

Definition subscription_update (id : string) (f : SubscriptionRow → SubscriptionRow)
    : M Db unit := λ d,
  match db_subscriptions d !! id with
  | None => (Ok tt, d)
  | Some r =>
      match check_row (RSubscription id (f r)) with
      | Err e => (Err e, d)
      | Ok _ =>
          match check_fk (subscription_refs_ok d (f r)) with
          | Err e => (Err e, d)
          | Ok _ => (Ok tt, set_subscriptions (<[id := f r]> (db_subscriptions d)) d)
          end
      end
  end.

Definition subscription_delete (id : string) (d : Db) : Db :=
  match db_subscriptions d !! id with
  | None => d
  | Some _ =>
      let d1 := set_subscriptions (delete id (db_subscriptions d)) d in
      if sql_fk then set_bindings (filter (λ b, b.1 ≠ id) (db_bindings d1)) d1 else d1
  end.

(** [select(SubscriptionChannel.channel_id).where(subscription_id == sub_id)] *)
Definition bound_channel_ids (sub_id : string) (d : Db) : list string :=
  sql_scan d (filter (λ b, b.1 = sub_id) (elements (db_bindings d))).*2.

(** *** AbiRepo *)
Definition abi_create (id : string) (r : AbiRow) : M Db (string * AbiRow) := λ d,
  if has (db_abis d) id then (Err duplicate_key, d) else
  match check_row (RAbi id r) with
  | Err e => (Err e, d)
  | Ok _ => (Ok (id, r), set_abis (<[id := r]> (db_abis d)) d)
  end.

Definition abi_get (id : string) (d : Db) : option AbiRow := db_abis d !! id.

Definition abi_list_all (d : Db) : list (string * AbiRow) :=
  sql_scan d (map_to_list (db_abis d)).

Definition clear_abi (id : string) (r : SubscriptionRow) : SubscriptionRow :=
  if bool_decide (s_abi_id r = Some id)
  then mkSubscriptionRow (s_name r) (s_chain_id r) (s_address r) None (s_match_kind r)
         (s_match_name r) (s_arg_filters r) (s_enabled r) (s_start_block r)
         (s_last_processed_block r) (s_business_name r)
  else r.

(** [subscriptions.abi_id] is [ON DELETE SET NULL] *)
Definition abi_delete (id : string) (d : Db) : Db :=
  match db_abis d !! id with
  | None => d
  | Some _ =>
      let d1 := set_abis (delete id (db_abis d)) d in
      if sql_fk then set_subscriptions (clear_abi id <$> db_subscriptions d1) d1 else d1
  end.

(** *** CheckpointRepo *)
Definition checkpoint_get (chain_id : string) (d : Db) : option CheckpointRow :=
  db_checkpoints d !! chain_id.

Definition checkpoint_upsert (chain_id : string) (last_block : Z) (last_block_hash : string)
    : M Db unit := λ d,
  let r := mkCheckpointRow last_block last_block_hash in
  match check_row (RCheckpoint chain_id r) with
  | Err e => (Err e, d)
  | Ok _ =>
      match checkpoint_get chain_id d with
      | None =>
          match check_fk (has (db_chains d) chain_id) with
          | Err e => (Err e, d)
          | Ok _ => (Ok tt, set_checkpoints (<[chain_id := r]> (db_checkpoints d)) d)
          end
      | Some _ => (Ok tt, set_checkpoints (<[chain_id := r]> (db_checkpoints d)) d)
      end
  end.

(** *** ConfigVersionRepo *)
Definition version_get (d : Db) : Z := default 0 (db_version d).

Definition version_bump : M Db Z := λ d,
  match db_version d with
  | None => (Ok 1, set_version (Some 1) d)
  | Some v => (Ok (v + 1), set_version (Some (v + 1)) d)
  end.

(** *** DeliveryRecordRepo *)
Definition delivery_create (id : string) (now : Z) (subscription_id channel_id chain_id : string)
    (event_payload : list (string * pyval)) (error : option string) (attempts : Z)
    (status : string) (is_replay : bool) : M Db (string * DeliveryRecordRow) := λ d,
  match DeliveryStatus_of status with
  | Err e => (Err e, d)
  | Ok st =>
      let r := mkDeliveryRecordRow subscription_id channel_id chain_id event_payload error
                 attempts st now None is_replay in
      if has (db_deliveries d) id then (Err duplicate_key, d) else
      match check_row (RDelivery id r) with
      | Err e => (Err e, d)
      | Ok _ => (Ok (id, r), set_deliveries (<[id := r]> (db_deliveries d)) d)
      end
  end.

Definition delivery_get (id : string) (d : Db) : option DeliveryRecordRow :=
  db_deliveries d !! id.

Definition delivery_list_all (limit : nat) (subscription_id status : option string) (d : Db)
    : result (list (string * DeliveryRecordRow)) :=
  let all := map_to_list (db_deliveries d) in
  let by_sub :=
    match subscription_id with
    | None => all
    | Some i => filter (λ r, d_subscription_id r.2 = i) all
    end in
  match status with
  | None => Ok (take limit (sql_newest_first d by_sub))
  | Some s =>
      let? st := DeliveryStatus_of s in
      Ok (take limit (sql_newest_first d (filter (λ r, d_status r.2 = st) by_sub)))
  end.

Definition with_status (st : DeliveryStatus) (resolved : option Z) (r : DeliveryRecordRow) :=
  mkDeliveryRecordRow (d_subscription_id r) (d_channel_id r) (d_chain_id r) (d_event_payload r)
    (d_error r) (d_attempts r) st (d_created_at r) resolved (d_is_replay r).

Definition with_attempt (error : string) (r : DeliveryRecordRow) :=
  mkDeliveryRecordRow (d_subscription_id r) (d_channel_id r) (d_chain_id r) (d_event_payload r)
    (Some error) (d_attempts r + 1) (d_status r) (d_created_at r) (d_resolved_at r)
    (d_is_replay r).

Definition delivery_update (id : string) (f : DeliveryRecordRow → DeliveryRecordRow)
    : M Db unit := λ d,
  match db_deliveries d !! id with
  | None => (Ok tt, d)
  | Some r =>
      match check_row (RDelivery id (f r)) with
      | Err e => (Err e, d)
      | Ok _ => (Ok tt, set_deliveries (<[id := f r]> (db_deliveries d)) d)
      end
  end.

Definition mark_resolved (id : string) (now : Z) : M Db unit :=
  delivery_update id (with_status Delivery_resolved (Some now)).

Definition bump_attempt (id : string) (error : string) : M Db unit :=
  delivery_update id (with_attempt error).

Definition success_rows (d : Db) : list (string * DeliveryRecordRow) :=
  filter (λ r, d_status r.2 = Delivery_success) (map_to_list (db_deliveries d)).

(** [DELETE ... WHERE id IN (SELECT id ... ORDER BY created_at DESC OFFSET keep LIMIT batch)];
    returns the row count *)
Definition cleanup_success (keep batch : nat) (d : Db) : nat * Db :=
  let inner := take batch (drop keep (sql_newest_first d (success_rows d))).*1 in
  (length (filter (λ r, r.1 ∈ inner) (map_to_list (db_deliveries d))),
   set_deliveries (filter (λ r, r.1 ∉ inner) (db_deliveries d)) d).

Definition delivery_delete (id : string) (d : Db) : Db :=
  set_deliveries (delete id (db_deliveries d)) d.
End repos.

(** ** [load_snapshot] (core/config/snapshot.py) *)
Section load_snapshot.
Context `{L : Sql}.

Definition snapshot_chain (c : string * ChainRow) : SnapshotChain :=
  mkChain c.1 (ChainKind_value (c_kind c.2)) (c_rpc_http c.2) (c_rpc_ws c.2) (c_confirmations c.2)
    (c_poll_interval_ms c.2) (c_commitment c.2) (default false (c_trace_internal_calls c.2))
    (c_log_query_range_blocks c.2) (c_slot_query_range_blocks c.2) (c_rpc_http_fallbacks c.2)
    (c_rpc_timeout_ms c.2).

Definition snapshot_abi (a : string * AbiRow) : SnapshotAbi :=
  mkAbi a.1 (a_name a.2) (AbiKind_value (a_kind a.2)) (a_body a.2).

Definition snapshot_channel (c : string * ChannelRow) : SnapshotChannel :=
  mkChannel c.1 (h_name c.2) (ChannelType_value (h_type c.2)) (h_config c.2).

Definition snapshot_subscription (s : string * SubscriptionRow)
    (channels : list (string * ChannelRow)) : SnapshotSubscription :=
  mkSub s.1 (s_name s.2) (s_chain_id s.2) (s_address s.2) (s_abi_id s.2)
    (MatchKind_value (s_match_kind s.2)) (s_match_name s.2) (s_arg_filters s.2) (s_enabled s.2)
    channels.*1 (s_start_block s.2) (s_business_name s.2).

(** [d.setdefault(ch.id, ...)] for each channel *)
Definition add_channels (by_id : list (string * SnapshotChannel))
    (channels : list (string * ChannelRow)) : list (string * SnapshotChannel) :=
  foldl (λ m ch, if dmem ch.1 m then m else m ++ [(ch.1, snapshot_channel ch)]) by_id channels.

Definition build_snapshot (version : Z) (chain_rows : list (string * ChainRow))
    (abi_rows : list (string * AbiRow))
    (sub_bindings : list ((string * SubscriptionRow) * list (string * ChannelRow)))
    : ConfigSnapshot :=
  let step acc sb :=
    match sb.2 with
    | [] => acc
    | _ => (add_channels acc.1 sb.2, acc.2 ++ [snapshot_subscription sb.1 sb.2])
    end in
  let '(by_id, subs) := foldl step ([], []) sub_bindings in
  let active : gset string := list_to_set (sub_chain_id <$> subs) in
  mkSnapshot version subs by_id.*2
    (filter (λ c, chain_id c ∈ active) (snapshot_chain <$> chain_rows))
    (snapshot_abi <$> abi_rows).

Definition load_snapshot (d : Db) : ConfigSnapshot :=
  build_snapshot (version_get d) (chain_list_enabled d) (abi_list_all d)
    (list_enabled_with_channels d).
End load_snapshot.

(** ** What a loaded snapshot holds *)
Lemma omap_keys {A B} (f : string → option B) (g : string * A → B) (l : list (string * A)) :
  (∀ c, c ∈ l → f c.1 = Some (g c)) → omap f l.*1 = g <$> l.
Proof.
  induction l as [|c l IH]; intros Hf; [done|]. csimpl. rewrite (Hf c) by left.
  f_equal. apply IH. intros c' ?. apply Hf. by right.
Qed.

Section load_snapshot_spec.
Context `{L : Sql} {SL : SqlLaws}.

Lemma elem_of_scan {A} d (l : list A) x : x ∈ sql_scan d l ↔ x ∈ l.
Proof. by rewrite sql_scan_perm. Qed.

Lemma elem_of_channels_of sid d c :
  c ∈ channels_of sid d ↔ (sid, c.1) ∈ db_bindings d ∧ db_channels d !! c.1 = Some c.2.
Proof.
  unfold channels_of. rewrite elem_of_scan, list_elem_of_filter.
  destruct c as [k r]. by rewrite elem_of_map_to_list.
Qed.

Lemma NoDup_table_filter {V} d (P : string * V → Prop) `{∀ x, Decision (P x)} (m : gmap string V) :
  NoDup (sql_scan d (filter P (map_to_list m))).*1.
Proof.
  rewrite sql_scan_perm. apply (sublist_NoDup _ (map_to_list m).*1); [apply (NoDup_fst_map_to_list m)|].
  apply fmap_sublist, sublist_filter.
Qed.

Lemma channels_of_nil sid d :
  channels_of sid d ≠ [] ↔ ∃ cid, (sid, cid) ∈ db_bindings d ∧ is_Some (db_channels d !! cid).
Proof.
  split.
  - destruct (channels_of sid d) as [|c t] eqn:E; [done|intros _].
    assert (c ∈ channels_of sid d) as [Hb Hc]%elem_of_channels_of by (rewrite E; left).
    exists c.1. by rewrite Hc.
  - intros (cid & Hb & [r Hr]) E. apply (not_elem_of_nil (cid, r)). rewrite <- E.
    by apply elem_of_channels_of.
Qed.

(** The dictionary of channels: one entry per key, each the row of that key *)
Definition channel_entries_ok (d : Db) (m : list (string * SnapshotChannel)) : Prop :=
  NoDup m.*1 ∧
  ∀ k c, (k, c) ∈ m → ∃ r, db_channels d !! k = Some r ∧ c = snapshot_channel (k, r).

Lemma add_channels_ok d chs m :
  channel_entries_ok d m → (∀ c, c ∈ chs → db_channels d !! c.1 = Some c.2) →
  channel_entries_ok d (add_channels m chs) ∧
  (∀ k, k ∈ m.*1 ∨ k ∈ chs.*1 → k ∈ (add_channels m chs).*1).
Proof.
  revert m. induction chs as [|[k r] chs IH]; intros m Hm Hc; [simpl; set_solver|].
  assert (Hstep : channel_entries_ok d (if dmem k m then m else m ++ [(k, snapshot_channel (k, r))])
    ∧ (∀ k', k' ∈ m.*1 ∨ k' = k →
        k' ∈ (if dmem k m then m else m ++ [(k, snapshot_channel (k, r))]).*1)).
  { unfold dmem. destruct (dget k m) as [c|] eqn:E.
    - split; [done|]. intros k' [?| ->]; [done|].
      apply dget_elem_of in E. apply list_elem_of_fmap. by exists (k, c).
    - apply dget_None in E. destruct Hm as [Hnd Hm]. rewrite fmap_app. csimpl.
      split; [split|set_solver].
      + rewrite fmap_app. csimpl. apply NoDup_app. split_and!; [done|set_solver|apply NoDup_singleton].
      + intros k' c [Hin|Hin%list_elem_of_singleton]%elem_of_app; [by apply Hm|].
        simplify_eq. exists r. split; [apply (Hc (k, r)); left|done]. }
  destruct Hstep as [Hok Hkeys].
  destruct (IH _ Hok) as [Hok' Hkeys']; [intros c ?; apply Hc; by right|].
  split; [exact Hok'|]. csimpl. intros k' Hk'. apply (Hkeys' k').
  rewrite elem_of_cons in Hk'. destruct Hk' as [?|[?|?]]; auto.
Qed.

Lemma add_channels_app m l1 l2 : add_channels m (l1 ++ l2) = add_channels (add_channels m l1) l2.
Proof. apply foldl_app. Qed.

(** The loop over [sub_bindings] in closed form *)
Lemma build_snapshot_eq v crows arows sbs :
  build_snapshot v crows arows sbs =
    let subs := (λ sb, snapshot_subscription sb.1 sb.2) <$> filter (λ sb, sb.2 ≠ []) sbs in
    mkSnapshot v subs (add_channels [] (concat sbs.*2)).*2
      (filter (λ c, chain_id c ∈ (list_to_set (sub_chain_id <$> subs) : gset string))
         (snapshot_chain <$> crows))
      (snapshot_abi <$> arows).
Proof.
  unfold build_snapshot.
  match goal with |- context [foldl ?f ([], []) sbs] => set (step := f) end.
  assert (∀ l, foldl step ([], []) l = (add_channels [] (concat l.*2),
    (λ sb, snapshot_subscription sb.1 sb.2) <$> filter (λ sb, sb.2 ≠ []) l)) as ->; [|done].
  intros l. induction l as [|sb l IH] using rev_ind; [done|].
  rewrite foldl_app, IH, fmap_app, concat_app, filter_app, fmap_app, add_channels_app.
  cbn [foldl]. unfold step. destruct sb as [s [|c cs]]; cbn [fst snd].
  - rewrite filter_cons_False by (intros Hne; by apply Hne). by rewrite app_nil_r.
  - rewrite filter_cons_True by done. csimpl. by rewrite app_nil_r.
Qed.

Lemma elem_of_bindings d sid r chs :
  ((sid, r), chs) ∈ filter (λ sb, sb.2 ≠ []) (list_enabled_with_channels d) ↔
  db_subscriptions d !! sid = Some r ∧ s_enabled r = true ∧ chs = channels_of sid d ∧ chs ≠ [].
Proof.
  unfold list_enabled_with_channels. rewrite list_elem_of_filter, list_elem_of_fmap. split.
  - intros (Hne & [sid' r'] & [= <- <- ->] & Hin).
    apply elem_of_scan, list_elem_of_filter in Hin as [He Hin%elem_of_map_to_list]. done.
  - intros (Hs & He & -> & Hne). split; [done|]. exists (sid, r). split; [done|].
    apply elem_of_scan, list_elem_of_filter. split; [done|]. by apply elem_of_map_to_list.
Qed.

Lemma loaded_subscriptions d x :
  x ∈ snap_subscriptions (load_snapshot d) ↔
  ∃ id r, db_subscriptions d !! id = Some r ∧ s_enabled r = true ∧ channels_of id d ≠ [] ∧
    x = snapshot_subscription (id, r) (channels_of id d).
Proof.
  unfold load_snapshot. rewrite build_snapshot_eq. cbn [snap_subscriptions].
  rewrite list_elem_of_fmap. split.
  - intros ([[id r] chs] & -> & (? & ? & -> & ?)%elem_of_bindings). by exists id, r.
  - intros (id & r & ? & ? & ? & ->). exists ((id, r), channels_of id d).
    split; [done|]. by apply elem_of_bindings.
Qed.

Lemma loaded_chain d c :
  c ∈ snap_chains (load_snapshot d) →
  ∃ id r, db_chains d !! id = Some r ∧ c = snapshot_chain (id, r).
Proof.
  unfold load_snapshot. rewrite build_snapshot_eq. cbn [snap_chains].
  rewrite list_elem_of_filter, list_elem_of_fmap. intros (_ & [id r] & -> & Hc).
  apply elem_of_scan, list_elem_of_filter in Hc as [_ Hc%elem_of_map_to_list].
  by exists id, r.
Qed.

Lemma loaded_channels d :
  channel_entries_ok d (add_channels [] (concat (list_enabled_with_channels d).*2)) ∧
  ∀ id r c, db_subscriptions d !! id = Some r → s_enabled r = true → c ∈ channels_of id d →
    c.1 ∈ (add_channels [] (concat (list_enabled_with_channels d).*2)).*1.
Proof.
  destruct (add_channels_ok d (concat (list_enabled_with_channels d).*2) []) as [Hok Hin].
  - split; [constructor|]. by intros k c ?%not_elem_of_nil.
  - intros c (chs & Hchs & Hc)%elem_of_concat.
    apply list_elem_of_fmap in Hchs as ([s chs'] & -> & Hs).
    unfold list_enabled_with_channels in Hs. apply list_elem_of_fmap in Hs as (s' & [= -> ->] & _).
    cbn [snd] in Hc. apply elem_of_channels_of in Hc. by destruct Hc.
  - split; [done|]. intros id r c Hr He Hc. apply Hin. right.
    apply list_elem_of_fmap. exists c. split; [done|]. apply elem_of_concat.
    exists (channels_of id d). split; [|done]. apply list_elem_of_fmap.
    exists ((id, r), channels_of id d). split; [done|].
    enough (((id, r), channels_of id d) ∈ filter (λ sb, sb.2 ≠ []) (list_enabled_with_channels d))
      as [_ Hin']%list_elem_of_filter by done.
    apply elem_of_bindings. split_and!; try done.
    intros E. rewrite E in Hc. by apply not_elem_of_nil in Hc.
Qed.

Lemma channel_entries_ids d m : channel_entries_ok d m → ch_id <$> m.*2 = m.*1.
Proof.
  intros [_ Hm]. rewrite <- list_fmap_compose. apply list_fmap_ext.
  intros i [k c] Hi%list_elem_of_lookup_2. by destruct (Hm _ _ Hi) as (r & _ & ->).
Qed.

Lemma channel_entries_by_id d m k :
  channel_entries_ok d m → k ∈ m.*1 →
  channels_by_id m.*2 !! k = (λ r, snapshot_channel (k, r)) <$> db_channels d !! k.
Proof.
  intros [Hnd Hm] Hk. unfold channels_by_id.
  assert ((λ c, (ch_id c, c)) <$> m.*2 = m) as ->.
  { rewrite <- list_fmap_compose. rewrite <- (list_fmap_id m) at 2.
    apply list_fmap_ext. intros i [k' c] Hi%list_elem_of_lookup_2.
    destruct (Hm _ _ Hi) as (r & _ & ->). done. }
  apply list_elem_of_fmap in Hk as ([k' c] & -> & Hin). cbn [fst].
  rewrite (dict_comp_lookup m k' c Hnd Hin). destruct (Hm _ _ Hin) as (r & -> & ->). done.
Qed.

(** A loaded subscription resolves, within the snapshot, to the channels it is bound to. *)
Lemma loaded_resolves d id r :
  db_subscriptions d !! id = Some r → s_enabled r = true →
  channels_for_subscription (load_snapshot d) (snapshot_subscription (id, r) (channels_of id d)) =
  snapshot_channel <$> channels_of id d.
Proof.
  intros Hr He. destruct (loaded_channels d) as [Hok Hkeys].
  unfold channels_for_subscription, resolve_channels, load_snapshot. rewrite build_snapshot_eq.
  cbn [snap_channels snapshot_subscription sub_channel_ids].
  apply omap_keys. intros [k r'] Hc.
  cbn [fst]. rewrite (channel_entries_by_id d _ k Hok (Hkeys _ _ _ Hr He Hc)).
  apply elem_of_channels_of in Hc as [_ Hc]. cbn [fst snd] in Hc. by rewrite Hc.
Qed.

(** C8 The worker's snapshot is the active configuration, whatever order the engine scans
    tables in: its subscriptions are the enabled rows bound to at least one existing channel; each
    resolves, within the snapshot, to exactly the channels it is bound to; its chains are the enabled
    chains some such subscription watches; no identifier occurs twice. *)
Theorem load_snapshot_is_active_config d :
  let snap := load_snapshot d in
  (∀ x, x ∈ snap_subscriptions snap ↔
     ∃ id r, db_subscriptions d !! id = Some r ∧ s_enabled r = true ∧
       (∃ cid, (id, cid) ∈ db_bindings d ∧ is_Some (db_channels d !! cid)) ∧
       x = snapshot_subscription (id, r) (channels_of id d)) ∧
  (∀ x, x ∈ snap_subscriptions snap →
     channels_for_subscription snap x = snapshot_channel <$> channels_of (sub_id x) d ∧
     ∀ c, c ∈ channels_for_subscription snap x ↔
       ∃ r, (sub_id x, ch_id c) ∈ db_bindings d ∧ db_channels d !! ch_id c = Some r ∧
            c = snapshot_channel (ch_id c, r)) ∧
  (∀ c, c ∈ snap_chains snap ↔
     ∃ id r, db_chains d !! id = Some r ∧ c_enabled r = true ∧ c = snapshot_chain (id, r) ∧
       ∃ x, x ∈ snap_subscriptions snap ∧ sub_chain_id x = id) ∧
  NoDup (sub_id <$> snap_subscriptions snap) ∧ NoDup (chain_id <$> snap_chains snap) ∧
  NoDup (ch_id <$> snap_channels snap).
Proof.
  cbn zeta. destruct (loaded_channels d) as [Hok _]. split_and!.
  - intros x. rewrite loaded_subscriptions. by setoid_rewrite channels_of_nil.
  - intros x (id & r & Hr & He & Hne & ->)%loaded_subscriptions.
    pose proof (loaded_resolves d id r Hr He) as Heq.
    cbn [snapshot_subscription sub_id fst] in *. split; [done|]. intros c. rewrite Heq. clear Heq.
    rewrite list_elem_of_fmap. split.
    + intros ([k r'] & -> & [? ?]%elem_of_channels_of). by exists r'.
    + intros (r' & ? & ? & Hc). exists (ch_id c, r'). split; [done|]. by apply elem_of_channels_of.
  - intros c. unfold load_snapshot. rewrite build_snapshot_eq. cbn [snap_chains snap_subscriptions].
    rewrite list_elem_of_filter, elem_of_list_to_set, !list_elem_of_fmap. split.
    + intros [(x & Hx & Hin) ([id r] & -> & Hc)].
      apply elem_of_scan, list_elem_of_filter in Hc as [He Hc%elem_of_map_to_list].
      exists id, r. split_and!; try done. by exists x.
    + intros (id & r & Hr & He & -> & x & Hx & Hid). split; [by exists x|].
      exists (id, r). split; [done|]. apply elem_of_scan, list_elem_of_filter.
      split; [done|]. by apply elem_of_map_to_list.
  - unfold load_snapshot. rewrite build_snapshot_eq. cbn [snap_subscriptions].
    rewrite <- list_fmap_compose.
    apply (sublist_NoDup _ ((λ sb, sb.1.1) <$> list_enabled_with_channels d)).
    + unfold list_enabled_with_channels. rewrite <- list_fmap_compose.
      exact (NoDup_table_filter d (λ s, s_enabled s.2 = true) (db_subscriptions d)).
    + apply fmap_sublist, sublist_filter.
  - unfold load_snapshot. rewrite build_snapshot_eq. cbn [snap_chains].
    apply (sublist_NoDup _ (chain_id <$> (snapshot_chain <$> chain_list_enabled d))).
    + rewrite <- list_fmap_compose.
      exact (NoDup_table_filter d (λ c, c_enabled c.2 = true) (db_chains d)).
    + apply fmap_sublist, sublist_filter.
  - unfold load_snapshot. rewrite build_snapshot_eq. cbn [snap_channels].
    rewrite (channel_entries_ids d _ Hok). exact (proj1 Hok).
Qed.
End load_snapshot_spec.

(** ** Clean-up of delivered records *)
Section cleanup.
Context `{L : Sql} {SL : SqlLaws}.

(** The creation times of the success rows, newest first *)
Definition success_times (d : Db) : list Z :=
  merge_sort Z.ge ((λ r, d_created_at r.2) <$> success_rows d).

Lemma success_times_sorted d : StronglySorted Z.ge (success_times d).
Proof.
  apply StronglySorted_merge_sort; [intros x y z; lia|intros x y; lia].
Qed.

Lemma success_times_unique d l :
  StronglySorted Z.ge l → l ≡ₚ (λ r, d_created_at r.2) <$> success_rows d → success_times d = l.
Proof.
  intros Hs Hp. apply (StronglySorted_unique_strong Z.ge);
    [intros; lia|apply success_times_sorted|done|].
  unfold success_times. by rewrite merge_sort_Permutation.
Qed.

Lemma length_success_times d : length (success_times d) = length (success_rows d).
Proof. unfold success_times. by rewrite merge_sort_Permutation, length_fmap. Qed.

(** What one statement leaves of a list sorted newest first *)
Definition spare (keep batch : nat) {A} (l : list A) : list A :=
  take keep l ++ drop batch (drop keep l).

Lemma spare_split {A} keep batch (l : list A) :
  l ≡ₚ spare keep batch l ++ take batch (drop keep l).
Proof.
  unfold spare. rewrite <- (take_drop keep l) at 1.
  rewrite <- (take_drop batch (drop keep l)) at 1. solve_Permutation.
Qed.

Lemma fmap_spare {A B} (f : A → B) keep batch l :
  f <$> spare keep batch l = spare keep batch (f <$> l).
Proof. unfold spare. by rewrite fmap_app, fmap_take, !fmap_drop, <- fmap_drop. Qed.

Lemma spare_sorted keep batch l : StronglySorted Z.ge l → StronglySorted Z.ge (spare keep batch l).
Proof.
  intros Hs. rewrite <- (take_drop keep l), StronglySorted_app in Hs.
  destruct Hs as (Hge & H1 & H2). rewrite <- (take_drop batch (drop keep l)) in H2.
  apply StronglySorted_app. split_and!; [|done|by apply StronglySorted_app_1_r in H2].
  intros x y Hx Hy. apply Hge; [done|].
  rewrite <- (take_drop batch (drop keep l)). apply elem_of_app. by right.
Qed.

Lemma elem_of_keyed_app {A} (l1 l2 : list (string * A)) x :
  NoDup (l1 ++ l2).*1 →
  (x ∈ l1 ↔ x ∈ l1 ++ l2 ∧ x.1 ∉ l2.*1) ∧ (x ∈ l2 ↔ x ∈ l1 ++ l2 ∧ x.1 ∈ l2.*1).
Proof.
  rewrite fmap_app, NoDup_app, elem_of_app. intros (_ & Hdisj & _).
  assert (x ∈ l2 → x.1 ∈ l2.*1) by (intros ?; apply list_elem_of_fmap; eauto).
  assert (x ∈ l1 → x.1 ∉ l2.*1).
  { intros ?. apply Hdisj, list_elem_of_fmap. eauto. }
  tauto.
Qed.

Lemma elem_of_success_rows d x :
  x ∈ success_rows d ↔ db_deliveries d !! x.1 = Some x.2 ∧ d_status x.2 = Delivery_success.
Proof.
  unfold success_rows. rewrite list_elem_of_filter. destruct x. rewrite elem_of_map_to_list.
  cbn [fst snd]. tauto.
Qed.

Lemma NoDup_success_rows d : NoDup (success_rows d).*1.
Proof.
  apply (sublist_NoDup _ (map_to_list (db_deliveries d)).*1);
    [apply (NoDup_fst_map_to_list (db_deliveries d))|].
  apply fmap_sublist, sublist_filter.
Qed.

(** The rows the statement keeps and those it deletes, of the success rows in its own order *)
Lemma cleanup_split keep batch d n d' :
  cleanup_success keep batch d = (n, d') →
  let l := sql_newest_first d (success_rows d) in
  success_rows d' ≡ₚ spare keep batch l ∧ n = length (take batch (drop keep l)) ∧
  ∀ id, db_deliveries d' !! id =
    if decide (id ∈ (take batch (drop keep l)).*1) then None else db_deliveries d !! id.
Proof.
  unfold cleanup_success. set (l := sql_newest_first d (success_rows d)).
  intros [= <- <-]. cbn zeta. rewrite <- fmap_take.
  set (gone := take batch (drop keep l)).
  assert (Hl : l ≡ₚ spare keep batch l ++ gone) by apply spare_split.
  assert (Hsucc : ∀ x, x ∈ spare keep batch l ++ gone ↔
    db_deliveries d !! x.1 = Some x.2 ∧ d_status x.2 = Delivery_success).
  { intros x. rewrite <- Hl. unfold l. rewrite sql_newest_first_perm. apply elem_of_success_rows. }
  assert (Hnd : NoDup (spare keep batch l ++ gone).*1).
  { rewrite <- Hl. unfold l. rewrite sql_newest_first_perm. apply NoDup_success_rows. }
  assert (Hnd2 : NoDup (spare keep batch l) ∧ NoDup gone).
  { apply (NoDup_fmap_1 fst), NoDup_app in Hnd. tauto. }
  split_and!.
  - apply NoDup_Permutation; [apply (NoDup_fmap_1 fst), NoDup_success_rows|apply Hnd2|]. intros x.
    rewrite elem_of_success_rows. cbn [set_deliveries db_deliveries].
    rewrite (proj1 (elem_of_keyed_app _ _ x Hnd)), Hsucc, map_lookup_filter_Some. tauto.
  - apply Permutation_length, NoDup_Permutation;
      [apply NoDup_filter, NoDup_map_to_list|apply Hnd2|]. intros x.
    rewrite list_elem_of_filter, (proj2 (elem_of_keyed_app _ _ x Hnd)), Hsucc.
    destruct x as [id r]. rewrite elem_of_map_to_list. cbn [fst snd].
    split; [|tauto]. intros [Hin Hr]. split_and!; try done.
    apply list_elem_of_fmap in Hin as ([id' r'] & -> & Hin). cbn [fst] in *.
    assert ((id', r') ∈ spare keep batch l ++ gone) as [? ?]%Hsucc by (apply elem_of_app; by right).
    cbn [fst snd] in *. by simplify_eq.
  - intros id. cbn [set_deliveries db_deliveries]. destruct (decide _) as [Hin|Hin].
    + apply map_lookup_filter_None. right. intros r _ Hr. by apply Hr.
    + destruct (db_deliveries d !! id) as [r|] eqn:E.
      * by apply map_lookup_filter_Some.
      * apply map_lookup_filter_None. by left.
Qed.

(** [k] rounds of [_run_cleanup_loop] with no delivery in between *)
Definition cleanup_rounds (k keep batch : nat) (d : Db) : Db :=
  Nat.iter k (λ d, (cleanup_success keep batch d).2) d.

Lemma length_spare {A} keep batch (l : list A) :
  length (spare keep batch l) = (length l - min batch (length l - keep))%nat.
Proof. unfold spare. rewrite length_app, length_take, !length_drop. lia. Qed.

Lemma last_spare {A} keep batch (l : list A) :
  (keep + batch < length l)%nat → last (spare keep batch l) = last l.
Proof.
  intros Hlt. transitivity (last (take (keep + batch) l ++ drop (keep + batch) l));
    [|by rewrite take_drop].
  unfold spare. rewrite drop_drop. destruct (drop (keep + batch) l) eqn:E.
  - apply (f_equal length) in E. rewrite length_drop in E. simpl in E. lia.
  - by rewrite !last_app_cons.
Qed.

Lemma cleanup_times keep batch d n d' :
  cleanup_success keep batch d = (n, d') →
  success_times d' = spare keep batch (success_times d) ∧
  n = min batch (length (success_rows d) - keep).
Proof.
  intros (Hp & -> & _)%cleanup_split.
  assert (Hl : success_times d =
    (λ r, d_created_at r.2) <$> sql_newest_first d (success_rows d)).
  { apply success_times_unique.
    - apply (StronglySorted_fmap _ newer); [|apply sql_newest_first_sorted].
      intros x y. unfold newer. lia.
    - by rewrite sql_newest_first_perm. }
  split.
  - apply success_times_unique; [apply spare_sorted, success_times_sorted|].
    by rewrite Hp, fmap_spare, Hl.
  - rewrite length_take, length_drop. by rewrite sql_newest_first_perm.
Qed.

Lemma cleanup_others keep batch d n d' :
  cleanup_success keep batch d = (n, d') →
  (∀ id r, db_deliveries d' !! id = Some r → db_deliveries d !! id = Some r) ∧
  (∀ id r, d_status r ≠ Delivery_success → db_deliveries d !! id = Some r →
     db_deliveries d' !! id = Some r) ∧
  d' = set_deliveries (db_deliveries d') d.
Proof.
  intros H. pose proof (cleanup_split _ _ _ _ _ H) as (_ & _ & Hlk). split_and!.
  - intros id r. rewrite Hlk. by case_decide.
  - intros id r Hst Hr. rewrite Hlk. rewrite decide_False; [done|].
    intros ([id' r'] & -> & Hin)%list_elem_of_fmap. cbn [fst] in *.
    assert ((id', r') ∈ sql_newest_first d (success_rows d)) as Hin'.
    { rewrite (spare_split keep batch). apply elem_of_app. by right. }
    rewrite sql_newest_first_perm in Hin'. apply elem_of_success_rows in Hin' as [? ?].
    cbn [fst snd] in *. by simplify_eq.
  - unfold cleanup_success in H. by simplify_eq.
Qed.

(** One clean-up statement deletes min(batch, successes - keep) success rows and nothing
    else: of the creation times sorted newest first, positions keep to keep + batch go.  So the keep
    newest stay, but when more than a batch is spare it is the newest of the spare rows that
    are deleted, and the oldest row of the table stays. *)
Lemma cleanup_success_exact keep batch d n d' :
  cleanup_success keep batch d = (n, d') →
  n = min batch (length (success_rows d) - keep) ∧
  length (success_rows d') = (length (success_rows d) - n)%nat ∧
  success_times d' = spare keep batch (success_times d) ∧
  (∀ id r, d_status r ≠ Delivery_success →
     db_deliveries d' !! id = Some r ↔ db_deliveries d !! id = Some r) ∧
  (∀ id r, db_deliveries d' !! id = Some r → db_deliveries d !! id = Some r) ∧
  d' = set_deliveries (db_deliveries d') d ∧
  ((keep + batch < length (success_rows d))%nat → last (success_times d') = last (success_times d)).
Proof.
  intros H. destruct (cleanup_times _ _ _ _ _ H) as [Ht Hn].
  destruct (cleanup_others _ _ _ _ _ H) as (Hsub & Hkeep & Hd). split_and!; try done.
  - by rewrite <- !length_success_times, Ht, length_spare, Hn, length_success_times.
  - intros id r Hst. split; eauto.
  - intros Hlt. rewrite Ht. apply last_spare. by rewrite length_success_times.
Qed.

Lemma cleanup_rounds_invariant k keep batch d :
  (1 ≤ batch)%nat → (length (success_rows d) ≤ keep + k * batch)%nat →
  success_times (cleanup_rounds k keep batch d) = take keep (success_times d).
Proof.
  intros Hb. unfold cleanup_rounds.
  assert (∀ d, success_times (cleanup_success keep batch d).2 = spare keep batch (success_times d))
    as Hround by (intros d'; by destruct (cleanup_times keep batch d' _ _ (surjective_pairing _))).
  revert d. induction k as [|k IH]; intros d Hlen.
  - simpl. rewrite take_ge; [done|]. rewrite length_success_times. lia.
  - rewrite Nat.iter_succ_r. rewrite IH, Hround.
    + unfold spare. rewrite take_app. rewrite take_take, length_take, Nat.min_id.
      destruct (decide (keep ≤ length (success_times d))%nat).
      * by rewrite Nat.min_l, Nat.sub_diag, take_0, app_nil_r by lia.
      * rewrite drop_drop, (drop_ge _ (keep + batch)), take_nil by lia. by rewrite app_nil_r.
    + rewrite <- !length_success_times, Hround, length_spare in *.
      rewrite length_success_times in *. lia.
Qed.

Lemma cleanup_rounds_others k keep batch d id r :
  d_status r ≠ Delivery_success →
  db_deliveries (cleanup_rounds k keep batch d) !! id = Some r ↔ db_deliveries d !! id = Some r.
Proof.
  intros Hr. unfold cleanup_rounds. induction k as [|k IH]; [done|].
  rewrite Nat.iter_succ. rewrite <- IH.
  set (d1 := Nat.iter k _ d).
  destruct (cleanup_others keep batch d1 _ _ (surjective_pairing _)) as (Hsub & Hkeep & _).
  split; eauto.
Qed.

(** C32 The clean-up loop converges: with no deliveries in between, rounds enough to delete the
    excess batch by batch leave exactly the [keep] newest success rows, fewer when there were
    fewer, every other row is still there, and further rounds delete nothing. *)
Theorem cleanup_converges k keep batch d :
  (1 ≤ batch)%nat → (length (success_rows d) - keep ≤ k * batch)%nat →
  let d' := cleanup_rounds k keep batch d in
  success_times d' = take keep (success_times d) ∧
  length (success_rows d') = min keep (length (success_rows d)) ∧
  (∀ id r, d_status r ≠ Delivery_success →
     db_deliveries d' !! id = Some r ↔ db_deliveries d !! id = Some r) ∧
  (cleanup_success keep batch d').1 = 0%nat.
Proof.
  intros Hb Hk d'. assert (Ht : success_times d' = take keep (success_times d))
    by (apply cleanup_rounds_invariant; [done|lia]).
  assert (Hlen : length (success_rows d') = min keep (length (success_rows d)))
    by (by rewrite <- !length_success_times, Ht, length_take).
  split_and!; [done..|intros; by apply cleanup_rounds_others|].
  destruct (cleanup_times keep batch d' _ _ (surjective_pairing _)) as [_ ->].
  rewrite Hlen. lia.
Qed.
End cleanup.

Definition toy_deliveries : Db :=
  let r st t := mkDeliveryRecordRow "s" "c" "e" [] None 1 st t None false in
  set_deliveries (list_to_map
    [("a", r Delivery_success 1); ("b", r Delivery_success 2); ("c", r Delivery_failed 3);
     ("d", r Delivery_success 4); ("e", r Delivery_success 5)]) empty_db.

Lemma cleanup_success_exact_witness :
  let out := cleanup_success (L:=ToySql) 1 1 toy_deliveries in
  out.1 = 1%nat ∧ success_times out.2 = [5; 2; 1].
Proof.
  destruct (cleanup_success_exact (L:=ToySql) (SL:=ToySql_laws) 1 1 toy_deliveries _ _
    (surjective_pairing _)) as (Hn & _ & Ht & _).
  split; [rewrite Hn; vm_compute; reflexivity|rewrite Ht; vm_compute; reflexivity].
Defined.

Lemma cleanup_converges_witness :
  (3 ≤ 3 * 1)%nat ∧
  success_times (cleanup_rounds (L:=ToySql) 3 1 1 toy_deliveries) = [5].
Proof.
  split; [lia|].
  destruct (cleanup_converges (L:=ToySql) (SL:=ToySql_laws) 3 1 1 toy_deliveries) as [Ht _];
    [lia|vm_compute; lia|].
  rewrite Ht. vm_compute. reflexivity.
Defined.

(** ** Referential integrity *)
Section integrity.
Context {L : Sql}.

(** One statement of a repository, whatever its outcome *)
Inductive db_step (d : Db) : Db → Prop :=
  | step_chain_create id r o d' : chain_create id r d = (o, d') → db_step d d'
  | step_chain_update id f o d' : chain_update id f d = (o, d') → db_step d d'
  | step_chain_delete id : db_step d (chain_delete id d)
  | step_channel_create id r o d' : channel_create id r d = (o, d') → db_step d d'
  | step_channel_update id f o d' : channel_update id f d = (o, d') → db_step d d'
  | step_channel_delete id : db_step d (channel_delete id d)
  | step_subscription_create id r o d' : subscription_create id r d = (o, d') → db_step d d'
  | step_subscription_update id f o d' : subscription_update id f d = (o, d') → db_step d d'
  | step_subscription_delete id : db_step d (subscription_delete id d)
  | step_bind s c o d' : bind_channel_row s c d = (o, d') → db_step d d'
  | step_unbind s c : db_step d (unbind_channel_row s c d)
  | step_abi_create id r o d' : abi_create id r d = (o, d') → db_step d d'
  | step_abi_delete id : db_step d (abi_delete id d)
  | step_checkpoint id n h o d' : checkpoint_upsert id n h d = (o, d') → db_step d d'
  | step_version o d' : version_bump d = (o, d') → db_step d d'
  | step_delivery_create id now s c ch p e a st rp o d' :
      delivery_create id now s c ch p e a st rp d = (o, d') → db_step d d'
  | step_delivery_update id f o d' : delivery_update id f d = (o, d') → db_step d d'
  | step_delivery_delete id : db_step d (delivery_delete id d)
  | step_cleanup keep batch : db_step d (cleanup_success keep batch d).2.

Record refs_ok (d : Db) : Prop := {
  sub_chain_ok : ∀ id r, db_subscriptions d !! id = Some r → is_Some (db_chains d !! s_chain_id r);
  sub_abi_ok : ∀ id r a, db_subscriptions d !! id = Some r → s_abi_id r = Some a →
    is_Some (db_abis d !! a);
  bind_sub_ok : ∀ s c, (s, c) ∈ db_bindings d → is_Some (db_subscriptions d !! s);
  bind_channel_ok : ∀ s c, (s, c) ∈ db_bindings d → is_Some (db_channels d !! c);
  checkpoint_ok : ∀ id, is_Some (db_checkpoints d !! id) → is_Some (db_chains d !! id);
}.

Lemma is_Some_insert_mono {V} (m : gmap string V) k v k' :
  is_Some (m !! k') → is_Some (<[k := v]> m !! k').
Proof. intros ?. apply lookup_insert_is_Some'. by right. Qed.

Lemma has_spec {V} (m : gmap string V) k : has m k = true ↔ is_Some (m !! k).
Proof. apply bool_decide_eq_true. Qed.

Lemma subscription_refs_spec d r :
  subscription_refs_ok d r = true ↔
  is_Some (db_chains d !! s_chain_id r) ∧ (∀ a, s_abi_id r = Some a → is_Some (db_abis d !! a)).
Proof.
  unfold subscription_refs_ok. rewrite andb_true_iff, has_spec.
  destruct (s_abi_id r); simpl; [rewrite has_spec|]; naive_solver.
Qed.

Lemma check_fk_ok b : sql_fk = true → check_fk b = Ok tt → b = true.
Proof. unfold check_fk. intros ->. by destruct b. Qed.

(** Statements that delete nothing that is referred to: new rows have their references *)
Lemma refs_ok_grow d d' :
  refs_ok d →
  (∀ id, is_Some (db_chains d !! id) → is_Some (db_chains d' !! id)) →
  (∀ id, is_Some (db_abis d !! id) → is_Some (db_abis d' !! id)) →
  (∀ id, is_Some (db_subscriptions d !! id) → is_Some (db_subscriptions d' !! id)) →
  (∀ id, is_Some (db_channels d !! id) → is_Some (db_channels d' !! id)) →
  (∀ id r, db_subscriptions d' !! id = Some r →
     db_subscriptions d !! id = Some r ∨ subscription_refs_ok d r = true) →
  (∀ s c, (s, c) ∈ db_bindings d' →
     (s, c) ∈ db_bindings d ∨ is_Some (db_subscriptions d !! s) ∧ is_Some (db_channels d !! c)) →
  (∀ id, is_Some (db_checkpoints d' !! id) →
     is_Some (db_checkpoints d !! id) ∨ is_Some (db_chains d !! id)) →
  refs_ok d'.
Proof.
  intros [] Hc Ha Hs Hh Hrow Hb Hk. split.
  - intros id r [?|[? _]%subscription_refs_spec]%Hrow; eauto.
  - intros id r a [?|[_ Hab]%subscription_refs_spec]%Hrow ?; eauto.
  - intros s c [?|[? _]]%Hb; eauto.
  - intros s c [?|[_ ?]]%Hb; eauto.
  - intros id [?|?]%Hk; eauto.
Qed.

Ltac grow :=
  eapply refs_ok_grow; [eassumption|..]; cbn [set_chains set_abis set_subscriptions set_channels
    set_bindings set_checkpoints set_version set_deliveries db_chains db_abis db_subscriptions
    db_channels db_bindings db_checkpoints];
  try by eauto using is_Some_insert_mono.

Lemma bind_keeps_refs d s c o d' :
  sql_fk = true → bind_channel_row s c d = (o, d') → refs_ok d → refs_ok d'.
Proof.
  unfold bind_channel_row. intros Hfk H Hd.
  case_bool_decide; [by simplify_eq|]. destruct (check_fk _) as [[]|] eqn:E; simplify_eq; [|done].
  apply check_fk_ok, andb_true_iff in E as [Hs%has_spec Hc%has_spec]; [|done].
  grow. intros s' c' [[= -> ->]%elem_of_singleton|?]%elem_of_union; auto.
Qed.

Lemma subscription_write_keeps_refs d id r :
  sql_fk = true → check_fk (subscription_refs_ok d r) = Ok tt → refs_ok d →
  refs_ok (set_subscriptions (<[id := r]> (db_subscriptions d)) d).
Proof.
  intros Hfk E%check_fk_ok Hd; [|done]. grow.
  intros id' r' [[-> ->]|[? ?]]%lookup_insert_Some; auto.
Qed.

Lemma checkpoint_keeps_refs d id n h o d' :
  sql_fk = true → checkpoint_upsert id n h d = (o, d') → refs_ok d → refs_ok d'.
Proof.
  unfold checkpoint_upsert, checkpoint_get. intros Hfk H Hd.
  destruct (check_row _); [|by simplify_eq].
  destruct (db_checkpoints d !! id) eqn:E.
  - simplify_eq. grow. intros id' [<-|?]%lookup_insert_is_Some'; [rewrite E|]; eauto.
  - destruct (check_fk _) as [[]|] eqn:Ec; simplify_eq; [|done].
    apply check_fk_ok, has_spec in Ec; [|done].
    grow. intros id' [<-|?]%lookup_insert_is_Some'; eauto.
Qed.

Lemma chain_delete_keeps_refs d id : sql_fk = true → refs_ok d → refs_ok (chain_delete id d).
Proof.
  unfold chain_delete. intros -> [].
  destruct (db_chains d !! id) as [row|] eqn:E; [|done]. unfold cascade_subscriptions. split; csimpl.
  - intros s r [Hr Hne%bool_decide_eq_false]%map_lookup_filter_Some. cbn [snd] in Hne.
    rewrite lookup_delete_ne by done. eauto.
  - intros s r a [Hr _]%map_lookup_filter_Some. eauto.
  - intros s c [Hdrop Hin]%elem_of_filter. cbn [fst] in Hdrop.
    apply andb_false_iff in Hdrop as [Hh|Hh].
    + exfalso. destruct (bind_sub_ok0 _ _ Hin) as [r Hr].
      apply bool_decide_eq_false in Hh. apply Hh. by rewrite Hr.
    + apply negb_false_iff, has_spec in Hh. done.
  - intros s c [_ Hin]%elem_of_filter. eauto.
  - intros k [Hne Hk]%lookup_delete_is_Some. rewrite lookup_delete_ne by done. eauto.
Qed.

Lemma subscription_delete_keeps_refs d id :
  sql_fk = true → refs_ok d → refs_ok (subscription_delete id d).
Proof.
  unfold subscription_delete. intros -> [].
  destruct (db_subscriptions d !! id) as [row|] eqn:E; [|done]. split; csimpl; eauto.
  - intros s r [_ Hr]%lookup_delete_Some. eauto.
  - intros s r a [_ Hr]%lookup_delete_Some. eauto.
  - intros s c [Hne Hin]%elem_of_filter. cbn [fst] in Hne.
    rewrite lookup_delete_ne by done. eauto.
  - intros s c [_ Hin]%elem_of_filter. eauto.
Qed.

Lemma channel_delete_keeps_refs d id :
  sql_fk = true → refs_ok d → refs_ok (channel_delete id d).
Proof.
  unfold channel_delete. intros -> [].
  destruct (db_channels d !! id) as [row|] eqn:E; [|done]. split; csimpl; eauto.
  - intros s c [_ Hin]%elem_of_filter. eauto.
  - intros s c [Hne Hin]%elem_of_filter. cbn [snd] in Hne.
    rewrite lookup_delete_ne by done. eauto.
Qed.

Lemma abi_delete_keeps_refs d id : sql_fk = true → refs_ok d → refs_ok (abi_delete id d).
Proof.
  unfold abi_delete. intros -> [].
  destruct (db_abis d !! id) as [row|] eqn:E; [|done].
  assert (∀ r, s_chain_id (clear_abi id r) = s_chain_id r) as Hcl
    by (intros r; unfold clear_abi; by case_bool_decide).
  split; csimpl; eauto.
  - intros s r Hr. rewrite lookup_fmap in Hr. apply fmap_Some in Hr as (r' & Hr & ->).
    rewrite Hcl. eauto.
  - intros s r a Hr. rewrite lookup_fmap in Hr. apply fmap_Some in Hr as (r' & Hr & ->).
    unfold clear_abi.
    case_bool_decide as Hid; [done|]. intros Ha.
    rewrite lookup_delete_ne by congruence. eauto.
  - intros s c Hin. rewrite lookup_fmap. apply fmap_is_Some. eauto.
Qed.

Lemma db_step_keeps_refs d d' : sql_fk = true → db_step d d' → refs_ok d → refs_ok d'.
Proof.
  intros Hfk Hstep Hd. destruct Hstep as [id r o d' H|id f o d' H|id|id r o d' H|id f o d' H|id
    |id r o d' H|id f o d' H|id|s c o d' H|s c|id r o d' H|id|id n h o d' H|o d' H
    |id now s c ch p e a st rp o d' H|id f o d' H|id|keep batch].
  - unfold chain_create in H. repeat case_match; simplify_eq; try done. grow.
  - unfold chain_update in H. repeat case_match; simplify_eq; try done. grow.
  - by apply chain_delete_keeps_refs.
  - unfold channel_create in H. repeat case_match; simplify_eq; try done. grow.
  - unfold channel_update in H. repeat case_match; simplify_eq; try done. grow.
  - by apply channel_delete_keeps_refs.
  - unfold subscription_create in H. destruct (has _ _); simplify_eq; [done|].
    destruct (check_row _); simplify_eq; [|done]. destruct (check_fk _) as [[]|] eqn:E; simplify_eq; [|done].
    by apply subscription_write_keeps_refs.
  - unfold subscription_update in H. destruct (db_subscriptions d !! id); simplify_eq; [|done].
    destruct (check_row _); simplify_eq; [|done]. destruct (check_fk _) as [[]|] eqn:E; simplify_eq; [|done].
    by apply subscription_write_keeps_refs.
  - by apply subscription_delete_keeps_refs.
  - by eapply bind_keeps_refs.
  - unfold unbind_channel_row. grow. intros s' c' [? _]%elem_of_difference. by left.
  - unfold abi_create in H. repeat case_match; simplify_eq; try done. grow.
  - by apply abi_delete_keeps_refs.
  - by eapply checkpoint_keeps_refs.
  - unfold version_bump in H. case_match; simplify_eq; grow.
  - unfold delivery_create in H. repeat case_match; simplify_eq; try done. grow.
  - unfold delivery_update in H. repeat case_match; simplify_eq; try done. grow.
  - unfold delivery_delete. grow.
  - simpl. grow.
Qed.

(** C31 With foreign keys enforced, whatever statements the repositories execute, every
    subscription's chain and ABI exist, bindings join existing subscriptions and channels and
    checkpoints belong to existing chains; so the snapshot names every bound channel of an
    enabled subscription. *)
Theorem references_resolve `{!SqlLaws} d :
  sql_fk = true → rtc db_step empty_db d →
  refs_ok d ∧
  ∀ x cid, x ∈ snap_subscriptions (load_snapshot d) →
    (sub_id x, cid) ∈ db_bindings d → cid ∈ sub_channel_ids x.
Proof.
  intros Hfk Hsteps. assert (Hd : refs_ok d).
  { revert Hsteps. apply (rtc_ind_r (λ d, refs_ok d)).
    - split; simpl; intros *; rewrite ?lookup_empty; [done..|set_solver|set_solver|].
      by intros [? ?].
    - intros y z _ Hyz Hy. by apply (db_step_keeps_refs y). }
  split; [done|]. intros x cid (id & r & Hr & He & Hne & ->)%loaded_subscriptions.
  cbn [sub_id sub_channel_ids snapshot_subscription fst]. intros Hb.
  destruct (bind_channel_ok d Hd _ _ Hb) as [c Hc].
  apply list_elem_of_fmap. exists (cid, c). split; [done|]. by apply elem_of_channels_of.
Qed.
End integrity.

(** ** A concrete database *)
Definition toy_chain_row : ChainRow :=
  mkChainRow ChainKind_evm "http://a" None 2 3000 true None None 100 1000 ["http://b"] 10000.
Definition toy_sub_row (enabled : bool) : SubscriptionRow :=
  mkSubscriptionRow "transfers" "eth" None None MatchKind_token_transfer None [] enabled None None
    None.
Definition toy_channel_row : ChannelRow :=
  mkChannelRow "hook" ChannelType_http [("url", PStr "http://c")].

(** Chain [eth], channel [c], subscriptions [s] (bound), [t] (not bound), [u] (disabled) *)
Definition toy_db1 : Db := (chain_create (L:=ToySql) "eth" toy_chain_row empty_db).2.
Definition toy_db2 : Db := (channel_create (L:=ToySql) "c" toy_channel_row toy_db1).2.
Definition toy_db3 : Db := (subscription_create (L:=ToySql) "s" (toy_sub_row true) toy_db2).2.
Definition toy_db4 : Db := (subscription_create (L:=ToySql) "t" (toy_sub_row true) toy_db3).2.
Definition toy_db5 : Db := (subscription_create (L:=ToySql) "u" (toy_sub_row false) toy_db4).2.
Definition toy_db : Db := (bind_channel_row (L:=ToySql) "s" "c" toy_db5).2.

Lemma toy_db_reachable : rtc (db_step (L:=ToySql)) empty_db toy_db.
Proof.
  apply (rtc_l _ _ toy_db1); [eapply step_chain_create, surjective_pairing|].
  apply (rtc_l _ _ toy_db2); [eapply step_channel_create, surjective_pairing|].
  apply (rtc_l _ _ toy_db3); [eapply step_subscription_create, surjective_pairing|].
  apply (rtc_l _ _ toy_db4); [eapply step_subscription_create, surjective_pairing|].
  apply (rtc_l _ _ toy_db5); [eapply step_subscription_create, surjective_pairing|].
  apply (rtc_l _ _ toy_db); [eapply step_bind, surjective_pairing|done].
Qed.

Lemma load_snapshot_is_active_config_witness :
  (sub_id <$> snap_subscriptions (load_snapshot (L:=ToySql) toy_db)) = ["s"] ∧
  NoDup (sub_id <$> snap_subscriptions (load_snapshot (L:=ToySql) toy_db)).
Proof.
  split; [vm_compute; reflexivity|].
  apply (load_snapshot_is_active_config (L:=ToySql) (SL:=ToySql_laws) toy_db).
Defined.

Lemma references_resolve_witness :
  refs_ok toy_db ∧ sub_channel_ids <$> snap_subscriptions (load_snapshot (L:=ToySql) toy_db) = [["c"]].
Proof.
  split; [|vm_compute; reflexivity].
  exact (proj1 (references_resolve (L:=ToySql) (H:=ToySql_laws) toy_db eq_refl toy_db_reachable)).
Defined.
