(* ===== verification/Migrations.v ===== *)
(** * The database schema (core/config/models.py, migrations/versions/)

    The tables the ORM declares, the ten revisions as lists of schema operations, and what the documentation of
    the operations says of a database: [ddl] on its schema, [move] on its rows and [types] on the enum types of
    PostgreSQL, with what MySQL refuses.  Alembic and the
    database engine are the class [Ddl]; [ddl_laws] says that they do what [effect_on] says.  A cell holds
    NULL, a value, or what a server default evaluated to. *)
From S2P Require Import Prelude PyStr PyVal.

(** ** Column declarations *)
Inductive coltype :=
  | String_ (length : Z)
  | Text_
  | Integer_
  | BigInteger_
  | Boolean_
  | JSON_
  | DateTime_ (timezone : bool)
  | Enum_ (name : string) (values : list string).

(** [sa.text], [func.now()], [sa.false()] or a string *)
Inductive server_default :=
  | SqlText (e : string)
  | FuncNow
  | SqlFalse
  | Literal (e : string).

Record Column := mkColumn {
  col_name : string;
  col_type : coltype;
  col_nullable : bool;
  col_default : option server_default;
  col_primary_key : bool;
  col_foreign_key : option (string * string);    (** the table whose key it is, ON DELETE *)
}.

(** [sa.Column(name, type, nullable=...)], with a server default, with [primary_key=True] *)
Definition column (name : string) (ty : coltype) (nullable : bool) : Column :=
  mkColumn name ty nullable None false None.
Definition column_default (name : string) (ty : coltype) (d : server_default) : Column :=
  mkColumn name ty false (Some d) false None.
Definition set_primary_key (c : Column) : Column :=
  mkColumn (col_name c) (col_type c) false (col_default c) true (col_foreign_key c).
Definition set_foreign_key (fk : string * string) (c : Column) : Column :=
  mkColumn (col_name c) (col_type c) (col_nullable c) (col_default c) (col_primary_key c) (Some fk).
Definition set_nullable (b : bool) (c : Column) : Column :=
  mkColumn (col_name c) (col_type c) b (col_default c) (col_primary_key c) (col_foreign_key c).

#[export] Instance coltype_eq_dec : EqDecision coltype.
Proof. solve_decision. Defined.
#[export] Instance server_default_eq_dec : EqDecision server_default.
Proof. solve_decision. Defined.
#[export] Instance Column_eq_dec : EqDecision Column.
Proof. solve_decision. Defined.

Inductive constraint :=
  | PrimaryKeyConstraint (columns : list string)
  | ForeignKeyConstraint (column table ondelete : string).    (** to the column [id] of the table *)

(** A table: its columns, and its indexes with the column each is on *)
Record TableDef := mkTableDef {
  td_columns : gmap string Column;
  td_indexes : gmap string string;
}.
#[export] Instance TableDef_eq_dec : EqDecision TableDef.
Proof. solve_decision. Defined.
Abbreviation Schema := (gmap string TableDef).

Definition add_constraint (cols : gmap string Column) (c : constraint) : gmap string Column :=
  match c with
  | PrimaryKeyConstraint names => foldl (λ m n, alter set_primary_key n m) cols names
  | ForeignKeyConstraint n t od => alter (set_foreign_key (t, od)) n cols
  end.
Definition table_def (columns : list Column) (constraints : list constraint) : TableDef :=
  mkTableDef (foldl add_constraint (list_to_map ((λ c, (col_name c, c)) <$> columns)) constraints) ∅.

(** ** Operations *)
Inductive cell :=
  | Null
  | Val (v : pyval)
  | Default (d : server_default).
Definition is_null (c : cell) : bool := match c with Null => true | Val _ | Default _ => false end.
Abbreviation row := (gmap string cell).

Inductive op :=
  | create_table (name : string) (columns : list Column) (constraints : list constraint)
  | drop_table (name : string)
  | create_index (name table column : string)
  | drop_index (name table : string)
  | add_column (table : string) (c : Column)
  | drop_column (table name : string)
  | alter_nullable (table name : string) (nullable : bool)
  | rename_table (old new : string)
  | insert_into (table : string) (r : row).    (** [op.execute("INSERT INTO ...")] *)

(** A database: the schema and the rows of each table *)
Record Tables := mkTables {
  tb_schema : Schema;
  tb_rows : gmap string (list row);
}.
Definition no_tables : Tables := mkTables ∅ ∅.

(** A row has the columns of its table, and no NULL where the column is NOT NULL. *)
Definition holds_null (r : row) (c : string) : bool := from_option is_null false (r !! c).
Definition row_ok (t : TableDef) (r : row) : Prop :=
  dom r = dom (td_columns t) ∧
  map_Forall (λ c col, col_nullable col = false → holds_null r c = false) (td_columns t).

Definition on_table (n : string) (f : TableDef → option TableDef) (s : Schema) : option Schema :=
  t ← s !! n; t' ← f t; Some (<[n := t']> s).

(** Does a column of the table refer to the table [n]? *)
Definition references (n : string) (t : TableDef) : bool :=
  existsb (λ kc, match col_foreign_key kc.2 with Some (n', _) => bool_decide (n' = n) | None => false end)
    (map_to_list (td_columns t)).

Definition ddl (o : op) (s : Schema) : option Schema :=
  match o with
  | create_table n cols cs =>
      if bool_decide (is_Some (s !! n)) then None else
      if forallb (λ c, match c with
                       | ForeignKeyConstraint _ t _ => bool_decide (is_Some (s !! t))
                       | _ => true end) cs
      then Some (<[n := table_def cols cs]> s) else None
  | drop_table n =>
      _ ← s !! n;
      if existsb (λ kt, references n kt.2) (map_to_list s) then None else Some (delete n s)
  | create_index i n c =>
      on_table n (λ t, _ ← td_columns t !! c;
                       match td_indexes t !! i with
                       | None => Some (mkTableDef (td_columns t) (<[i := c]> (td_indexes t)))
                       | Some _ => None end) s
  | drop_index i n =>
      on_table n (λ t, _ ← td_indexes t !! i;
                       Some (mkTableDef (td_columns t) (delete i (td_indexes t)))) s
  | add_column n c =>
      on_table n (λ t, match td_columns t !! col_name c with
                       | None => Some (mkTableDef (<[col_name c := c]> (td_columns t)) (td_indexes t))
                       | Some _ => None end) s
  | drop_column n c =>
      on_table n (λ t, _ ← td_columns t !! c;
                       Some (mkTableDef (delete c (td_columns t)) (td_indexes t))) s
  | alter_nullable n c b =>
      on_table n (λ t, col ← td_columns t !! c;
                       Some (mkTableDef (<[c := set_nullable b col]> (td_columns t)) (td_indexes t))) s
  | rename_table a b =>
      t ← s !! a;
      match s !! b with None => Some (<[b := t]> (delete a s)) | Some _ => None end
  | insert_into n r =>
      t ← s !! n;
      if bool_decide (row_ok t r) then Some s else None
  end.

(** What an added column holds in the rows that are there *)
Definition fill (c : Column) : cell :=
  match col_default c with Some d => Default d | None => Null end.

(** The rows; [None]: an existing row would violate NOT NULL *)
Definition move (o : op) (rows : gmap string (list row)) : option (gmap string (list row)) :=
  match o with
  | create_table n _ _ => Some (<[n := []]> rows)
  | drop_table n => Some (delete n rows)
  | add_column n c =>
      if negb (col_nullable c) && is_null (fill c) && bool_decide (default [] (rows !! n) ≠ [])
      then None else Some (alter (fmap <[col_name c := fill c]>) n rows)
  | drop_column n c => Some (alter (fmap (delete c)) n rows)
  | alter_nullable n c false =>
      if existsb (λ r : row, holds_null r c) (default [] (rows !! n)) then None
      else Some rows
  | rename_table a b => Some (match rows !! a with Some l => <[b := l]> (delete a rows) | None => rows end)
  | insert_into n r => Some (alter (λ l, l ++ [r]) n rows)
  | create_index _ _ _ | drop_index _ _ | alter_nullable _ _ true => Some rows
  end.

Definition effect (o : op) (t : Tables) : option Tables :=
  s ← ddl o (tb_schema t); rows ← move o (tb_rows t); Some (mkTables s rows).

Fixpoint effects (l : list op) (t : Tables) : option Tables :=
  match l with [] => Some t | o :: l => t' ← effect o t; effects l t' end.

(** ** Engines *)
Inductive Dialect := SQLite | PostgreSQL | MySQL.

(** Alembic refuses [alter_column] without [existing_type] on MySQL, and MySQL a literal default of a JSON column. *)
Definition supports (dialect : Dialect) (o : op) : bool :=
  match dialect, o with
  | MySQL, alter_nullable _ _ _ => false
  | MySQL, add_column _ c =>
      match col_type c, col_default c with JSON_, Some (Literal _) => false | _, _ => true end
  | _, _ => true
  end.

(** The enum types a table brings with it on PostgreSQL: [create_table] makes them, and fails when one is there; [drop_table] by
    name leaves them.  No revision adds an enum column to a table. *)
Definition enum_types (columns : list Column) : list string :=
  omap (λ c, match col_type c with Enum_ name _ => Some name | _ => None end) columns.
Definition types (dialect : Dialect) (o : op) (tys : gset string) : option (gset string) :=
  match dialect, o with
  | PostgreSQL, create_table _ columns _ =>
      if existsb (λ n, bool_decide (n ∈ tys)) (enum_types columns) then None
      else Some (list_to_set (enum_types columns) ∪ tys)
  | _, _ => Some tys
  end.

Record Catalogue := mkCatalogue {
  da_tables : Tables;
  da_types : gset string;
}.

Definition effect_on (dialect : Dialect) (o : op) (d : Catalogue) : option Catalogue :=
  if supports dialect o then
    t ← effect o (da_tables d); tys ← types dialect o (da_types d); Some (mkCatalogue t tys)
  else None.

Fixpoint all_types (dialect : Dialect) (l : list op) (tys : gset string) : option (gset string) :=
  match l with [] => Some tys | o :: l => tys' ← types dialect o tys; all_types dialect l tys' end.

(** ** The ORM's tables (core/config/models.py) *)
Definition TimestampMixin : list Column :=
  [column_default "created_at" (DateTime_ true) FuncNow; column_default "updated_at" (DateTime_ true) FuncNow].

(** A declaration with its table name; [index=True] is listed apart, the index is named
    [ix_<table>_<column>]. *)
Definition index_name (table column : string) : string := "ix_" +:+ table +:+ "_" +:+ column.
Definition model (name : string) (columns : list Column) (indexed : list string) : string * TableDef :=
  (name, mkTableDef (list_to_map ((λ c, (col_name c, c)) <$> columns))
           (list_to_map ((λ c, (index_name name c, c)) <$> indexed))).

Definition pk (name : string) (ty : coltype) : Column := set_primary_key (column name ty false).
Definition fk (table ondelete : string) : Column → Column := set_foreign_key (table, ondelete).

Definition Chain_model := model "chains"
  ([pk "id" (String_ 64);
    column "kind" (Enum_ "chain_kind" ["evm"; "solana"]) false;
    column "rpc_http" Text_ false;
    column "rpc_ws" Text_ true;
    column "confirmations" Integer_ false;
    column "poll_interval_ms" Integer_ false;
    column "enabled" Boolean_ false;
    column "commitment" (String_ 32) true;
    column "trace_internal_calls" Boolean_ true;
    column_default "log_query_range_blocks" Integer_ (Literal "100");
    column_default "slot_query_range_blocks" Integer_ (Literal "1000");
    column_default "rpc_http_fallbacks" JSON_ (Literal "[]");
    column_default "rpc_timeout_ms" Integer_ (Literal "10000")] ++ TimestampMixin) [].

Definition Abi_model := model "abis"
  ([pk "id" (String_ 36);
    column "name" (String_ 255) false;
    column "kind" (Enum_ "abi_kind" ["evm_abi"; "solana_idl"]) false;
    column "body" JSON_ false] ++ TimestampMixin) [].

(** A foreign key without a type has the type of the key it refers to. *)
Definition Subscription_model := model "subscriptions"
  ([pk "id" (String_ 36);
    column "name" (String_ 255) false;
    fk "chains" "CASCADE" (column "chain_id" (String_ 64) false);
    column "address" (String_ 128) true;
    fk "abis" "SET NULL" (column "abi_id" (String_ 36) true);
    column "match_kind" (Enum_ "match_kind" ["native_transfer"; "token_transfer"; "event"; "call"]) false;
    column "match_name" (String_ 255) true;
    column "arg_filters" JSON_ false;
    column "enabled" Boolean_ false;
    column "start_block" BigInteger_ true;
    column "last_processed_block" BigInteger_ true;
    column "business_name" (String_ 255) true] ++ TimestampMixin) ["chain_id"; "address"].

Definition Channel_model := model "channels"
  ([pk "id" (String_ 36);
    column "name" (String_ 255) false;
    column "type" (Enum_ "channel_type" ["mq"; "http"; "ws"; "kafka"; "rabbitmq"]) false;
    column "config" JSON_ false] ++ TimestampMixin) [].

Definition SubscriptionChannel_model := model "subscription_channels"
  [fk "subscriptions" "CASCADE" (pk "subscription_id" (String_ 36));
   fk "channels" "CASCADE" (pk "channel_id" (String_ 36))] [].

Definition Checkpoint_model := model "checkpoints"
  [fk "chains" "CASCADE" (pk "chain_id" (String_ 64));
   column "last_block" BigInteger_ false;
   column "last_block_hash" (String_ 80) false;
   column_default "updated_at" (DateTime_ true) FuncNow] [].

Definition ConfigVersion_model := model "config_version"
  [pk "id" Integer_; column "version" BigInteger_ false] [].

Definition DeliveryRecord_model := model "delivery_records"
  [pk "id" (String_ 36);
   column "subscription_id" (String_ 36) false;
   column "channel_id" (String_ 36) false;
   column "chain_id" (String_ 64) false;
   column "event_payload" JSON_ false;
   column "error" Text_ true;
   column "attempts" Integer_ false;
   column "status" (String_ 16) false;
   column_default "created_at" (DateTime_ true) FuncNow;
   column "resolved_at" (DateTime_ true) true;
   column_default "is_replay" Boolean_ (Literal "0")] [].

(** [Base.metadata] *)
Definition metadata : Schema :=
  list_to_map [Chain_model; Abi_model; Subscription_model; Channel_model; SubscriptionChannel_model;
               Checkpoint_model; ConfigVersion_model; DeliveryRecord_model].

(** ** The revisions (migrations/versions/) *)
Record Revision := mkRevision {
  revision : string;
  down_revision : option string;
  upgrade : list op;
  downgrade : list op;
}.

Definition current_timestamp (name : string) : Column :=
  column_default name (DateTime_ true) (SqlText "(CURRENT_TIMESTAMP)").

Definition r0001_upgrade : list op := [
  create_table "abis"
    [column "id" (String_ 36) false;
     column "name" (String_ 255) false;
     column "kind" (Enum_ "abi_kind" ["evm_abi"; "solana_idl"]) false;
     column "body" JSON_ false;
     current_timestamp "created_at";
     current_timestamp "updated_at"]
    [PrimaryKeyConstraint ["id"]];
  create_table "chains"
    [column "id" (String_ 64) false;
     column "kind" (Enum_ "chain_kind" ["evm"; "solana"]) false;
     column "rpc_http" Text_ false;
     column "rpc_ws" Text_ true;
     column "confirmations" Integer_ false;
     column "poll_interval_ms" Integer_ false;
     column "enabled" Boolean_ false;
     current_timestamp "created_at";
     current_timestamp "updated_at"]
    [PrimaryKeyConstraint ["id"]];
  create_table "channels"
    [column "id" (String_ 36) false;
     column "name" (String_ 255) false;
     column "type" (Enum_ "channel_type" ["mq"; "http"; "ws"]) false;
     column "config" JSON_ false;
     current_timestamp "created_at";
     current_timestamp "updated_at"]
    [PrimaryKeyConstraint ["id"]];
  create_table "config_version"
    [column "id" Integer_ false;
     column "version" BigInteger_ false]
    [PrimaryKeyConstraint ["id"]];
  create_table "checkpoints"
    [column "chain_id" (String_ 64) false;
     column "last_block" BigInteger_ false;
     column "last_block_hash" (String_ 80) false;
     current_timestamp "updated_at"]
    [ForeignKeyConstraint "chain_id" "chains" "CASCADE"; PrimaryKeyConstraint ["chain_id"]];
  create_table "subscriptions"
    [column "id" (String_ 36) false;
     column "name" (String_ 255) false;
     column "chain_id" (String_ 64) false;
     column "address" (String_ 128) true;
     column "abi_id" (String_ 36) true;
     column "match_kind" (Enum_ "match_kind" ["native_transfer"; "token_transfer"; "event"; "call"]) false;
     column "match_name" (String_ 255) true;
     column "arg_filters" JSON_ false;
     column "enabled" Boolean_ false;
     current_timestamp "created_at";
     current_timestamp "updated_at"]
    [ForeignKeyConstraint "abi_id" "abis" "SET NULL"; ForeignKeyConstraint "chain_id" "chains" "CASCADE";
     PrimaryKeyConstraint ["id"]];
  create_index "ix_subscriptions_address" "subscriptions" "address";
  create_index "ix_subscriptions_chain_id" "subscriptions" "chain_id";
  create_table "subscription_channels"
    [column "subscription_id" (String_ 36) false;
     column "channel_id" (String_ 36) false]
    [ForeignKeyConstraint "channel_id" "channels" "CASCADE";
     ForeignKeyConstraint "subscription_id" "subscriptions" "CASCADE";
     PrimaryKeyConstraint ["subscription_id"; "channel_id"]];
  insert_into "config_version" (<["id" := Val (PInt 1)]> (<["version" := Val (PInt 0)]> ∅))].

Definition r0001_downgrade : list op := [
  drop_table "subscription_channels";
  drop_index "ix_subscriptions_chain_id" "subscriptions";
  drop_index "ix_subscriptions_address" "subscriptions";
  drop_table "subscriptions";
  drop_table "checkpoints";
  drop_table "config_version";
  drop_table "channels";
  drop_table "chains";
  drop_table "abis"].

Definition r0002 := mkRevision "0002" (Some "0001")
  [add_column "chains" (column "commitment" (String_ 32) true);
   add_column "chains" (column "trace_internal_calls" Boolean_ true)]
  [drop_column "chains" "trace_internal_calls";
   drop_column "chains" "commitment"].

Definition r0003 := mkRevision "0003" (Some "0002")
  [create_table "failed_deliveries"
    [pk "id" (String_ 36);
     column "subscription_id" (String_ 36) false;
     column "channel_id" (String_ 36) false;
     column "chain_id" (String_ 64) false;
     column "event_payload" JSON_ false;
     column "error" Text_ false;
     column_default "attempts" Integer_ (Literal "1");
     column_default "status" (String_ 16) (Literal "failed");
     column_default "created_at" (DateTime_ true) FuncNow;
     column "resolved_at" (DateTime_ true) true] []]
  [drop_table "failed_deliveries"].

Definition r0004 := mkRevision "0004" (Some "0003")
  [add_column "subscriptions" (column "start_block" BigInteger_ true)]
  [drop_column "subscriptions" "start_block"].

Definition r0005 := mkRevision "0005" (Some "0004")
  [add_column "subscriptions" (column "last_processed_block" BigInteger_ true);
   alter_nullable "failed_deliveries" "error" true]
  [drop_column "subscriptions" "last_processed_block";
   alter_nullable "failed_deliveries" "error" false].

Definition r0006 := mkRevision "0006" (Some "0005")
  [add_column "chains" (column_default "log_query_range_blocks" Integer_ (Literal "100"));
   add_column "chains" (column_default "slot_query_range_blocks" Integer_ (Literal "1000"))]
  [drop_column "chains" "slot_query_range_blocks";
   drop_column "chains" "log_query_range_blocks"].

Definition r0007 := mkRevision "0007" (Some "0006")
  [rename_table "failed_deliveries" "delivery_records"]
  [rename_table "delivery_records" "failed_deliveries"].

Definition r0008 := mkRevision "0008" (Some "0007")
  [add_column "chains" (column_default "rpc_http_fallbacks" JSON_ (Literal "[]"));
   add_column "chains" (column_default "rpc_timeout_ms" Integer_ (Literal "10000"))]
  [drop_column "chains" "rpc_timeout_ms";
   drop_column "chains" "rpc_http_fallbacks"].

Definition r0009 := mkRevision "0009" (Some "0008")
  [add_column "delivery_records" (column_default "is_replay" Boolean_ SqlFalse)]
  [drop_column "delivery_records" "is_replay"].

Definition r0010 := mkRevision "0010" (Some "0009")
  [add_column "subscriptions" (column "business_name" (String_ 255) true)]
  [drop_column "subscriptions" "business_name"].

Definition r0001 := mkRevision "0001" None r0001_upgrade r0001_downgrade.
Definition revisions : list Revision := [r0001; r0002; r0003; r0004; r0005; r0006; r0007; r0008; r0009; r0010].

(** The schema after the first [k] revisions *)
Fixpoint ddls (l : list op) (s : Schema) : option Schema :=
  match l with [] => Some s | o :: l => s' ← ddl o s; ddls l s' end.
Definition schema_at (k : nat) : option Schema := ddls (r ← take k revisions; upgrade r) ∅.

(** The enum types after the first [k] revisions, the first of which has never been downgraded *)
Definition types_at (dialect : Dialect) (k : nat) : gset string :=
  default ∅ (all_types dialect (r ← take k revisions; upgrade r) ∅).

(** What the names of tables become *)
Definition renamed (n : string) (o : op) : string :=
  match o with rename_table a b => if decide (n = a) then b else n | _ => n end.
Definition renamed_by (l : list op) (n : string) : string := foldl renamed n l.

(** ** The database behind Alembic *)
Class Ddl (D : Type) := {
  ddl_run : op → M D unit;
  ddl_view : D → Catalogue;
}.

Record ddl_laws (dialect : Dialect) (D : Type) `{!Ddl D} : Prop := {
  dl_done o d t : effect_on dialect o (ddl_view d) = Some t → ∃ d', ddl_run o d = (Ok tt, d') ∧ ddl_view d' = t;
  dl_unsupported o d : supports dialect o = false → ∃ e d', ddl_run o d = (Err e, d');
  dl_not_null o d : move o (tb_rows (da_tables (ddl_view d))) = None → ∃ e d', ddl_run o d = (Err e, d');
  dl_type_exists o d : types dialect o (da_types (ddl_view d)) = None → ∃ e d', ddl_run o d = (Err e, d');
}.

Definition migrate `{!Ddl D} (l : list op) : M D unit := mfor l ddl_run.
(** [alembic upgrade head] at revision number [k] *)
Definition pending (k : nat) : list op := r ← drop k revisions; upgrade r.

(** ** Against the models *)

(** Server defaults only serve the rows a migration finds; the ORM writes every column itself. *)
Definition erase_default (c : Column) : Column :=
  mkColumn (col_name c) (col_type c) (col_nullable c) None (col_primary_key c) (col_foreign_key c).
Definition erase_defaults (s : Schema) : Schema :=
  (λ t, mkTableDef (erase_default <$> td_columns t) (td_indexes t)) <$> s.
Definition set_type (ty : coltype) (c : Column) : Column :=
  mkColumn (col_name c) ty (col_nullable c) (col_default c) (col_primary_key c) (col_foreign_key c).

(** C24 The ten revisions build the schema of the models: every table, column, type, nullability, primary
    and foreign key and index, with one exception: the enum of [channels.type] has the values of the
    first revision, without "kafka" and "rabbitmq". *)
Theorem head_is_metadata :
  erase_defaults <$> schema_at (length revisions) =
  Some (erase_defaults
    (alter (λ t, mkTableDef (alter (set_type (Enum_ "channel_type" ["mq"; "http"; "ws"])) "type" (td_columns t))
                            (td_indexes t)) "channels" metadata)).
Proof. apply (bool_decide_unpack _). vm_cast_no_check I. Qed.

(** ** Rows *)
Record tables_ok (t : Tables) : Prop := {
  to_dom : dom (tb_rows t) = dom (tb_schema t);
  to_rows n td l r : tb_schema t !! n = Some td → tb_rows t !! n = Some l → r ∈ l → row_ok td r;
}.

Lemma on_table_Some n f s s' :
  on_table n f s = Some s' → ∃ t t', s !! n = Some t ∧ f t = Some t' ∧ s' = <[n := t']> s.
Proof.
  unfold on_table. destruct (s !! n) as [t|]; [|done]. simpl. destruct (f t) as [t'|] eqn:Hf; [|done].
  intros [= <-]. eauto.
Qed.

Lemma on_table_dom n f s s' : on_table n f s = Some s' → dom s' = dom s.
Proof.
  intros (t & t' & Ht & _ & ->)%on_table_Some. rewrite dom_insert_L. apply elem_of_dom_2 in Ht. set_solver.
Qed.

(** An operation on the columns of one table, whose rows it maps *)
Lemma tables_ok_alter n f g t s' :
  tables_ok t → on_table n f (tb_schema t) = Some s' →
  (∀ td td' r, tb_schema t !! n = Some td → f td = Some td' →
     r ∈ default [] (tb_rows t !! n) → row_ok td r → row_ok td' (g r)) →
  tables_ok (mkTables s' (alter (fmap g) n (tb_rows t))).
Proof.
  intros [Hd Hr] Hs Hg. split; cbn [tb_schema tb_rows].
  { rewrite dom_alter_L, (on_table_dom _ _ _ _ Hs). done. }
  apply on_table_Some in Hs as (td & td' & Ht & Hf & ->). intros m td2 l r Hm Hl Hin.
  destruct (decide (m = n)) as [->|Hne].
  - rewrite lookup_insert_eq in Hm. injection Hm as <-. rewrite lookup_alter_eq in Hl.
    destruct (tb_rows t !! n) as [l0|] eqn:El; [|done]. simpl in Hl. injection Hl as <-.
    apply list_elem_of_fmap in Hin as (r0 & -> & Hin). eapply Hg; [done..|by apply (Hr n td l0)].
  - rewrite lookup_insert_ne in Hm by done. rewrite lookup_alter_ne in Hl by done. by eapply Hr.
Qed.

Lemma effect_Some o t s' rows :
  effect o t = Some (mkTables s' rows) ↔ ddl o (tb_schema t) = Some s' ∧ move o (tb_rows t) = Some rows.
Proof.
  unfold effect. split.
  - destruct (ddl o (tb_schema t)) as [s|]; [|done]. simpl. by destruct (move o _) as [r|]; [intros [= <- <-]|].
  - intros [-> Hm]. simpl. by rewrite Hm.
Qed.

Lemma no_tables_ok : tables_ok no_tables.
Proof. split; [done|]. by intros n td l r Hn. Qed.

(** A table that is not there has no rows. *)
Lemma no_rows t n : tables_ok t → tb_schema t !! n = None → tb_rows t !! n = None.
Proof. intros [Hd _] H. apply not_elem_of_dom. rewrite Hd. by apply not_elem_of_dom. Qed.

Lemma row_ok_insert td r c v :
  row_ok td r → td_columns td !! col_name c = None → (col_nullable c = false → is_null v = false) → ∀ idx,
  row_ok (mkTableDef (<[col_name c := c]> (td_columns td)) idx) (<[col_name c := v]> r).
Proof.
  intros [Hd Hn] Hc Hv idx. split; cbn [td_columns]; [by rewrite !dom_insert_L, Hd|].
  apply map_Forall_insert; [done|]. unfold holds_null. rewrite lookup_insert_eq. split; [done|].
  intros k col Hk Hnull. rewrite lookup_insert_ne by congruence. by apply (Hn k col).
Qed.

Lemma row_ok_delete td r c idx :
  row_ok td r → row_ok (mkTableDef (delete c (td_columns td)) idx) (delete c r).
Proof.
  intros [Hd Hn]. split; cbn [td_columns]; [by rewrite !dom_delete_L, Hd|].
  intros k col [Hne Hk]%lookup_delete_Some Hnull. unfold holds_null. rewrite lookup_delete_ne by done. by apply (Hn k col).
Qed.

Lemma row_ok_nullable td r c col b idx :
  row_ok td r → td_columns td !! c = Some col → (b = false → holds_null r c = false) →
  row_ok (mkTableDef (<[c := set_nullable b col]> (td_columns td)) idx) r.
Proof.
  intros [Hd Hn] Hc Hb. split; cbn [td_columns].
  - rewrite dom_insert_L, Hd. apply elem_of_dom_2 in Hc. set_solver.
  - intros k col' [[<- <-]|[Hne Hk]]%lookup_insert_Some; [apply Hb|]. by apply Hn.
Qed.

(** Mapping no rows at all *)
Lemma alter_same {A} n (rows : gmap string A) (f : A → A) : (∀ l, f l = l) → alter f n rows = rows.
Proof.
  intros Hf. apply map_eq. intros m. destruct (decide (m = n)) as [->|Hne].
  - rewrite lookup_alter_eq. destruct (rows !! n); simpl; by rewrite ?Hf.
  - by rewrite lookup_alter_ne.
Qed.

Lemma tables_ok_column n f t s' :
  tables_ok t → on_table n f (tb_schema t) = Some s' →
  (∀ td td' r, tb_schema t !! n = Some td → f td = Some td' →
     r ∈ default [] (tb_rows t !! n) → row_ok td r → row_ok td' r) →
  tables_ok (mkTables s' (tb_rows t)).
Proof.
  intros Ht Hs Hg. pose proof (tables_ok_alter n f id t s' Ht Hs Hg) as H.
  by rewrite alter_same in H by (intros; apply list_fmap_id).
Qed.

Ltac invert_guards :=
  cbn beta in *; repeat match goal with
  | H : (match ?x with _ => _ end) = Some _ |- _ => let E := fresh "E" in destruct x eqn:E; try done
  | H : base.mbind _ ?x = Some _ |- _ => let E := fresh "E" in destruct x eqn:E; [simpl in H|done]
  | H : Some _ = Some _ |- _ => injection H as H
  end.

Lemma tables_ok_create n td t : tables_ok t → tables_ok (mkTables (<[n := td]> (tb_schema t)) (<[n := []]> (tb_rows t))).
Proof.
  intros [Hd Hr]. split; cbn [tb_schema tb_rows]; [by rewrite !dom_insert_L, Hd|].
  intros m td' l r [[<- <-]|[Hne Hm]]%lookup_insert_Some Hl Hin.
  - rewrite lookup_insert_eq in Hl. injection Hl as <-. by apply not_elem_of_nil in Hin.
  - rewrite lookup_insert_ne in Hl by done. by eapply Hr.
Qed.

Lemma tables_ok_drop n t : tables_ok t → tables_ok (mkTables (delete n (tb_schema t)) (delete n (tb_rows t))).
Proof.
  intros [Hd Hr]. split; cbn [tb_schema tb_rows]; [by rewrite !dom_delete_L, Hd|].
  intros m td l r [_ Hm]%lookup_delete_Some [_ Hl]%lookup_delete_Some. by eapply Hr.
Qed.

Lemma tables_ok_rename a b td t :
  tables_ok t → tb_schema t !! a = Some td → tb_schema t !! b = None →
  ∃ l, tb_rows t !! a = Some l ∧
  tables_ok (mkTables (<[b := td]> (delete a (tb_schema t))) (<[b := l]> (delete a (tb_rows t)))).
Proof.
  intros [Hd Hr] Ha Hb. assert (is_Some (tb_rows t !! a)) as [l Hl].
  { apply elem_of_dom. rewrite Hd. by eapply elem_of_dom_2. }
  exists l. split; [done|]. split; cbn [tb_schema tb_rows]; [by rewrite !dom_insert_L, !dom_delete_L, Hd|].
  intros m td' l' r [[<- <-]|[Hne [_ Hm]%lookup_delete_Some]]%lookup_insert_Some Hl' Hin.
  - rewrite lookup_insert_eq in Hl'. injection Hl' as <-. by eapply Hr.
  - rewrite lookup_insert_ne in Hl' by done. apply lookup_delete_Some in Hl' as [_ Hl']. by eapply Hr.
Qed.

Lemma tables_ok_insert n td r t :
  tables_ok t → tb_schema t !! n = Some td → row_ok td r →
  tables_ok (mkTables (tb_schema t) (alter (λ l, l ++ [r]) n (tb_rows t))).
Proof.
  intros [Hd Hr] Hn Hok. split; cbn [tb_schema tb_rows]; [by rewrite dom_alter_L|].
  intros m td' l r' Hm Hl Hin. destruct (decide (m = n)) as [->|Hne].
  - rewrite lookup_alter_eq in Hl. destruct (tb_rows t !! n) as [l0|] eqn:E; [|done]. injection Hl as <-.
    rewrite Hn in Hm. injection Hm as <-. apply elem_of_app in Hin as [Hin|Hin%list_elem_of_singleton]; [by eapply Hr|by subst].
  - rewrite lookup_alter_ne in Hl by done. by eapply Hr.
Qed.

(** Every operation keeps a database well formed. *)
Lemma effect_ok o t t' : tables_ok t → effect o t = Some t' → tables_ok t'.
Proof.
  destruct t' as [s' rows]. intros Ht [Hs Hm]%effect_Some. destruct o; cbn [ddl move] in Hs, Hm.
  - invert_guards. subst. by apply tables_ok_create.
  - invert_guards. subst. by apply tables_ok_drop.
  - injection Hm as <-. eapply tables_ok_column; [done..|]. intros td td' r Htd Hf _ Hok. invert_guards. by subst.
  - injection Hm as <-. eapply tables_ok_column; [done..|]. intros td td' r Htd Hf _ Hok. invert_guards. by subst.
  - destruct (negb _ && _ && _) eqn:Eg; [done|]. injection Hm as <-. eapply tables_ok_alter; [done..|].
    intros td td' r Htd Hf Hin Hok. invert_guards. subst. apply row_ok_insert; [done..|].
    intros Hnull. rewrite Hnull in Eg. destruct (is_null (fill c)); [|done]. simpl in Eg.
    apply bool_decide_eq_false, dec_stable in Eg. rewrite Eg in Hin. by apply not_elem_of_nil in Hin.
  - injection Hm as <-. eapply tables_ok_alter; [done..|]. intros td td' r Htd Hf Hin Hok. invert_guards. subst.
    by apply row_ok_delete.
  - assert (rows = tb_rows t) as -> by (destruct nullable; invert_guards; by subst).
    eapply tables_ok_column; [done..|]. intros td td' r Htd Hf Hin Hok.
    assert (nullable = false → holds_null r name = false) as Hnull.
    { intros ->. destruct (existsb _ _) eqn:Eg; [done|]. apply not_true_is_false. intros Hnull.
      apply not_true_iff_false in Eg. apply Eg, existsb_exists. exists r. by rewrite <-list_elem_of_In. }
    clear Hm. invert_guards. subst. by apply row_ok_nullable.
  - invert_guards. subst. destruct (tables_ok_rename old new t0 t) as (l & Hl & Hok); [done..|].
    by rewrite Hl.
  - invert_guards. subst. eapply tables_ok_insert; [done..|]. by apply bool_decide_eq_true in E0.
Qed.

Lemma effects_ok l t t' : tables_ok t → effects l t = Some t' → tables_ok t'.
Proof.
  revert t. induction l as [|o l IH]; intros t Ht He; cbn [effects] in He; [by injection He as <-|].
  destruct (effect o t) as [t1|] eqn:E; [|done]. by eapply IH, He; eapply effect_ok.
Qed.

(** ** Upgrades keep the data *)

(** Nothing is dropped or made NOT NULL, and no NOT NULL column is added without a server default. *)
Definition additive (o : op) : bool :=
  match o with
  | drop_table _ | drop_column _ _ | alter_nullable _ _ false => false
  | add_column _ c => col_nullable c || negb (is_null (fill c))
  | _ => true
  end.

(** [l'] has the rows [l], in their order and possibly with further columns, then perhaps others. *)
Definition holds (l l' : list row) : Prop := ∃ old new, l' = old ++ new ∧ Forall2 (⊆) l old.

#[export] Instance holds_reflexive : Reflexive holds.
Proof. intros l. exists l, []. by rewrite app_nil_r. Qed.

#[export] Instance holds_transitive : Transitive holds.
Proof.
  intros l1 l2 l3 (o1 & n1 & -> & H1) (o2 & n2 & -> & H2). apply Forall2_app_inv_l in H2 as (o & n & H2 & _ & ->).
  exists o, (n ++ n2). rewrite app_assoc. split; [done|]. by etrans.
Qed.

Definition keeps_data (ren : string → string) (t t' : Tables) : Prop :=
  ∀ n l, tb_rows t !! n = Some l → ∃ l', tb_rows t' !! ren n = Some l' ∧ holds l l'.

Lemma additive_runs o t s' : additive o = true → ddl o (tb_schema t) = Some s' → is_Some (effect o t).
Proof.
  intros Ha Hs. unfold effect. rewrite Hs. simpl. destruct o; simpl in *; try (by eexists); try done.
  - destruct (col_nullable c); [by eexists|]. simpl in *. destruct (is_null (fill c)); [done|by eexists].
  - destruct nullable; [by eexists|done].
Qed.

Lemma additive_keeps o t t' :
  tables_ok t → additive o = true → effect o t = Some t' → keeps_data (λ n, renamed n o) t t'.
Proof.
  destruct t' as [s' rows]. intros Ht Ha [Hs Hm]%effect_Some n l Hl. cbn [tb_rows].
  destruct o; cbn [ddl move renamed additive] in *; try done; try (injection Hm as <-; by exists l).
  - invert_guards. subst. exists l. split; [|done]. rewrite lookup_insert_ne; [done|]. intros <-.
    apply bool_decide_eq_false in E. apply E, elem_of_dom. rewrite <-(to_dom _ Ht). by eapply elem_of_dom_2.
  - destruct (negb _ && _ && _); [done|]. injection Hm as <-.
    destruct (decide (n = table)) as [->|Hne]; [|exists l; by rewrite lookup_alter_ne].
    rewrite lookup_alter_eq, Hl. eexists. split; [done|]. exists (<[col_name c := fill c]> <$> l), [].
    rewrite app_nil_r. split; [done|]. apply Forall2_fmap_r, Forall_Forall2_diag, Forall_forall. intros r Hr.
    apply insert_subseteq, not_elem_of_dom. apply on_table_Some in Hs as (td & td' & Htd & Hf & _).
    destruct (to_rows _ Ht _ _ _ _ Htd Hl Hr) as [-> _]. invert_guards. by apply not_elem_of_dom.
  - destruct nullable; [|done]. injection Hm as <-. by exists l.
  - invert_guards. subst.
    destruct (decide (n = old)) as [->|Hne]; [rewrite Hl, lookup_insert_eq; by exists l|]. exists l. split; [|done].
    destruct (tb_rows t !! old); [|done]. rewrite lookup_insert_ne; [by rewrite lookup_delete_ne|].
    intros <-. by rewrite (no_rows t new) in Hl.
  - injection Hm as <-. destruct (decide (n = table)) as [->|Hne]; [|exists l; by rewrite lookup_alter_ne].
    rewrite lookup_alter_eq, Hl. eexists. split; [done|]. by exists l, [r].
Qed.

Lemma effects_keep l t s' :
  tables_ok t → forallb additive l = true → ddls l (tb_schema t) = Some s' →
  ∃ t', effects l t = Some t' ∧ tb_schema t' = s' ∧ tables_ok t' ∧ keeps_data (renamed_by l) t t'.
Proof.
  revert t. induction l as [|o l IH]; intros t Ht Ha Hs; cbn [ddls effects forallb] in *.
  { injection Hs as <-. exists t. split_and!; try done. intros n r Hr. by exists r. }
  apply andb_true_iff in Ha as [Ha1 Ha2].
  destruct (ddl o (tb_schema t)) as [s1|] eqn:E1; [|done]. simpl in Hs.
  destruct (additive_runs o t s1 Ha1 E1) as [[s2 rows] E2]. rewrite E2. simpl.
  pose proof E2 as [E3 _]%effect_Some. rewrite E1 in E3. injection E3 as <-.
  destruct (IH (mkTables s1 rows)) as (t' & Ht' & Hs' & Hok & Hk); [by eapply effect_ok|done..|].
  exists t'. split_and!; try done. intros n r Hr.
  destruct (additive_keeps o t (mkTables s1 rows) Ht Ha1 E2 n r Hr) as (r1 & Hr1 & H1).
  destruct (Hk _ _ Hr1) as (r2 & Hr2 & H2). exists r2. split; [done|]. by etrans.
Qed.

Lemma ddls_app l1 l2 s : ddls (l1 ++ l2) s = (s' ← ddls l1 s; ddls l2 s').
Proof. revert s. induction l1 as [|o l1 IH]; intros s; cbn [app ddls]; [done|]. destruct (ddl o s); [apply IH|done]. Qed.

(** The pending revisions lead from the schema of revision [k] to the head's. *)
Lemma pending_schema k s : schema_at k = Some s → ddls (pending k) s = schema_at (length revisions).
Proof.
  intros Hs. unfold schema_at. rewrite take_ge by done. rewrite <-(take_drop k revisions) at 1.
  rewrite bind_app, ddls_app. unfold schema_at in Hs. rewrite Hs. done.
Qed.

Lemma head_exists : is_Some (schema_at (length revisions)).
Proof. apply (bool_decide_unpack _). vm_cast_no_check I. Qed.

Lemma pending_additive k : forallb additive (pending k) = true.
Proof.
  unfold pending.
  assert (forallb additive (r ← revisions; upgrade r) = true) as H by (vm_compute; reflexivity).
  rewrite <-(take_drop k revisions), bind_app, forallb_app in H. by apply andb_true_iff in H as [_ H].
Qed.

(** ** Downgrades undo *)

Fixpoint moves (l : list op) (rows : gmap string (list row)) : option (gmap string (list row)) :=
  match l with [] => Some rows | o :: l => rows' ← move o rows; moves l rows' end.

Lemma moves_app l1 l2 rows : moves (l1 ++ l2) rows = (rows' ← moves l1 rows; moves l2 rows').
Proof. revert rows. induction l1 as [|o l1 IH]; intros r; cbn [app moves]; [done|]. destruct (move o r); [apply IH|done]. Qed.

Lemma effects_Some l t s' rows :
  ddls l (tb_schema t) = Some s' → moves l (tb_rows t) = Some rows → effects l t = Some (mkTables s' rows).
Proof.
  revert t. induction l as [|o l IH]; intros t; cbn [ddls moves effects].
  { intros [= <-] [= <-]. by destruct t. }
  unfold effect. destruct (ddl o (tb_schema t)) as [s1|]; [|done]. destruct (move o (tb_rows t)) as [r1|]; [|done].
  apply (IH (mkTables s1 r1)).
Qed.

(** On the rows, [o'] undoes [o] where the schema is [s]. *)
Definition undoes (s : Schema) (o o' : op) : bool :=
  match o, o' with
  | create_table n _ _, drop_table n' => bool_decide (n = n')
  | add_column n c, drop_column n' c' => bool_decide (n = n' ∧ col_name c = c')
  | alter_nullable n c true, alter_nullable n' c' false =>
      bool_decide (n = n' ∧ c = c') &&
      match s !! n with
      | Some t => match td_columns t !! c with Some col => negb (col_nullable col) | None => false end
      | None => false
      end
  | rename_table a b, rename_table b' a' => bool_decide (a = a' ∧ b = b')
  | _, _ => false
  end.

Fixpoint all_undone (s : Schema) (l l' : list op) : bool :=
  match l, l' with
  | [], [] => true
  | o :: l, o' :: l' => undoes s o o' && match ddl o s with Some s' => all_undone s' l l' | None => false end
  | _, _ => false
  end.

Lemma delete_insert_row (r : row) c v : c ∉ dom r → delete c (<[c := v]> r) = r.
Proof. intros H. apply delete_insert_id. by apply not_elem_of_dom. Qed.

Lemma move_undone o o' t t' :
  tables_ok t → effect o t = Some t' → undoes (tb_schema t) o o' = true → move o' (tb_rows t') = Some (tb_rows t).
Proof.
  destruct t' as [s' rows]. intros Ht [Hs Hm]%effect_Some Hu. cbn [tb_rows].
  destruct o as [n ? ?|?|? ? ?|? ?|n c|? ?|n c []|a b|? ?]; try done; destruct o' as [|n'| | | |n' c'|n' c' []|b' a'|]; try done;
    cbn [ddl move undoes] in *.
  - apply bool_decide_eq_true in Hu as <-. invert_guards. subst. f_equal. apply delete_insert_id, no_rows; [done|].
    apply bool_decide_eq_false in E. by apply eq_None_not_Some.
  - apply bool_decide_eq_true in Hu as [<- <-]. destruct (negb _ && _ && _); [done|]. injection Hm as <-. f_equal.
    apply on_table_Some in Hs as (td & td' & Htd & Hf & _). invert_guards.
    apply map_eq. intros m. destruct (decide (m = n)) as [->|Hne]; [|by rewrite !lookup_alter_ne].
    rewrite !lookup_alter_eq. destruct (tb_rows t !! n) as [l|] eqn:El; [|done]. simpl. f_equal.
    rewrite <-list_fmap_compose. rewrite <-(list_fmap_id l) at 2. apply list_fmap_ext. intros i r Hr. simpl.
    apply delete_insert_row. destruct (to_rows _ Ht n td l r) as [-> _]; [done..|by eapply list_elem_of_lookup_2|].
    by apply not_elem_of_dom.
  - apply andb_true_iff in Hu as [Hu Hc]. apply bool_decide_eq_true in Hu as [<- <-]. injection Hm as <-.
    destruct (existsb _ _) eqn:Ex; [|done]. apply existsb_exists in Ex as (r & Hr%list_elem_of_In & Hnull).
    destruct (tb_schema t !! n) as [td|] eqn:Etd; [|done]. destruct (td_columns td !! c) as [col|] eqn:Ec; [|done].
    destruct (tb_rows t !! n) as [l|] eqn:El; [|by apply not_elem_of_nil in Hr].
    destruct (to_rows _ Ht n td l r) as [_ Hn]; [done..|]. rewrite (Hn c col Ec) in Hnull; [done|]. by apply negb_true_iff.
  - apply bool_decide_eq_true in Hu as [<- <-]. invert_guards. subst. f_equal.
    destruct (tables_ok_rename a b t0 t) as (l & Hl & _); [done..|]. rewrite Hl, lookup_insert_eq.
    rewrite delete_insert_id; [|rewrite lookup_delete_None; right; by apply no_rows].
    by rewrite insert_delete_id.
Qed.

Lemma rows_undone l l' t t' :
  tables_ok t → effects l t = Some t' → all_undone (tb_schema t) l l' = true →
  moves (reverse l') (tb_rows t') = Some (tb_rows t).
Proof.
  revert t l'. induction l as [|o l IH]; intros t [|o' l'] Ht He Hu; cbn [effects all_undone] in *; try done.
  { by injection He as <-. }
  destruct (effect o t) as [t1|] eqn:E; [|done]. simpl in He. apply andb_true_iff in Hu as [Hu Hrest].
  assert (ddl o (tb_schema t) = Some (tb_schema t1)) as Hs.
  { destruct t1 as [s1 r1]. by apply effect_Some in E as [? _]. }
  rewrite Hs in Hrest. rewrite reverse_cons, moves_app, (IH t1 l'); [|by eapply effect_ok|done..].
  simpl. by rewrite (move_undone o o' t t1).
Qed.

(** Operations on different tables in either order *)
Lemma moves_swap a c b c' rows :
  a ≠ b →
  moves [drop_column a c; alter_nullable b c' false] rows = moves [alter_nullable b c' false; drop_column a c] rows.
Proof. intros Hne. cbn. rewrite lookup_alter_ne by done. by destruct (existsb _ _). Qed.

(** What each downgrade does to the schema *)
Lemma downgrade_schema k r s s' :
  revisions !! k = Some r → schema_at k = Some s → ddls (upgrade r) s = Some s' → ddls (downgrade r) s' = Some s.
Proof.
  intros Hr Hs Hs'.
  assert (forallb (λ k, match revisions !! k, schema_at k with
      | Some r, Some s => bool_decide ((s' ← ddls (upgrade r) s; ddls (downgrade r) s') = Some s)
      | _, _ => true end) (seq 0 10) = true) as H by (vm_cast_no_check (eq_refl true)).
  apply (forallb_forall _ _) with (x := k) in H.
  - rewrite Hr, Hs in H. apply bool_decide_eq_true in H. rewrite Hs' in H. exact H.
  - apply in_seq. apply lookup_lt_Some in Hr. change (length revisions) with 10%nat in Hr. lia.
Qed.

(** The downgrade, in the order that undoes the upgrade from its end *)
Definition undoing (r : Revision) : list op :=
  if decide (revision r = "0005") then reverse (downgrade r) else downgrade r.

Lemma undoing_moves k r rows : revisions !! k = Some r → moves (undoing r) rows = moves (downgrade r) rows.
Proof.
  intros Hr. unfold undoing. destruct (decide _) as [H5|]; [|done].
  assert (r = r0005) as ->.
  { apply list_elem_of_lookup_2 in Hr. unfold revisions in Hr. set_unfold.
    destruct_or!; subst; first [done|discriminate H5]. }
  symmetry. by apply moves_swap.
Qed.

Lemma undoing_undone k r s :
  (0 < k)%nat → revisions !! k = Some r → schema_at k = Some s → all_undone s (upgrade r) (reverse (undoing r)) = true.
Proof.
  intros Hk Hr Hs.
  assert (forallb (λ k, match revisions !! k, schema_at k with
      | Some r, Some s => all_undone s (upgrade r) (reverse (undoing r))
      | _, _ => true end) (seq 1 9) = true) as H by (vm_cast_no_check (eq_refl true)).
  apply (forallb_forall _ _) with (x := k) in H.
  - by rewrite Hr, Hs in H.
  - apply in_seq. apply lookup_lt_Some in Hr. change (length revisions) with 10%nat in Hr. lia.
Qed.

(** ** What the engines accept *)

(** Which upgrades to the head an engine takes: MySQL refuses 0005 and 0008. *)
Definition upgrades_on (dialect : Dialect) (k : nat) : bool :=
  match dialect with MySQL => Nat.leb 8 k | _ => true end.

Lemma pending_supported dialect k : forallb (supports dialect) (pending k) = upgrades_on dialect k.
Proof.
  destruct (decide (k < 10)%nat) as [Hk|Hk].
  - assert (forallb (λ k, Bool.eqb (forallb (supports dialect) (pending k)) (upgrades_on dialect k)) (seq 0 10) = true) as H
      by by destruct dialect; vm_compute.
    apply (forallb_forall _ _) with (x := k) in H; [by apply Bool.eqb_prop in H|]. apply in_seq. lia.
  - unfold pending. rewrite drop_ge by (change (length revisions) with 10%nat; lia).
    destruct dialect; [done|done|]. symmetry. apply Nat.leb_le. lia.
Qed.

(** No revision but the first creates an enum type. *)
Lemma pending_types dialect k :
  all_types dialect (pending k) (types_at dialect k) = Some (types_at dialect (length revisions)).
Proof.
  destruct (decide (k < 10)%nat) as [Hk|Hk].
  - assert (forallb (λ k, bool_decide (all_types dialect (pending k) (types_at dialect k) =
      Some (types_at dialect (length revisions)))) (seq 0 10) = true) as H
      by (destruct dialect; vm_cast_no_check (eq_refl true)).
    apply (forallb_forall _ _) with (x := k) in H; [by apply bool_decide_eq_true in H|]. apply in_seq. lia.
  - unfold pending, types_at. rewrite drop_ge, !take_ge by (change (length revisions) with 10%nat; lia). done.
Qed.

Lemma revision_types dialect k r :
  revisions !! k = Some r →
  all_types dialect (upgrade r) (types_at dialect k) = Some (types_at dialect (S k)) ∧
  (0 < k → types_at dialect (S k) = types_at dialect k)%nat ∧
  all_types dialect (downgrade r) (types_at dialect (S k)) = Some (types_at dialect (S k)).
Proof.
  intros Hr.
  assert (forallb (λ k, match revisions !! k with
      | Some r => bool_decide (all_types dialect (upgrade r) (types_at dialect k) = Some (types_at dialect (S k)) ∧
          ((0 < k)%nat → types_at dialect (S k) = types_at dialect k) ∧
          all_types dialect (downgrade r) (types_at dialect (S k)) = Some (types_at dialect (S k)))
      | None => true end) (seq 0 10) = true) as H.
  { destruct dialect; vm_cast_no_check (eq_refl true). }
  apply (forallb_forall _ _) with (x := k) in H.
  - rewrite Hr in H. apply bool_decide_eq_true in H as (H1 & H2 & H3). by split_and!.
  - apply in_seq. apply lookup_lt_Some in Hr. change (length revisions) with 10%nat in Hr. lia.
Qed.

(** Only PostgreSQL has enum types. *)
Lemma no_types dialect k : dialect ≠ PostgreSQL → types_at dialect k = ∅.
Proof.
  intros Hd. unfold types_at. generalize (r ← take k revisions; upgrade r). intros l.
  assert (∀ tys, all_types dialect l tys = Some tys) as ->; [|done].
  induction l as [|o l IH]; intros tys; [done|]. destruct dialect; [apply IH|done|apply IH].
Qed.

(** The engines that take every operation of the revisions *)
Lemma supports_all dialect l : dialect ≠ MySQL → forallb (supports dialect) l = true.
Proof. intros Hd. apply forallb_forall. intros o _. by destruct dialect. Qed.

Section ddl.
Context (dialect : Dialect) {D : Type} `{!Ddl D} (laws : ddl_laws dialect D).

Lemma migrate_done l d t tys :
  forallb (supports dialect) l = true → effects l (da_tables (ddl_view d)) = Some t →
  all_types dialect l (da_types (ddl_view d)) = Some tys →
  ∃ d', migrate l d = (Ok tt, d') ∧ ddl_view d' = mkCatalogue t tys.
Proof using laws.
  revert d. induction l as [|o l IH]; intros d Hl He Ht; cbn [effects all_types forallb] in *.
  { injection He as <-. injection Ht as <-. exists d. split; [done|]. by destruct (ddl_view d). }
  apply andb_prop in Hl as [Ho Hl].
  destruct (effect o (da_tables (ddl_view d))) as [t1|] eqn:E; [|done].
  destruct (types dialect o (da_types (ddl_view d))) as [tys1|] eqn:Et; [|done]. cbn in He, Ht.
  assert (effect_on dialect o (ddl_view d) = Some (mkCatalogue t1 tys1)) as E1.
  { unfold effect_on. rewrite Ho, E. cbn. by rewrite Et. }
  destruct (dl_done _ _ laws _ _ _ E1) as (d1 & H1 & H2).
  destruct (IH d1) as (d' & H3 & H4); [done|by rewrite H2..|]. exists d'. split; [|done].
  unfold migrate in *. cbn [mfor]. unfold mbind. by rewrite H1, H3.
Qed.

(** An operation that the engine refuses ends the migration. *)
Lemma migrate_refused l o d :
  o ∈ l → (∀ d, ∃ e d', ddl_run o d = (Err e, d')) → ∃ e d', migrate l d = (Err e, d').
Proof using Type.
  intros Hin Ho. revert d. induction l as [|o' l IH]; intros d; [by apply elem_of_nil in Hin|].
  unfold migrate. cbn [mfor]. unfold mbind. destruct (ddl_run o' d) as [[[]|x] d1] eqn:E; [|by eexists _, _].
  apply elem_of_cons in Hin as [->|Hin]; [|by apply (IH Hin)].
  destruct (Ho d) as (e & d' & H). congruence.
Qed.

(** C16 [alembic upgrade head] keeps the data, on SQLite and PostgreSQL.  From every well-formed database at any of the
    eleven states of the schema, with the enum types of that state (so one whose first revision was never undone on
    PostgreSQL), the pending revisions run without error and end at the head's schema,
    well formed, and every table that was there (under its new name) still has its rows, in order,
    with every value they had: no revision can fail on the rows it finds.  On MySQL the same holds from the states
    after 0008 only: before it, the upgrade raises, whatever the rows. *)
Theorem upgrade_keeps_data k d :
  tables_ok (da_tables (ddl_view d)) → schema_at k = Some (tb_schema (da_tables (ddl_view d))) →
  da_types (ddl_view d) = types_at dialect k →
  if upgrades_on dialect k then
    ∃ d', migrate (pending k) d = (Ok tt, d') ∧
      schema_at (length revisions) = Some (tb_schema (da_tables (ddl_view d'))) ∧
      da_types (ddl_view d') = types_at dialect (length revisions) ∧ tables_ok (da_tables (ddl_view d')) ∧
      keeps_data (renamed_by (pending k)) (da_tables (ddl_view d)) (da_tables (ddl_view d'))
  else ∃ e d', migrate (pending k) d = (Err e, d').
Proof using laws.
  intros Hok Hs Htys. pose proof (pending_supported dialect k) as Hsup. destruct (upgrades_on dialect k).
  - pose proof (pending_schema k _ Hs) as Hp. destruct head_exists as [head Eh]. rewrite Eh in *.
    destruct (effects_keep (pending k) _ head Hok (pending_additive k) Hp) as (t & He & <- & Ht & Hkeep).
    pose proof (pending_types dialect k) as Hty. rewrite <-Htys in Hty.
    destruct (migrate_done (pending k) d t _ Hsup He Hty) as (d' & Hd & Hv).
    exists d'. rewrite Hv. by split_and!.
  - apply not_true_iff_false in Hsup. rewrite forallb_forall in Hsup.
    assert (∃ o, o ∈ pending k ∧ supports dialect o = false) as (o & Ho & Hno).
    { destruct (existsb (λ o, negb (supports dialect o)) (pending k)) eqn:E.
      - apply existsb_exists in E as (o & Hin & Hno). exists o. split; [by apply list_elem_of_In|].
        by apply negb_true_iff.
      - exfalso. apply Hsup. intros o Hin. destruct (supports dialect o) eqn:Eo; [done|].
        assert (existsb (λ o, negb (supports dialect o)) (pending k) = true); [|congruence].
        apply existsb_exists. exists o. by rewrite Eo. }
    apply (migrate_refused _ o); [done|]. intros d1. by apply (dl_unsupported _ _ laws).
Qed.
(** The schema after one revision more *)
Lemma revision_schema k r s :
  revisions !! k = Some r → schema_at k = Some s → is_Some (ddls (upgrade r) s).
Proof using.
  intros Hr Hs. pose proof (pending_schema k s Hs) as Hp. destruct head_exists as [head Eh]. rewrite Eh in Hp.
  unfold pending in Hp. rewrite (drop_S _ _ _ Hr), bind_cons, ddls_app in Hp.
  destruct (ddls (upgrade r) s); [by eexists|discriminate Hp].
Qed.

Lemma revision_additive k r : revisions !! k = Some r → forallb additive (upgrade r) = true.
Proof using.
  intros Hr. pose proof (pending_additive k) as Hp. unfold pending in Hp.
  rewrite (drop_S _ _ _ Hr), bind_cons, forallb_app in Hp. by apply andb_true_iff in Hp as [? _].
Qed.

(** From the empty database the first revision leads back to it. *)
Lemma first_undone : (t ← effects r0001_upgrade no_tables; effects r0001_downgrade t) = Some no_tables.
Proof using. vm_compute. reflexivity. Qed.

Lemma empty_tables t : tables_ok t → schema_at 0 = Some (tb_schema t) → t = no_tables.
Proof using.
  intros [Hd _] [= Hs]. destruct t as [s rows]. cbn in *. subst s. rewrite dom_empty_L in Hd.
  by apply dom_empty_inv_L in Hd as ->.
Qed.

(** From the empty schema the first upgrade needs its enum types to be absent on PostgreSQL. *)
Lemma first_upgrade_refused d :
  dialect = PostgreSQL → types_at dialect 1 ⊆ da_types (ddl_view d) → ∃ e d', migrate r0001_upgrade d = (Err e, d').
Proof using laws.
  intros -> Hsub. assert ("abi_kind" ∈ da_types (ddl_view d)) as Hin.
  { apply Hsub. apply (bool_decide_unpack _). vm_cast_no_check I. }
  unfold r0001_upgrade, migrate. cbn [mfor]. unfold mbind at 1.
  match goal with |- context [ddl_run ?o d] => destruct (dl_type_exists _ _ laws o d) as (e & d' & ->) end.
  - cbn. by rewrite bool_decide_eq_true_2.
  - by eexists _, _.
Qed.

(** C27 Every downgrade undoes its upgrade, on SQLite and PostgreSQL.  On every well-formed database at any revision's schema,
    with the enum types of that revision and with
    whatever rows, running the next revision and then its downgrade succeeds and gives back the schema
    and every row exactly; this includes the downgrade of 0005, which is not written in the reverse order
    of its upgrade.  The enum types are given back too, except on PostgreSQL by the first revision: its downgrade leaves
    the types it created, and the next upgrade then fails. *)
Theorem downgrade_undoes_upgrade k r d :
  dialect ≠ MySQL → revisions !! k = Some r → tables_ok (da_tables (ddl_view d)) →
  schema_at k = Some (tb_schema (da_tables (ddl_view d))) → da_types (ddl_view d) = types_at dialect k →
  ∃ d1 d2, migrate (upgrade r) d = (Ok tt, d1) ∧ migrate (downgrade r) d1 = (Ok tt, d2) ∧
    da_tables (ddl_view d2) = da_tables (ddl_view d) ∧
    (k ≠ 0%nat ∨ dialect = SQLite → da_types (ddl_view d2) = da_types (ddl_view d)) ∧
    (k = 0%nat → dialect = PostgreSQL →
     da_types (ddl_view d2) = {["abi_kind"; "chain_kind"; "channel_type"; "match_kind"]} ∧
     ∃ e d3, migrate (upgrade r) d2 = (Err e, d3)).
Proof using laws.
  intros Hdia Hr Hok Hs Htys. destruct (revision_schema k r _ Hr Hs) as [s1 Hs1].
  destruct (effects_keep (upgrade r) _ s1 Hok (revision_additive k r Hr) Hs1) as (t1 & He & Ht1 & _).
  destruct (revision_types dialect k r Hr) as (T1 & T2 & T3). rewrite <-Htys in T1.
  destruct (migrate_done _ _ _ _ (supports_all _ _ Hdia) He T1) as (d1 & Hd1 & Hv1). exists d1.
  assert (effects (downgrade r) t1 = Some (da_tables (ddl_view d))) as Hdown.
  { destruct k as [|k].
    - apply empty_tables in Hs as Hv; [|done]. rewrite Hv in *. injection Hr as <-.
      pose proof first_undone as H. change (effects r0001_upgrade no_tables = Some t1) in He.
      rewrite He in H. exact H.
    - pose proof (undoing_undone (S k) r _ (Nat.lt_0_succ k) Hr Hs) as Hu.
      pose proof (rows_undone _ _ _ _ Hok He Hu) as Hm. rewrite reverse_involutive, (undoing_moves _ _ _ Hr) in Hm.
      destruct (da_tables (ddl_view d)) as [s rows]. apply effects_Some; [|exact Hm]. rewrite Ht1.
      by apply (downgrade_schema (S k)). }
  destruct (migrate_done (downgrade r) d1 (da_tables (ddl_view d)) (types_at dialect (S k)) (supports_all _ _ Hdia))
    as (d2 & Hd2 & Hv2); [by rewrite Hv1..|]. exists d2. rewrite Hv2. cbn [da_tables da_types].
  split_and!; [done..| |].
  - intros [Hk|Hlite]; rewrite Htys; [apply T2; lia|]. by rewrite !no_types by by rewrite Hlite.
  - intros -> Hpg. injection Hr as <-. split.
    + rewrite Hpg. apply (bool_decide_unpack _). vm_cast_no_check I.
    + apply first_upgrade_refused; [done|]. by rewrite Hv2.
Qed.

(** Once a success is recorded, whose error is NULL, revision 0005 can no longer be undone. *)
Lemma success_blocks_downgrade d l r :
  schema_at 5 = Some (tb_schema (da_tables (ddl_view d))) →
  tb_rows (da_tables (ddl_view d)) !! "failed_deliveries" = Some l → r ∈ l → r !! "error" = Some Null →
  ∃ e d', migrate (downgrade r0005) d = (Err e, d').
Proof using laws.
  intros Hs Hl Hr Hn. set (o1 := drop_column "subscriptions" "last_processed_block").
  set (o2 := alter_nullable "failed_deliveries" "error" false).
  assert (is_Some (s ← schema_at 5; ddl o1 s)) as [s1 Hs1] by (apply (bool_decide_unpack _); vm_cast_no_check I).
  rewrite Hs in Hs1. cbn [mbind option_bind] in Hs1.
  set (t1 := mkTables s1 (alter (fmap (delete "last_processed_block")) "subscriptions" (tb_rows (da_tables (ddl_view d))))).
  destruct (dl_done _ _ laws o1 d (mkCatalogue t1 (da_types (ddl_view d)))) as (d1 & H1 & Hv1).
  { assert (effect o1 (da_tables (ddl_view d)) = Some t1) as E by (apply effect_Some; by split).
    unfold effect_on. rewrite E. by destruct dialect. }
  destruct (dl_not_null _ _ laws o2 d1) as (e & d2 & H2).
  { rewrite Hv1. unfold o2, move, t1. cbn [tb_rows da_tables]. rewrite lookup_alter_ne, Hl by done. simpl.
    assert (existsb (λ r, holds_null r "error") l = true) as ->; [|done].
    apply existsb_exists. exists r. split; [by apply list_elem_of_In|]. unfold holds_null. by rewrite Hn. }
  exists e, d2. change (downgrade r0005) with [o1; o2]. unfold migrate. cbn [mfor]. unfold mbind. rewrite H1, H2. reflexivity.
Qed.
End ddl.

(** ** A database that is its tables *)
Module DdlSample.
Definition apply_op (dialect : Dialect) (o : op) : M Catalogue unit := λ d,
  match effect_on dialect o d with Some d' => (Ok tt, d') | None => (Err (OtherError "DatabaseError" ""), d) end.
Definition engine (dialect : Dialect) : Ddl Catalogue := {| ddl_run := apply_op dialect; ddl_view d := d |}.

Lemma ddl_sample_laws dialect : ddl_laws (Ddl0:=engine dialect) dialect Catalogue.
Proof.
  split; intros o d; cbn; unfold apply_op, effect_on.
  - intros t ->. by exists t.
  - intros ->. by eexists _, _.
  - intros Hm. destruct (supports dialect o); [|by eexists _, _]. unfold effect. rewrite Hm.
    destruct (ddl o (tb_schema (da_tables d))); by eexists _, _.
  - intros Ht. destruct (supports dialect o); [|by eexists _, _]. destruct (effect o (da_tables d)); [|by eexists _, _].
    cbn. rewrite Ht. by eexists _, _.
Qed.

(** A delivery recorded at revision 0004 *)
Definition failed : row := list_to_map
  [("id", Val (PStr "d1")); ("subscription_id", Val (PStr "s")); ("channel_id", Val (PStr "c"));
   ("chain_id", Val (PStr "eth")); ("event_payload", Val (PDict [])); ("error", Val (PStr "HTTP 500"));
   ("attempts", Val (PInt 3)); ("status", Val (PStr "failed")); ("created_at", Val (PInt 0)); ("resolved_at", Null)].
Definition at_0004 : Tables :=
  default no_tables (effects ((r ← take 4 revisions; upgrade r) ++ [insert_into "failed_deliveries" failed]) no_tables).

Lemma at_0004_ok : tables_ok at_0004.
Proof.
  unfold at_0004. destruct (effects _ no_tables) as [t|] eqn:E; [|apply no_tables_ok].
  by eapply effects_ok; [apply no_tables_ok|].
Qed.

Lemma at_0004_schema : schema_at 4 = Some (tb_schema at_0004).
Proof. apply (bool_decide_unpack _). vm_cast_no_check I. Qed.

Lemma at_0004_rows : tb_rows at_0004 !! "failed_deliveries" = Some [failed].
Proof. vm_cast_no_check (eq_refl (Some [failed])). Qed.
End DdlSample.

(** On PostgreSQL and MySQL *)
Lemma upgrade_keeps_data_witness :
  (∃ d' l', migrate (Ddl0:=DdlSample.engine PostgreSQL) (pending 4)
       (mkCatalogue DdlSample.at_0004 (types_at PostgreSQL 4)) = (Ok tt, d') ∧
     tb_rows (da_tables d') !! "delivery_records" = Some l' ∧ holds [DdlSample.failed] l') ∧
  ∃ e d', migrate (Ddl0:=DdlSample.engine MySQL) (pending 4)
    (mkCatalogue DdlSample.at_0004 (types_at MySQL 4)) = (Err e, d').
Proof.
  split.
  - destruct (upgrade_keeps_data (Ddl0:=DdlSample.engine PostgreSQL) PostgreSQL (DdlSample.ddl_sample_laws PostgreSQL) 4
      (mkCatalogue DdlSample.at_0004 (types_at PostgreSQL 4))) as (d' & H1 & _ & _ & _ & H2).
    + apply DdlSample.at_0004_ok.
    + apply DdlSample.at_0004_schema.
    + reflexivity.
    + destruct (H2 _ _ DdlSample.at_0004_rows) as (l' & H3 & H4).
      exists d', l'. split; [exact H1|]. split; [exact H3|exact H4].
  - apply (upgrade_keeps_data (Ddl0:=DdlSample.engine MySQL) MySQL (DdlSample.ddl_sample_laws MySQL) 4
      (mkCatalogue DdlSample.at_0004 (types_at MySQL 4))).
    + apply DdlSample.at_0004_ok.
    + apply DdlSample.at_0004_schema.
    + reflexivity.
Defined.

Lemma downgrade_undoes_upgrade_witness :
  let d := mkCatalogue DdlSample.at_0004 (types_at PostgreSQL 4) in
  ∃ d1 d2, migrate (Ddl0:=DdlSample.engine PostgreSQL) (upgrade r0005) d = (Ok tt, d1) ∧
    migrate (Ddl0:=DdlSample.engine PostgreSQL) (downgrade r0005) d1 = (Ok tt, d2) ∧
    da_tables d2 = DdlSample.at_0004 ∧ da_types d2 = da_types d.
Proof.
  intros d.
  destruct (downgrade_undoes_upgrade (Ddl0:=DdlSample.engine PostgreSQL) PostgreSQL
    (DdlSample.ddl_sample_laws PostgreSQL) 4 r0005 d) as (d1 & d2 & H1 & H2 & H3 & H4 & _).
  - discriminate.
  - reflexivity.
  - apply DdlSample.at_0004_ok.
  - apply DdlSample.at_0004_schema.
  - reflexivity.
  - exists d1, d2. split; [exact H1|]. split; [exact H2|]. split; [exact H3|]. apply H4. left. discriminate.
Defined.
