(* ===== verification/Watchers.v ===== *)
(** * The configuration and replay watchers (apps/worker/config_watcher.py,
    apps/worker/replay_watcher.py, subscribe of core/bus/redis_bus.py)

    [ConfigWatcher] reloads from three tasks: the initial load of [start], the subscriber and the poller.
    They interleave with each other and with commits to the database at every await,
    so a reload is a sequence of steps: the version is read, then the chains, the ABIs and
    the subscriptions with their bindings, then the version is compared and the
    snapshot put on the bounded queue, which waits while the queue is full. *)
From S2P Require Import Prelude PyStr PyVal Snapshot Repositories.

Inductive task := TInit | TSub | TPoll.
#[export] Instance task_eq_dec : EqDecision task.
Proof. solve_decision. Defined.

(** Where [_reload_and_maybe_emit] is *)
Inductive pc :=
  | Idle
  | ReadVersion (v : Z)
  | ReadChains (v : Z) (cs : list (string * ChainRow))
  | ReadAbis (v : Z) (cs : list (string * ChainRow)) (abis : list (string * AbiRow))
  | Loaded (snap : ConfigSnapshot)
  | Putting (snap : ConfigSnapshot).

Record ConfigWatcher := mkWatcher {
  cw_db : Db;                          (** what is committed *)
  cw_last_version : option Z;
  cw_pc : task → pc;
  cw_started : bool;
  cw_stopped : bool;
  cw_taken : list ConfigSnapshot;      (** what the worker has dequeued *)
  cw_queue : list ConfigSnapshot;
}.

Definition is_idle (p : pc) : bool := match p with Idle => true | _ => false end.

Definition set_pc (t : task) (p : pc) (s : ConfigWatcher) : ConfigWatcher :=
  mkWatcher (cw_db s) (cw_last_version s) (λ t', if decide (t' = t) then p else cw_pc s t')
    (cw_started s || (bool_decide (t = TInit) && is_idle p)) (cw_stopped s) (cw_taken s) (cw_queue s).

(** asyncio.Queue(maxsize=8) of the worker *)
Definition queue_size : nat := 8.
Definition has_room (s : ConfigWatcher) : bool := (length (cw_queue s) <? queue_size)%nat.

Definition put (snap : ConfigSnapshot) (s : ConfigWatcher) : ConfigWatcher :=
  mkWatcher (cw_db s) (cw_last_version s) (cw_pc s) (cw_started s) (cw_stopped s) (cw_taken s)
    (cw_queue s ++ [snap]).
Definition set_last (v : Z) (s : ConfigWatcher) : ConfigWatcher :=
  mkWatcher (cw_db s) (Some v) (cw_pc s) (cw_started s) (cw_stopped s) (cw_taken s) (cw_queue s).

Definition emitted (s : ConfigWatcher) : list ConfigSnapshot := cw_taken s ++ cw_queue s.

Section watcher.
Context {L : Sql}.

(** [start] awaits the initial load before it creates the other two tasks *)
Definition may_run (t : task) (s : ConfigWatcher) : bool :=
  negb (cw_stopped s) && (if decide (t = TInit) then negb (cw_started s) else cw_started s).

(** The next step of [_reload_and_maybe_emit] in task [t]; [None] when it has to wait *)
Definition advance (t : task) (s : ConfigWatcher) : option ConfigWatcher :=
  if negb (may_run t s) then None else
  match cw_pc s t with
  | Idle => Some (set_pc t (ReadVersion (version_get (cw_db s))) s)
  | ReadVersion v => Some (set_pc t (ReadChains v (chain_list_enabled (cw_db s))) s)
  | ReadChains v cs => Some (set_pc t (ReadAbis v cs (abi_list_all (cw_db s))) s)
  | ReadAbis v cs abis =>
      Some (set_pc t (Loaded (build_snapshot v cs abis (list_enabled_with_channels (cw_db s)))) s)
  | Loaded snap =>
      if bool_decide (cw_last_version s = Some (snap_version snap)) then Some (set_pc t Idle s)
      else
        let s := set_last (snap_version snap) s in
        if has_room s then Some (set_pc t Idle (put snap s)) else Some (set_pc t (Putting snap) s)
  | Putting snap => if has_room s then Some (set_pc t Idle (put snap s)) else None
  end.

(** A load that raises is logged and given up *)
Definition load_fails (t : task) (s : ConfigWatcher) : option ConfigWatcher :=
  if negb (may_run t s) then None else
  match cw_pc s t with
  | Loaded _ | Putting _ => None
  | _ => Some (set_pc t Idle s)
  end.

Inductive event :=
  | Advance (t : task)
  | LoadFails (t : task)
  | Commit (d : Db)     (** another process commits; [d] is committed from now on *)
  | Dequeue             (** the worker takes a snapshot *)
  | Stop.               (** [stop]: the tasks are cancelled *)

Definition wstep (e : event) (s : ConfigWatcher) : option ConfigWatcher :=
  match e with
  | Advance t => advance t s
  | LoadFails t => load_fails t s
  | Commit d => Some (mkWatcher d (cw_last_version s) (cw_pc s) (cw_started s) (cw_stopped s)
                        (cw_taken s) (cw_queue s))
  | Dequeue =>
      match cw_queue s with
      | [] => None
      | x :: q => Some (mkWatcher (cw_db s) (cw_last_version s) (cw_pc s) (cw_started s)
                          (cw_stopped s) (cw_taken s ++ [x]) q)
      end
  | Stop => Some (mkWatcher (cw_db s) (cw_last_version s) (λ _, Idle) (cw_started s) true
                    (cw_taken s) (cw_queue s))
  end.

Fixpoint wrun (es : list event) (s : ConfigWatcher) : option ConfigWatcher :=
  match es with
  | [] => Some s
  | e :: t => match wstep e s with Some s' => wrun t s' | None => None end
  end.

Definition watcher_init (d : Db) : ConfigWatcher :=
  mkWatcher d None (λ _, Idle) false false [] [].

(** A complete reload by one task *)
Definition reload (t : task) : list event := replicate 5 (Advance t).

(** ** What the database owes the watcher *)

Definition clear_progress (r : SubscriptionRow) : SubscriptionRow :=
  mkSubscriptionRow (s_name r) (s_chain_id r) (s_address r) (s_abi_id r) (s_match_kind r)
    (s_match_name r) (s_arg_filters r) (s_enabled r) (s_start_block r) None (s_business_name r).

(** The same configuration and version: progress, checkpoints and delivery records aside *)
Definition same_config (d d' : Db) : Prop :=
  version_get d = version_get d' ∧ db_chains d = db_chains d' ∧ db_abis d = db_abis d' ∧
  clear_progress <$> db_subscriptions d = clear_progress <$> db_subscriptions d' ∧
  db_channels d = db_channels d' ∧ db_bindings d = db_bindings d'.

#[export] Instance same_config_equiv : Equivalence same_config.
Proof.
  split.
  - intros d. by split_and!.
  - intros d d' (?&?&?&?&?&?). by split_and!.
  - intros d d' d'' (?&?&?&?&?&?) (?&?&?&?&?&?). split_and!; by etrans.
Qed.

(** Every commit of another process that changes the configuration also increments its
    version ([bump_and_publish]) *)
Definition versioned (d d' : Db) : Prop :=
  same_config d d' ∨ version_get d' = version_get d + 1.

(** [x] was read from [d]'s configuration, whatever order the tables were scanned in *)
Definition snapshot_of (d : Db) (x : ConfigSnapshot) : Prop :=
  ∃ d1 d2 d3, same_config d1 d ∧ same_config d2 d ∧ same_config d3 d ∧
    x = build_snapshot (version_get d) (chain_list_enabled d1) (abi_list_all d2)
          (list_enabled_with_channels d3).

(** ** The invariant of the loads *)

(** A snapshot is no newer than the database, and faithful to it if as new *)
Definition snapshot_ok (d : Db) (x : ConfigSnapshot) : Prop :=
  snap_version x ≤ version_get d ∧ (snap_version x = version_get d → snapshot_of d x).

Definition pc_ok (d : Db) (p : pc) : Prop :=
  match p with
  | Idle => True
  | ReadVersion v => v ≤ version_get d
  | ReadChains v cs => v ≤ version_get d ∧
      (v = version_get d → ∃ d1, same_config d1 d ∧ cs = chain_list_enabled d1)
  | ReadAbis v cs abis => v ≤ version_get d ∧
      (v = version_get d → ∃ d1 d2, same_config d1 d ∧ same_config d2 d ∧
         cs = chain_list_enabled d1 ∧ abis = abi_list_all d2)
  | Loaded x | Putting x => snapshot_ok d x
  end.

Lemma snapshot_ok_commit d d' x : versioned d d' → snapshot_ok d x → snapshot_ok d' x.
Proof.
  intros [Hs|Hv] [Hle Hx]; split; try lia.
  - destruct Hs as [<- _]. done.
  - intros E. destruct (Hx ltac:(destruct Hs as [-> _]; done)) as (d1 & d2 & d3 & H1 & H2 & H3 & ->).
    exists d1, d2, d3. split_and!; try by etrans. by destruct Hs as [-> _].
Qed.

Lemma pc_ok_commit d d' p : versioned d d' → pc_ok d p → pc_ok d' p.
Proof.
  intros Hv. destruct p as [|v|v cs|v cs abis|x|x]; simpl; try done;
    try (by apply snapshot_ok_commit).
  - destruct Hv as [[-> _]|]; lia.
  - intros [Hle Hx]. destruct Hv as [Hs|Hv]; [|split; lia].
    pose proof Hs as [Hver _]. rewrite <- Hver. split; [done|].
    intros E. destruct (Hx E) as (d1 & H1 & ->). exists d1. split; [by etrans|done].
  - intros [Hle Hx]. destruct Hv as [Hs|Hv]; [|split; lia].
    pose proof Hs as [Hver _]. rewrite <- Hver. split; [done|].
    intros E. destruct (Hx E) as (d1 & d2 & H1 & H2 & -> & ->).
    exists d1, d2. split_and!; try done; by etrans.
Qed.

(** Consecutive emissions differ in version *)
Fixpoint alternating (l : list ConfigSnapshot) : Prop :=
  match l with
  | x :: (y :: _) as t => snap_version x ≠ snap_version y ∧ alternating t
  | _ => True
  end.

Lemma alternating_snoc l x :
  alternating l → (∀ y, last l = Some y → snap_version y ≠ snap_version x) → alternating (l ++ [x]).
Proof.
  induction l as [|y l IH]; intros Hl Hx; [done|]. destruct l as [|z l].
  - split; [by apply Hx|done].
  - destruct Hl as [Hyz Hl]. split; [done|]. apply IH; [done|].
    intros u Hu. apply Hx. by rewrite last_cons_cons.
Qed.

Record watcher_ok (s : ConfigWatcher) : Prop := {
  wo_pc : ∀ t, pc_ok (cw_db s) (cw_pc s t);
  wo_emitted : Forall (snapshot_ok (cw_db s)) (emitted s);
  wo_last : cw_last_version s = snap_version <$> last (emitted s);
  wo_alternating : alternating (emitted s);
}.

(** A step in which other processes keep the version's promise and no put has to wait *)
Definition watcher_step (s s' : ConfigWatcher) : Prop :=
  ∃ e, wstep e s = Some s' ∧ (∀ d, e = Commit d → versioned (cw_db s) d) ∧
    ∀ t x, cw_pc s' t ≠ Putting x.

(** A step other than a commit *)
Definition local_step (s s' : ConfigWatcher) : Prop :=
  ∃ e, wstep e s = Some s' ∧ (∀ d, e ≠ Commit d) ∧ ∀ t x, cw_pc s' t ≠ Putting x.

Lemma local_watcher_step s s' : local_step s s' → watcher_step s s'.
Proof. intros (e & H & Hc & Hp). exists e. split_and!; try done. intros d ->. by destruct (Hc d). Qed.

Lemma set_pc_ok t p s : watcher_ok s → pc_ok (cw_db s) p → watcher_ok (set_pc t p s).
Proof.
  intros [] Hp. split; try done. intros t'. simpl. by destruct (decide (t' = t)).
Qed.

Lemma emit_ok t x s :
  watcher_ok s → snapshot_ok (cw_db s) x → cw_last_version s ≠ Some (snap_version x) →
  watcher_ok (set_pc t Idle (put x (set_last (snap_version x) s))).
Proof.
  intros [Hpc He Hl Ha] Hx Hne.
  assert (Hem : emitted (set_pc t Idle (put x (set_last (snap_version x) s))) = emitted s ++ [x])
    by (unfold emitted; simpl; by rewrite app_assoc).
  apply set_pc_ok; [|done]. split; simpl.
  - done.
  - change (Forall (snapshot_ok (cw_db s)) (cw_taken s ++ (cw_queue s ++ [x]))).
    rewrite app_assoc. apply Forall_app. split; [done|]. by constructor.
  - change (Some (snap_version x) = snap_version <$> last (cw_taken s ++ (cw_queue s ++ [x]))).
    by rewrite app_assoc, last_snoc.
  - change (alternating (cw_taken s ++ (cw_queue s ++ [x]))). rewrite app_assoc.
    apply alternating_snoc; [done|]. intros y Hy E. apply Hne. rewrite Hl.
    unfold emitted. rewrite Hy. simpl. by rewrite E.
Qed.

Lemma advance_ok t s s' :
  watcher_ok s → advance t s = Some s' → (∀ t x, cw_pc s' t ≠ Putting x) → 
  (∀ t x, cw_pc s t ≠ Putting x) → watcher_ok s'.
Proof.
  intros Hok H Hno Hno0. pose proof (wo_pc s Hok t) as Hpc. unfold advance in H.
  destruct (negb (may_run t s)); [done|].
  destruct (cw_pc s t) as [|v|v cs|v cs abis|x|x] eqn:E; simplify_eq.
  - apply set_pc_ok; [done|]. simpl. lia.
  - apply set_pc_ok; [done|]. simpl in *. split; [done|]. intros _. by exists (cw_db s).
  - apply set_pc_ok; [done|]. destruct Hpc as [Hle Hx]. split; [done|]. intros Ev.
    destruct (Hx Ev) as (d1 & H1 & ->). by exists d1, (cw_db s).
  - apply set_pc_ok; [done|]. destruct Hpc as [Hle Hx]. simpl. unfold snapshot_ok.
    rewrite build_snapshot_eq. cbn [snap_version]. split; [done|]. intros Ev.
    destruct (Hx Ev) as (d1 & d2 & H1 & H2 & -> & ->).
    exists d1, d2, (cw_db s). split_and!; try done. by rewrite build_snapshot_eq, Ev.
  - case_bool_decide as Hl; simplify_eq; [by apply set_pc_ok|].
    destruct (has_room _); simplify_eq; [by apply emit_ok|].
    exfalso. apply (Hno t x). simpl. by rewrite decide_True.
  - by destruct (Hno0 t x).
Qed.

Lemma watcher_step_ok s s' :
  watcher_step s s' → (∀ t x, cw_pc s t ≠ Putting x) → watcher_ok s → watcher_ok s'.
Proof.
  intros (e & H & Hc & Hno) Hno0 Hok. destruct e as [t|t|d| |]; simpl in H.
  - by eapply advance_ok.
  - unfold load_fails in H. destruct (negb _); [done|].
    destruct (cw_pc s t); simplify_eq; by apply set_pc_ok.
  - simplify_eq. specialize (Hc d eq_refl). destruct Hok as [Hpc He Hl Ha]. split; try done.
    + intros t. simpl. by apply (pc_ok_commit (cw_db s) d _ Hc), Hpc.
    + eapply Forall_impl; [exact He|]. intros x. by apply snapshot_ok_commit.
  - destruct (cw_queue s) as [|x q] eqn:Eq; simplify_eq. destruct Hok as [Hpc He Hl Ha].
    assert (emitted s = (cw_taken s ++ [x]) ++ q) as Hem
      by (unfold emitted; by rewrite Eq, <- app_assoc).
    rewrite Hem in *. by split.
  - simplify_eq. destruct Hok as [Hpc He Hl Ha]. by split.
Qed.

Lemma reachable_ok d s :
  rtc watcher_step (watcher_init d) s →
  watcher_ok s ∧ ∀ t x, cw_pc s t ≠ Putting x.
Proof.
  apply (rtc_ind_r (λ s, watcher_ok s ∧ ∀ t x, cw_pc s t ≠ Putting x)).
  - split; [|done]. by split.
  - intros y z _ Hyz [Hok Hno]. split; [by apply (watcher_step_ok y)|]. by destruct Hyz as (?&?&?&?).
Qed.

(** ** Convergence *)

Definition pc_version (p : pc) : option Z :=
  match p with
  | Idle => None
  | ReadVersion v | ReadChains v _ | ReadAbis v _ _ => Some v
  | Loaded x | Putting x => Some (snap_version x)
  end.

(** Every load under way read its version after the last commit *)
Definition settled (s : ConfigWatcher) : Prop :=
  ∀ t v, pc_version (cw_pc s t) = Some v → v = version_get (cw_db s).

(** The newest snapshot handed over is the committed configuration *)
Definition current (s : ConfigWatcher) : Prop :=
  ∃ x, last (emitted s) = Some x ∧ snapshot_of (cw_db s) x.

Lemma snapshot_of_version d x : snapshot_of d x → snap_version x = version_get d.
Proof. intros (d1 & d2 & d3 & _ & _ & _ & ->). by rewrite build_snapshot_eq. Qed.

Lemma set_pc_settled t p s :
  settled s → (∀ v, pc_version p = Some v → v = version_get (cw_db s)) → settled (set_pc t p s).
Proof.
  intros Hs Hp t' v. simpl. destruct (decide (t' = t)); [apply Hp|apply Hs].
Qed.

Lemma emit_current t x s :
  snapshot_ok (cw_db s) x → snap_version x = version_get (cw_db s) →
  current (set_pc t Idle (put x (set_last (snap_version x) s))).
Proof.
  intros [_ Hx] Hv. exists x. split; [|by apply Hx].
  unfold emitted. simpl. by rewrite app_assoc, last_snoc.
Qed.

Lemma local_step_settled s s' :
  watcher_ok s → (∀ t x, cw_pc s t ≠ Putting x) → settled s → local_step s s' →
  settled s' ∧ cw_db s' = cw_db s ∧ (current s → current s').
Proof.
  intros Hok Hno0 Hs (e & H & Hc & Hno). destruct e as [t|t|d| |]; simpl in H.
  - pose proof (Hs t) as Hv. pose proof (wo_pc s Hok t) as Hpc. unfold advance in H.
    destruct (negb _); [done|].
    destruct (cw_pc s t) as [|v|v cs|v cs abis|x|x] eqn:E; simpl in Hv; simplify_eq;
      try (split_and!; [apply set_pc_settled; [done|by intros ? [= <-]; auto]|done..]).
    + split_and!; [|done..]. apply set_pc_settled; [done|]. intros u. simpl.
      rewrite build_snapshot_eq. intros [= <-]. by apply Hv.
    + case_bool_decide; simplify_eq; [split_and!; [by apply set_pc_settled|done..]|].
      destruct (has_room _); simplify_eq.
      * split_and!; [by apply set_pc_settled|done|]. intros _.
        apply emit_current; [exact Hpc|by apply Hv].
      * exfalso. apply (Hno t x). simpl. by rewrite decide_True.
    + by destruct (Hno0 t x).
  - unfold load_fails in H. destruct (negb _); [done|].
    destruct (cw_pc s t); simplify_eq; (split_and!; [by apply set_pc_settled|done..]).
  - by destruct (Hc d).
  - destruct (cw_queue s) as [|x q] eqn:Eq; simplify_eq. split_and!; [done..|].
    intros (y & Hy & Hof). exists y. split; [|done]. rewrite <- Hy. unfold emitted. simpl.
    by rewrite Eq, <- app_assoc.
  - simplify_eq. split_and!; [|done..]. by intros t v [=].
Qed.

Lemma local_steps_settled s s' :
  watcher_ok s → (∀ t x, cw_pc s t ≠ Putting x) → settled s → rtc local_step s s' →
  cw_db s' = cw_db s ∧ (current s → current s').
Proof.
  intros Hok Hno Hs Hsteps. induction Hsteps as [s|s s1 s' Hstep _ IH]; [done|].
  destruct (local_step_settled s s1 Hok Hno Hs Hstep) as (Hs1 & Hdb & Hcur).
  destruct IH as [Hdb' Hcur'].
  - apply (watcher_step_ok s); [by apply local_watcher_step|done..].
  - by destruct Hstep as (?&?&?&?).
  - done.
  - rewrite Hdb', Hdb. split; [done|]. auto.
Qed.

Lemma wrun_app es es' s :
  wrun (es ++ es') s = match wrun es s with Some s1 => wrun es' s1 | None => None end.
Proof.
  revert s. induction es as [|e es IH]; intros s; [done|]. simpl.
  destruct (wstep e s); [apply IH|done].
Qed.

(** The state after an undisturbed load, before the comparison *)
Definition after_load (t : task) (s : ConfigWatcher) : ConfigWatcher :=
  let d := cw_db s in
  let v := version_get d in
  set_pc t (Loaded (load_snapshot d))
    (set_pc t (ReadAbis v (chain_list_enabled d) (abi_list_all d))
       (set_pc t (ReadChains v (chain_list_enabled d)) (set_pc t (ReadVersion v) s))).

Lemma may_run_set_pc t p s : t ≠ TInit → may_run t (set_pc t p s) = may_run t s.
Proof.
  intros Ht. unfold may_run. simpl. rewrite bool_decide_eq_false_2 by done. simpl.
  by rewrite orb_false_r.
Qed.

Lemma cw_pc_set_pc t p s : cw_pc (set_pc t p s) t = p.
Proof. simpl. by rewrite decide_True. Qed.

Lemma load_run t s :
  cw_pc s t = Idle → may_run t s = true → t ≠ TInit →
  wrun (replicate 4 (Advance t)) s = Some (after_load t s) ∧
  may_run t (after_load t s) = true ∧
  ∀ t', t' ≠ t → cw_pc (after_load t s) t' = cw_pc s t'.
Proof.
  intros Hidle Hrun Ht. unfold after_load. split_and!.
  - cbn [replicate wrun wstep].
    unfold advance at 1. rewrite Hrun, Hidle. cbn [negb].
    unfold advance at 1. rewrite may_run_set_pc, Hrun, cw_pc_set_pc by done. cbn [negb].
    unfold advance at 1. rewrite !may_run_set_pc, Hrun, cw_pc_set_pc by done. cbn [negb].
    unfold advance at 1. by rewrite !may_run_set_pc, Hrun, cw_pc_set_pc by done.
  - by rewrite !may_run_set_pc.
  - intros t' Hne. simpl. by rewrite !decide_False.
Qed.

Lemma load_snapshot_of d : snapshot_of d (load_snapshot d).
Proof. by exists d, d, d. Qed.

Lemma after_load_ok t s : watcher_ok s → watcher_ok (after_load t s).
Proof.
  intros Hok. unfold after_load.
  apply set_pc_ok; [|split; [|intros _; apply load_snapshot_of]].
  - apply set_pc_ok; [|split; [done|by exists (cw_db s), (cw_db s)]].
    apply set_pc_ok; [|split; [done|by exists (cw_db s)]].
    apply set_pc_ok; [done|]. apply Z.le_refl.
  - rewrite (snapshot_of_version _ _ (load_snapshot_of _)). apply Z.le_refl.
Qed.

(** An undisturbed reload of an idle task ends with the configuration handed over *)
Lemma reload_current t s :
  watcher_ok s → cw_pc s t = Idle → may_run t s = true → t ≠ TInit → has_room s = true →
  ∃ s', wrun (reload t) s = Some s' ∧ cw_db s' = cw_db s ∧ current s' ∧
    (∀ t', cw_pc s' t' = cw_pc s t') ∧ watcher_ok s'.
Proof.
  intros Hok Hidle Hrun Ht Hroom. destruct (load_run t s Hidle Hrun Ht) as (H4 & Hrun4 & Hpc4).
  pose proof (after_load_ok t s Hok) as Hok4.
  assert (Hothers : ∀ t' s0, (∀ t', cw_pc s0 t' = cw_pc (after_load t s) t') →
    cw_pc (set_pc t Idle s0) t' = cw_pc s t').
  { intros t' s0 H0. simpl. destruct (decide (t' = t)) as [->|]; [done|]. by rewrite H0, Hpc4. }
  set (x := load_snapshot (cw_db s)).
  pose proof (load_snapshot_of (cw_db s) : snapshot_of _ x) as Hx.
  assert (Hxok : snapshot_ok (cw_db s) x)
    by (split; [rewrite (snapshot_of_version _ _ Hx); apply Z.le_refl|done]).
  change (reload t) with (replicate 4 (Advance t) ++ [Advance t]). rewrite wrun_app, H4.
  cbn [wrun wstep]. unfold advance. rewrite Hrun4. unfold after_load at 1.
  rewrite cw_pc_set_pc. cbn [negb]. fold x.
  change (cw_last_version (after_load t s)) with (cw_last_version s). case_bool_decide as Hl.
  - eexists. split_and!; [done|done| |by intros t'; apply Hothers|by apply set_pc_ok].
    rewrite (wo_last s Hok) in Hl. apply fmap_Some in Hl as (y & Hy & Hv). exists y.
    split; [exact Hy|]. apply last_Some in Hy as [l Hl].
    pose proof (wo_emitted s Hok) as He. rewrite Hl in He. apply Forall_snoc_last in He as [_ He].
    apply He. rewrite <- Hv. by apply snapshot_of_version.
  - change (has_room (set_last (snap_version x) (after_load t s))) with (has_room s).
    rewrite Hroom. eexists. split_and!; [done|done| |by intros t'; apply Hothers|by apply emit_ok].
    by apply (emit_current t x (after_load t s)); [|apply snapshot_of_version].
Qed.

(** C11 What the watcher hands over, in every interleaving of its reloads with commits each of
    which leaves the configuration alone or increments its version (so no two writers' bumps
    overlap, see [overlapping_write_never_seen]), as long as the queue has room for what is handed
    over: a snapshot is never ahead of the database, one whose version is the database's is exactly
    the committed configuration even though the tables were read one by one, and consecutive
    snapshots differ in version. *)
Theorem emissions_faithful d s :
  rtc watcher_step (watcher_init d) s →
  Forall (snapshot_ok (cw_db s)) (emitted s) ∧ alternating (emitted s) ∧
  cw_last_version s = snap_version <$> last (emitted s).
Proof. intros H. destruct (reachable_ok d s H) as [[] _]. done. Qed.

(** C25 The poll is an authoritative fallback.  Provided that every commit so far left the
    configuration alone or incremented its version (overlapping bumps break this, see
    [overlapping_write_never_seen]), that no load is under way, that the poll is due and that the
    queue has room: one poll leaves the worker holding the committed configuration, and it stays so
    whatever the tasks do next, until a commit, as long as no put has to wait. *)
Theorem poll_converges d s :
  rtc watcher_step (watcher_init d) s →
  (∀ t, cw_pc s t = Idle) → may_run TPoll s = true → has_room s = true →
  ∃ s', wrun (reload TPoll) s = Some s' ∧ current s' ∧ cw_db s' = cw_db s ∧
    ∀ s'', rtc local_step s' s'' → current s'' ∧ cw_db s'' = cw_db s.
Proof.
  intros Hreach Hidle Hrun Hroom. destruct (reachable_ok d s Hreach) as [Hok _].
  destruct (reload_current TPoll s Hok (Hidle TPoll) Hrun ltac:(done) Hroom)
    as (s' & H & Hdb & Hcur & Hpc & Hok').
  exists s'. split_and!; try done. intros s'' Hsteps.
  destruct (local_steps_settled s' s'' Hok') as [Hdb'' Hcur''].
  - intros t x. rewrite Hpc, Hidle. done.
  - intros t v. rewrite Hpc, Hidle. done.
  - done.
  - rewrite Hdb'', Hdb. split; [auto|done].
Qed.

(** ** Overlapping writers

    On an engine that locks rows, a session that has executed its statement and read the
    version holds nothing that stops another from reading the same version: [version_bump] writes
    the number computed from what it read. *)
Definition tx_read (d : Db) : Z := version_get (version_bump d).2.
Definition tx_commit (n : Z) (stmt : Db → Db) (d : Db) : Db := set_version (Some n) (stmt d).

(** A reload that finds the version it handed over last does nothing *)
Lemma reload_same_version t s :
  cw_last_version s = Some (version_get (cw_db s)) → cw_pc s t = Idle → may_run t s = true →
  t ≠ TInit →
  wrun (reload t) s = Some (set_pc t Idle (after_load t s)).
Proof.
  intros Hl Hidle Hrun Ht. destruct (load_run t s Hidle Hrun Ht) as (H4 & Hrun4 & _).
  change (reload t) with (replicate 4 (Advance t) ++ [Advance t]). rewrite wrun_app, H4.
  cbn [wrun wstep]. unfold advance. rewrite Hrun4. unfold after_load at 1.
  rewrite cw_pc_set_pc. cbn [negb].
  rewrite bool_decide_eq_true_2; [done|].
  rewrite (snapshot_of_version _ _ (load_snapshot_of _)). exact Hl.
Qed.

(** Two writers that overlap on such an engine commit the same version.  Once the
    watcher has handed over the first one's change, the second one's is never seen: however many
    polls and notifications follow, nothing more is handed over. *)
Lemma overlapping_write_never_seen d f g s ts :
  let n := tx_read d in
  let d1 := tx_commit n f d in
  let d2 := tx_commit n g d1 in
  cw_db s = d1 → cw_last_version s = Some (version_get d1) → (∀ t, cw_pc s t = Idle) →
  may_run TPoll s = true → Forall (λ t, t ≠ TInit) ts →
  ∃ s', wrun (Commit d2 :: concat (reload <$> ts)) s = Some s' ∧
    cw_db s' = d2 ∧ emitted s' = emitted s.
Proof.
  intros n d1 d2 Hdb Hl Hidle Hrun Hts. cbn [wrun wstep].
  set (s2 := mkWatcher d2 _ _ _ _ _ _).
  assert (Hgen : ∀ s, cw_db s = d2 → cw_last_version s = Some (version_get d2) →
    (∀ t, cw_pc s t = Idle) → may_run TPoll s = true →
    ∃ s', wrun (concat (reload <$> ts)) s = Some s' ∧ cw_db s' = d2 ∧ emitted s' = emitted s).
  { clear -Hts. induction Hts as [|t ts Ht _ IH]; intros s Hdb Hl Hidle Hrun; [by exists s|].
    assert (Hrun' : may_run t s = true).
    { unfold may_run in *. rewrite decide_False in * by done. done. }
    rewrite fmap_cons. cbn [concat].
    rewrite wrun_app, (reload_same_version t s); [|by rewrite Hdb|apply Hidle|done|done].
    destruct (IH (set_pc t Idle (after_load t s))) as (s' & H & Hdb' & Hem); try done.
    - intros t'. simpl. destruct (decide (t' = t)); [done|apply Hidle].
    - unfold may_run in *. rewrite decide_False in * by done. simpl.
      apply andb_true_iff in Hrun as [-> ->]. done.
    - by exists s'. }
  apply (Hgen s2); done.
Qed.
End watcher.

(** ** Examples *)
Definition versioned_toy (n : Z) (enabled : bool) : Db :=
  set_version (Some n) (set_subscriptions (<["t" := toy_sub_row enabled]> (db_subscriptions toy_db))
    toy_db).

(** The subscriber reads everything at version 1; before it compares, version 2 is committed and
    the poller hands it over. *)
Definition stale_trace : list event :=
  reload TInit ++ replicate 4 (Advance TSub) ++ [Commit (versioned_toy 2 false)] ++
  reload TPoll ++ [Advance TSub] ++ reload TPoll.

(** "At most one emission per actual configuration change" does not hold: with one
    commit, made while the subscriber is reloading, the worker is handed versions 1, 2, then the
    outdated 1 again, and 2 once more at the next poll. *)
Lemma stale_snapshot_reemitted :
  ∃ s, wrun (L:=ToySql) stale_trace (watcher_init (versioned_toy 1 true)) = Some s ∧
    snap_version <$> emitted s = [1; 2; 1; 2] ∧
    versioned (versioned_toy 1 true) (versioned_toy 2 false).
Proof.
  eexists. split; [vm_compute; reflexivity|]. split; [reflexivity|]. right. reflexivity.
Qed.

Lemma watcher_reach `{L : Sql} es s s' :
  wrun es s = Some s' → Forall (λ e, ∀ d, e ≠ Commit d) es →
  (∀ es1 es2 s1, es = es1 ++ es2 → wrun es1 s = Some s1 → ∀ t x, cw_pc s1 t ≠ Putting x) →
  rtc watcher_step s s'.
Proof.
  revert s. induction es as [|e es IH]; intros s H Hc Hno; simpl in H; [by simplify_eq|].
  apply Forall_cons in Hc as [He Hc]. destruct (wstep e s) as [s1|] eqn:E; [|done].
  apply (rtc_l _ _ s1).
  - exists e. split_and!; [done|by intros d ->; destruct (He d)|].
    apply (Hno [e] es s1); [done|]. simpl. by rewrite E.
  - apply IH; [done..|]. intros es1 es2 s2 -> H2. apply (Hno (e :: es1) es2 s2); [done|].
    simpl. by rewrite E.
Qed.

Definition toy_started : ConfigWatcher :=
  default (watcher_init toy_db) (wrun (L:=ToySql) (reload TInit) (watcher_init (versioned_toy 1 true))).

Lemma toy_started_reachable :
  rtc (watcher_step (L:=ToySql)) (watcher_init (versioned_toy 1 true)) toy_started.
Proof.
  apply (watcher_reach (reload TInit)).
  - vm_compute. reflexivity.
  - by repeat constructor.
  - intros es1 es2 s1 Hes H t x. 
    assert (es1 = take (length es1) (reload TInit)) as E by (by rewrite Hes, take_app_length).
    assert (length es1 ≤ 5)%nat as Hlen by (apply (f_equal length) in Hes; rewrite length_app in Hes;
      simpl in Hes; lia).
    rewrite E in H. destruct (length es1) as [|[|[|[|[|[|n]]]]]]; try lia;
      vm_compute in H; simplify_eq; simpl; by destruct t.
Qed.

Lemma emissions_faithful_witness :
  snap_version <$> emitted toy_started = [1] ∧ alternating (emitted toy_started).
Proof.
  split; [vm_compute; reflexivity|].
  apply (emissions_faithful (L:=ToySql) _ _ toy_started_reachable).
Defined.

Lemma poll_converges_witness :
  ∃ s', wrun (L:=ToySql) (reload TPoll) toy_started = Some s' ∧ current (L:=ToySql) s'.
Proof.
  destruct (poll_converges (L:=ToySql) _ _ toy_started_reachable) as (s' & H & Hc & _).
  - intros t. by destruct t; vm_compute.
  - vm_compute. reflexivity.
  - vm_compute. reflexivity.
  - by exists s'.
Defined.

Lemma overlapping_write_never_seen_witness :
  let d := versioned_toy 0 true in
  let drop_s := subscription_delete (L:=ToySql) "s" in
  let drop_t := subscription_delete (L:=ToySql) "t" in
  let d1 := tx_commit 1 drop_t d in
  let s := mkWatcher d1 (Some 1) (λ _, Idle) true false [] [load_snapshot (L:=ToySql) d1] in
  ∃ s', wrun (L:=ToySql) (Commit (tx_commit 1 drop_s d1) :: concat (reload <$> [TPoll; TSub])) s
      = Some s' ∧
    emitted s' = [load_snapshot (L:=ToySql) d1] ∧
    db_subscriptions (cw_db s') !! "s" = None.
Proof.
  cbn zeta.
  destruct (overlapping_write_never_seen (L:=ToySql) (versioned_toy 0 true)
    (subscription_delete (L:=ToySql) "t") (subscription_delete (L:=ToySql) "s")
    (mkWatcher (tx_commit 1 (subscription_delete (L:=ToySql) "t") (versioned_toy 0 true)) (Some 1)
       (λ _, Idle) true false []
       [load_snapshot (L:=ToySql)
          (tx_commit 1 (subscription_delete (L:=ToySql) "t") (versioned_toy 0 true))])
    [TPoll; TSub] eq_refl eq_refl (λ _, eq_refl) eq_refl ltac:(by repeat constructor))
    as (s' & H & Hdb & Hem).
  exists s'. split_and!; [exact H|exact Hem|]. rewrite Hdb. vm_compute. reflexivity.
Defined.

(** ** The replay watcher

    [RedisBus.subscribe] yields the messages of its channel that carry data, decoded; the
    stream is what [listen] and [json.loads] produce.  [_run] hands each message over; an exception of
    the stream itself ends it. *)
Section replay_watcher.
Context {W : Type} (on_replay : pyval → M W unit).

(** [type == "message"] or another notification *)
Inductive pubsub_item := Message (data : result pyval) | Other.

Fixpoint subscribe (items : list pubsub_item) : list (result pyval) :=
  match items with
  | [] => []
  | Other :: t => subscribe t
  | Message (Ok v) :: t => Ok v :: subscribe t
  | Message (Err e) :: _ => [Err e]
  end.

Fixpoint replay_watcher_run (stream : list (result pyval)) : M W unit :=
  match stream with
  | [] => mret tt
  | Err e :: _ => mthrow e
  | Ok msg :: t => mcatch (on_replay msg) (λ _, mret tt) ;;* replay_watcher_run t
  end.

(** The messages handed over *)
Fixpoint messages (items : list pubsub_item) : list pyval :=
  match items with
  | [] => []
  | Other :: t => messages t
  | Message (Ok v) :: t => v :: messages t
  | Message (Err _) :: _ => []
  end.

Lemma replay_watcher_step msg t w :
  replay_watcher_run (Ok msg :: t) w = replay_watcher_run t (on_replay msg w).2.
Proof. simpl. unfold mbind, mcatch, mret. by destruct (on_replay msg w) as [[[]|e] w1]. Qed.

(** Every replay request received is handed over once, in order, whatever the callback
    raises; only an undecodable message or a lost connection ends the watcher. *)
Lemma replay_requests_all_handed items w :
  let '(r, w') := replay_watcher_run (subscribe items) w in
  w' = foldl (λ w msg, (on_replay msg w).2) w (messages items) ∧
  (r = Ok tt ∨ ∃ e, Message (Err e) ∈ items ∧ r = Err e).
Proof.
  revert w. induction items as [|[[v|e]|] items IH]; intros w; cbn [subscribe messages].
  - split; [done|by left].
  - rewrite replay_watcher_step. specialize (IH (on_replay v w).2).
    destruct (replay_watcher_run _ _) as [r w'].
    destruct IH as [-> [->|(e' & Hin & ->)]]; split; [done|by left|done|right].
    exists e'. split; [by right|done].
  - split; [done|]. right. exists e. split; [left|done].
  - specialize (IH w). destruct (replay_watcher_run _ w) as [r w'].
    destruct IH as [-> [->|(e' & Hin & ->)]]; split; [done|by left|done|right].
    exists e'. split; [by right|done].
Qed.
End replay_watcher.
