(* ===== verification/Matcher.v ===== *)
(** * Matcher (core/matcher/matcher.py)

    Subscriptions are indexed by [(chain_id, match_kind)]; [match_event] scans the
    candidates of an event.  An exception while testing one subscription skips that
    subscription alone. *)
From S2P Require Import Prelude PyStr PyVal Types Snapshot Filters.

(** ** State and operations *)

Record Matcher := mkMatcher {
  m_snapshot : ConfigSnapshot;
  m_by_key : gmap (string * string) (list SnapshotSubscription);
  m_channels : gmap string SnapshotChannel;
}.

(** [self._by_key.setdefault(key, []).append(s)] over the enabled subscriptions *)
Definition index_subscriptions (subs : list SnapshotSubscription)
    : gmap (string * string) (list SnapshotSubscription) :=
  foldl (λ m s,
    if sub_enabled s then
      let key := (sub_chain_id s, sub_match_kind s) in
      <[key := default [] (m !! key) ++ [s]]> m
    else m) ∅ subs.

Definition Matcher_init (s : ConfigSnapshot) : Matcher :=
  mkMatcher s (index_subscriptions (snap_subscriptions s)) (channels_by_id (snap_channels s)).

Definition addr_norm (s : string) : string :=
  if startswith s "0x" then lower s else s.

(** [Matcher._matches]; [evaluate] may raise. *)
Definition sub_matches (sub : SnapshotSubscription) (event : Event) : result bool :=
  if (match sub_start_block sub with
      | Some b => ev_block_number event <? b
      | None => false
      end) then Ok false
  else if (match sub_address sub with
           | Some a =>
               match ev_contract event with
               | None => true
               | Some c => negb (String.eqb (addr_norm a) (addr_norm c))
               end
           | None => false
           end) then Ok false
  else if (match sub_match_name sub with
           | Some n => negb (bool_decide (ev_name event = Some n))
           | None => false
           end) then Ok false
  else evaluate (sub_arg_filters sub) (ev_args event).

(** The body of the generator's loop: what one candidate yields. *)
Definition match_candidate (m : Matcher) (event : Event) (sub : SnapshotSubscription)
    : option (SnapshotSubscription * list SnapshotChannel) :=
  match sub_matches sub event with
  | Ok true => Some (sub, resolve_channels (m_channels m) (sub_channel_ids sub))
  | Ok false => None
  | Err _ => None   (* log.exception("matcher.exception", ...) *)
  end.

(** [Matcher.match] *)
Definition match_event (m : Matcher) (event : Event)
    : list (SnapshotSubscription * list SnapshotChannel) :=
  omap (match_candidate m event) (default [] (m_by_key m !! (ev_chain_id event, ev_kind event))).

(** The hits a chain runner dispatches: [[(sub, chans) for sub, chans in
    matcher.match(event) if chans]]. *)
Definition event_hits (m : Matcher) (event : Event)
    : list (SnapshotSubscription * list SnapshotChannel) :=
  filter (λ h, h.2 ≠ []) (match_event m event).

(** ** The reference meaning: a linear scan of the snapshot *)

(** A subscription wants an event. *)
Record wants (sub : SnapshotSubscription) (event : Event) : Prop := {
  wants_enabled : sub_enabled sub = true;
  wants_chain : sub_chain_id sub = ev_chain_id event;
  wants_kind : sub_match_kind sub = ev_kind event;
  wants_start : ∀ b, sub_start_block sub = Some b → b <= ev_block_number event;
  wants_address : ∀ a, sub_address sub = Some a →
    ∃ c, ev_contract event = Some c ∧ addr_norm a = addr_norm c;
  wants_name : ∀ n, sub_match_name sub = Some n → ev_name event = Some n;
  wants_args : Forall (entry_holds (ev_args event)) (sub_arg_filters sub);
}.

Definition scan_match (s : ConfigSnapshot) (event : Event)
    : list (SnapshotSubscription * list SnapshotChannel) :=
  omap (λ sub,
    if decide (sub_enabled sub = true ∧ sub_chain_id sub = ev_chain_id event ∧
               sub_match_kind sub = ev_kind event) then
      match sub_matches sub event with
      | Ok true => Some (sub, channels_for_subscription s sub)
      | _ => None
      end
    else None) (snap_subscriptions s).

(** ** Lemmas *)

Lemma index_subscriptions_snoc subs s :
  index_subscriptions (subs ++ [s]) =
    if sub_enabled s then
      let key := (sub_chain_id s, sub_match_kind s) in
      <[key := default [] (index_subscriptions subs !! key) ++ [s]]> (index_subscriptions subs)
    else index_subscriptions subs.
Proof. unfold index_subscriptions. by rewrite foldl_app. Qed.

(** The index is the filtered snapshot, in snapshot order. *)
Lemma index_subscriptions_lookup subs c k :
  default [] (index_subscriptions subs !! (c, k)) =
  filter (λ s, sub_enabled s = true ∧ sub_chain_id s = c ∧ sub_match_kind s = k) subs.
Proof.
  induction subs as [|s subs IH] using rev_ind; [done|].
  rewrite index_subscriptions_snoc, filter_app, filter_cons, filter_nil.
  destruct (sub_enabled s) eqn:He; cbn zeta.
  - destruct (decide ((sub_chain_id s, sub_match_kind s) = (c, k))) as [Hk|Hk].
    + rewrite Hk, lookup_insert_eq. simplify_eq. simpl. by rewrite IH, decide_True.
    + rewrite lookup_insert_ne by done. rewrite IH, decide_False, app_nil_r; naive_solver.
  - by rewrite IH, decide_False, app_nil_r by naive_solver.
Qed.

Lemma omap_filter {A B} (P : A → Prop) `{∀ x, Decision (P x)} (f : A → option B) (l : list A) :
  omap f (filter P l) = omap (λ x, if decide (P x) then f x else None) l.
Proof.
  induction l as [|x l IH]; [done|]. rewrite filter_cons.
  destruct (decide (P x)) as [Hx|Hx]; csimpl;
    [rewrite decide_True by done; destruct (f x); [f_equal|]|rewrite decide_False by done]; exact IH.
Qed.

Lemma sub_matches_true sub event :
  sub_matches sub event = Ok true ↔
  (∀ b, sub_start_block sub = Some b → b <= ev_block_number event) ∧
  (∀ a, sub_address sub = Some a →
    ∃ c, ev_contract event = Some c ∧ addr_norm a = addr_norm c) ∧
  (∀ n, sub_match_name sub = Some n → ev_name event = Some n) ∧
  Forall (entry_holds (ev_args event)) (sub_arg_filters sub).
Proof.
  unfold sub_matches. rewrite <- evaluate_true_forall.
  destruct (match sub_start_block sub with Some b => _ | None => _ end) eqn:Hb.
  { split; [done|]. intros (H&_). destruct (sub_start_block sub); [|done].
    specialize (H _ eq_refl). lia. }
  destruct (match sub_address sub with Some b => _ | None => _ end) eqn:Ha.
  { split; [done|]. intros (_&H&_). destruct (sub_address sub) as [a|]; [|done].
    destruct (H _ eq_refl) as (c&Hc&He). rewrite Hc, He, String.eqb_refl in Ha. done. }
  destruct (match sub_match_name sub with Some b => _ | None => _ end) eqn:Hn.
  { split; [done|]. intros (_&_&H&_). destruct (sub_match_name sub) as [n|]; [|done].
    by rewrite bool_decide_true in Hn by auto. }
  split; [intros Hv; split_and!; [| | |done]|by intros (_&_&_&?)].
  - intros b Hb'. rewrite Hb' in Hb. lia.
  - intros a Ha'. rewrite Ha' in Ha. destruct (ev_contract event) as [c|]; [|done].
    apply negb_false_iff, String.eqb_eq in Ha. eauto.
  - intros n Hn'. rewrite Hn' in Hn. apply negb_false_iff in Hn.
    by apply bool_decide_eq_true in Hn.
Qed.

Lemma wants_unfold sub event :
  wants sub event ↔
  (sub_enabled sub = true ∧ sub_chain_id sub = ev_chain_id event ∧
   sub_match_kind sub = ev_kind event) ∧ sub_matches sub event = Ok true.
Proof.
  rewrite sub_matches_true. split.
  - intros []. split_and!; auto.
  - intros ((?&?&?)&?&?&?&?). by constructor.
Qed.

Lemma elem_of_match_event s event sub chans :
  (sub, chans) ∈ match_event (Matcher_init s) event ↔
  sub ∈ snap_subscriptions s ∧ wants sub event ∧ chans = channels_for_subscription s sub.
Proof.
  unfold match_event, Matcher_init. cbn [m_by_key].
  rewrite index_subscriptions_lookup, list_elem_of_omap, wants_unfold.
  setoid_rewrite list_elem_of_filter. unfold match_candidate. split.
  - intros (x&(?&?)&Hx). destruct (sub_matches x event) as [[]|] eqn:?; naive_solver.
  - intros (?&(?&Hm)&->). exists sub. rewrite Hm. split; [naive_solver|done].
Qed.

Lemma elem_of_event_hits s event sub chans :
  (sub, chans) ∈ event_hits (Matcher_init s) event ↔
  sub ∈ snap_subscriptions s ∧ wants sub event ∧
  chans = channels_for_subscription s sub ∧ chans ≠ [].
Proof.
  unfold event_hits. rewrite list_elem_of_filter, elem_of_match_event. naive_solver.
Qed.

(** ** Properties *)

(** The matcher's hash index changes nothing: on any snapshot (disabled
    subscriptions, several per key, duplicate ids) [match] yields exactly what a
    linear scan of the snapshot's subscriptions yields, in snapshot order and with
    the same resolved channels. *)
Lemma match_event_is_scan s event :
  match_event (Matcher_init s) event = scan_match s event.
Proof.
  unfold match_event, Matcher_init, scan_match. cbn [m_by_key].
  rewrite index_subscriptions_lookup, omap_filter. reflexivity.
Qed.

(** C17 [match] is sound and complete, and one subscription cannot spoil another:
    whatever the other subscriptions of the snapshot are (their filters may raise),
    a subscription is yielded, with the channels of the snapshot its ids name,
    exactly when it is enabled, names the event's chain and kind, has started, and
    its address, name and argument filters accept the event. *)
Theorem match_event_iff_wants s event sub chans :
  (sub, chans) ∈ match_event (Matcher_init s) event ↔
  sub ∈ snap_subscriptions s ∧ wants sub event ∧ chans = channels_for_subscription s sub.
Proof. apply elem_of_match_event. Qed.
