(* ===== verification/Decoder.v ===== *)
(** * ABI and IDL decoding (core/abi/decoder.py)

    JSON ABI entries are dynamic values; malformed ones make the functions raise
    exactly where the code does.  The hash functions, eth-abi, borsh-construct and
    base58 are the operations of [AbiLib].  A JSON name that is not a string is
    outside the model and raises. *)
From S2P Require Import Prelude PyStr PyVal.

(** ** Third-party code *)

(** What borsh_construct and construct combine; [parse] interprets it. *)
Inductive construct :=
  | CScalar (name : string)
  | CStruct (fields : list (string * construct))
  | CVec (inner : construct)
  | COption (inner : construct)
  | CArray (count : pyval) (inner : construct).

Class AbiLib := {
  event_signature_to_log_topic : string → list byte;
  function_signature_to_4byte_selector : string → list byte;
  eth_abi_decode : list string → list byte → result (list pyval);
  sha256 : list byte → list byte;
  json_dumps_sorted : pyval → string;
  construct_parse : construct → list byte → result (list (string * pyval));
  b58encode : list byte → string;
  b58decode : string → result (list byte);
}.

(** Documented lengths of the hashes. *)
Class AbiLibLaws `{!AbiLib} : Prop := {
  topic_length s : length (event_signature_to_log_topic s) = 32%nat;
  selector_length s : length (function_signature_to_4byte_selector s) = 4%nat;
  sha256_length l : length (sha256 l) = 32%nat;
}.

(** ** Canonical signatures *)

(** [_canonical_type] *)
Fixpoint canonical_type (input_entry : pyval) : result string :=
  match input_entry with
  | PDict d =>
      let? ty := py_getitem (PDict d) "type" in
      let? t := py_as_str ty in
      if startswith t "tuple" then
        let? comps :=
          (fix components (e : list (string * pyval)) : result (list string) :=
             match e with
             | [] => Ok []
             | (k, c) :: e' =>
                 if decide (k = "components") then
                   match c with
                   | PList l | PTuple l => rtraverse canonical_type l
                   | _ => let? l := py_iter c in
                          rtraverse (λ _, Err (TypeError "indices must be integers")) l
                   end
                 else components e'
             end) d in
        Ok ("(" +:+ py_join "," comps +:+ ")" +:+ str_drop (String.length "tuple") t)
      else Ok t
  | _ => let? v := py_getitem input_entry "type" in py_as_str v
  end.

(** [for i in abi.get("inputs", [])] *)
Definition abi_inputs (abi : pyval) : result (list pyval) :=
  let? i := py_get abi "inputs" (PList []) in py_iter i.

Definition canonical_signature (abi : pyval) : result string :=
  let? inputs := abi_inputs abi in
  let? types := rtraverse canonical_type inputs in
  let? name := py_getitem abi "name" in
  let? n := py_as_str name in
  Ok (n +:+ "(" +:+ py_join "," types +:+ ")").

Definition canonical_event_signature (event_abi : pyval) : result string :=
  canonical_signature event_abi.

Definition canonical_function_signature (fn_abi : pyval) : result string :=
  canonical_signature fn_abi.

Section decoder.
Context {L : AbiLib}.

Definition event_topic0 (event_abi : pyval) : result string :=
  let? sig := canonical_event_signature event_abi in
  Ok ("0x" +:+ bytes_hex (event_signature_to_log_topic sig)).

Definition function_selector (fn_abi : pyval) : result string :=
  let? sig := canonical_function_signature fn_abi in
  Ok ("0x" +:+ bytes_hex (function_signature_to_4byte_selector sig)).

(** ** Event and call decoding *)

(** [_split_indexed] *)
Definition split_indexed (event_abi : pyval) : result (list pyval * list pyval) :=
  let? inputs := abi_inputs event_abi in
  rfold (λ '(indexed, not_indexed) inp,
    let? b := py_get inp "indexed" PNone in
    Ok (if py_truth b then (indexed ++ [inp], not_indexed)
        else (indexed, not_indexed ++ [inp]))) inputs ([], []).

(** [_normalize_value] *)
Definition normalize_value (t : string) (v : pyval) : result pyval :=
  if String.eqb t "address" then
    match v with
    | PStr s => Ok (PStr (lower s))
    | _ => Err (AssertionError "unexpected address type")
    end
  else if (startswith t "uint" || startswith t "int") && negb (endswith t "]") then
    let? z := py_int_of v in Ok (PStr (py_str z))
  else if startswith t "bytes" && negb (endswith t "]") then
    match v with
    | PBytes l => Ok (PStr ("0x" +:+ bytes_hex l))
    | _ => Err (AssertionError "unexpected bytes type")
    end
  else Ok v.

(** [except (ValueError, OverflowError, EthAbiDecodingError)] *)
Definition is_decoding_error (e : exn) : bool :=
  match e with
  | ValueError _ => true
  | OtherError c _ => String.eqb c "OverflowError" || String.eqb c "DecodingError"
  | _ => false
  end.

Definition wrap_decode_error {A} (what : string) (r : result A) : result A :=
  match r with
  | Ok a => Ok a
  | Err e => if is_decoding_error e then Err (DecodeFailed (what +:+ exn_str e)) else Err e
  end.

(** [for x, y in zip(l, m, strict=True)] *)
Fixpoint zip_strict {A B} (l : list A) (m : list B) : result (list (A * B)) :=
  match l, m with
  | [], [] => Ok []
  | x :: l', y :: m' => let? t := zip_strict l' m' in Ok ((x, y) :: t)
  | _, _ => Err (ValueError "zip() arguments have different lengths")
  end.

(** [bytes.fromhex(s.removeprefix("0x"))] *)
Definition hex_raw (s : string) : result (list byte) :=
  match bytes_fromhex (removeprefix s "0x") with
  | Some l => Ok l
  | None => Err (ValueError "non-hexadecimal number found in fromhex() arg")
  end.

Definition inp_name (inp : pyval) : result string :=
  let? n := py_getitem inp "name" in py_as_str n.

(** The types Solidity hashes into the topic. *)
Definition is_reference_type (t : string) : bool :=
  String.eqb t "string" || String.eqb t "bytes" || endswith t "]" || startswith t "(".

(** [f" for {abi.get('name')}"], a name being a string or absent *)
Definition name_suffix (abi : pyval) : string :=
  " for " +:+ match py_get abi "name" PNone with Ok (PStr n) => n | _ => "None" end.

(** The value of one indexed input, from its topic. *)
Definition indexed_value (it : pyval * string) : result pyval :=
  let '(inp, topic_hex) := it in
  let? t := canonical_type inp in
  if is_reference_type t then Ok (PStr topic_hex)
  else
    let? raw := hex_raw topic_hex in
    let? decoded := eth_abi_decode [t] raw in
    match decoded with
    | [] => Err (OtherError "IndexError" "tuple index out of range")
    | v :: _ => normalize_value t v
    end.

(** The value of one decoded input. *)
Definition plain_value (iv : pyval * pyval) : result pyval :=
  let '(inp, v) := iv in let? t := canonical_type inp in normalize_value t v.

(** [args[inp["name"]] = <value>] *)
Definition assign_arg {X} (value : pyval * X → result pyval)
    (args : list (string * pyval)) (p : pyval * X) : result (list (string * pyval)) :=
  let? v := value p in let? n := inp_name p.1 in Ok (dset n v args).

Definition decode_event (event_abi : pyval) (topics : list string) (data : string)
    : result (list (string * pyval)) :=
  let? split := split_indexed event_abi in
  let '(indexed, not_indexed) := split in
  let expected_topic_count := S (length indexed) in
  if negb (Nat.eqb (length topics) expected_topic_count) then
    Err (DecodeFailed ("topic count " +:+ py_str (Z.of_nat (length topics)) +:+
      " != expected " +:+ py_str (Z.of_nat expected_topic_count) +:+ name_suffix event_abi))
  else
    let? pairs := zip_strict indexed (drop 1 topics) in
    let? args := rfold (assign_arg indexed_value) pairs [] in
    match not_indexed with
    | [] => Ok args
    | _ =>
        let? types := rtraverse canonical_type not_indexed in
        let? raw := hex_raw data in
        let? decoded := wrap_decode_error "data decode failed: " (eth_abi_decode types raw) in
        let? pairs := zip_strict not_indexed decoded in
        rfold (assign_arg plain_value) pairs args
    end.

Definition decode_function_call (fn_abi : pyval) (calldata : string)
    : result (list (string * pyval)) :=
  let? expected := function_selector fn_abi in
  let? raw := hex_raw calldata in
  if Nat.ltb (length raw) 4 then Err (DecodeFailed "calldata shorter than selector")
  else
    let sel := "0x" +:+ bytes_hex (take 4 raw) in
    if negb (String.eqb sel expected) then
      Err (DecodeFailed ("selector " +:+ sel +:+ " != expected " +:+ expected +:+
        name_suffix fn_abi))
    else
      let? inputs := abi_inputs fn_abi in
      let? types := rtraverse canonical_type inputs in
      let? decoded := wrap_decode_error "calldata decode failed: "
                        (eth_abi_decode types (drop 4 raw)) in
      let? pairs := zip_strict inputs decoded in
      rfold (assign_arg plain_value) pairs [].

(** ** Anchor IDL *)

Definition ANCHOR_SCALARS : list string :=
  ["bool"; "u8"; "u16"; "u32"; "u64"; "u128"; "i8"; "i16"; "i32"; "i64"; "i128";
   "bytes"; "string"; "pubkey"; "publicKey"].

Definition MAX_TYPE_DEPTH : nat := 8.

(** The first entry of the types section with this name. *)
Fixpoint find_type (types_section : list pyval) (name : pyval) : result (option pyval) :=
  match types_section with
  | [] => Ok None
  | t :: ts =>
      let? n := py_get t "name" PNone in
      if py_eq n name then Ok (Some t) else find_type ts name
  end.

(** [fields.append(f["name"] / resolved)], stopping at the first [None]. *)
Fixpoint named_fields (resolve : pyval → result (option construct)) (fields : list pyval)
    : result (option (list (string * construct))) :=
  match fields with
  | [] => Ok (Some [])
  | f :: fs =>
      let? ft := py_get f "type" PNone in
      let? resolved := resolve ft in
      match resolved with
      | None => Ok None
      | Some c =>
          let? n := inp_name f in
          let? rest := named_fields resolve fs in
          Ok (match rest with Some l => Some ((n, c) :: l) | None => None end)
      end
  end.

(** [_resolve_type]: the fuel is the remaining depth, [MAX_TYPE_DEPTH - depth]. *)
Fixpoint resolve_type (fuel : nat) (types_section : pyval) (seen : list pyval)
    (type_spec : pyval) : result (option construct) :=
  match fuel with
  | O => Ok None
  | S fuel' =>
      match type_spec with
      | PStr s => Ok (if bool_decide (s ∈ ANCHOR_SCALARS) then Some (CScalar s) else None)
      | PDict d =>
          match dget "defined" d with
          | Some name =>
              let? cyc := py_in_set name seen in
              if cyc then Ok None else
              let? ts := py_iter types_section in
              let? found := find_type ts name in
              match found with
              | None => Ok None
              | Some t =>
                  let? kind_obj := py_get t "type" (PDict []) in
                  let? kind := py_get kind_obj "kind" PNone in
                  if negb (py_eq kind (PStr "struct")) then Ok None
                  else
                    let? fl := py_get kind_obj "fields" (PList []) in
                    let? fields := py_iter fl in
                    let? r := named_fields (resolve_type fuel' types_section (name :: seen)) fields in
                    Ok (CStruct <$> r)
              end
          | None =>
              match dget "vec" d with
              | Some t => rmap (fmap CVec) (resolve_type fuel' types_section seen t)
              | None =>
                  match dget "option" d with
                  | Some t => rmap (fmap COption) (resolve_type fuel' types_section seen t)
                  | None =>
                      match dget "array" d with
                      | Some (PList [t; n]) =>
                          rmap (fmap (CArray n)) (resolve_type fuel' types_section seen t)
                      | _ => Ok None
                      end
                  end
              end
          end
      | _ => Ok None
      end
  end.

(** [sha256(f"event:{name}".encode()).digest()[:8]] *)
Definition anchor_event_discriminator (event_name : string) : list byte :=
  take 8 (sha256 (String.list_byte_of_string ("event:" +:+ event_name))).

Definition anchor_call_discriminator (fn_name : string) : list byte :=
  take 8 (sha256 (String.list_byte_of_string ("global:" +:+ fn_name))).

Definition build_anchor_event_struct (idl_event types_section : pyval)
    : result (option construct) :=
  let ts := if py_truth types_section then types_section else PList [] in
  let? fl := py_get idl_event "fields" (PList []) in
  let? fields := py_iter fl in
  let? r := named_fields (resolve_type MAX_TYPE_DEPTH ts []) fields in
  Ok (CStruct <$> r).

(** [_normalize_borsh_value] *)
Fixpoint normalize_borsh_value (v : pyval) : pyval :=
  match v with
  | PBytes l => if Nat.eqb (length l) 32 then PStr (b58encode l) else v
  | PInt z => if 2 ^ 53 <? Z.abs z then PStr (py_str z) else v
  | PList l => PList (normalize_borsh_value <$> l)
  | PDict d => PDict (
      (fix go (d : list (string * pyval)) :=
         match d with
         | [] => []
         | (k, x) :: d' => if decide (k = "_io") then go d'
                           else (k, normalize_borsh_value x) :: go d'
         end) d)
  | _ => v
  end.

Definition decode_anchor_borsh (struct : construct) (body_bytes : list byte)
    : result (list (string * pyval)) :=
  match construct_parse struct body_bytes with
  | Err e => Err (DecodeFailed ("borsh decode failed: " +:+ exn_str e))
  | Ok parsed =>
      Ok (omap (λ '(k, v), if decide (k = "_io") then None
                           else Some (k, normalize_borsh_value v)) parsed)
  end.
(** ** Lemmas *)

Lemma zip_strict_ok {A B} (l : list A) (m : list B) r :
  zip_strict l m = Ok r ↔ length l = length m ∧ r = zip l m.
Proof.
  revert m r. induction l as [|x l IH]; intros [|y m] r; simpl; [naive_solver..|].
  rewrite rbind_ok. setoid_rewrite IH. naive_solver.
Qed.

(** An assignment loop: which key ends up with which value. *)
Lemma rfold_assign {X} (value : pyval * X → result pyval) l acc args :
  rfold (assign_arg value) l acc = Ok args →
  (NoDup acc.*1 → NoDup args.*1) ∧
  ∃ names, rtraverse inp_name l.*1 = Ok names ∧
    (∀ k, k ∈ args.*1 ↔ k ∈ acc.*1 ∨ k ∈ names) ∧
    (∀ k, k ∉ names → dget k args = dget k acc) ∧
    (NoDup names → ∀ i p n, l !! i = Some p → names !! i = Some n →
      ∃ v, value p = Ok v ∧ dget n args = Some v).
Proof.
  revert acc. induction l as [|[inp x] l IH]; intros acc Hf; simpl in Hf.
  { simplify_eq. split; [done|]. exists []. set_solver. }
  unfold assign_arg  in Hf at 1. cbn [fst] in Hf.
  destruct (value (inp, x)) as [v|] eqn:Hv; simpl in Hf; [|done].
  destruct (inp_name inp) as [n|] eqn:Hn; simpl in Hf; [|done].
  apply IH  in Hf as (Hnd&names&Hnames&Hkeys&Hout&Hin). clear IH.
  split; [intros; by apply Hnd, dset_NoDup|].
  exists (n :: names).
  split; [rewrite fmap_cons; cbn [rtraverse fst]; by rewrite Hn, Hnames|]. split; [|split].
  - intros k. rewrite Hkeys, dset_keys. case_decide; set_solver.
  - intros k [Hk Hk']%not_elem_of_cons. by rewrite Hout, dget_dset_ne by done.
  - intros [Hnn Hnd']%NoDup_cons [|i] p n' Hp Hn'; simplify_eq/=; [|by eapply Hin].
    exists v. by rewrite Hout, dget_dset_eq by done.
Qed.

Lemma split_indexed_inputs event_abi inputs indexed not_indexed :
  abi_inputs event_abi = Ok inputs →
  split_indexed event_abi = Ok (indexed, not_indexed) →
  indexed ++ not_indexed ≡ₚ inputs.
Proof.
  intros Hi. unfold split_indexed. rewrite Hi. simpl. intros Hs.
  enough (∀ l acc acc', rfold (λ '(indexed, not_indexed) inp,
    let? b := py_get inp "indexed" PNone in
    Ok (if py_truth b then (indexed ++ [inp], not_indexed)
        else (indexed, not_indexed ++ [inp]))) l acc = Ok acc' →
    acc'.1 ++ acc'.2 ≡ₚ acc.1 ++ acc.2 ++ l) as Hl by exact (Hl _ _ _ Hs).
  clear. intros l. induction l as [|x l IH]; simpl; intros [a1 a2] [b1 b2] Hf; simplify_eq/=.
  { by rewrite app_nil_r. }
  destruct (py_get x "indexed" PNone) as [b|]; simpl in Hf; [|done].
  apply IH in Hf. simpl in Hf. rewrite Hf. destruct (py_truth b); simpl; solve_Permutation.
Qed.

End decoder.

(** ** Depth of the constructs *)

Fixpoint construct_depth (c : construct) : nat :=
  match c with
  | CScalar _ => 1
  | CStruct fields =>
      S ((fix go (l : list (string * construct)) : nat :=
            match l with [] => 0 | (_, c) :: l' => Nat.max (construct_depth c) (go l') end) fields)
  | CVec c | COption c | CArray _ c => S (construct_depth c)
  end%nat.

Definition fields_depth (fields : list (string * construct)) : nat :=
  foldr (λ nc, Nat.max (construct_depth nc.2)) 0%nat fields.

Lemma construct_depth_struct fields :
  construct_depth (CStruct fields) = S (fields_depth fields).
Proof.
  simpl. f_equal. induction fields as [|[n c] l IH]; simpl; [done|by rewrite IH].
Qed.

Lemma named_fields_depth resolve fields l d :
  (∀ t c, resolve t = Ok (Some c) → (construct_depth c <= d)%nat) →
  named_fields resolve fields = Ok (Some l) → (fields_depth l <= d)%nat.
Proof.
  intros Hr. revert l. induction fields as [|f fs IH]; simpl; intros l Hl.
  { simplify_eq. simpl. lia. }
  rewrite rbind_ok in Hl. destruct Hl as (t&_&Hl).
  destruct (resolve t) as [[c|]|] eqn:Hc; simpl in Hl; [|done|done].
  rewrite rbind_ok in Hl. destruct Hl as (n&_&Hl).
  destruct (named_fields resolve fs) as [[rest|]|]; simplify_eq/=.
  apply Hr in Hc. specialize (IH _ eq_refl). lia.
Qed.

Lemma rmap_some_ok {A B} (f : A → B) (r : result (option A)) y :
  rmap (fmap f) r = Ok (Some y) → ∃ x, r = Ok (Some x) ∧ y = f x.
Proof. destruct r as [[x|]|]; naive_solver. Qed.

Lemma resolve_type_bound fuel ts seen spec c :
  resolve_type fuel ts seen spec = Ok (Some c) → (construct_depth c <= fuel)%nat.
Proof.
  revert seen spec c. induction fuel as [|fuel IH]; simpl; intros seen spec c; [done|].
  destruct spec as [| | |s| | | |d]; try done.
  { case_bool_decide; intros; simplify_eq/=; lia. }
  destruct (dget "defined" d) as [name|].
  - rewrite rbind_ok. intros ([]&_&Hc); [done|]. rewrite rbind_ok in Hc.
    destruct Hc as (l&_&Hc). rewrite rbind_ok in Hc. destruct Hc as ([t|]&_&Hc); [|done].
    repeat (rewrite rbind_ok in Hc; destruct Hc as (?&_&Hc)).
    destruct (negb _); [done|].
    repeat (rewrite rbind_ok in Hc; destruct Hc as (?&?&Hc)).
    match type of Hc with Ok (_ <$> ?x) = _ => destruct x as [fl|] end; [|done].
    simpl in Hc. injection Hc as <-. rewrite construct_depth_struct.
    apply le_n_S. eapply named_fields_depth; [apply IH|done].
  - repeat case_match; intros (x&Hx%IH&->)%rmap_some_ok || done; simpl; lia.
Qed.

(** ** JSON-safe values *)

(** Integers a JSON reader keeps exactly, no raw public key, no construct-internal
    field. *)
Inductive json_safe : pyval → Prop :=
  | safe_none : json_safe PNone
  | safe_bool b : json_safe (PBool b)
  | safe_int z : Z.abs z <= 2 ^ 53 → json_safe (PInt z)
  | safe_str s : json_safe (PStr s)
  | safe_bytes l : length l ≠ 32%nat → json_safe (PBytes l)
  | safe_list l : Forall json_safe l → json_safe (PList l)
  | safe_tuple l : json_safe (PTuple l)
  | safe_dict d : Forall (λ kv, kv.1 ≠ "_io" ∧ json_safe kv.2) d → json_safe (PDict d).

Section properties.
Context {L : AbiLib}.

Definition normalize_fields (d : list (string * pyval)) : list (string * pyval) :=
  omap (λ '(k, v), if decide (k = "_io") then None else Some (k, normalize_borsh_value v)) d.

Lemma normalize_borsh_dict d :
  normalize_borsh_value (PDict d) = PDict (normalize_fields d).
Proof.
  simpl. f_equal. induction d as [|[k v] d IH]; [done|]. unfold normalize_fields. csimpl.
  rewrite IH. by destruct (decide (k = "_io")).
Qed.

Lemma normalize_borsh_json_safe v : json_safe (normalize_borsh_value v).
Proof.
  induction v as [|b|z|s|l|l IH|l IH|d IH] using pyval_rect'; try (simpl; by constructor).
  - simpl. destruct (_ <? _) eqn:E; constructor. lia.
  - simpl. destruct (Nat.eqb _ _) eqn:E; constructor. by apply Nat.eqb_neq.
  - simpl. constructor. by apply Forall_fmap.
  - rewrite normalize_borsh_dict. constructor. apply Forall_forall. intros [k x].
    unfold normalize_fields. rewrite list_elem_of_omap. intros ([k' x']&Hin&Hx).
    rewrite Forall_forall in IH. specialize (IH _ Hin). case_decide; simplify_eq/=. done.
Qed.

Lemma json_safe_normalized v : json_safe v → normalize_borsh_value v = v.
Proof.
  induction v as [|b|z|s|l|l IH|l IH|d IH] using pyval_rect'; intros H; try done.
  - simpl. inversion H. by rewrite (proj2 (Z.ltb_ge _ _)).
  - simpl. inversion H as [| | | |? Hl| | |]; subst. by rewrite (proj2 (Nat.eqb_neq _ _) Hl).
  - simpl. f_equal. inversion H as [| | | | |? Hl| |]; subst.
    induction Hl; simpl; [done|]. inversion IH; subst. f_equal; auto.
    apply IHHl; [done|by constructor].
  - rewrite normalize_borsh_dict. f_equal. inversion H as [| | | | | | |? Hd]; subst. clear H.
    induction Hd as [|[k x] d [Hk Hx] Hd IHd]; [done|]. inversion IH; subst.
    unfold normalize_fields. csimpl. simpl in Hk, Hx. rewrite decide_False by done.
    f_equal; [f_equal; auto|]. by apply IHd.
Qed.

Lemma zip_assign {X} (value : pyval * X → result pyval) inps xs acc args :
  length inps = length xs →
  rfold (assign_arg value) (zip inps xs) acc = Ok args →
  (NoDup acc.*1 → NoDup args.*1) ∧
  ∃ names, rtraverse inp_name inps = Ok names ∧
    (∀ k, k ∈ args.*1 ↔ k ∈ acc.*1 ∨ k ∈ names) ∧
    (∀ k, k ∉ names → dget k args = dget k acc) ∧
    (NoDup names → ∀ i inp x n, inps !! i = Some inp → xs !! i = Some x →
      names !! i = Some n → ∃ v, value (inp, x) = Ok v ∧ dget n args = Some v).
Proof.
  intros Hlen (Hnd&names&Hn&Hk&Ho&Hv)%rfold_assign. split; [done|].
  exists names. rewrite fst_zip in Hn by lia. split_and!; [done..|].
  intros Hnn i inp x n Hi Hx Hni. apply (Hv Hnn i); [|done].
  by apply lookup_zip_with_Some; exists inp, x.
Qed.

(** ** Properties *)

(** [decode_event] on every branch that returns, in terms of its two loops *)
Lemma decode_event_assigns ev topics data args :
  decode_event ev topics data = Ok args →
  ∃ idx nidx names,
    split_indexed ev = Ok (idx, nidx) ∧ length topics = S (length idx) ∧
    rtraverse inp_name (idx ++ nidx) = Ok names ∧
    NoDup args.*1 ∧ (∀ k, k ∈ args.*1 ↔ k ∈ names) ∧
    (NoDup names →
      (∀ i inp topic n, idx !! i = Some inp → topics !! S i = Some topic →
         names !! i = Some n →
         ∃ v, indexed_value (inp, topic) = Ok v ∧ dget n args = Some v) ∧
      (nidx ≠ [] → ∃ types raw vals,
         rtraverse canonical_type nidx = Ok types ∧ hex_raw data = Ok raw ∧
         eth_abi_decode types raw = Ok vals ∧ length nidx = length vals ∧
         ∀ j inp v n, nidx !! j = Some inp → vals !! j = Some v →
           names !! (length idx + j)%nat = Some n →
           ∃ v', plain_value (inp, v) = Ok v' ∧ dget n args = Some v')).
Proof.
  unfold decode_event. rewrite rbind_ok. intros ([idx nidx]&Hs&H).
  destruct (negb _) eqn:Hlen in H; [done|].
  apply negb_false_iff, Nat.eqb_eq in Hlen.
  rewrite rbind_ok in H. destruct H as (pairs&[Hl ->]%zip_strict_ok&H).
  rewrite rbind_ok in H. destruct H as (args1&Ha&H).
  apply zip_assign in Ha as (Hnd&names1&Hn1&Hk1&Ho1&Hv1); [|done].
  exists idx, nidx.
  assert (∀ i inp topic n, NoDup names1 → idx !! i = Some inp → topics !! S i = Some topic →
    names1 !! i = Some n →
    ∃ v, indexed_value (inp, topic) = Ok v ∧ dget n args1 = Some v) as Hidx.
  { intros i inp topic n ?? Ht ?. eapply Hv1; [done..| |done]. by rewrite lookup_drop. }
  destruct nidx as [|x nidx']; [|set (nidx := x :: nidx') in *].
  - simplify_eq. exists names1. rewrite app_nil_r. split_and!; try done.
    + apply Hnd, NoDup_nil_2.
    + intros k. rewrite Hk1. set_solver.
    + intros Hnn. split; [|done]. intros. by eapply Hidx.
  - rewrite rbind_ok in H. destruct H as (types&Ht&H).
    rewrite rbind_ok in H. destruct H as (raw&Hr&H).
    rewrite rbind_ok in H. destruct H as (vals&Hd&H).
    rewrite rbind_ok in H. destruct H as (pairs&[Hl2 ->]%zip_strict_ok&H).
    apply zip_assign in H as (Hnd2&names2&Hn2&Hk2&Ho2&Hv2); [|done].
    assert (length names1 = length idx) as Hln.
    { symmetry. eapply Forall2_length. by apply rtraverse_ok. }
    exists (names1 ++ names2). split_and!; try done.
    + by rewrite rtraverse_app, Hn1, Hn2.
    + apply Hnd2, Hnd, NoDup_nil_2.
    + intros k. rewrite Hk2, Hk1, elem_of_app. set_solver.
    + intros (Hnn1&Hdisj&Hnn2)%NoDup_app. split.
      * intros i inp topic n Hi Hti Hni.
        rewrite lookup_app_l in Hni by (rewrite Hln; by eapply lookup_lt_Some).
        rewrite Ho2 by (by eapply Hdisj, list_elem_of_lookup_2). by eapply Hidx.
      * intros _. exists types, raw, vals. split_and!; try done.
        { unfold wrap_decode_error in Hd. repeat case_match; by simplify_eq. }
        intros j inp v n Hj Hvj Hnj.
        rewrite lookup_app_r, Hln, Nat.add_comm, Nat.add_sub in Hnj by lia. by eapply Hv2.
Qed.
(** A call is only ever decoded against its own function: whenever
    [decode_function_call] returns, the calldata is at least four bytes long and
    starts with the selector of the ABI entry, and the values come from the bytes
    after it. *)
Lemma decode_function_call_selector fn calldata args :
  decode_function_call fn calldata = Ok args →
  ∃ sel raw inputs types vals,
    function_selector fn = Ok sel ∧ hex_raw calldata = Ok raw ∧ (4 <= length raw)%nat ∧
    sel = "0x" +:+ bytes_hex (take 4 raw) ∧
    abi_inputs fn = Ok inputs ∧ rtraverse canonical_type inputs = Ok types ∧
    eth_abi_decode types (drop 4 raw) = Ok vals ∧
    rfold (assign_arg plain_value) (zip inputs vals) [] = Ok args.
Proof.
  unfold decode_function_call. rewrite rbind_ok. intros (sel&Hsel&H).
  rewrite rbind_ok in H. destruct H as (raw&Hraw&H).
  destruct (Nat.ltb _ _) eqn:Hl; [done|]. apply Nat.ltb_ge in Hl. cbn zeta in H.
  destruct (negb _) eqn:Heq in H; [done|]. apply negb_false_iff, String.eqb_eq in Heq.
  rewrite rbind_ok in H. destruct H as (inputs&Hi&H).
  rewrite rbind_ok in H. destruct H as (types&Ht&H).
  rewrite rbind_ok in H. destruct H as (vals&Hv&H).
  rewrite rbind_ok in H. destruct H as (pairs&[Hz ->]%zip_strict_ok&H).
  exists sel, raw, inputs, types, vals. split_and!; try done.
  unfold wrap_decode_error in Hv. repeat case_match; by simplify_eq.
Qed.

(** Borsh normalisation makes every value JSON-safe at every depth (integers
    beyond 2^53 become decimal strings, 32-byte keys become base58, construct's
    [_io] entry is dropped) and leaves values that already are JSON-safe alone, so
    normalising twice changes nothing. *)
Lemma normalize_borsh_value_safe v :
  json_safe (normalize_borsh_value v) ∧
  (json_safe v → normalize_borsh_value v = v) ∧
  normalize_borsh_value (normalize_borsh_value v) = normalize_borsh_value v.
Proof.
  split_and!; [apply normalize_borsh_json_safe|apply json_safe_normalized|].
  apply json_safe_normalized, normalize_borsh_json_safe.
Qed.

(** IDL type resolution is bounded on every types section, cyclic ones
    included: a struct that is built nests at most eight levels below its fields,
    so a value is parsed with a descent of at most nine. *)
Lemma anchor_struct_depth_bounded ev types_section c :
  build_anchor_event_struct ev types_section = Ok (Some c) →
  (construct_depth c <= S MAX_TYPE_DEPTH)%nat.
Proof.
  unfold build_anchor_event_struct. rewrite rbind_ok. intros (fl&_&H).
  rewrite rbind_ok in H. destruct H as (fields&_&H).
  rewrite rbind_ok in H. destruct H as ([l|]&Hl&H); [|done].
  injection H as <-. rewrite construct_depth_struct. apply le_n_S.
  eapply named_fields_depth; [|exact Hl]. apply resolve_type_bound.
Qed.
End properties.

(** ** A concrete library for the witnesses

    The "hashes" are the signature's bytes as a little-endian number, padded or cut
    to length; the decoder reads 32-byte big-endian words. *)
Module ToyLib.
Definition pack (n : nat) (s : string) : list byte :=
  le_pack n (le_unpack (String.list_byte_of_string s) mod 256 ^ Z.of_nat n).

Definition decode_word (t : string) (w : list byte) : pyval :=
  if String.eqb t "address" then PStr ("0x" +:+ bytes_hex (drop 12 w))
  else PInt (le_unpack (reverse w)).

Fixpoint decode_words (types : list string) (raw : list byte) : result (list pyval) :=
  match types with
  | [] => Ok []
  | t :: ts =>
      if Nat.ltb (length raw) 32 then Err (OtherError "DecodingError" "insufficient data")
      else let? vs := decode_words ts (drop 32 raw) in Ok (decode_word t (take 32 raw) :: vs)
  end.

Definition lib : AbiLib := {|
  event_signature_to_log_topic := pack 32;
  function_signature_to_4byte_selector := pack 4;
  eth_abi_decode := decode_words;
  sha256 l := le_pack 32 (le_unpack l mod 256 ^ 32);
  json_dumps_sorted v := match v with PDict _ => "{}" | PList _ => "[]" | _ => "null" end;
  construct_parse c l := Ok [("x", PInt (le_unpack l))];
  b58encode := bytes_hex;
  b58decode s := match bytes_fromhex s with Some l => Ok l
                 | None => Err (ValueError "Invalid character") end;
|}.

Lemma laws : @AbiLibLaws lib.
Proof. split; intros; apply le_pack_length. Qed.

Definition input (name type : string) (indexed : bool) : pyval :=
  PDict [("name", PStr name); ("type", PStr type); ("indexed", PBool indexed)].

(** [Paid(address indexed to, uint256 value)] and [pay(uint256 value)] *)
Definition paid_event : pyval :=
  PDict [("type", PStr "event"); ("name", PStr "Paid");
         ("inputs", PList [input "to" "address" true; input "value" "uint256" false])].
Definition pay_function : pyval :=
  PDict [("type", PStr "function"); ("name", PStr "pay");
         ("inputs", PList [input "value" "uint256" false])].

Definition word (z : Z) : string := bytes_hex (reverse (le_pack 32 z)).
Definition paid_topic0 : string := "0x" +:+ bytes_hex (pack 32 "Paid(address,uint256)").
Definition paid_topics : list string := [paid_topic0; "0x" +:+ word 11].
Definition pay_calldata : string := "0x" +:+ bytes_hex (pack 4 "pay(uint256)") +:+ word 7.
End ToyLib.

Lemma decode_function_call_selector_witness :
  @decode_function_call ToyLib.lib ToyLib.pay_function ToyLib.pay_calldata
    = Ok [("value", PStr "7")] ∧
  ∃ sel, @function_selector ToyLib.lib ToyLib.pay_function = Ok sel.
Proof.
  split; [vm_compute; reflexivity|].
  destruct (@decode_function_call_selector ToyLib.lib ToyLib.pay_function ToyLib.pay_calldata
    [("value", PStr "7")] ltac:(vm_compute; reflexivity)) as (sel&raw&i&t&v&Hsel&_).
  exists sel. exact Hsel.
Defined.

(** A field type that refers to itself is rejected; a nested one is accepted. *)
Definition sample_types : pyval :=
  PList [PDict [("name", PStr "Loop"); ("type", PDict [("kind", PStr "struct");
           ("fields", PList [PDict [("name", PStr "next"); ("type", PDict [("defined", PStr "Loop")])]])])];
         PDict [("name", PStr "Pair"); ("type", PDict [("kind", PStr "struct");
           ("fields", PList [PDict [("name", PStr "a"); ("type", PDict [("vec", PStr "u8")])]])])]].

Lemma anchor_struct_depth_bounded_witness :
  build_anchor_event_struct (PDict [("fields", PList [PDict [("name", PStr "l");
    ("type", PDict [("defined", PStr "Loop")])]])]) sample_types = Ok None ∧
  ∃ c, build_anchor_event_struct (PDict [("fields", PList [PDict [("name", PStr "p");
    ("type", PDict [("defined", PStr "Pair")])]])]) sample_types = Ok (Some c) ∧
    (construct_depth c <= 9)%nat.
Proof.
  split; [vm_compute; reflexivity|].
  exists (CStruct [("p", CStruct [("a", CVec (CScalar "u8"))])]).
  split; [vm_compute; reflexivity|].
  apply (anchor_struct_depth_bounded (PDict [("fields", PList [PDict [("name", PStr "p");
    ("type", PDict [("defined", PStr "Pair")])]])]) sample_types).
  vm_compute. reflexivity.
Defined.
