(* ===== verification/AbiTypes.v ===== *)
(** * Solidity's ABI types, and what [decode_event] gives for them

    The code tells the types apart by prefixes and suffixes of their names.  Here the types are
    syntax: what their names are, which of them are hashed into a topic, how a decoded value is
    shown, and which entries of a JSON ABI declare them. *)
From S2P Require Import Prelude PyStr PyVal Decoder.

(** ** Types *)
Inductive base (A : Type) :=
  | BAddress | BBool | BString | BBytes
  | BFixedBytes (size : nat) | BUint (bits : nat) | BInt (bits : nat)
  | BTuple (members : list A).
Arguments BAddress {A}. Arguments BBool {A}. Arguments BString {A}. Arguments BBytes {A}.
Arguments BFixedBytes {A}. Arguments BUint {A}. Arguments BInt {A}. Arguments BTuple {A}.

(** A base type under array dimensions, fixed ([Some n]) or dynamic *)
Inductive abi_type := AbiType (b : base abi_type) (dims : list (option nat)).

Definition word {A} (b : base A) : option string :=
  match b with
  | BAddress => Some "address" | BBool => Some "bool" | BString => Some "string"
  | BBytes => Some "bytes" | BFixedBytes n => Some ("bytes" +:+ py_str (Z.of_nat n))
  | BUint n => Some ("uint" +:+ py_str (Z.of_nat n)) | BInt n => Some ("int" +:+ py_str (Z.of_nat n))
  | BTuple _ => None
  end.

Definition dimension (d : option nat) : string :=
  match d with None => "[]" | Some n => "[" +:+ py_str (Z.of_nat n) +:+ "]" end.
Definition dimensions (dims : list (option nat)) : string := foldr (λ d s, dimension d +:+ s) "" dims.

(** The name in a signature *)
Fixpoint render (t : abi_type) : string :=
  let '(AbiType b dims) := t in
  match b with
  | BTuple l => "(" +:+ py_join "," (map render l) +:+ ")"
  | _ => default "" (word b)
  end +:+ dimensions dims.

(** Solidity puts the hash of a string, bytes, array or tuple into a topic, the value of the
    others. *)
Definition hashed (t : abi_type) : bool :=
  match t with
  | AbiType (BString | BBytes | BTuple _) [] => true
  | AbiType _ [] => false
  | AbiType _ (_ :: _) => true
  end.

(** How an event shows a decoded value: addresses in lower case, integers in decimal, bytes in
    hexadecimal, the rest as it is *)
Definition shown (t : abi_type) (v v' : pyval) : Prop :=
  match t with
  | AbiType BAddress [] => ∃ a, v = PStr a ∧ v' = PStr (lower a)
  | AbiType (BUint _ | BInt _) [] => ∃ z, py_int_of v = Ok z ∧ v' = PStr (py_str z)
  | AbiType (BBytes | BFixedBytes _) [] => ∃ l, v = PBytes l ∧ v' = PStr ("0x" +:+ bytes_hex l)
  | _ => v' = v
  end.

(** ** JSON ABI entries that declare them *)
Inductive declares : pyval → abi_type → Prop :=
  | declares_word d b dims w :
      word b = Some w → dget "type" d = Some (PStr (w +:+ dimensions dims)) →
      declares (PDict d) (AbiType b dims)
  | declares_tuple d comps members dims :
      dget "type" d = Some (PStr ("tuple" +:+ dimensions dims)) →
      dget "components" d = Some (PList comps) → Forall2 declares comps members →
      declares (PDict d) (AbiType (BTuple members) dims).

Record param := mkParam { p_name : string; p_type : abi_type; p_indexed : bool }.

Record declares_param (inp : pyval) (p : param) : Prop := {
  dp_type : declares inp (p_type p);
  dp_name : py_getitem inp "name" = Ok (PStr (p_name p));
  dp_indexed : rmap py_truth (py_get inp "indexed" PNone) = Ok (p_indexed p);
}.

Definition declares_event (ev : pyval) (ps : list param) : Prop :=
  ∃ inps, py_get ev "inputs" (PList []) = Ok (PList inps) ∧ Forall2 declares_param inps ps.

Definition indexed_params (ps : list param) : list param := filter (λ p, p_indexed p = true) ps.
Definition data_params (ps : list param) : list param := filter (λ p, p_indexed p = false) ps.

(** ** The code's tests on names *)
Lemma py_str_no_bracket (n : nat) : str_has "]" (py_str (Z.of_nat n)) = false.
Proof. apply py_str_has. intros d Hd. small_cases d Hd. Qed.

Lemma str_app_nil_r (s : string) : s +:+ "" = s.
Proof. induction s as [|c s IH]; [done|]. exact (f_equal (String c) IH). Qed.

Lemma dimensions_end d dims : ∃ s, dimensions (d :: dims) = s +:+ "]".
Proof.
  revert d. induction dims as [|d' dims IH]; intros d.
  - destruct d as [n|]; [exists ("[" +:+ py_str (Z.of_nat n))|by exists "["].
    unfold dimensions. cbn [foldr dimension]. by rewrite str_app_nil_r, str_app_assoc.
  - destruct (IH d') as [s Hs]. exists (dimension d +:+ s).
    unfold dimensions in *. cbn [foldr] in *. by rewrite Hs, str_app_assoc.
Qed.

Lemma endswith_bracket s : endswith (s +:+ "]") "]" = true.
Proof. by rewrite endswith_app by (cbn; lia). Qed.

Lemma str_has_drop c n s : str_has c (str_drop n s) = true → str_has c s = true.
Proof.
  revert s. induction n as [|n IH]; intros [|a s] H; try done. cbn [str_drop] in H.
  cbn [str_has]. by rewrite IH, orb_true_r.
Qed.

Lemma no_bracket_end s : str_has "]" s = false → endswith s "]" = false.
Proof.
  intros Hs. apply not_true_iff_false. unfold endswith. intros [_ He]%andb_true_iff.
  apply String.eqb_eq in He. enough (str_has "]" s = true) by congruence.
  eapply str_has_drop. by rewrite He.
Qed.

Lemma pretty_N_go_nonempty x s : s ≠ "" → pretty_N_go x s ≠ "".
Proof.
  revert s. induction x as [x IH] using (well_founded_induction N.lt_wf_0). intros s Hs.
  destruct (decide (x = 0%N)) as [->|Hx]; [by rewrite pretty_N_go_0|].
  rewrite pretty_N_go_step by lia. apply IH; [by apply N.div_lt; lia|done].
Qed.

Lemma py_str_nonempty (n : nat) : py_str (Z.of_nat n) ≠ "".
Proof.
  unfold py_str. destruct n as [|n]; [done|].
  change (pretty (Z.of_nat (S n))) with (pretty (N.pos (Pos.of_succ_nat n))).
  unfold pretty, pretty_N. case_decide; [done|].
  rewrite pretty_N_go_step by lia. by apply pretty_N_go_nonempty.
Qed.

(** The name of a type without dimensions has no closing bracket at its end, with dimensions it
    has. *)
Lemma word_no_bracket {A} (b : base A) w : word b = Some w → endswith w "]" = false.
Proof.
  destruct b; intros [= <-]; try reflexivity; apply no_bracket_end;
    rewrite str_has_app, py_str_no_bracket; reflexivity.
Qed.

Lemma render_array b d dims : endswith (render (AbiType b (d :: dims))) "]" = true.
Proof.
  destruct (dimensions_end d dims) as [s Hs]. cbn [render]. rewrite Hs, str_app_assoc.
  apply endswith_bracket.
Qed.

Lemma render_word b w : word b = Some w → render (AbiType b []) = w.
Proof. intros Hw. cbn [render]. destruct b; cbn in Hw; simplify_eq; apply str_app_nil_r. Qed.

Lemma reference_hashed t : is_reference_type (render t) = hashed t.
Proof.
  destruct t as [b [|d dims]].
  - destruct b as [| | | |n|n|n|l] eqn:Hb; [reflexivity..| | | |].
    1-3: destruct (word b) as [w|] eqn:Hw; subst b; [|done]; rewrite (render_word _ w Hw);
      unfold is_reference_type; rewrite (word_no_bracket _ _ Hw); cbn in Hw; simplify_eq;
      try reflexivity.
    + destruct (py_str (Z.of_nat n)) eqn:E; [by apply py_str_nonempty in E|reflexivity].
    + unfold is_reference_type. cbn [hashed]. apply orb_true_iff. right.
      apply startswith_spec. by eexists.
  - unfold is_reference_type. rewrite render_array. destruct b; cbn; by rewrite ?orb_true_r.
Qed.

Lemma startswith_empty s : startswith s "" = true.
Proof. by destruct s. Qed.

Lemma normalize_shown t v v' : normalize_value (render t) v = Ok v' → shown t v v'.
Proof.
  destruct t as [b [|d dims]].
  - destruct b as [| | | |n|n|n|l] eqn:Hb.
    8: { unfold normalize_value. cbn. by intros [= <-]. }
    all: destruct (word b) as [w|] eqn:Hw; subst b; [|done]; rewrite (render_word _ w Hw);
      unfold normalize_value; rewrite (word_no_bracket _ _ Hw); cbn in Hw; simplify_eq;
      lazy beta iota zeta delta [String.append String.eqb Ascii.eqb Bool.eqb startswith negb andb orb];
      rewrite ?startswith_empty; cbn [shown].
    + destruct v; intros [= <-]; eauto.
    + by intros [= <-].
    + by intros [= <-].
    + destruct v; intros [= <-]; eauto.
    + destruct v; intros [= <-]; eauto.
    + rewrite rbind_ok. intros (z & Hz & [= <-]). eauto.
    + rewrite rbind_ok. intros (z & Hz & [= <-]). eauto.
  - intros H. assert (normalize_value (render (AbiType b (d :: dims))) v = Ok v) as Hv.
    { unfold normalize_value. rewrite render_array.
      destruct (String.eqb _ "address") eqn:E.
      { apply String.eqb_eq in E. pose proof (render_array b d dims) as Hend.
        by rewrite E in Hend. }
      cbn [negb]. by rewrite !andb_false_r. }
    rewrite Hv in H. simplify_eq. by destruct b.
Qed.

(** ** What the JSON ABI declares *)
Lemma canonical_tuple d suffix comps :
  dget "type" d = Some (PStr ("tuple" +:+ suffix)) → dget "components" d = Some (PList comps) →
  canonical_type (PDict d) =
    let? l := rtraverse canonical_type comps in Ok ("(" +:+ py_join "," l +:+ ")" +:+ suffix).
Proof.
  intros Ht Hc. cbn [canonical_type py_getitem]. rewrite Ht. cbn [rbind py_as_str].
  rewrite startswith_app, str_drop_app.
  match goal with |- rbind (?F d) _ = _ =>
    assert (∀ e, dget "components" e = Some (PList comps) → F e = rtraverse canonical_type comps)
      as HF
  end.
  { intros e. induction e as [|[k c] e IH]; [done|]. cbn [dget].
    destruct (decide (k = "components")); [by intros [= ->]|done]. }
  by rewrite (HF d Hc).
Qed.

Lemma canonical_declared : ∀ inp t, declares inp t → canonical_type inp = Ok (render t).
Proof.
  fix IH 3. intros inp t [d b dims w Hw Ht|d comps members dims Ht Hc Hm].
  - cbn [canonical_type py_getitem]. rewrite Ht. cbn [rbind py_as_str].
    assert (startswith (w +:+ dimensions dims) "tuple" = false) as ->
      by (destruct b; cbn in Hw; simplify_eq; reflexivity).
    cbn [render]. rewrite Hw. by destruct b.
  - rewrite (canonical_tuple d _ comps Ht Hc).
    assert (rtraverse canonical_type comps = Ok (map render members)) as ->.
    { clear Ht Hc. induction Hm as [|c m comps members Hcm _ IHm]; [done|].
      cbn [rtraverse map]. by rewrite (IH _ _ Hcm), IHm. }
    cbn [rbind render]. by rewrite !str_app_assoc.
Qed.

Lemma split_declared ev ps : declares_event ev ps →
  ∃ idx nidx, split_indexed ev = Ok (idx, nidx) ∧
    Forall2 declares_param idx (indexed_params ps) ∧ Forall2 declares_param nidx (data_params ps).
Proof.
  intros (inps & Hi & Hd). unfold split_indexed, abi_inputs. rewrite Hi. cbn [rbind py_iter].
  match goal with |- context [rfold ?f inps] => enough (∀ i0 n0 is0 ns0,
    Forall2 declares_param i0 is0 → Forall2 declares_param n0 ns0 → ∃ idx nidx,
    rfold f inps (i0, n0) = Ok (idx, nidx) ∧
    Forall2 declares_param idx (is0 ++ indexed_params ps) ∧
    Forall2 declares_param nidx (ns0 ++ data_params ps)) as H
    by exact (H [] [] [] [] ltac:(done) ltac:(done)) end.
  clear Hi. induction Hd as [|inp p inps ps Hp _ IH]; intros i0 n0 is0 ns0 H1 H2; cbn [rfold].
  { exists i0, n0. by rewrite !app_nil_r. }
  pose proof (dp_indexed _ _ Hp) as Hix. unfold indexed_params, data_params.
  destruct (py_get inp "indexed" PNone) as [b|]; [|done]. cbn [rmap rbind] in Hix |- *.
  injection Hix as ->. rewrite !filter_cons.
  destruct (p_indexed p);
    [rewrite decide_True, decide_False by done|rewrite decide_False, decide_True by done].
  - destruct (IH (i0 ++ [inp]) n0 (is0 ++ [p]) ns0) as (idx & nidx & Hf & Hidx & Hnidx);
      [by apply Forall2_app; [|constructor]|done|].
    exists idx, nidx. by rewrite <- app_assoc in Hidx.
  - destruct (IH i0 (n0 ++ [inp]) is0 (ns0 ++ [p])) as (idx & nidx & Hf & Hidx & Hnidx);
      [done|by apply Forall2_app; [|constructor]|].
    exists idx, nidx. by rewrite <- app_assoc in Hnidx.
Qed.

Lemma canonical_params inps ps : Forall2 declares_param inps ps →
  rtraverse canonical_type inps = Ok (render ∘ p_type <$> ps).
Proof.
  intros H. apply rtraverse_ok, Forall2_fmap_r. eapply Forall2_impl; [exact H|].
  intros inp p Hp. by apply canonical_declared, (dp_type _ _ Hp).
Qed.

Lemma names_params inps ps : Forall2 declares_param inps ps →
  rtraverse inp_name inps = Ok (p_name <$> ps).
Proof.
  intros H. apply rtraverse_ok, Forall2_fmap_r. eapply Forall2_impl; [exact H|].
  intros inp p Hp. unfold inp_name. by rewrite (dp_name _ _ Hp).
Qed.

Lemma params_split ps : indexed_params ps ++ data_params ps ≡ₚ ps.
Proof.
  unfold indexed_params, data_params. induction ps as [|p ps IH]; [done|].
  rewrite !filter_cons. destruct (p_indexed p);
    [rewrite decide_True, decide_False by done; cbn [app]; by rewrite IH|].
  rewrite decide_False, decide_True by done. by rewrite <- Permutation_middle, IH.
Qed.

(** ** Properties *)
Section properties.
Context {L : AbiLib}.

(** What the arguments say of an indexed parameter and its topic, *)
Definition from_topic (args : list (string * pyval)) (p : param) (topic : string) : Prop :=
  if hashed (p_type p) then dget (p_name p) args = Some (PStr topic)
  else ∃ raw v vs v', hex_raw topic = Ok raw ∧
    eth_abi_decode [render (p_type p)] raw = Ok (v :: vs) ∧ shown (p_type p) v v' ∧
    dget (p_name p) args = Some v'.

(** and of another parameter and its component of the data *)
Definition from_data (args : list (string * pyval)) (p : param) (v : pyval) : Prop :=
  ∃ v', shown (p_type p) v v' ∧ dget (p_name p) args = Some v'.

Lemma topic_value args inp p topic v :
  declares_param inp p → indexed_value (inp, topic) = Ok v → dget (p_name p) args = Some v →
  from_topic args p topic.
Proof.
  intros Hp Hv Hg. unfold indexed_value in Hv. unfold from_topic.
  rewrite (canonical_declared _ _ (dp_type _ _ Hp)) in Hv. cbn [rbind] in Hv.
  rewrite reference_hashed in Hv. destruct (hashed (p_type p)); [by simplify_eq|].
  rewrite rbind_ok in Hv. destruct Hv as (raw & Hr & Hv).
  rewrite rbind_ok in Hv. destruct Hv as ([|x vs] & Hd & Hv); [done|].
  exists raw, x, vs, v. split_and!; [done..|by apply normalize_shown|done].
Qed.

Lemma plain_shown inp p v v' :
  declares_param inp p → plain_value (inp, v) = Ok v' → shown (p_type p) v v'.
Proof.
  intros Hp Hv. unfold plain_value in Hv.
  rewrite (canonical_declared _ _ (dp_type _ _ Hp)) in Hv. by apply normalize_shown.
Qed.

(** C34 [decode_event] of an event whose parameters are declared with address, bool, string,
    bytes, integer and tuple types and arrays of them: when it returns, there is a topic for the
    event and one per indexed parameter, and the arguments are keyed exactly by the parameters'
    names, each once.  When the names are distinct, an indexed string, bytes, array or tuple has
    its topic as it is; another indexed parameter the value its topic decodes to; and a parameter
    not indexed its component of what the data decodes to as the sequence of these types.  Values
    are shown in lower case (addresses), in decimal (integers) or in hexadecimal (bytes), the
    others as decoded.  With two parameters of one name only the keys are stated. *)
Theorem decode_event_arguments ev ps topics data args :
  declares_event ev ps → decode_event ev topics data = Ok args →
  length topics = S (length (indexed_params ps)) ∧ NoDup args.*1 ∧
  (∀ k, k ∈ args.*1 ↔ k ∈ p_name <$> ps) ∧
  (NoDup (p_name <$> ps) →
   Forall2 (from_topic args) (indexed_params ps) (drop 1 topics) ∧
   (data_params ps = [] ∨ ∃ raw vals, hex_raw data = Ok raw ∧
      eth_abi_decode (render ∘ p_type <$> data_params ps) raw = Ok vals ∧
      Forall2 (from_data args) (data_params ps) vals)).
Proof.
  intros Hev Hd. destruct (split_declared ev ps Hev) as (idx & nidx & Hs & Hi & Hn).
  destruct (decode_event_assigns ev topics data args Hd)
    as (idx' & nidx' & names & Hs' & Hlen & Hnames & Hnd & Hk & Hv).
  rewrite Hs in Hs'. injection Hs' as <- <-.
  rewrite rtraverse_app, (names_params _ _ Hi), (names_params _ _ Hn) in Hnames.
  cbn [rbind] in Hnames. injection Hnames as <-. rewrite <- fmap_app in Hk, Hv.
  rewrite (Forall2_length _ _ _ Hi) in Hlen. split_and!; [done..| |].
  { intros k. by rewrite Hk, params_split. }
  rewrite <- (params_split ps) at 1. intros Hnodup. destruct (Hv Hnodup) as [Ht Hdat]. split.
  - apply Forall2_same_length_lookup. rewrite length_drop, Hlen. split; [lia|].
    intros i p topic Hp Htop. rewrite lookup_drop in Htop.
    destruct (Forall2_lookup_r _ _ _ _ _ Hi Hp) as (inp & Hinp & Hdp).
    destruct (Ht i inp topic (p_name p) Hinp Htop) as (v & Hval & Hget).
    { rewrite list_lookup_fmap, lookup_app_l by (by eapply lookup_lt_Some). by rewrite Hp. }
    by eapply topic_value.
  - destruct (decide (nidx = [])) as [->|Hne].
    { left. by apply Forall2_nil_inv_l in Hn. }
    right. destruct (Hdat Hne) as (types & raw & vals & Hty & Hraw & Hdec & Hl & Hvals).
    rewrite (canonical_params _ _ Hn) in Hty. injection Hty as <-.
    exists raw, vals. split_and!; [done..|]. apply Forall2_same_length_lookup.
    rewrite <- (Forall2_length _ _ _ Hn). split; [done|]. intros j p v Hp Hvj.
    destruct (Forall2_lookup_r _ _ _ _ _ Hn Hp) as (inp & Hinp & Hdp).
    destruct (Hvals j inp v (p_name p) Hinp Hvj) as (v' & Hval & Hget).
    { rewrite list_lookup_fmap, lookup_app_r, (Forall2_length _ _ _ Hi), Nat.add_comm, Nat.add_sub
        by (rewrite (Forall2_length _ _ _ Hi); lia). by rewrite Hp. }
    exists v'. split; [by eapply plain_shown|done].
Qed.
End properties.

(** ** Witness: [Paid(address indexed to, uint256 value)] *)
Definition paid_params : list param :=
  [mkParam "to" (AbiType BAddress []) true; mkParam "value" (AbiType (BUint 256) []) false].

Lemma paid_declared : declares_event ToyLib.paid_event paid_params.
Proof.
  eexists. split; [reflexivity|].
  repeat constructor; by eapply declares_word; [reflexivity|vm_compute; reflexivity].
Qed.

Lemma decode_event_arguments_witness :
  ∃ args, @decode_event ToyLib.lib ToyLib.paid_event ToyLib.paid_topics ("0x" +:+ ToyLib.word 7)
            = Ok args ∧ dget "value" args = Some (PStr "7") ∧
    Forall2 (from_topic (L:=ToyLib.lib) args) (indexed_params paid_params)
      (drop 1 ToyLib.paid_topics).
Proof.
  eexists. split; [vm_compute; reflexivity|]. split; [vm_compute; reflexivity|].
  destruct (@decode_event_arguments ToyLib.lib ToyLib.paid_event paid_params ToyLib.paid_topics
    ("0x" +:+ ToyLib.word 7) _ paid_declared ltac:(vm_compute; reflexivity))
    as (_ & _ & _ & Hv).
  by apply Hv; repeat constructor; set_solver.
Defined.
