(* ===== verification/AbiLookup.v ===== *)
(** * What the parsers rely on: an ABI lookup service

    The parsers of core/parser call four methods of the registry and apply the
    decoder they get back.  [AbiLookup] is that interface; [AbiLookupLaws] says
    that a lookup never changes what any later lookup answers.  The registry
    discharges it (Registry.v); the parsers are proved against it. *)
From S2P Require Import Prelude PyStr PyVal Decoder.

Definition args_t : Type := list (string * pyval).

Class AbiLookup (R : Type) := {
  al_event : string → M R (option (string * (list string → string → result args_t)));
  al_call : string → M R (option (string * (string → result args_t)));
  al_idl_event : string → string → M R (option (string * construct));
  al_idl_call : string → string → M R (option (string * construct));
}.

(** No lookup can tell the two states apart. *)
Record same_answers `{AbiLookup R} (r r' : R) : Prop := {
  same_event t : (al_event t r).1 = (al_event t r').1;
  same_call s : (al_call s r).1 = (al_call s r').1;
  same_idl_event p d : (al_idl_event p d r).1 = (al_idl_event p d r').1;
  same_idl_call p d : (al_idl_call p d r).1 = (al_idl_call p d r').1;
}.

#[export] Instance same_answers_equivalence `{AbiLookup R} : Equivalence same_answers.
Proof.
  split; [by constructor| |].
  - intros r r' []. constructor; intros; symmetry; auto.
  - intros r1 r2 r3 H1 H2. constructor; intros;
      [rewrite (same_event _ _ H1)|rewrite (same_call _ _ H1)|rewrite (same_idl_event _ _ H1)
      |rewrite (same_idl_call _ _ H1)]; apply H2.
Qed.

(** [m] keeps the answers, from states that satisfy the service's invariant. *)
Definition keeps_answers `{AbiLookup R} (inv : R → Prop) {A} (m : M R A) : Prop :=
  ∀ r, inv r → inv (m r).2 ∧ same_answers r (m r).2.

Class AbiLookupLaws R `{AbiLookup R} := {
  al_inv : R → Prop;
  al_event_keeps t : keeps_answers al_inv (al_event t);
  al_call_keeps s : keeps_answers al_inv (al_call s);
  al_idl_event_keeps p d : keeps_answers al_inv (al_idl_event p d);
  al_idl_call_keeps p d : keeps_answers al_inv (al_idl_call p d);
}.
