(* ===== verification/Registry.v ===== *)
(** * The ABI registry (core/abi/registry.py)

    [_abis] and [_topic0_index] are iterated over and keep insertion order; the
    decoder cache, the body hashes, the lookup caches and the Anchor indexes are
    only looked up.  An operation that raises half-way leaves the fields it has
    already assigned, as the code does. *)
From S2P Require Import Prelude PyStr PyVal Snapshot Decoder AbiLookup.

(** A cached closure: the ABI entry it decodes with. *)
Inductive decoder_fn :=
  | EventDecoder (event_abi : pyval)
  | CallDecoder (fn_abi : pyval).

Record AbiRegistry := mkRegistry {
  reg_abis : list (string * SnapshotAbi);
  reg_hashes : gmap string string;
  reg_decoders : gmap (string * string) decoder_fn;
  reg_topic0_index : list (string * (string * string));
  reg_topic0_cache : gmap string (string * decoder_fn);
  reg_selector_index : list (string * (string * string));
  reg_selector_cache : gmap string (string * decoder_fn);
  reg_anchor_index : gmap (string * string) (string * string * construct);
  reg_anchor_cache : gmap (string * string) (string * construct);
  reg_anchor_call_index : gmap (string * string) (string * string * construct);
  reg_anchor_call_cache : gmap (string * string) (string * construct);
}.

Definition AbiRegistry_init : AbiRegistry :=
  mkRegistry [] ∅ ∅ [] ∅ [] ∅ ∅ ∅ ∅ ∅.

(** Field assignments *)
Definition set_abis abis hashes (r : AbiRegistry) : AbiRegistry :=
  mkRegistry abis hashes (reg_decoders r) (reg_topic0_index r) (reg_topic0_cache r)
    (reg_selector_index r) (reg_selector_cache r) (reg_anchor_index r) (reg_anchor_cache r)
    (reg_anchor_call_index r) (reg_anchor_call_cache r).
Definition set_decoders decs hashes (r : AbiRegistry) : AbiRegistry :=
  mkRegistry (reg_abis r) hashes decs (reg_topic0_index r) (reg_topic0_cache r)
    (reg_selector_index r) (reg_selector_cache r) (reg_anchor_index r) (reg_anchor_cache r)
    (reg_anchor_call_index r) (reg_anchor_call_cache r).
Definition set_topic0 idx cache (r : AbiRegistry) : AbiRegistry :=
  mkRegistry (reg_abis r) (reg_hashes r) (reg_decoders r) idx cache
    (reg_selector_index r) (reg_selector_cache r) (reg_anchor_index r) (reg_anchor_cache r)
    (reg_anchor_call_index r) (reg_anchor_call_cache r).
Definition set_selector idx cache (r : AbiRegistry) : AbiRegistry :=
  mkRegistry (reg_abis r) (reg_hashes r) (reg_decoders r) (reg_topic0_index r)
    (reg_topic0_cache r) idx cache (reg_anchor_index r) (reg_anchor_cache r)
    (reg_anchor_call_index r) (reg_anchor_call_cache r).
Definition set_anchor idx cache (r : AbiRegistry) : AbiRegistry :=
  mkRegistry (reg_abis r) (reg_hashes r) (reg_decoders r) (reg_topic0_index r)
    (reg_topic0_cache r) (reg_selector_index r) (reg_selector_cache r) idx cache
    (reg_anchor_call_index r) (reg_anchor_call_cache r).
Definition set_anchor_call idx cache (r : AbiRegistry) : AbiRegistry :=
  mkRegistry (reg_abis r) (reg_hashes r) (reg_decoders r) (reg_topic0_index r)
    (reg_topic0_cache r) (reg_selector_index r) (reg_selector_cache r) (reg_anchor_index r)
    (reg_anchor_cache r) idx cache.

Section registry.
Context {L : AbiLib}.

(** [_hash_body] *)
Definition hash_body (body : pyval) : string :=
  bytes_hex (sha256 (String.list_byte_of_string (json_dumps_sorted body))).

(** [body if isinstance(body, list) else [body]] *)
Definition body_entries (body : pyval) : list pyval :=
  match body with PList l => l | _ => [body] end.

(** ** Index building *)

(** One entry of the nested loops of [_rebuild_topic0_index] and
    [_rebuild_selector_index]; [compute] is [event_topic0] or [function_selector].
    An entry that is not an object raises, one whose signature cannot be computed
    is skipped, and the first entry of a key wins. *)
Definition index_entry (kind : string) (compute : pyval → result string) (abi_id : string)
    (idx : list (string * (string * string))) (entry : pyval)
    : result (list (string * (string * string))) :=
  let? ty := py_get entry "type" PNone in
  if negb (py_eq ty (PStr kind)) then Ok idx
  else match compute entry with
       | Err _ => Ok idx
       | Ok t0 =>
           let t0 := lower t0 in
           if dmem t0 idx then Ok idx
           else let? name := py_get entry "name" (PStr "") in
                let? n := py_as_str name in
                Ok (dset t0 (abi_id, n) idx)
       end.

Definition rebuild_index (kind : string) (compute : pyval → result string)
    (abis : list (string * SnapshotAbi)) : result (list (string * (string * string))) :=
  rfold (λ idx '(aid, abi),
    rfold (index_entry kind compute aid) (body_entries (abi_body abi)) idx) abis [].

Definition rebuild_topic0_index := rebuild_index "event" event_topic0.
Definition rebuild_selector_index := rebuild_index "function" function_selector.

(** [body.get("metadata", {}).get("address")] of [body if isinstance(body, dict) else {}] *)
Definition idl_program_id (body : pyval) : result pyval :=
  let? meta := py_get body "metadata" (PDict []) in py_get meta "address" PNone.

Definition idl_body (abi : SnapshotAbi) : pyval :=
  if is_dict (abi_body abi) then abi_body abi else PDict [].

(** [_rebuild_anchor_index], [_rebuild_anchor_call_index]: [section] lists the
    entries, [pseudo] the event that the struct is built from. *)
Definition index_anchor_entry (disc : string → list byte) (pseudo : pyval → result pyval)
    (aid program_id : string) (types_section : pyval)
    (idx : gmap (string * string) (string * string * construct)) (ev : pyval)
    : result (gmap (string * string) (string * string * construct)) :=
  let? name := py_get ev "name" (PStr "") in
  let? n := py_as_str name in
  let? pe := pseudo ev in
  let? struct := build_anchor_event_struct pe types_section in
  match struct with
  | None => Ok idx
  | Some c =>
      let key := (program_id, bytes_hex (disc n)) in
      match idx !! key with
      | Some _ => Ok idx
      | None => Ok (<[key := (aid, n, c)]> idx)
      end
  end.

Definition rebuild_anchor (section : string) (disc : string → list byte)
    (pseudo : pyval → result pyval) (abis : list (string * SnapshotAbi))
    : result (gmap (string * string) (string * string * construct)) :=
  rfold (λ idx '(aid, abi),
    if negb (String.eqb (abi_kind abi) "solana_idl") then Ok idx
    else
      let body := idl_body abi in
      let? pid := idl_program_id body in
      if negb (py_truth pid) then Ok idx
      else
        let? program_id := py_as_str pid in
        let? types_section := py_get body "types" (PList []) in
        let? evs := py_get body section (PList []) in
        let? entries := py_iter evs in
        rfold (index_anchor_entry disc pseudo aid program_id types_section) entries idx)
    abis ∅.

Definition rebuild_anchor_index :=
  rebuild_anchor "events" anchor_event_discriminator Ok.

(** [{"name": name, "fields": ix.get("args", ix.get("fields", []))}] *)
Definition pseudo_event (ix_def : pyval) : result pyval :=
  let? name := py_get ix_def "name" (PStr "") in
  let? fields := py_get ix_def "fields" (PList []) in
  let? args := py_get ix_def "args" fields in
  Ok (PDict [("name", name); ("fields", args)]).

Definition rebuild_anchor_call_index :=
  rebuild_anchor "instructions" anchor_call_discriminator pseudo_event.

(** ** Refresh *)

(** [_evict] *)
Definition evict (r : AbiRegistry) (aid : string) : AbiRegistry :=
  set_decoders (filter (λ kv, kv.1.1 ≠ aid) (reg_decoders r)) (delete aid (reg_hashes r)) r.

(** [{a.id: a for a in snap.abis}] *)
Definition new_abis (snap : ConfigSnapshot) : list (string * SnapshotAbi) :=
  foldl (λ d a, dset (abi_id a) a d) [] (snap_abis snap).

(** One turn of the eviction loop *)
Definition evict_stale (abis : list (string * SnapshotAbi)) (r : AbiRegistry)
    (aid : string) : AbiRegistry :=
  match dget aid abis with
  | None => evict r aid
  | Some a =>
      if bool_decide (reg_hashes r !! aid = Some (hash_body (abi_body a))) then r
      else evict r aid
  end.

Definition hash_abis (abis : list (string * SnapshotAbi)) : gmap string string :=
  dict_comp ((λ '(aid, a), (aid, hash_body (abi_body a))) <$> abis).

Definition refresh (snap : ConfigSnapshot) : M AbiRegistry unit :=
  let abis := new_abis snap in
  mmodify (λ r, foldl (evict_stale abis) r (map_to_list (reg_hashes r)).*1) ;;*
  mmodify (set_abis abis (hash_abis abis)) ;;*
  (let* idx := mlift (rebuild_topic0_index abis) in mmodify (set_topic0 idx ∅)) ;;*
  (let* idx := mlift (rebuild_selector_index abis) in mmodify (set_selector idx ∅)) ;;*
  (let* idx := mlift (rebuild_anchor_index abis) in mmodify (set_anchor idx ∅)) ;;*
  (let* idx := mlift (rebuild_anchor_call_index abis) in mmodify (set_anchor_call idx ∅)).

(** ** Lookups *)

(** The search loop of [get_event_decoder] / [get_call_decoder] *)
Fixpoint find_entry (kind : string) (compute : pyval → result string) (key : string)
    (body : list pyval) : result (option pyval) :=
  match body with
  | [] => Ok None
  | entry :: t =>
      let? ty := py_get entry "type" PNone in
      if negb (py_eq ty (PStr kind)) then find_entry kind compute key t
      else
        let? k := compute entry in
        if String.eqb (lower k) (lower key) then Ok (Some entry)
        else find_entry kind compute key t
  end.

Definition get_decoder (kind key_name : string) (compute : pyval → result string)
    (mk : pyval → decoder_fn) (aid key : string) : M AbiRegistry decoder_fn := λ r,
  let k := (aid, lower key) in
  match reg_decoders r !! k with
  | Some d => (Ok d, r)
  | None =>
      match dget aid (reg_abis r) with
      | None => (Err (AbiNotFound aid), r)
      | Some a =>
          match find_entry kind compute key (body_entries (abi_body a)) with
          | Err e => (Err e, r)
          | Ok None => (Err (KeyError ("no " +:+ kind +:+ " with " +:+ key_name +:+ " " +:+ key +:+
                             " in abi " +:+ aid)), r)
          | Ok (Some entry) =>
              (Ok (mk entry), set_decoders (<[k := mk entry]> (reg_decoders r)) (reg_hashes r) r)
          end
      end
  end.

Definition get_event_decoder := get_decoder "event" "topic0" event_topic0 EventDecoder.
Definition get_call_decoder := get_decoder "function" "selector" function_selector CallDecoder.

Fixpoint topic0_for (idx : list (string * (string * string))) (aid event_name : string)
    : option string :=
  match idx with
  | [] => None
  | (t0, (a, n)) :: t =>
      if String.eqb a aid && String.eqb n event_name then Some t0
      else topic0_for t aid event_name
  end.

Definition event_topic0_for (r : AbiRegistry) (aid event_name : string) : option string :=
  topic0_for (reg_topic0_index r) aid event_name.

Definition lookup_event_by_topic0 (topic0 : string) : M AbiRegistry (option (string * decoder_fn)) := λ r,
  let key := lower topic0 in
  match reg_topic0_cache r !! key with
  | Some c => (Ok (Some c), r)
  | None =>
      match dget key (reg_topic0_index r) with
      | None => (Ok None, r)
      | Some (aid, event_name) =>
          (let* decoder := get_event_decoder aid topic0 in
           mmodify (λ r, set_topic0 (reg_topic0_index r)
                           (<[key := (event_name, decoder)]> (reg_topic0_cache r)) r) ;;*
           mret (Some (event_name, decoder))) r
      end
  end.

Definition lookup_function_by_selector (selector : string)
    : M AbiRegistry (option (string * decoder_fn)) := λ r,
  let key := lower selector in
  match reg_selector_cache r !! key with
  | Some c => (Ok (Some c), r)
  | None =>
      match dget key (reg_selector_index r) with
      | None => (Ok None, r)
      | Some (aid, fn_name) =>
          (let* decoder := get_call_decoder aid selector in
           mmodify (λ r, set_selector (reg_selector_index r)
                           (<[key := (fn_name, decoder)]> (reg_selector_cache r)) r) ;;*
           mret (Some (fn_name, decoder))) r
      end
  end.

Definition lookup_idl_event_by_discriminator (program_id disc : string)
    : M AbiRegistry (option (string * construct)) := λ r,
  let key := (program_id, disc) in
  match reg_anchor_cache r !! key with
  | Some c => (Ok (Some c), r)
  | None =>
      match reg_anchor_index r !! key with
      | None => (Ok None, r)
      | Some (_, event_name, struct) =>
          (Ok (Some (event_name, struct)),
           set_anchor (reg_anchor_index r)
             (<[key := (event_name, struct)]> (reg_anchor_cache r)) r)
      end
  end.

Definition lookup_idl_call_by_discriminator (program_id disc : string)
    : M AbiRegistry (option (string * construct)) := λ r,
  let key := (program_id, disc) in
  match reg_anchor_call_cache r !! key with
  | Some c => (Ok (Some c), r)
  | None =>
      match reg_anchor_call_index r !! key with
      | None => (Ok None, r)
      | Some (_, fn_name, struct) =>
          (Ok (Some (fn_name, struct)),
           set_anchor_call (reg_anchor_call_index r)
             (<[key := (fn_name, struct)]> (reg_anchor_call_cache r)) r)
      end
  end.

Definition get_abi (r : AbiRegistry) (aid : string) : result SnapshotAbi :=
  match dget aid (reg_abis r) with
  | Some a => Ok a
  | None => Err (AbiNotFound aid)
  end.

Definition get_body (r : AbiRegistry) (aid : string) : result pyval :=
  rmap abi_body (get_abi r aid).

(** Calling a cached decoder. *)
Definition run_event_decoder (d : decoder_fn) (topics : list string) (data : string)
    : result (list (string * pyval)) :=
  match d with
  | EventDecoder ev => decode_event ev topics data
  | CallDecoder _ => Err (TypeError "unexpected keyword argument 'topics'")
  end.

Definition run_call_decoder (d : decoder_fn) (calldata : string)
    : result (list (string * pyval)) :=
  match d with
  | CallDecoder fn => decode_function_call fn calldata
  | EventDecoder _ => Err (TypeError "takes 0 positional arguments but 1 was given")
  end.

(** ** The index is the first declaration of each key *)

(** The declarations of the snapshot in order: every entry of the kind whose
    signature can be computed, under its key. *)
Definition declared_entry (kind : string) (compute : pyval → result string) (aid : string)
    (entry : pyval) : list (string * (string * string)) :=
  match py_get entry "type" PNone, compute entry, inp_name entry with
  | Ok ty, Ok t0, Ok n => if py_eq ty (PStr kind) then [(lower t0, (aid, n))] else []
  | _, _, _ => []
  end.

Definition declared (kind : string) (compute : pyval → result string)
    (abis : list (string * SnapshotAbi)) : list (string * (string * string)) :=
  abis ≫= λ '(aid, a), body_entries (abi_body a) ≫= declared_entry kind compute aid.

(** What the two key functions have in common: the entry they accept has a name. *)
Class KeyFunction (compute : pyval → result string) : Prop :=
  key_has_name e k : compute e = Ok k → ∃ n, py_getitem e "name" = Ok (PStr n).

Lemma canonical_signature_name e sig :
  canonical_signature e = Ok sig → ∃ n, py_getitem e "name" = Ok (PStr n).
Proof.
  unfold canonical_signature. rewrite rbind_ok. intros (i&_&H).
  rewrite rbind_ok in H. destruct H as (t&_&H). rewrite rbind_ok in H.
  destruct H as (v&Hv&H). rewrite rbind_ok in H. destruct H as (n&Hn&_).
  destruct v; simplify_eq/=. eauto.
Qed.

#[export] Instance event_topic0_key : KeyFunction event_topic0.
Proof.
  intros e k. unfold event_topic0. rewrite rbind_ok. intros (sig&Hs&_).
  by eapply canonical_signature_name.
Qed.

#[export] Instance function_selector_key : KeyFunction function_selector.
Proof.
  intros e k. unfold function_selector. rewrite rbind_ok. intros (sig&Hs&_).
  by eapply canonical_signature_name.
Qed.

(** [d] extended by [k ↦ v] where [k] is new is [d ++ [(k, v)]]. *)
Lemma dset_new {V} k (v : V) d : dmem k d = false → dset k v d = d ++ [(k, v)].
Proof.
  unfold dmem. induction d as [|[k' v'] d IH]; simpl; [done|].
  destruct (decide (k' = k)); [done|]. intros. by rewrite IH.
Qed.

Lemma dget_app {V} k (d1 d2 : list (string * V)) :
  dget k (d1 ++ d2) = match dget k d1 with Some v => Some v | None => dget k d2 end.
Proof.
  induction d1 as [|[k' v'] d1 IH]; simpl; [done|]. by destruct (decide (k' = k)).
Qed.

Lemma index_entry_declared kind compute `{!KeyFunction compute} aid idx entry idx' :
  index_entry kind compute aid idx entry = Ok idx' →
  (NoDup idx.*1 → NoDup idx'.*1) ∧
  ∀ k, dget k idx' = dget k (idx ++ declared_entry kind compute aid entry).
Proof.
  unfold index_entry, declared_entry. rewrite rbind_ok. intros (ty&Hty&H). rewrite Hty.
  destruct (py_eq ty (PStr kind)) eqn:Hk; simpl in H.
  2: { simplify_eq. split; [done|]. intros k. by repeat case_match; rewrite app_nil_r. }
  destruct (compute entry) as [t0|e] eqn:Hc; [|simplify_eq; split; [done|intros; by rewrite app_nil_r]].
  destruct (key_has_name _ _ Hc) as [n Hn]. unfold inp_name. rewrite Hn. simpl.
  destruct (dmem (lower t0) idx) eqn:Hm.
  - simplify_eq. split; [done|]. intros k. rewrite dget_app.
    destruct (dget k idx') eqn:Hd; [done|]. simpl. rewrite decide_False; [done|].
    intros Hk'. unfold dmem in Hm. by rewrite Hk', Hd in Hm.
  - assert (py_get entry "name" (PStr "") = Ok (PStr n)) as Hg.
    { destruct entry; simplify_eq/=. by destruct (dget "name" d); simplify_eq. }
    rewrite Hg in H. simplify_eq/=. split; [apply dset_NoDup|].
    intros k. by rewrite dset_new.
Qed.

Lemma index_entries_declared kind compute `{!KeyFunction compute} aid entries idx idx' :
  rfold (index_entry kind compute aid) entries idx = Ok idx' →
  (NoDup idx.*1 → NoDup idx'.*1) ∧
  ∀ k, dget k idx' = dget k (idx ++ (entries ≫= declared_entry kind compute aid)).
Proof.
  revert idx. induction entries as [|e es IH]; intros idx H; simpl in H.
  { simplify_eq. split; [done|]. intros. by rewrite app_nil_r. }
  rewrite rbind_ok in H. destruct H as (idx1&H1&H2).
  apply index_entry_declared in H1 as [Hnd1 Hd1]; [|done].
  apply IH in H2 as [Hnd2 Hd2]. split; [auto|].
  intros k. by rewrite Hd2, bind_cons, app_assoc, !(dget_app k _ (es ≫= _)), Hd1.
Qed.

Lemma rebuild_index_declared kind compute `{!KeyFunction compute} abis idx :
  rebuild_index kind compute abis = Ok idx →
  NoDup idx.*1 ∧ ∀ k, dget k idx = dget k (declared kind compute abis).
Proof.
  unfold rebuild_index, declared.
  assert (∀ acc, rfold (λ idx '(aid, abi),
    rfold (index_entry kind compute aid) (body_entries (abi_body abi)) idx) abis acc = Ok idx →
    (NoDup acc.*1 → NoDup idx.*1) ∧ ∀ k, dget k idx = dget k (acc ++ (abis ≫= λ '(aid, a),
      body_entries (abi_body a) ≫= declared_entry kind compute aid))) as Hgen.
  { induction abis as [|[aid a] abis IH]; intros acc H; simpl in H.
    { simplify_eq. split; [done|]. intros. by rewrite app_nil_r. }
    rewrite rbind_ok in H. destruct H as (idx1&H1&H2).
    apply index_entries_declared in H1 as [Hnd1 Hd1]; [|done].
    apply IH in H2 as [Hnd2 Hd2]. split; [auto|].
    intros k. by rewrite Hd2, bind_cons, app_assoc, !(dget_app k _ (abis ≫= _)), Hd1. }
  intros H. apply Hgen in H as [Hnd Hd]. split; [apply Hnd, NoDup_nil_2|exact Hd].
Qed.
End registry.

(** ** Coherence of the caches *)
Section coherence.
Context {L : AbiLib}.

(** [d] is what a fresh search of [body] under key [k] finds. *)
Definition decodes (body : pyval) (k : string) (d : decoder_fn) : Prop :=
  match d with
  | EventDecoder e => find_entry "event" event_topic0 k (body_entries body) = Ok (Some e)
  | CallDecoder e => find_entry "function" function_selector k (body_entries body) = Ok (Some e)
  end.

Record decoders_coherent (r : AbiRegistry) : Prop := {
  co_abis : NoDup (reg_abis r).*1;
  co_hashes : reg_hashes r = hash_abis (reg_abis r);
  co_decoders aid k d : reg_decoders r !! (aid, k) = Some d →
    ∃ body, reg_hashes r !! aid = Some (hash_body body) ∧ decodes body k d;
}.

Record coherent (r : AbiRegistry) : Prop := {
  co_decs : decoders_coherent r;
  co_topic0_index : rebuild_topic0_index (reg_abis r) = Ok (reg_topic0_index r);
  co_selector_index : rebuild_selector_index (reg_abis r) = Ok (reg_selector_index r);
  co_anchor_index : rebuild_anchor_index (reg_abis r) = Ok (reg_anchor_index r);
  co_anchor_call_index : rebuild_anchor_call_index (reg_abis r) = Ok (reg_anchor_call_index r);
  co_topic0_cache k n d : reg_topic0_cache r !! k = Some (n, d) →
    ∃ aid, dget k (reg_topic0_index r) = Some (aid, n) ∧ reg_decoders r !! (aid, k) = Some d;
  co_selector_cache k n d : reg_selector_cache r !! k = Some (n, d) →
    ∃ aid, dget k (reg_selector_index r) = Some (aid, n) ∧ reg_decoders r !! (aid, k) = Some d;
  co_anchor_cache k n c : reg_anchor_cache r !! k = Some (n, c) →
    ∃ aid, reg_anchor_index r !! k = Some (aid, n, c);
  co_anchor_call_cache k n c : reg_anchor_call_cache r !! k = Some (n, c) →
    ∃ aid, reg_anchor_call_index r !! k = Some (aid, n, c);
}.

Lemma coherent_init : coherent AbiRegistry_init.
Proof. repeat split; try done. apply NoDup_nil_2. Qed.

(** *** Refresh *)

Lemma new_abis_NoDup snap : NoDup (new_abis snap).*1.
Proof.
  unfold new_abis. assert (∀ acc : list (string * SnapshotAbi), NoDup acc.*1 →
    NoDup (foldl (λ d a, dset (abi_id a) a d) acc (snap_abis snap)).*1) as Hg.
  { induction (snap_abis snap) as [|a l IH]; simpl; intros acc Hacc; [done|].
    auto with ci. }
  apply Hg, NoDup_nil_2.
Qed.

Lemma hash_abis_lookup abis aid a :
  NoDup abis.*1 → dget aid abis = Some a →
  hash_abis abis !! aid = Some (hash_body (abi_body a)).
Proof.
  intros Hnd Hg. unfold hash_abis.
  destruct (dict_comp _ !! aid) as [h|] eqn:E.
  - apply dict_comp_elem_of, list_elem_of_fmap in E as ([aid' a']&?&Hin). simplify_eq.
    apply (elem_of_dget _ _ _ Hnd) in Hin. by simplify_eq.
  - apply dict_comp_None in E. destruct E. apply dget_elem_of in Hg.
    rewrite <- list_fmap_compose. apply list_elem_of_fmap. by exists (aid, a).
Qed.

(** The eviction loop only removes decoders, and keeps one of a listed ABI only
    when the new snapshot has that ABI with an unchanged hash. *)
Lemma evict_loop abis keys r :
  let r' := foldl (evict_stale abis) r keys in
  (∀ aid h, reg_hashes r' !! aid = Some h → reg_hashes r !! aid = Some h) ∧
  (∀ aid k d, reg_decoders r' !! (aid, k) = Some d →
    reg_decoders r !! (aid, k) = Some d ∧
    (aid ∈ keys → ∃ a, dget aid abis = Some a ∧
      reg_hashes r !! aid = Some (hash_body (abi_body a)))).
Proof.
  revert r. induction keys as [|aid0 keys IH]; intros r; simpl; [set_solver|].
  destruct (IH (evict_stale abis r aid0)) as [IHh IHd]. clear IH.
  assert (∀ aid h, reg_hashes (evict r aid0) !! aid = Some h → reg_hashes r !! aid = Some h) as Hev.
  { intros aid h. simpl. rewrite lookup_delete_Some. tauto. }
  assert (∀ aid k d, reg_decoders (evict r aid0) !! (aid, k) = Some d →
    aid ≠ aid0 ∧ reg_decoders r !! (aid, k) = Some d) as Hed.
  { intros aid k d. simpl. rewrite map_lookup_filter_Some. tauto. }
  unfold evict_stale in IHh, IHd |- *. split.
  - intros aid h Hh%IHh. repeat case_match; auto.
  - intros aid k d (Hd&Hk)%IHd. repeat case_match; try case_bool_decide; simplify_eq.
    + split; [done|]. intros [->|Hin]%elem_of_cons; eauto.
    + apply Hed in Hd as [Hne Hd]. split; [done|]. intros [->|Hin]%elem_of_cons; [done|].
      destruct (Hk Hin) as (a'&?&?%Hev). eauto.
    + apply Hed in Hd as [Hne Hd]. split; [done|]. intros [->|Hin]%elem_of_cons; [done|].
      destruct (Hk Hin) as (a'&?&?%Hev). eauto.
Qed.

(** The registry after the first two assignments of [refresh]. *)
Definition refresh_abis (snap : ConfigSnapshot) (r : AbiRegistry) : AbiRegistry :=
  set_abis (new_abis snap) (hash_abis (new_abis snap))
    (foldl (evict_stale (new_abis snap)) r (map_to_list (reg_hashes r)).*1).

Lemma refresh_abis_coherent snap r :
  decoders_coherent r → decoders_coherent (refresh_abis snap r).
Proof.
  intros [_ Hh Hd]. split; [apply new_abis_NoDup|done|]. simpl. intros aid k d Hl.
  destruct (evict_loop (new_abis snap) (map_to_list (reg_hashes r)).*1 r) as [_ He].
  apply He in Hl as [Hl Hf]. apply Hd in Hl as (body&Hb&Hdec).
  destruct Hf as (a&Ha&Heq).
  { apply list_elem_of_fmap. exists (aid, hash_body body). split; [done|].
    by apply elem_of_map_to_list. }
  exists body. split; [|done]. rewrite (hash_abis_lookup _ _ a); [|apply new_abis_NoDup|done].
  congruence.
Qed.

(** What [refresh] leaves behind, on every branch. *)
Lemma refresh_decoders snap r :
  let r' := (refresh snap r).2 in
  reg_abis r' = new_abis snap ∧ reg_hashes r' = hash_abis (new_abis snap) ∧
  reg_decoders r' = reg_decoders (refresh_abis snap r).
Proof.
  unfold refresh, mbind, mmodify, mlift. cbn beta iota.
  repeat (case_match; simplify_eq; try done).
Qed.

Lemma refresh_coherent snap r u r' :
  decoders_coherent r → refresh snap r = (Ok u, r') → coherent r'.
Proof.
  intros Hr Hf. pose proof (refresh_decoders snap r) as (Ha&Hh&Hd).
  rewrite Hf in Ha, Hh, Hd. simpl in *.
  assert (decoders_coherent r') as Hco.
  { destruct (refresh_abis_coherent snap r Hr) as [_ _ H2]. simpl in H2. split.
    - rewrite Ha. apply new_abis_NoDup.
    - by rewrite Hh, Ha.
    - intros aid k d. rewrite Hd, Hh. apply H2. }
  unfold refresh, mbind, mmodify, mlift in Hf. cbn beta iota in Hf.
  destruct (rebuild_topic0_index (new_abis snap)) eqn:H1; [|done].
  destruct (rebuild_selector_index (new_abis snap)) eqn:H2; [|done].
  destruct (rebuild_anchor_index (new_abis snap)) eqn:H3; [|done].
  destruct (rebuild_anchor_call_index (new_abis snap)) eqn:H4; [|done].
  injection Hf as _ <-. by split.
Qed.
End coherence.

(** ** Lookups are observationally pure *)
Section lookups.
Context {L : AbiLib} {LL : AbiLibLaws}.

Lemma event_topic0_length e k : event_topic0 e = Ok k → String.length k = 66%nat.
Proof.
  unfold event_topic0. rewrite rbind_ok. intros (sig&_&[= <-]).
  by rewrite str_length_app, bytes_hex_length, topic_length.
Qed.

Lemma function_selector_length e k : function_selector e = Ok k → String.length k = 10%nat.
Proof.
  unfold function_selector. rewrite rbind_ok. intros (sig&_&[= <-]).
  by rewrite str_length_app, bytes_hex_length, selector_length.
Qed.

Lemma find_entry_some kind compute key body e :
  find_entry kind compute key body = Ok (Some e) →
  e ∈ body ∧ ∃ k, compute e = Ok k ∧ lower k = lower key.
Proof.
  induction body as [|x body IH]; simpl; [done|].
  rewrite rbind_ok. intros (ty&_&H). destruct (negb _).
  { destruct (IH H) as [? ?]. split; [by right|done]. }
  rewrite rbind_ok in H. destruct H as (k&Hk&H).
  destruct (String.eqb (lower k) (lower key)) eqn:E.
  - simplify_eq. split; [left|]. exists k. split; [done|]. by apply String.eqb_eq.
  - destruct (IH H) as [? ?]. split; [by right|done].
Qed.

Lemma find_entry_lower kind compute key body :
  find_entry kind compute (lower key) body = find_entry kind compute key body.
Proof.
  induction body as [|x body IH]; simpl; [done|].
  destruct (py_get x "type" PNone); simpl; [|done]. rewrite IH.
  destruct (negb _); [done|]. destruct (compute x); simpl; [|done]. by rewrite lower_idemp.
Qed.

(** The kind of a cached decoder is determined by the length of its key. *)
Lemma decodes_length body k d :
  decodes body k d →
  String.length k = match d with EventDecoder _ => 66%nat | CallDecoder _ => 10%nat end.
Proof.
  destruct d; intros (_&k'&Hk&Hl)%find_entry_some; rewrite <- (lower_length k), <- Hl, lower_length;
    [by eapply event_topic0_length|by eapply function_selector_length].
Qed.

Lemma dget_declared_key kind compute abis k v :
  dget k (declared kind compute abis) = Some v → ∃ e k', compute e = Ok k' ∧ k = lower k'.
Proof.
  intros Hin%dget_elem_of. unfold declared in Hin.
  apply list_elem_of_bind in Hin as ([aid a]&Hin&_).
  apply list_elem_of_bind in Hin as (e&Hin&_). unfold declared_entry in Hin.
  repeat case_match; try by apply elem_of_nil in Hin.
  apply list_elem_of_singleton in Hin. simplify_eq. eauto.
Qed.

Lemma topic0_index_key r k v :
  coherent r → dget k (reg_topic0_index r) = Some v → String.length k = 66%nat ∧ lower k = k.
Proof.
  intros Hc. destruct (rebuild_index_declared "event" event_topic0 _ _ (co_topic0_index r Hc))
    as [_ ->]. intros (e&k'&He&->)%dget_declared_key.
  rewrite lower_length, lower_idemp. split; [by eapply event_topic0_length|done].
Qed.

Lemma selector_index_key r k v :
  coherent r → dget k (reg_selector_index r) = Some v → String.length k = 10%nat ∧ lower k = k.
Proof.
  intros Hc. destruct (rebuild_index_declared "function" function_selector _ _
    (co_selector_index r Hc)) as [_ ->]. intros (e&k'&He&->)%dget_declared_key.
  rewrite lower_length, lower_idemp. split; [by eapply function_selector_length|done].
Qed.

(** The answer of [get_decoder], without its effect on the cache. *)
Definition decoder_answer (kind key_name : string) (compute : pyval → result string)
    (mk : pyval → decoder_fn) (r : AbiRegistry) (aid key : string) : result decoder_fn :=
  (get_decoder kind key_name compute mk aid key r).1.

(** [get_decoder] either changes nothing or caches its answer. *)
Lemma get_decoder_cases kind key_name compute mk aid key r res r' :
  get_decoder kind key_name compute mk aid key r = (res, r') →
  (r' = r ∧ ∀ d, res = Ok d → reg_decoders r !! (aid, lower key) = Some d) ∨
  ∃ a e, reg_decoders r !! (aid, lower key) = None ∧
    dget aid (reg_abis r) = Some a ∧
    find_entry kind compute key (body_entries (abi_body a)) = Ok (Some e) ∧
    res = Ok (mk e) ∧
    r' = set_decoders (<[(aid, lower key) := mk e]> (reg_decoders r)) (reg_hashes r) r.
Proof.
  unfold get_decoder. intros H. repeat case_match; simplify_eq; try (left; naive_solver).
  right. eauto 10.
Qed.

Lemma co_abi_hash r aid a :
  decoders_coherent r → dget aid (reg_abis r) = Some a →
  reg_hashes r !! aid = Some (hash_body (abi_body a)).
Proof. intros [? -> _]. by apply hash_abis_lookup. Qed.

Lemma insert_decoder_coherent r aid k a d :
  coherent r → reg_decoders r !! (aid, k) = None → dget aid (reg_abis r) = Some a →
  decodes (abi_body a) k d →
  coherent (set_decoders (<[(aid, k) := d]> (reg_decoders r)) (reg_hashes r) r).
Proof.
  intros [Hco] Hn Ha Hd. split; simpl; try done.
  - destruct Hco as [Hnd Hh Hdecs]. split; simpl; [done..|].
    intros aid' k' d'. rewrite lookup_insert_Some. intros [[? ->]|[_ Hl]]; [|eauto].
    simplify_eq. exists (abi_body a). split; [|done]. by apply co_abi_hash.
  - intros k' n d' Hl. edestruct co_topic0_cache0 as (aid'&?&?); [done|].
    exists aid'. split; [done|]. rewrite lookup_insert_ne; naive_solver.
  - intros k' n d' Hl. edestruct co_selector_cache0 as (aid'&?&?); [done|].
    exists aid'. split; [done|]. rewrite lookup_insert_ne; naive_solver.
Qed.

(** Two registries that no lookup can tell apart. *)
Record lookup_equiv (r r' : AbiRegistry) : Prop := {
  eq_abis : reg_abis r = reg_abis r';
  eq_topic0_index : reg_topic0_index r = reg_topic0_index r';
  eq_selector_index : reg_selector_index r = reg_selector_index r';
  eq_anchor_index : reg_anchor_index r = reg_anchor_index r';
  eq_anchor_call_index : reg_anchor_call_index r = reg_anchor_call_index r';
  eq_event_decoder aid key : String.length key = 66%nat →
    (get_event_decoder aid key r).1 = (get_event_decoder aid key r').1;
  eq_call_decoder aid key : String.length key = 10%nat →
    (get_call_decoder aid key r).1 = (get_call_decoder aid key r').1;
}.

#[export] Instance lookup_equiv_equivalence : Equivalence lookup_equiv.
Proof.
  split; [by constructor| |].
  - intros r r' []. constructor; intros; symmetry; auto.
  - intros r1 r2 r3 [] []. constructor; try congruence; intros aid key Hk;
      [by rewrite eq_event_decoder0, eq_event_decoder1|by rewrite eq_call_decoder0, eq_call_decoder1].
Qed.

(** Caching a decoder under a key of the other kind's length, or the answer
    itself, is invisible. *)
Lemma get_decoder_insert kind key_name compute mk aid key r aid' k d :
  ((aid, lower key) = (aid', k) → (get_decoder kind key_name compute mk aid key r).1 = Ok d) →
  (get_decoder kind key_name compute mk aid key
    (set_decoders (<[(aid', k) := d]> (reg_decoders r)) (reg_hashes r) r)).1 =
  (get_decoder kind key_name compute mk aid key r).1.
Proof.
  intros Heq. destruct (decide ((aid, lower key) = (aid', k))) as [E|E].
  - rewrite Heq by done. unfold get_decoder. simpl. by rewrite E, lookup_insert_eq.
  - unfold get_decoder. simpl. rewrite lookup_insert_ne by done. by repeat case_match.
Qed.

(** Keys are case-insensitive. *)
Lemma get_decoder_ok_lower kind key_name compute mk aid key key' r d :
  lower key = lower key' → (get_decoder kind key_name compute mk aid key r).1 = Ok d →
  (get_decoder kind key_name compute mk aid key' r).1 = Ok d.
Proof.
  intros Hk. unfold get_decoder. rewrite Hk.
  destruct (reg_decoders r !! (aid, lower key')); [done|].
  destruct (dget aid (reg_abis r)) as [a|]; [|done].
  rewrite <- (find_entry_lower kind compute key), <- (find_entry_lower kind compute key'), Hk.
  by repeat case_match.
Qed.

Lemma lower_eq_length s t : lower s = lower t → String.length s = String.length t.
Proof. intros H. by rewrite <- (lower_length s), H, lower_length. Qed.

Lemma insert_event_equiv r aid key d :
  (get_event_decoder aid key r).1 = Ok d → String.length key = 66%nat →
  lookup_equiv r (set_decoders (<[(aid, lower key) := d]> (reg_decoders r)) (reg_hashes r) r).
Proof.
  intros Hans Hlen. constructor; simpl; try done; intros aid' key' Hk'; symmetry;
    apply get_decoder_insert; intros [= -> Hk].
  - by eapply get_decoder_ok_lower.
  - apply lower_eq_length in Hk. lia.
Qed.

Lemma insert_call_equiv r aid key d :
  (get_call_decoder aid key r).1 = Ok d → String.length key = 10%nat →
  lookup_equiv r (set_decoders (<[(aid, lower key) := d]> (reg_decoders r)) (reg_hashes r) r).
Proof.
  intros Hans Hlen. constructor; simpl; try done; intros aid' key' Hk'; symmetry;
    apply get_decoder_insert; intros [= -> Hk].
  - apply lower_eq_length in Hk. lia.
  - by eapply get_decoder_ok_lower.
Qed.

Lemma get_event_decoder_step aid key r res r' :
  coherent r → get_event_decoder aid key r = (res, r') → coherent r' ∧ lookup_equiv r r' ∧
  reg_topic0_cache r' = reg_topic0_cache r ∧
  ∀ d, res = Ok d → reg_decoders r' !! (aid, lower key) = Some d.
Proof.
  intros Hco Hg. assert ((get_event_decoder aid key r).1 = res) as Hres by by rewrite Hg.
  apply get_decoder_cases in Hg as [[-> Hd]|(a&e&Hn&Ha&He&->&->)].
  { split_and!; try done. }
  split_and!; [| |done|].
  - eapply insert_decoder_coherent; [done..|]. simpl. by rewrite find_entry_lower.
  - apply insert_event_equiv; [done|].
    rewrite <- (lower_length key). eapply (decodes_length (abi_body a) _ (EventDecoder e)).
    simpl. by rewrite find_entry_lower.
  - intros d [= <-]. by simplify_map_eq.
Qed.

Lemma get_call_decoder_step aid key r res r' :
  coherent r → get_call_decoder aid key r = (res, r') → coherent r' ∧ lookup_equiv r r' ∧
  reg_selector_cache r' = reg_selector_cache r ∧
  ∀ d, res = Ok d → reg_decoders r' !! (aid, lower key) = Some d.
Proof.
  intros Hco Hg. assert ((get_call_decoder aid key r).1 = res) as Hres by by rewrite Hg.
  apply get_decoder_cases in Hg as [[-> Hd]|(a&e&Hn&Ha&He&->&->)].
  { split_and!; try done. }
  split_and!; [| |done|].
  - eapply insert_decoder_coherent; [done..|]. simpl. by rewrite find_entry_lower.
  - apply insert_call_equiv; [done|].
    rewrite <- (lower_length key). eapply (decodes_length (abi_body a) _ (CallDecoder e)).
    simpl. by rewrite find_entry_lower.
  - intros d [= <-]. by simplify_map_eq.
Qed.

(** What a lookup answers, from the index and the decoder search alone. *)
Definition event_answer (r : AbiRegistry) (topic0 : string) : result (option (string * decoder_fn)) :=
  match dget (lower topic0) (reg_topic0_index r) with
  | None => Ok None
  | Some (aid, n) => rmap (λ d, Some (n, d)) (get_event_decoder aid topic0 r).1
  end.

Definition call_answer (r : AbiRegistry) (selector : string) : result (option (string * decoder_fn)) :=
  match dget (lower selector) (reg_selector_index r) with
  | None => Ok None
  | Some (aid, n) => rmap (λ d, Some (n, d)) (get_call_decoder aid selector r).1
  end.

Definition idl_answer (idx : gmap (string * string) (string * string * construct))
    (program_id disc : string) : result (option (string * construct)) :=
  Ok ((λ '(_, n, c), (n, c)) <$> idx !! (program_id, disc)).

(** A registry that differs in a lookup cache only. *)
Ltac solve_cache_equiv :=
  constructor; try done; intros; unfold get_event_decoder, get_call_decoder, get_decoder; simpl;
  by repeat case_match.

Lemma lookup_event_step t r res r' :
  coherent r → lookup_event_by_topic0 t r = (res, r') →
  res = event_answer r t ∧ coherent r' ∧ lookup_equiv r r'.
Proof.
  intros Hco. unfold lookup_event_by_topic0, event_answer.
  destruct (reg_topic0_cache r !! lower t) as [[n d]|] eqn:Hc.
  { intros [= <- <-]. destruct (co_topic0_cache r Hco _ _ _ Hc) as (aid&Hi&Hd).
    rewrite Hi. unfold get_event_decoder, get_decoder. by rewrite Hd. }
  destruct (dget (lower t) (reg_topic0_index r)) as [[aid n]|] eqn:Hi; [|by intros [= <- <-]].
  unfold mbind. destruct (get_event_decoder aid t r) as [rd r1] eqn:Hg. simpl.
  apply get_event_decoder_step in Hg as (Hco1&Heq&Hcache&Hd); [|done].
  destruct rd as [d|e]; simpl; intros [= <- <-]; [|done].
  split; [done|]. specialize (Hd _ eq_refl). split.
  - destruct Hco1 as [[]]. repeat split; simpl; try done.
    intros k n' d'. rewrite lookup_insert_Some. intros [[<- [= <- <-]]|[_ Hl]]; [|eauto].
    exists aid. by rewrite <- (eq_topic0_index _ _ Heq).
  - etrans; [exact Heq|]. solve_cache_equiv.
Qed.

Lemma lookup_function_step s r res r' :
  coherent r → lookup_function_by_selector s r = (res, r') →
  res = call_answer r s ∧ coherent r' ∧ lookup_equiv r r'.
Proof.
  intros Hco. unfold lookup_function_by_selector, call_answer.
  destruct (reg_selector_cache r !! lower s) as [[n d]|] eqn:Hc.
  { intros [= <- <-]. destruct (co_selector_cache r Hco _ _ _ Hc) as (aid&Hi&Hd).
    rewrite Hi. unfold get_call_decoder, get_decoder. by rewrite Hd. }
  destruct (dget (lower s) (reg_selector_index r)) as [[aid n]|] eqn:Hi; [|by intros [= <- <-]].
  unfold mbind. destruct (get_call_decoder aid s r) as [rd r1] eqn:Hg. simpl.
  apply get_call_decoder_step in Hg as (Hco1&Heq&Hcache&Hd); [|done].
  destruct rd as [d|e]; simpl; intros [= <- <-]; [|done].
  split; [done|]. specialize (Hd _ eq_refl). split.
  - destruct Hco1 as [[]]. repeat split; simpl; try done.
    intros k n' d'. rewrite lookup_insert_Some. intros [[<- [= <- <-]]|[_ Hl]]; [|eauto].
    exists aid. by rewrite <- (eq_selector_index _ _ Heq).
  - etrans; [exact Heq|]. solve_cache_equiv.
Qed.

Lemma lookup_idl_event_step p d r res r' :
  coherent r → lookup_idl_event_by_discriminator p d r = (res, r') →
  res = idl_answer (reg_anchor_index r) p d ∧ coherent r' ∧ lookup_equiv r r'.
Proof.
  intros Hco. unfold lookup_idl_event_by_discriminator, idl_answer.
  destruct (reg_anchor_cache r !! (p, d)) as [[n c]|] eqn:Hc.
  { intros [= <- <-]. destruct (co_anchor_cache r Hco _ _ _ Hc) as (aid&->). done. }
  destruct (reg_anchor_index r !! (p, d)) as [[[aid n] c]|] eqn:Hi; intros [= <- <-]; [|done].
  split; [done|]. split; [|solve_cache_equiv].
  destruct Hco as [[]]. repeat split; simpl; try done.
  intros k n' d'. rewrite lookup_insert_Some. intros [[<- [= <- <-]]|[_ Hl]]; eauto.
Qed.

Lemma lookup_idl_call_step p d r res r' :
  coherent r → lookup_idl_call_by_discriminator p d r = (res, r') →
  res = idl_answer (reg_anchor_call_index r) p d ∧ coherent r' ∧ lookup_equiv r r'.
Proof.
  intros Hco. unfold lookup_idl_call_by_discriminator, idl_answer.
  destruct (reg_anchor_call_cache r !! (p, d)) as [[n c]|] eqn:Hc.
  { intros [= <- <-]. destruct (co_anchor_call_cache r Hco _ _ _ Hc) as (aid&->). done. }
  destruct (reg_anchor_call_index r !! (p, d)) as [[[aid n] c]|] eqn:Hi; intros [= <- <-]; [|done].
  split; [done|]. split; [|solve_cache_equiv].
  destruct Hco as [[]]. repeat split; simpl; try done.
  intros k n' d'. rewrite lookup_insert_Some. intros [[<- [= <- <-]]|[_ Hl]]; eauto.
Qed.

(** The answers are functions of the equivalence class. *)
Lemma event_answer_equiv r r' t :
  coherent r → lookup_equiv r r' → event_answer r t = event_answer r' t.
Proof.
  intros Hco Heq. unfold event_answer. rewrite <- (eq_topic0_index _ _ Heq).
  destruct (dget (lower t) (reg_topic0_index r)) as [[aid n]|] eqn:Hi; [|done].
  apply topic0_index_key in Hi as [Hl _]; [|done]. rewrite lower_length in Hl.
  by rewrite (eq_event_decoder _ _ Heq).
Qed.

Lemma call_answer_equiv r r' t :
  coherent r → lookup_equiv r r' → call_answer r t = call_answer r' t.
Proof.
  intros Hco Heq. unfold call_answer. rewrite <- (eq_selector_index _ _ Heq).
  destruct (dget (lower t) (reg_selector_index r)) as [[aid n]|] eqn:Hi; [|done].
  apply selector_index_key in Hi as [Hl _]; [|done]. rewrite lower_length in Hl.
  by rewrite (eq_call_decoder _ _ Heq).
Qed.

(** An event lookup only ever answers with an entry of that topic. *)
Lemma event_answer_sound r t n d :
  coherent r → event_answer r t = Ok (Some (n, d)) →
  ∃ aid ev t0, dget (lower t) (reg_topic0_index r) = Some (aid, n) ∧ d = EventDecoder ev ∧
    event_topic0 ev = Ok t0 ∧ lower t0 = lower t.
Proof.
  intros Hco. unfold event_answer.
  destruct (dget (lower t) (reg_topic0_index r)) as [[aid n']|] eqn:Hi; [|done].
  destruct (topic0_index_key _ _ _ Hco Hi) as [Hlen _].
  destruct (get_event_decoder aid t r) as [[d'|e] r'] eqn:Hg; simpl; [|done].
  intros [= -> ->]. apply get_event_decoder_step in Hg as (Hco'&_&_&Hd); [|done].
  specialize (Hd _ eq_refl). destruct (co_decoders _ (co_decs _ Hco') _ _ _ Hd) as (body&_&Hdec).
  pose proof (decodes_length _ _ _ Hdec) as Hdl. destruct d as [ev|fn]; [|simpl in Hdl; congruence].
  apply find_entry_some in Hdec as (_&t0&Ht&Hl). rewrite lower_idemp in Hl. eauto 10.
Qed.

(** ** Reachable registries *)

(** The operations the worker performs; a refresh that raises is not a step. *)
Inductive registry_step : AbiRegistry → AbiRegistry → Prop :=
  | step_refresh snap u r r' : refresh snap r = (Ok u, r') → registry_step r r'
  | step_event t res r r' : lookup_event_by_topic0 t r = (res, r') → registry_step r r'
  | step_call s res r r' : lookup_function_by_selector s r = (res, r') → registry_step r r'
  | step_idl_event p d res r r' :
      lookup_idl_event_by_discriminator p d r = (res, r') → registry_step r r'
  | step_idl_call p d res r r' :
      lookup_idl_call_by_discriminator p d r = (res, r') → registry_step r r'
  | step_get_event aid k res r r' : get_event_decoder aid k r = (res, r') → registry_step r r'
  | step_get_call aid k res r r' : get_call_decoder aid k r = (res, r') → registry_step r r'.

Definition registry_reachable : AbiRegistry → Prop := rtc registry_step AbiRegistry_init.

Lemma registry_step_coherent r r' : coherent r → registry_step r r' → coherent r'.
Proof.
  intros Hco Hs. destruct Hs.
  - by eapply refresh_coherent; [apply co_decs|].
  - by eapply lookup_event_step.
  - by eapply lookup_function_step.
  - by eapply lookup_idl_event_step.
  - by eapply lookup_idl_call_step.
  - by eapply get_event_decoder_step.
  - by eapply get_call_decoder_step.
Qed.

Lemma registry_reachable_coherent r : registry_reachable r → coherent r.
Proof.
  apply (rtc_ind_r (R:=registry_step) coherent); [apply coherent_init|].
  intros y z _ Hs Hy. by eapply registry_step_coherent.
Qed.

(** ** The registry is an ABI lookup service *)

#[export] Instance registry_lookup : AbiLookup AbiRegistry := {|
  al_event t := let* o := lookup_event_by_topic0 t in
                mret ((λ '(n, d), (n, run_event_decoder d)) <$> o);
  al_call s := let* o := lookup_function_by_selector s in
               mret ((λ '(n, d), (n, run_call_decoder d)) <$> o);
  al_idl_event := lookup_idl_event_by_discriminator;
  al_idl_call := lookup_idl_call_by_discriminator;
|}.

Lemma registry_al_event t r : coherent r →
  (al_event t r).1 = rmap (fmap (λ '(n, d), (n, run_event_decoder d))) (event_answer r t) ∧
  (al_event t r).2 = (lookup_event_by_topic0 t r).2.
Proof.
  intros Hco. simpl. unfold mbind. destruct (lookup_event_by_topic0 t r) as [res r'] eqn:H.
  apply lookup_event_step in H as [-> _]; [|done]. by destruct (event_answer r t).
Qed.

Lemma registry_al_call s r : coherent r →
  (al_call s r).1 = rmap (fmap (λ '(n, d), (n, run_call_decoder d))) (call_answer r s) ∧
  (al_call s r).2 = (lookup_function_by_selector s r).2.
Proof.
  intros Hco. simpl. unfold mbind. destruct (lookup_function_by_selector s r) as [res r'] eqn:H.
  apply lookup_function_step in H as [-> _]; [|done]. by destruct (call_answer r s).
Qed.

Lemma lookup_equiv_same_answers r r' :
  coherent r → coherent r' → lookup_equiv r r' → same_answers r r'.
Proof.
  intros Hco Hco' Heq. constructor; intros.
  - by rewrite (proj1 (registry_al_event _ _ Hco)), (proj1 (registry_al_event _ _ Hco')),
      (event_answer_equiv r r').
  - by rewrite (proj1 (registry_al_call _ _ Hco)), (proj1 (registry_al_call _ _ Hco')),
      (call_answer_equiv r r').
  - simpl. destruct (lookup_idl_event_by_discriminator p d r) as [x y] eqn:H1,
      (lookup_idl_event_by_discriminator p d r') as [x' y'] eqn:H2.
    apply lookup_idl_event_step in H1 as [-> _]; [|done].
    apply lookup_idl_event_step in H2 as [-> _]; [|done]. by rewrite (eq_anchor_index _ _ Heq).
  - simpl. destruct (lookup_idl_call_by_discriminator p d r) as [x y] eqn:H1,
      (lookup_idl_call_by_discriminator p d r') as [x' y'] eqn:H2.
    apply lookup_idl_call_step in H1 as [-> _]; [|done].
    apply lookup_idl_call_step in H2 as [-> _]; [|done]. by rewrite (eq_anchor_call_index _ _ Heq).
Qed.

#[export] Instance registry_lookup_laws : AbiLookupLaws AbiRegistry.
Proof.
  apply (Build_AbiLookupLaws _ _ coherent); intros; intros r Hco.
  - rewrite (proj2 (registry_al_event _ _ Hco)).
    destruct (lookup_event_by_topic0 t r) as [x r'] eqn:H. simpl.
    apply lookup_event_step in H as (_&?&?); [|done]. eauto using lookup_equiv_same_answers.
  - rewrite (proj2 (registry_al_call _ _ Hco)).
    destruct (lookup_function_by_selector s r) as [x r'] eqn:H. simpl.
    apply lookup_function_step in H as (_&?&?); [|done]. eauto using lookup_equiv_same_answers.
  - simpl. destruct (lookup_idl_event_by_discriminator p d r) as [x r'] eqn:H.
    apply lookup_idl_event_step in H as (_&?&?); [|done]. eauto using lookup_equiv_same_answers.
  - simpl. destruct (lookup_idl_call_by_discriminator p d r) as [x r'] eqn:H.
    apply lookup_idl_call_step in H as (_&?&?); [|done]. eauto using lookup_equiv_same_answers.
Defined.
End lookups.

(** ** Properties *)
Section properties.
Context {L : AbiLib}.

Lemma refresh_indexes snap r u r' :
  refresh snap r = (Ok u, r') →
  reg_abis r' = new_abis snap ∧
  rebuild_topic0_index (new_abis snap) = Ok (reg_topic0_index r') ∧
  rebuild_selector_index (new_abis snap) = Ok (reg_selector_index r') ∧
  reg_topic0_cache r' = ∅ ∧ reg_selector_cache r' = ∅.
Proof.
  unfold refresh, mbind, mmodify, mlift. cbn beta iota. intros Hf.
  destruct (rebuild_topic0_index (new_abis snap)) eqn:H1; [|done].
  destruct (rebuild_selector_index (new_abis snap)) eqn:H2; [|done].
  destruct (rebuild_anchor_index (new_abis snap)) eqn:H3; [|done].
  destruct (rebuild_anchor_call_index (new_abis snap)) eqn:H4; [|done].
  by injection Hf as _ <-.
Qed.

(** After a refresh, from any earlier state, a topic0 or selector is bound to
    the first entry of the snapshot's ABIs that declares it (ABIs in id order of
    first appearance, entries in body order), and to nothing when no entry whose
    signature can be computed declares it. *)
Lemma refresh_first_declaration_wins snap r u r' :
  refresh snap r = (Ok u, r') →
  ∀ k, dget k (reg_topic0_index r') = dget k (declared "event" event_topic0 (new_abis snap)) ∧
       dget k (reg_selector_index r') = dget k (declared "function" function_selector (new_abis snap)).
Proof.
  intros (_&H1&H2&_)%refresh_indexes k. split.
  - by apply (rebuild_index_declared "event" event_topic0).
  - by apply (rebuild_index_declared "function" function_selector).
Qed.

Lemma hash_abis_inv abis aid h :
  hash_abis abis !! aid = Some h → ∃ a, (aid, a) ∈ abis ∧ h = hash_body (abi_body a).
Proof.
  intros Hh. apply dict_comp_elem_of, list_elem_of_fmap in Hh as ([aid' a]&?&Hin).
  simplify_eq. eauto.
Qed.

(** A cached decoder is never stale: in every reachable registry it belongs to
    a registered ABI, and it is what a fresh search finds in a body with the
    content hash that this ABI has now.  Republishing an ABI under the same id with
    another body, or deleting it, evicts its decoders. *)
Lemma cached_decoders_current {LL : AbiLibLaws} r aid k d :
  registry_reachable r → reg_decoders r !! (aid, k) = Some d →
  ∃ a body, dget aid (reg_abis r) = Some a ∧ hash_body body = hash_body (abi_body a) ∧
    decodes body k d.
Proof.
  intros [[Hnd Hh Hd]]%registry_reachable_coherent Hk.
  apply Hd in Hk as (body&Hb&Hdec). rewrite Hh in Hb.
  apply hash_abis_inv in Hb as (a&Hin&Heq). exists a, body.
  split; [by apply elem_of_dget|done].
Qed.

(** C21 The caches are invisible: in a reachable registry no lookup, of whatever
    key and outcome, changes what any later lookup answers. *)
Theorem lookups_keep_answers {LL : AbiLibLaws} r t s p d :
  registry_reachable r →
  same_answers r (al_event t r).2 ∧ same_answers r (al_call s r).2 ∧
  same_answers r (al_idl_event p d r).2 ∧ same_answers r (al_idl_call p d r).2.
Proof.
  intros Hco%registry_reachable_coherent. split_and!.
  - by apply (al_event_keeps t).
  - by apply (al_call_keeps s).
  - by apply (al_idl_event_keeps p d).
  - by apply (al_idl_call_keeps p d).
Qed.

(** An event lookup that answers does so with the name the index holds for the
    topic and with a decoder of an event entry of exactly that topic0 (case
    ignored), never with a call decoder, although both kinds share one cache. *)
Lemma lookup_event_sound {LL : AbiLibLaws} r t n d r' :
  registry_reachable r → lookup_event_by_topic0 t r = (Ok (Some (n, d)), r') →
  ∃ aid ev t0, dget (lower t) (reg_topic0_index r) = Some (aid, n) ∧ d = EventDecoder ev ∧
    event_topic0 ev = Ok t0 ∧ lower t0 = lower t.
Proof.
  intros Hco%registry_reachable_coherent Hl. apply lookup_event_step in Hl as [Hans _]; [|done].
  by apply event_answer_sound.
Qed.

(** Indexing tolerates a malformed entry and decoding does not: with an event
    entry whose signature cannot be computed in front of a well-formed one, refresh
    succeeds and indexes the good event, but every lookup of its topic0 raises the
    malformed entry's exception. *)
Lemma malformed_entry_hides_later_events snap aid nm bad good t0 e u r' :
  snap_abis snap = [mkAbi aid nm "evm_abi" (PList [bad; good])] →
  py_get bad "type" PNone = Ok (PStr "event") → event_topic0 bad = Err e →
  py_get good "type" PNone = Ok (PStr "event") → event_topic0 good = Ok t0 →
  refresh snap AbiRegistry_init = (Ok u, r') →
  (∃ n, dget (lower t0) (reg_topic0_index r') = Some (aid, n)) ∧
  (lookup_event_by_topic0 t0 r').1 = Err e.
Proof.
  intros Hs Hb Hbe Hg Hge Hf.
  assert (reg_decoders r' = ∅) as Hdecs.
  { pose proof (refresh_decoders snap AbiRegistry_init) as (_&_&Hd). rewrite Hf in Hd.
    simpl in Hd. rewrite Hd. done. }
  apply refresh_indexes in Hf as (Ha&Ht&_&Hc&_).
  assert (new_abis snap = [(aid, mkAbi aid nm "evm_abi" (PList [bad; good]))]) as Hnew.
  { unfold new_abis. by rewrite Hs. }
  apply (rebuild_index_declared "event" event_topic0) in Ht as [_ Ht].
  destruct (key_has_name _ _ Hge) as [n Hn].
  assert (dget (lower t0) (reg_topic0_index r') = Some (aid, n)) as Hidx.
  { rewrite Ht, Hnew. unfold declared. simpl. unfold declared_entry.
    rewrite Hb, Hbe, Hg, Hge. unfold inp_name. rewrite Hn. simpl. by rewrite decide_True. }
  split; [by exists n|]. unfold lookup_event_by_topic0. rewrite Hc, lookup_empty, Hidx.
  unfold mbind, get_event_decoder, get_decoder. rewrite Hdecs, lookup_empty, Ha, Hnew.
  cbn [dget]. rewrite decide_True by done. cbn. rewrite Hb. simpl. by rewrite Hbe.
Qed.
End properties.

(** ** Witnesses *)
Module RegistrySample.
#[local] Existing Instance ToyLib.lib.
#[local] Existing Instance ToyLib.laws.

Definition snap (body : pyval) : ConfigSnapshot :=
  mkSnapshot 1 [] [] [] [mkAbi "token" "Token" "evm_abi" body].

Definition abi : pyval := PList [ToyLib.paid_event; ToyLib.pay_function].
Definition reg0 : AbiRegistry := (refresh (snap abi) AbiRegistry_init).2.
Definition reg1 : AbiRegistry := (lookup_event_by_topic0 ToyLib.paid_topic0 reg0).2.

Lemma reg1_reachable : registry_reachable reg1.
Proof.
  eapply rtc_l; [eapply (@step_refresh ToyLib.lib (snap abi) tt)|].
  { vm_compute. reflexivity. }
  apply rtc_once. eapply (@step_event ToyLib.lib ToyLib.paid_topic0).
  apply surjective_pairing.
Qed.

(** An event entry whose input lacks a type, in front of a good one *)
Definition bad_event : pyval :=
  PDict [("type", PStr "event"); ("name", PStr "Bad");
         ("inputs", PList [PDict [("name", PStr "x")]])].

Lemma refresh_first_declaration_wins_witness :
  dget ToyLib.paid_topic0 (reg_topic0_index reg0) = Some ("token", "Paid").
Proof.
  pose proof (@refresh_first_declaration_wins ToyLib.lib (snap abi) AbiRegistry_init tt reg0
    ltac:(vm_compute; reflexivity) ToyLib.paid_topic0) as [-> _].
  vm_compute. reflexivity.
Defined.

Lemma cached_decoders_current_witness :
  ∃ d a body, reg_decoders reg1 !! ("token", ToyLib.paid_topic0) = Some d ∧
    dget "token" (reg_abis reg1) = Some a ∧ hash_body body = hash_body (abi_body a) ∧
    decodes body ToyLib.paid_topic0 d.
Proof.
  exists (EventDecoder ToyLib.paid_event).
  destruct (@cached_decoders_current ToyLib.lib ToyLib.laws reg1 "token" ToyLib.paid_topic0
    (EventDecoder ToyLib.paid_event) reg1_reachable ltac:(vm_compute; reflexivity))
    as (a&body&H). exists a, body. split; [vm_compute; reflexivity|exact H].
Defined.

Lemma lookups_keep_answers_witness :
  same_answers reg1 (al_call "0x00000000" reg1).2.
Proof.
  destruct (@lookups_keep_answers ToyLib.lib ToyLib.laws reg1 "0x" "0x00000000" "p" "d" reg1_reachable) as (_&H&_).
  exact H.
Defined.

Lemma lookup_event_sound_witness :
  ∃ aid ev t0, dget (lower ToyLib.paid_topic0) (reg_topic0_index reg1) = Some (aid, "Paid") ∧
    EventDecoder ToyLib.paid_event = EventDecoder ev ∧ event_topic0 ev = Ok t0 ∧
    lower t0 = lower ToyLib.paid_topic0.
Proof.
  apply (@lookup_event_sound ToyLib.lib ToyLib.laws reg1 ToyLib.paid_topic0 "Paid" (EventDecoder ToyLib.paid_event)
    (lookup_event_by_topic0 ToyLib.paid_topic0 reg1).2 reg1_reachable).
  vm_compute. reflexivity.
Defined.

Lemma malformed_entry_hides_later_events_witness :
  ∃ t0, event_topic0 ToyLib.paid_event = Ok t0 ∧
    (lookup_event_by_topic0 t0
      (refresh (snap (PList [bad_event; ToyLib.paid_event])) AbiRegistry_init).2).1
    = Err (KeyError "type").
Proof.
  exists ToyLib.paid_topic0. split; [vm_compute; reflexivity|].
  apply (@malformed_entry_hides_later_events ToyLib.lib (snap (PList [bad_event; ToyLib.paid_event]))
    "token" "Token" bad_event ToyLib.paid_event ToyLib.paid_topic0 (KeyError "type") tt);
    vm_compute; reflexivity.
Defined.
End RegistrySample.
