(* ===== verification/Pipeline.v ===== *)
(** * Parsers and parser pipelines (core/parser/base.py, core/parser/pipeline.py)

    A parser is a generator: it yields events and may raise after some of them.
    [gen R A] is the run of a generator over a shared object of type [R] (the ABI
    registry): the values it yields, the exception that ended it if any, and the
    object it leaves. *)
From S2P Require Import Prelude PyStr PyVal Types AbiLookup.

Definition gen (R A : Type) : Type := R → (list A * option exn) * R.

Section gen.
Context {R A : Type}.
Implicit Types g : gen R A.

Definition gnil : gen R A := λ r, (([], None), r).

(** [yield] the values of a list *)
Definition gyield (l : list A) : gen R A := λ r, ((l, None), r).

(** [x = m(); if x is not None: yield x] *)
Definition gyield_opt (m : M R (option A)) : gen R A := λ r,
  match m r with
  | (Ok o, r') => ((option_list o, None), r')
  | (Err e, r') => (([], Some e), r')
  end.

Definition gapp (g1 g2 : gen R A) : gen R A := λ r,
  match g1 r with
  | ((l, Some e), r') => ((l, Some e), r')
  | ((l, None), r') => let '((l', e), r'') := g2 r' in ((l ++ l', e), r'')
  end.

(** [try: yield from g except Exception: log] *)
Definition gtry (g : gen R A) : gen R A := λ r, let '((l, _), r') := g r in ((l, None), r').
End gen.

(** [for x in l: yield from f(x)] *)
Section gfor.
Context {R A X : Type} (f : X → gen R A).
Fixpoint gfor (l : list X) : gen R A :=
  match l with
  | [] => gnil
  | x :: t => gapp (f x) (gfor t)
  end.
End gfor.

Lemma gfor_app {R A X} (f : X → gen R A) l1 l2 r :
  gfor f (l1 ++ l2) r = gapp (gfor f l1) (gfor f l2) r.
Proof.
  revert r. induction l1 as [|x l1 IH]; intros r; cbn [gfor app].
  { unfold gapp, gnil. by destruct (gfor f l2 r) as [[] ?]. }
  unfold gapp. destruct (f x r) as [[l [e|]] r1]; [done|]. rewrite IH. unfold gapp.
  destruct (gfor f l1 r1) as [[l' [e'|]] r2]; [done|].
  destruct (gfor f l2 r2) as [[l'' e''] r3]. by rewrite app_assoc.
Qed.

(** [EvmParserPipeline.run], [SolanaParserPipeline.run] *)
Definition pipeline_run {R B A} (parsers : list (B → gen R A)) (block : B) : gen R A :=
  gfor (λ p, gtry (p block)) parsers.

(** ** Stability: a generator whose events depend on the answers of the lookup
    service alone, and which changes none of them *)
Section stable.
Context `{AbiLookup R} {A : Type} (inv : R → Prop).

Definition stable_gen (g : gen R A) : Prop := ∀ r, inv r →
  inv (g r).2 ∧ same_answers r (g r).2 ∧
  ∀ r', inv r' → same_answers r r' → (g r').1 = (g r).1.

Definition stable_m {B} (m : M R B) : Prop := ∀ r, inv r →
  inv (m r).2 ∧ same_answers r (m r).2 ∧
  ∀ r', inv r' → same_answers r r' → (m r').1 = (m r).1.

Lemma stable_gyield l : stable_gen (gyield l).
Proof. by intros r Hr. Qed.

Lemma stable_gnil : stable_gen gnil.
Proof. by intros r Hr. Qed.

Lemma stable_gyield_opt m : stable_m m → stable_gen (gyield_opt m).
Proof.
  intros Hm r Hr. destruct (Hm r Hr) as (Hi&Hs&Hd). unfold gyield_opt.
  destruct (m r) as [[o|e] r1]; simpl in *; split_and!; try done; intros r' Hr' Hrr';
    specialize (Hd r' Hr' Hrr'); by destruct (m r') as [[o'|e'] r1']; simplify_eq/=.
Qed.

Lemma stable_gapp g1 g2 : stable_gen g1 → stable_gen g2 → stable_gen (gapp g1 g2).
Proof.
  intros H1 H2 r Hr. destruct (H1 r Hr) as (Hi&Hs&Hd). unfold gapp.
  destruct (g1 r) as [[l [e|]] r1] eqn:E1; simpl in *.
  - split_and!; [done..|]. intros r' Hr' Hrr'. specialize (Hd r' Hr' Hrr').
    destruct (g1 r') as [[l' e'] r1']. by simplify_eq/=.
  - destruct (H2 r1 Hi) as (Hi2&Hs2&Hd2). destruct (g2 r1) as [[l2 e2] r2] eqn:E2; simpl in *.
    split_and!; [done|by etrans|]. intros r' Hr' Hrr'. specialize (Hd r' Hr' Hrr').
    destruct (H1 r' Hr') as (Hi1'&Hs1'&_). destruct (g1 r') as [[l' e'] r1']. simplify_eq/=.
    assert (same_answers r1 r1') as H11 by (etrans; [symmetry; exact Hs|]; by etrans).
    specialize (Hd2 r1' Hi1' H11). destruct (g2 r1') as [[l2' e2'] r2']. by simplify_eq/=.
Qed.

Lemma stable_gfor {X} (l : list X) f : (∀ x, stable_gen (f x)) → stable_gen (gfor f l).
Proof.
  intros Hf. induction l as [|x l IH]; [apply stable_gnil|]. by apply stable_gapp.
Qed.

Lemma stable_gtry g : stable_gen g → stable_gen (gtry g).
Proof.
  intros Hg r Hr. destruct (Hg r Hr) as (Hi&Hs&Hd). unfold gtry.
  destruct (g r) as [[l e] r1]; simpl in *. split_and!; [done..|]. intros r' Hr' Hrr'.
  specialize (Hd r' Hr' Hrr'). by destruct (g r') as [[l' e'] r1']; simplify_eq/=.
Qed.

Lemma stable_pipeline {B} (parsers : list (B → gen R A)) block :
  (∀ p, p ∈ parsers → stable_gen (p block)) → stable_gen (pipeline_run parsers block).
Proof.
  unfold pipeline_run. induction parsers as [|p ps IH]; intros Hps; [apply stable_gnil|].
  apply stable_gapp; [apply stable_gtry, Hps; left|]. apply IH. intros q Hq. apply Hps. by right.
Qed.

(** The events of a loop over stable generators that do not raise. *)
Lemma gfor_events {X} (l : list X) (f : X → gen R A) r :
  inv r → (∀ x, stable_gen (f x)) → (∀ x, x ∈ l → (f x r).1.2 = None) →
  (gfor f l r).1 = (l ≫= λ x, (f x r).1.1, None).
Proof.
  intros Hr Hf. revert r Hr. induction l as [|x l IH]; intros r Hr Hne; [done|].
  pose proof (Hne x ltac:(left)) as Hx. destruct (Hf x r Hr) as (Hi&Hs&_).
  cbn [gfor]. unfold gapp. rewrite bind_cons.
  destruct (f x r) as [[lx ex] r1]; simpl in *. subst ex.
  assert (∀ y, y ∈ l → (f y r1).1 = (f y r).1) as Hsame.
  { intros y Hy. destruct (Hf y r Hr) as (_&_&Hd). by apply Hd. }
  specialize (IH r1 Hi). destruct (gfor f l r1) as [[l' e'] r2]. simpl in *.
  specialize (IH ltac:(intros y Hy; rewrite Hsame by done; apply Hne; by right)).
  simplify_eq. f_equal. f_equal. clear -Hsame. induction l as [|y l IH]; [done|]. rewrite !bind_cons.
  rewrite (Hsame y) by left. f_equal. apply IH. intros z Hz. apply Hsame. by right.
Qed.

(** What a pipeline yields. *)
Lemma pipeline_run_events {B} (parsers : list (B → gen R A)) block r :
  inv r → (∀ p, p ∈ parsers → stable_gen (p block)) →
  (pipeline_run parsers block r).1 = (parsers ≫= λ p, (p block r).1.1, None).
Proof.
  intros Hr Hps. unfold pipeline_run. revert r Hr.
  induction parsers as [|p ps IH]; intros r Hr; [done|].
  assert (stable_gen (p block)) as Hp by (apply Hps; left).
  destruct (Hp r Hr) as (Hi&Hs&_). cbn [gfor]. unfold gapp, gtry at 1. rewrite bind_cons.
  destruct (p block r) as [[l e] r1]; simpl in *.
  assert (∀ q, q ∈ ps → (q block r1).1 = (q block r).1) as Hsame.
  { intros q Hq. destruct (Hps q ltac:(by right) r Hr) as (_&_&Hd). by apply Hd. }
  specialize (IH (λ q Hq, Hps q (list_elem_of_further _ _ _ Hq)) r1 Hi).
  destruct (gfor _ ps r1) as [[l' e'] r2]. simpl in *. simplify_eq.
  f_equal. f_equal. clear -Hsame. induction ps as [|q ps IH]; [done|]. rewrite !bind_cons.
  rewrite (Hsame q) by left. f_equal. apply IH. intros z Hz. apply Hsame. by right.
Qed.
End stable.

(** The lookups themselves are stable. *)
Section stable_lookups.
Context `{AbiLookupLaws R}.

Lemma stable_of_keeps {B} (m : M R B) :
  keeps_answers al_inv m →
  (∀ r r', same_answers r r' → (m r).1 = (m r').1) → stable_m al_inv m.
Proof.
  intros Hk Hd r Hr. destruct (Hk r Hr) as [Hi Hs]. split_and!; [done..|].
  intros r' _ Hrr'. symmetry. by apply Hd.
Qed.

Lemma stable_al_event t : stable_m al_inv (al_event t).
Proof. apply stable_of_keeps; [apply al_event_keeps|]. intros r r' Hs. apply Hs. Qed.
Lemma stable_al_call s : stable_m al_inv (al_call s).
Proof. apply stable_of_keeps; [apply al_call_keeps|]. intros r r' Hs. apply Hs. Qed.
Lemma stable_al_idl_event p d : stable_m al_inv (al_idl_event p d).
Proof. apply stable_of_keeps; [apply al_idl_event_keeps|]. intros r r' Hs. apply Hs. Qed.
Lemma stable_al_idl_call p d : stable_m al_inv (al_idl_call p d).
Proof. apply stable_of_keeps; [apply al_idl_call_keeps|]. intros r r' Hs. apply Hs. Qed.

Lemma stable_mret {B} (b : B) : stable_m al_inv (mret b).
Proof. by intros r Hr. Qed.

Lemma stable_mlift {B} (b : result B) : stable_m al_inv (mlift b).
Proof. by intros r Hr. Qed.

Lemma stable_mthrow {B} e : stable_m al_inv (mthrow (A:=B) e).
Proof. by intros r Hr. Qed.

Lemma stable_mbind {B C} (m : M R B) (k : B → M R C) :
  stable_m al_inv m → (∀ b, stable_m al_inv (k b)) → stable_m al_inv (mbind m k).
Proof.
  intros Hm Hk r Hr. destruct (Hm r Hr) as (Hi&Hs&Hd). unfold mbind.
  destruct (m r) as [[b|e] r1] eqn:E; simpl in *.
  - destruct (Hk b r1 Hi) as (Hi2&Hs2&Hd2). split_and!; [done|by etrans|].
    intros r' Hr' Hrr'. specialize (Hd r' Hr' Hrr'). destruct (Hm r' Hr') as (Hi'&Hs'&_).
    destruct (m r') as [o' r1']. simplify_eq/=. apply Hd2; [done|].
    etrans; [symmetry; exact Hs|]. by etrans.
  - split_and!; [done..|]. intros r' Hr' Hrr'. specialize (Hd r' Hr' Hrr').
    destruct (m r') as [o' r1']. by simplify_eq/=.
Qed.
End stable_lookups.

Create HintDb stable discriminated.
#[export] Hint Resolve stable_gyield stable_gnil stable_gyield_opt stable_gapp stable_gfor
  stable_gtry stable_al_event stable_al_call stable_al_idl_event stable_al_idl_call
  stable_mret stable_mlift stable_mthrow stable_mbind : stable.

(** Case analysis on every branch of a handler, closed by the database *)
Ltac solve_stable :=
  repeat first
    [ progress intros
    | solve [eauto 3 with stable]
    | apply stable_mbind
    | match goal with |- stable_m _ (match ?x with _ => _ end) => destruct x end ].
