(* ===== verification/EvmParsers.v ===== *)
(** * EVM parsers (core/parser/native.py, erc20.py, abi_event.py, abi_call.py,
    internal_call.py)

    Each parser is a generator over the lookup service.  An exception other than
    [DecodeFailed] ends the parser's run over the block. *)
From S2P Require Import Prelude PyStr PyVal Types Decoder AbiLookup Pipeline.

Section evm_parsers.
Context {R : Type} {AL : AbiLookup R}.
Variable self_chain_id : string.

(** ** EvmNativeTransferParser *)

Definition native_event (h : BlockHeader) (tx : Tx) (to_addr : string) : Event :=
  mkEvent self_chain_id (hdr_number h) (hdr_hash h) (hdr_timestamp h) (tx_hash tx)
    (Some (tx_index tx)) None "native_transfer" None None
    [("from", PStr (tx_from_addr tx)); ("to", PStr to_addr); ("value", PStr (py_str (tx_value tx)))]
    [("tx_hash", PStr (tx_hash tx))].

Definition native_transfer (h : BlockHeader) (tx : Tx) : option Event :=
  match tx_to_addr tx with
  | None => None
  | Some to_addr =>
      if (tx_value tx <=? 0) || negb (tx_status tx =? 1) then None
      else Some (native_event h tx to_addr)
  end.

Definition evm_native_parse (block : Block) : gen R Event :=
  gyield (omap (native_transfer (blk_header block)) (blk_txs block)).

(** ** Erc20TransferParser *)

Definition ERC20_TRANSFER_TOPIC0 : string :=
  "0xddf252ad1be2c89b69c2b068fc378daa952ba7f163c4a11628f55a4df523b3ef".

(** [_addr_from_topic] *)
Definition addr_from_topic (topic_hex : string) : string :=
  let body := lower (removeprefix topic_hex "0x") in
  if Nat.ltb (String.length body) 40 then "0x" +:+ body else "0x" +:+ str_last_n 40 body.

Definition tx_index_by_hash (block : Block) : gmap string Z :=
  dict_comp ((λ tx, (tx_hash tx, tx_index tx)) <$> blk_txs block).

(** [Erc20TransferParser._try_decode] *)
Definition erc20_try_decode (h : BlockHeader) (tx_idx : gmap string Z) (l : Log) : option Event :=
  match log_topics l with
  | [] => None
  | t0 :: _ =>
      if negb (String.eqb (lower t0) ERC20_TRANSFER_TOPIC0) then None
      else match log_topics l with
           | [_; t1; t2] =>
               let data_hex := removeprefix (log_data l) "0x" in
               if Nat.ltb (String.length data_hex) 64 then None
               else match py_int 16 (str_take 64 data_hex) with
                    | Err _ => None   (* except ValueError *)
                    | Ok value =>
                        Some (mkEvent self_chain_id (hdr_number h) (hdr_hash h) (hdr_timestamp h)
                          (log_tx_hash l) (tx_idx !! log_tx_hash l) (Some (log_log_index l))
                          "token_transfer" (Some (lower (log_address l))) (Some "Transfer")
                          [("from", PStr (addr_from_topic t1)); ("to", PStr (addr_from_topic t2));
                           ("value", PStr (py_str value))]
                          [("tx_hash", PStr (log_tx_hash l)); ("log_index", PInt (log_log_index l))])
                    end
           | _ => None
           end
  end.

Definition erc20_parse (block : Block) : gen R Event :=
  gyield (omap (erc20_try_decode (blk_header block) (tx_index_by_hash block)) (blk_logs block)).

(** ** AbiEventParser *)

Definition abi_downgraded (h : BlockHeader) (l : Log) : Event :=
  mkEvent self_chain_id (hdr_number h) (hdr_hash h) (hdr_timestamp h) (log_tx_hash l)
    None (Some (log_log_index l)) "event" (Some (lower (log_address l))) None []
    [("tx_hash", PStr (log_tx_hash l)); ("log_index", PInt (log_log_index l));
     ("topics", PList (PStr <$> log_topics l)); ("data", PStr (log_data l))].

Definition abi_decoded (h : BlockHeader) (l : Log) (name : string) (args : args_t) : Event :=
  mkEvent self_chain_id (hdr_number h) (hdr_hash h) (hdr_timestamp h) (log_tx_hash l)
    None (Some (log_log_index l)) "event" (Some (lower (log_address l))) (Some name) args
    [("tx_hash", PStr (log_tx_hash l)); ("log_index", PInt (log_log_index l))].

(** [AbiEventParser._handle_log] *)
Definition abi_handle_log (h : BlockHeader) (l : Log) : M R (option Event) :=
  match log_topics l with
  | [] => mret None
  | topic0 :: _ =>
      let* lookup := al_event topic0 in
      match lookup with
      | None => mret (Some (abi_downgraded h l))
      | Some (event_name, decoder) =>
          match decoder (log_topics l) (log_data l) with
          | Ok args => mret (Some (abi_decoded h l event_name args))
          | Err (DecodeFailed _) => mret (Some (abi_downgraded h l))
          | Err e => mthrow e
          end
      end
  end.

Definition abi_event_parse (block : Block) : gen R Event :=
  gfor (λ l, gyield_opt (abi_handle_log (blk_header block) l)) (blk_logs block).

(** ** AbiCallParser *)

Definition SELECTOR_HEX_LEN : nat := 10.

(** [AbiCallParser._handle_tx] *)
Definition abi_handle_tx (h : BlockHeader) (tx : Tx) : M R (option Event) :=
  if negb (tx_status tx =? 1) then mret None
  else match tx_to_addr tx with
       | None => mret None
       | Some to_addr =>
           let inp := tx_input tx in
           if Nat.ltb (String.length inp) SELECTOR_HEX_LEN then mret None
           else
             let selector := lower (str_take SELECTOR_HEX_LEN inp) in
             let* lookup := al_call selector in
             match lookup with
             | None => mret None
             | Some (fn_name, decoder) =>
                 match decoder inp with
                 | Ok args =>
                     mret (Some (mkEvent self_chain_id (hdr_number h) (hdr_hash h)
                       (hdr_timestamp h) (tx_hash tx) (Some (tx_index tx)) None "call"
                       (Some (lower to_addr)) (Some fn_name) args
                       [("tx_hash", PStr (tx_hash tx)); ("input", PStr inp)]))
                 | Err (DecodeFailed _) => mret None
                 | Err e => mthrow e
                 end
             end
       end.

Definition abi_call_parse (block : Block) : gen R Event :=
  gfor (λ tx, gyield_opt (abi_handle_tx (blk_header block) tx)) (blk_txs block).

(** ** InternalCallParser *)

Definition MAX_DEPTH : Z := 64.

(** [InternalCallParser._try_decode] *)
Definition internal_try_decode (h : BlockHeader) (call : InternalCall) : M R (option Event) :=
  if bool_decide (ic_type call ∈ ["CREATE"; "CREATE2"]) then
    mret (Some (mkEvent self_chain_id (hdr_number h) (hdr_hash h) (hdr_timestamp h) "" None None
      "call" (ic_created_address call) (Some "<create>")
      [("value", PStr (py_str (ic_value call)))] [("type", PStr (ic_type call))]))
  else
    let inp := ic_input call in
    if Nat.ltb (String.length inp) 10 then mret None
    else
      let selector := lower (str_take 10 inp) in
      let* lookup := al_call selector in
      match lookup with
      | None => mret None
      | Some (fn_name, decoder) =>
          match decoder inp with
          | Ok args =>
              mret (Some (mkEvent self_chain_id (hdr_number h) (hdr_hash h) (hdr_timestamp h) ""
                None None "call" (Some (lower (default "" (ic_to_addr call)))) (Some fn_name) args
                [("type", PStr (ic_type call)); ("internal", PBool true)]))
          | Err (DecodeFailed _) => mret None
          | Err e => mthrow e
          end
      end.

(** [InternalCallParser._walk] *)
Fixpoint internal_walk (h : BlockHeader) (depth : Z) (call : InternalCall) : gen R Event :=
  if MAX_DEPTH <? depth then gnil
  else match ic_error call with
       | Some _ => gnil
       | None =>
           gapp (gyield_opt (internal_try_decode h call))
             (gfor (internal_walk h (depth + 1)) (ic_calls call))
       end.

Definition internal_call_parse (traces : list InternalCall) (block : Block) : gen R Event :=
  gfor (internal_walk (blk_header block) 0) traces.

(** The parsers of the EVM pipeline ([ChainRunner._build_pipeline]). *)
Definition evm_parsers (has_registry : bool) : list (Block → gen R Event) :=
  [evm_native_parse; erc20_parse] ++
  if has_registry then [abi_event_parse; abi_call_parse] else [].
End evm_parsers.

(** ** Stability of the parsers *)
Section stable_parsers.
Context `{ALL : AbiLookupLaws R}.

Lemma stable_abi_handle_log cid h l : stable_m al_inv (abi_handle_log cid h l).
Proof. unfold abi_handle_log. solve_stable. Qed.

Lemma stable_abi_handle_tx cid h tx : stable_m al_inv (abi_handle_tx cid h tx).
Proof. unfold abi_handle_tx. solve_stable. Qed.

Lemma stable_internal_try_decode cid h c : stable_m al_inv (internal_try_decode cid h c).
Proof. unfold internal_try_decode. solve_stable. Qed.

Lemma stable_evm_parsers cid b p block :
  p ∈ evm_parsers cid b → stable_gen al_inv (p block).
Proof.
  unfold evm_parsers. intros Hp. destruct b; cbn [app] in Hp;
    repeat (apply elem_of_cons in Hp as [->|Hp]); try (by apply elem_of_nil in Hp);
    try apply stable_gyield; apply stable_gfor; intros l; apply stable_gyield_opt.
  - apply stable_abi_handle_log.
  - apply stable_abi_handle_tx.
Qed.
End stable_parsers.

(** ** ERC-20 log encoding *)

(** The log a standard token emits for a transfer; [pad] is whatever fills the
    address topics to 32 bytes, [rest] whatever follows the value. *)
Definition erc20_transfer_log (tx_hash address topic0 : string) (log_index block_number : Z)
    (pad from to : list byte) (value : Z) (rest : string) : Log :=
  mkLog tx_hash log_index address
    [topic0; "0x" +:+ bytes_hex (pad ++ from); "0x" +:+ bytes_hex (pad ++ to)]
    ("0x" +:+ bytes_hex (be_pack 32 value) +:+ rest) block_number.

Lemma str_last_n_app (p t : string) : str_last_n (String.length t) (p +:+ t) = t.
Proof.
  unfold str_last_n. rewrite str_length_app, Nat.add_sub. apply str_drop_app.
Qed.

Lemma addr_from_topic_hex pad addr :
  length addr = 20%nat → addr_from_topic ("0x" +:+ bytes_hex (pad ++ addr)) = "0x" +:+ bytes_hex addr.
Proof.
  intros Hl. unfold addr_from_topic. rewrite removeprefix_app, lower_bytes_hex.
  rewrite (proj2 (Nat.ltb_ge _ _)) by (rewrite bytes_hex_length, length_app; lia).
  rewrite bytes_hex_app. replace 40%nat with (String.length (bytes_hex addr)).
  { by rewrite str_last_n_app. }
  rewrite bytes_hex_length. lia.
Qed.

(** ** Properties *)

Section properties.
Context {R : Type} {AL : AbiLookup R}.

(** An ERC-20 transfer survives the trip through the chain's encoding: from the
    log any token emits for moving [value] (any unsigned 256-bit amount) between two
    20-byte accounts, with any topic0 casing, address padding and trailing data, the
    parser produces one transfer event with exactly these accounts and the decimal
    amount. *)
Lemma erc20_roundtrip cid h tx_idx txh address topic0 li bn pad from to value rest :
  lower topic0 = ERC20_TRANSFER_TOPIC0 → length from = 20%nat → length to = 20%nat →
  0 <= value < 2 ^ 256 →
  erc20_try_decode cid h tx_idx
    (erc20_transfer_log txh address topic0 li bn pad from to value rest) =
  Some (mkEvent cid (hdr_number h) (hdr_hash h) (hdr_timestamp h) txh (tx_idx !! txh) (Some li)
    "token_transfer" (Some (lower address)) (Some "Transfer")
    [("from", PStr ("0x" +:+ bytes_hex from)); ("to", PStr ("0x" +:+ bytes_hex to));
     ("value", PStr (py_str value))]
    [("tx_hash", PStr txh); ("log_index", PInt li)]).
Proof.
  intros Ht Hf Hto Hv. unfold erc20_try_decode, erc20_transfer_log. cbn [log_topics log_data
    log_tx_hash log_address log_log_index]. rewrite Ht, String.eqb_refl. cbn [negb].
  rewrite removeprefix_app.
  assert (String.length (bytes_hex (be_pack 32 value)) = 64%nat) as Hlen.
  { by rewrite bytes_hex_length, be_pack_length. }
  rewrite (proj2 (Nat.ltb_ge _ _)) by (rewrite str_length_app; lia).
  rewrite <- Hlen at 1. rewrite str_take_app, py_int_bytes_hex.
  - rewrite be_unpack_pack by (change (256 ^ Z.of_nat 32) with (2 ^ 256); lia).
    by rewrite !addr_from_topic_hex.
  - intros Hn. apply (f_equal length) in Hn. by rewrite be_pack_length in Hn.
Qed.

(** The events of the ABI event parser, log by log. *)
Definition abi_log_event (cid : string) (h : BlockHeader) (r : R) (l : Log) : option Event :=
  match (abi_handle_log cid h l r).1 with Ok o => o | Err _ => None end.

Lemma abi_event_parse_prefix cid h r l logs e :
  (abi_handle_log cid h l r).1 = Err e →
  (gfor (λ l, gyield_opt (abi_handle_log cid h l)) (l :: logs) r).1 = ([], Some e).
Proof.
  intros He. cbn [gfor]. unfold gapp, gyield_opt at 1.
  by destruct (abi_handle_log cid h l r) as [[]]; simplify_eq/=.
Qed.

Context {ALL : AbiLookupLaws R}.

(** C33 One parser cannot spoil another: over any block the EVM pipeline never
    raises and yields the concatenation, in parser order, of what each parser yields
    by itself before it returns or raises, whichever lookups the parsers before it
    performed. *)
Theorem evm_pipeline_isolates_parsers cid has_registry block r :
  al_inv r →
  (pipeline_run (evm_parsers cid has_registry) block r).1 =
  (evm_parsers cid has_registry ≫= λ p, (p block r).1.1, None).
Proof.
  intros Hr. apply (pipeline_run_events al_inv); [done|].
  intros p Hp. by eapply stable_evm_parsers.
Qed.

(** Decoding the log either works or fails with [DecodeFailed]. *)
Definition decode_total (r : R) (l : Log) : Prop :=
  ∀ t0 ts, log_topics l = t0 :: ts → ∃ o, (al_event t0 r).1 = Ok o ∧
    ∀ n dec e, o = Some (n, dec) → dec (log_topics l) (log_data l) = Err e →
      ∃ m, e = DecodeFailed m.

(** [ev] reports the log [l]: decoded, or raw. *)
Definition event_of_log (cid : string) (h : BlockHeader) (r : R) (l : Log) (ev : Event) : Prop :=
  ev_log_index ev = Some (log_log_index l) ∧ ev_tx_hash ev = log_tx_hash l ∧
  ev_kind ev = "event" ∧
  (ev = abi_downgraded cid h l ∨
   ∃ n dec args, (al_event (default "" (head (log_topics l))) r).1 = Ok (Some (n, dec)) ∧
     dec (log_topics l) (log_data l) = Ok args ∧ ev = abi_decoded cid h l n args).

Lemma gyield_log cid h r l :
  decode_total r l →
  let g := gyield_opt (abi_handle_log cid h l) r in
  g.1.2 = None ∧
  (log_topics l = [] ∧ g.1.1 = [] ∨
   log_topics l ≠ [] ∧ ∃ ev, g.1.1 = [ev] ∧ event_of_log cid h r l ev).
Proof.
  intros Hdec. unfold gyield_opt, abi_handle_log, event_of_log.
  destruct (log_topics l) as [|t0 ts] eqn:Ht; [simpl; eauto|]. simpl.
  destruct (Hdec t0 ts Ht) as (o&Ho&Hd). unfold mbind.
  destruct (al_event t0 r) as [res r'] eqn:Hal. simpl in Ho. subst res.
  destruct o as [[n dec]|]; simpl; [|by eauto 10].
  rewrite Ht in Hd. destruct (dec (t0 :: ts) (log_data l)) as [args|e] eqn:He; simpl.
  - split; [done|]. right. split; [done|]. eexists. split; [done|]. split_and!; try done.
    right. by exists n, dec, args.
  - destruct (Hd n dec e eq_refl He) as [m ->]. simpl. by eauto 10.
Qed.

(** When decoders fail with [DecodeFailed] only, the ABI event parser yields
    exactly one event of kind "event" per log that has a topic, in log order: the
    decoded one, or the raw log with no name when the topic is unknown or decoding
    failed. *)
Lemma abi_event_per_log cid block r :
  al_inv r → Forall (decode_total r) (blk_logs block) →
  ∃ events, (abi_event_parse cid block r).1 = (events, None) ∧
    Forall2 (event_of_log cid (blk_header block) r)
      (filter (λ l, log_topics l ≠ []) (blk_logs block)) events.
Proof.
  intros Hr Hdec. eexists. split.
  - apply (gfor_events al_inv); [done| |].
    + intros l. apply stable_gyield_opt, stable_abi_handle_log.
    + intros l Hl. rewrite Forall_forall in Hdec. by apply (gyield_log cid (blk_header block)), Hdec.
  - clear -Hdec. induction Hdec as [|l logs Hl _ IH]; [constructor|].
    rewrite bind_cons, filter_cons.
    destruct (gyield_log cid (blk_header block) r l Hl) as [_ Hy].
    case_decide as Ht; destruct Hy as [[Ht' ->]|(Ht'&ev&->&Hev)]; try done.
    by constructor.
Qed.

(** Anyone can silence the ABI event parser for the rest of a block: a log
    whose decoder raises anything but [DecodeFailed] (an indexed topic that does not
    decode raises eth-abi's own error, which only the data branch converts) ends the
    parser, so no log after it yields an event. *)
Lemma undecodable_topic_drops_later_logs cid block r before l after t0 ts n dec e r' events :
  blk_logs block = before ++ l :: after → log_topics l = t0 :: ts →
  gfor (λ l, gyield_opt (abi_handle_log cid (blk_header block) l)) before r = ((events, None), r') →
  (al_event t0 r').1 = Ok (Some (n, dec)) → dec (log_topics l) (log_data l) = Err e →
  (∀ m, e ≠ DecodeFailed m) →
  (abi_event_parse cid block r).1 = (events, Some e).
Proof.
  intros Hb Ht Hbefore Hlook Hd Hne. unfold abi_event_parse. rewrite Hb, gfor_app.
  unfold gapp at 1. rewrite Hbefore.
  assert ((abi_handle_log cid (blk_header block) l r').1 = Err e) as He.
  { unfold abi_handle_log. rewrite Ht. unfold mbind.
    destruct (al_event t0 r') as [res r2]. simpl in Hlook. subst res. rewrite <- Ht, Hd.
    destruct e; try done. by destruct (Hne msg). }
  apply (abi_event_parse_prefix cid (blk_header block) r' l after) in He.
  destruct (gfor _ (l :: after) r') as [[evs o] r2]. simplify_eq/=. by rewrite app_nil_r.
Qed.
End properties.

(** ** Witnesses: a stateless service that knows one event *)
Module ToyService.
Definition decode (topics : list string) (data : string) : result args_t :=
  if String.eqb data "0x" then Err (DecodeFailed "no data")
  else if String.eqb data "0xbad" then Err (OtherError "DecodingError" "padding")
  else Ok [("data", PStr data)].

#[export] Instance lookup : AbiLookup unit := {|
  al_event t := mret (if String.eqb t "0x01" then Some ("Ping", decode) else None);
  al_call s := mret None;
  al_idl_event p d := mret None;
  al_idl_call p d := mret None;
|}.

#[export] Instance laws : AbiLookupLaws unit.
Proof. apply (Build_AbiLookupLaws _ _ (λ _, True)); intros; intros []; done. Defined.

Definition log_with (i : Z) (data : string) : Log := mkLog "0xaa" i "0xC0FFEE" ["0x01"] data 5.
Definition header : BlockHeader := mkHeader 5 "0xb5" "0xb4" 1000.
Definition block (logs : list Log) : Block := mkBlock header [] logs.
End ToyService.
#[local] Existing Instance ToyService.lookup.
#[local] Existing Instance ToyService.laws.

Lemma erc20_roundtrip_witness :
  ∃ ev, erc20_try_decode "eth" ToyService.header ∅
    (erc20_transfer_log "0xaa" "0xToken" ERC20_TRANSFER_TOPIC0 0 5 (replicate 12 x00)
      (replicate 20 x11) (replicate 20 xff) (2 ^ 255) "") = Some ev ∧
    dget "value" (ev_args ev) = Some (PStr (py_str (2 ^ 255))).
Proof.
  eexists. split.
  - apply (erc20_roundtrip "eth" ToyService.header ∅ "0xaa" "0xToken" ERC20_TRANSFER_TOPIC0 0 5
      (replicate 12 x00) (replicate 20 x11) (replicate 20 xff) (2 ^ 255) "");
      [reflexivity|reflexivity|reflexivity|lia].
  - reflexivity.
Defined.

Lemma evm_pipeline_isolates_parsers_witness :
  (pipeline_run (evm_parsers "eth" true)
    (ToyService.block [ToyService.log_with 1 "0x07"; ToyService.log_with 2 "0xbad"]) ()).1 =
  ([abi_decoded "eth" ToyService.header (ToyService.log_with 1 "0x07") "Ping"
      [("data", PStr "0x07")]], None).
Proof.
  rewrite (evm_pipeline_isolates_parsers (ALL:=ToyService.laws) "eth" true
    (ToyService.block [ToyService.log_with 1 "0x07"; ToyService.log_with 2 "0xbad"]) () I).
  reflexivity.
Defined.

Lemma abi_event_per_log_witness :
  ∃ events, (abi_event_parse "eth"
      (ToyService.block [ToyService.log_with 1 "0x07"; ToyService.log_with 2 "0x"]) ()).1
    = (events, None) ∧ length events = 2%nat.
Proof.
  destruct (abi_event_per_log (ALL:=ToyService.laws) "eth"
    (ToyService.block [ToyService.log_with 1 "0x07"; ToyService.log_with 2 "0x"]) () I) as (evs&He&H2).
  { repeat constructor; intros t0 ts [= <- <-]; eexists; (split; [reflexivity|]);
      intros n dec e [= <- <-] Hd; vm_compute in Hd; [discriminate|].
    injection Hd as <-. eexists. reflexivity. }
  exists evs. split; [exact He|]. apply Forall2_length in H2. symmetry. exact H2.
Defined.

Lemma undecodable_topic_drops_later_logs_witness :
  (abi_event_parse "eth" (ToyService.block [ToyService.log_with 1 "0x07";
      ToyService.log_with 2 "0xbad"; ToyService.log_with 3 "0x08"]) ()).1 =
  ([abi_decoded "eth" ToyService.header (ToyService.log_with 1 "0x07") "Ping"
      [("data", PStr "0x07")]], Some (OtherError "DecodingError" "padding")).
Proof.
  eapply (undecodable_topic_drops_later_logs "eth"
    (ToyService.block [ToyService.log_with 1 "0x07"; ToyService.log_with 2 "0xbad";
      ToyService.log_with 3 "0x08"]) () [ToyService.log_with 1 "0x07"]
    (ToyService.log_with 2 "0xbad") [ToyService.log_with 3 "0x08"] "0x01" [] "Ping"
    ToyService.decode _ ());
    [reflexivity|reflexivity|vm_compute; reflexivity|reflexivity|reflexivity|].
  intros m Hm. discriminate.
Defined.
