(* ===== verification/SolanaParsers.v ===== *)
(** * Solana parsers (core/parser/sol_native.py, spl_transfer.py, spl_ops.py,
    anchor_event.py, anchor_call.py) *)
From S2P Require Import Prelude PyStr PyVal Types Decoder AbiLookup Pipeline.

(** ** Python pieces *)

(** [l[i]], negative indices counting from the end; [None] is the IndexError. *)
Definition py_nth {A} (l : list A) (i : Z) : option A :=
  if 0 <=? i then l !! Z.to_nat i
  else if - Z.of_nat (length l) <=? i then l !! Z.to_nat (Z.of_nat (length l) + i) else None.

(** base64.b64decode(s) without validation: characters outside the alphabet are
    skipped, decoding stops at a complete padding. *)
Definition b64_val (c : ascii) : option Z :=
  let n := Z.of_N (N_of_ascii c) in
  if (65 <=? n) && (n <=? 90) then Some (n - 65)
  else if (97 <=? n) && (n <=? 122) then Some (n - 71)
  else if (48 <=? n) && (n <=? 57) then Some (n + 4)
  else if n =? 43 then Some 62
  else if n =? 47 then Some 63
  else None.

Definition Z_byte (z : Z) : byte := default x00 (Byte.of_N (Z.to_N (z mod 256))).

Fixpoint b64_scan (s : string) (quad_pos leftchar pads : Z) : option (list byte) :=
  match s with
  | EmptyString => if quad_pos =? 0 then Some [] else None
  | String c t =>
      if Ascii.eqb c "="%char then
        if 2 <=? quad_pos then
          if 4 <=? quad_pos + (pads + 1) then Some []
          else b64_scan t quad_pos leftchar (pads + 1)
        else b64_scan t quad_pos leftchar pads
      else match b64_val c with
           | None => b64_scan t quad_pos leftchar pads
           | Some v =>
               if quad_pos =? 0 then b64_scan t 1 v 0
               else if quad_pos =? 1 then
                 cons (Z_byte (Z.lor (Z.shiftl leftchar 2) (Z.shiftr v 4)))
                   <$> b64_scan t 2 (Z.land v 15) 0
               else if quad_pos =? 2 then
                 cons (Z_byte (Z.lor (Z.shiftl leftchar 4) (Z.shiftr v 2)))
                   <$> b64_scan t 3 (Z.land v 3) 0
               else
                 cons (Z_byte (Z.lor (Z.shiftl leftchar 6) v)) <$> b64_scan t 0 0 0
           end
  end.

Definition is_ascii (c : ascii) : bool := (N_of_ascii c <? 128)%N.

Definition b64decode (s : string) : result (list byte) :=
  if negb (forallb is_ascii (String.list_ascii_of_string s)) then
    Err (ValueError "string argument should contain only ASCII characters")
  else match b64_scan s 0 0 0 with
  | Some l => Ok l
  | None => Err (OtherError "binascii.Error" "Incorrect padding")
  end.

Example b64decode_ex : b64decode "aGVsbG8=" = Ok (String.list_byte_of_string "hello").
Proof. reflexivity. Qed.
Example b64decode_bad : is_ok (b64decode "aGVsbG8") = false.
Proof. reflexivity. Qed.

Section solana_parsers.
Context {L : AbiLib} {R : Type} {AL : AbiLookup R}.
Variable self_chain_id : string.

(** The event every Solana parser builds. *)
Definition sol_event (block : SolanaBlock) (tx : SolanaTransaction) (kind : string)
    (contract name : option string) (args raw : args_t) : Event :=
  mkEvent self_chain_id (sb_slot block) (sb_block_hash block) (default 0 (sb_block_time block))
    (stx_signature tx) None None kind contract name args raw.

Definition signature_raw (tx : SolanaTransaction) : args_t :=
  [("signature", PStr (stx_signature tx))].

(** [for tx in block.transactions: if not tx.success: continue; yield from extract(tx, block)] *)
Definition each_successful (extract : SolanaBlock → SolanaTransaction → gen R Event)
    (block : SolanaBlock) : gen R Event :=
  gfor (λ tx, if stx_success tx then extract block tx else gnil) (sb_transactions block).

(** ** SolNativeTransferParser *)

Definition SOLANA_SYSTEM_PROGRAM_ID : string := "11111111111111111111111111111111".
Definition SOL_TRANSFER_DISC : list byte := [x02; x00; x00; x00].
Definition SOL_TRANSFER_DATA_LEN : nat := 12.

(** [_decode_transfer] *)
Definition sol_decode_transfer (ix : SolanaInstruction) : option Z :=
  match b58decode (ix_data_b58 ix) with
  | Err _ => None
  | Ok data =>
      if negb (Nat.eqb (length data) SOL_TRANSFER_DATA_LEN) then None
      else if negb (bool_decide (take 4 data = SOL_TRANSFER_DISC)) then None
      else Some (le_unpack (drop 4 data))
  end.

Definition sol_transfer_ix (block : SolanaBlock) (tx : SolanaTransaction)
    (ix : SolanaInstruction) : option Event :=
  if negb (String.eqb (ix_program_id ix) SOLANA_SYSTEM_PROGRAM_ID) then None
  else if negb (ix_stack_depth ix =? 1) then None
  else match sol_decode_transfer ix with
       | None => None
       | Some lamports =>
           match ix_accounts ix with
           | from :: to :: _ =>
               Some (sol_event block tx "native_transfer" None None
                 [("from", PStr from); ("to", PStr to); ("value", PStr (py_str lamports))]
                 (signature_raw tx))
           | _ => None
           end
       end.

Definition sol_native_parse (block : SolanaBlock) : gen R Event :=
  each_successful (λ block tx, gyield (omap (sol_transfer_ix block tx) (stx_instructions tx))) block.

(** ** SplTransferParser *)

Definition SPL_TOKEN_PROGRAM_ID : string := "TokenkegQfeZyiNwAJbNbGKPFXCWuBvf9Ss623VQ5DA".
Definition SPL_TOKEN_2022_PROGRAM_ID : string := "TokenzQdBNbLqP5VEhdkAS6EPFLC1PHnBqCXEpPxuEb".
Definition TOKEN_PROGRAMS : list string := [SPL_TOKEN_PROGRAM_ID; SPL_TOKEN_2022_PROGRAM_ID].

(** [_resolve_mint_from_balances], [_resolve_mint] *)
Fixpoint resolve_mint (account : string) (keys : list string) (balances : list SolanaTokenBalance)
    : result (option string) :=
  match balances with
  | [] => Ok None
  | tb :: t =>
      let idx := tb_account_index tb in
      if idx <? Z.of_nat (length keys) then
        match py_nth keys idx with
        | None => Err (OtherError "IndexError" "list index out of range")
        | Some k => if String.eqb k account then Ok (Some (tb_mint tb))
                    else resolve_mint account keys t
        end
      else resolve_mint account keys t
  end.

Definition resolve_mint_of (account : string) (tx : SolanaTransaction) : result (option string) :=
  resolve_mint account (stx_account_keys tx) (stx_post_token_balances tx).

(** [struct.unpack("<Q", data[a:b])[0]] *)
Definition u64_at (data : list byte) (a : nat) : Z := le_unpack (take 8 (drop a data)).

(** [SplTransferParser._decode]: source, dest, amount, mint, fee *)
Definition spl_decode (ix : SolanaInstruction) (tx : SolanaTransaction)
    : result (option (string * string * Z * string * option Z)) :=
  match b58decode (ix_data_b58 ix) with
  | Err _ | Ok [] => Ok None
  | Ok ((d0 :: _) as data) =>
      let disc := byte_Z d0 in
      if (disc =? 3) && Nat.leb 9 (length data) then
        match ix_accounts ix with
        | source :: dest :: _ :: _ =>
            let? mint := resolve_mint_of source tx in
            Ok (match mint with
                | None => None
                | Some m => Some (source, dest, u64_at data 1, m, None)
                end)
        | _ => Ok None
        end
      else if (disc =? 12) && Nat.leb 9 (length data) then
        match ix_accounts ix with
        | source :: mint :: dest :: _ :: _ => Ok (Some (source, dest, u64_at data 1, mint, None))
        | _ => Ok None
        end
      else if (disc =? 26) && Nat.leb 19 (length data) then
        if negb (bool_decide (data !! 1%nat = Some x01)) then Ok None
        else match ix_accounts ix with
             | source :: mint :: dest :: _ :: _ =>
                 Ok (Some (source, dest, u64_at data 2, mint, Some (u64_at data 11)))
             | _ => Ok None
             end
      else Ok None
  end.

Definition spl_transfer_ix (block : SolanaBlock) (tx : SolanaTransaction)
    (ix : SolanaInstruction) : result (option Event) :=
  if negb (bool_decide (ix_program_id ix ∈ TOKEN_PROGRAMS)) then Ok None
  else if negb (ix_stack_depth ix =? 1) then Ok None
  else
    let? res := spl_decode ix tx in
    Ok (match res with
        | None => None
        | Some (from, to, amount, mint, fee) =>
            Some (sol_event block tx "token_transfer" (Some mint) (Some "Transfer")
              ([("from", PStr from); ("to", PStr to); ("value", PStr (py_str amount));
                ("mint", PStr mint)] ++
               match fee with Some f => [("fee", PStr (py_str f))] | None => [] end)
              (signature_raw tx))
        end).

Definition spl_transfer_parse (block : SolanaBlock) : gen R Event :=
  each_successful (λ block tx,
    gfor (λ ix, gyield_opt (mlift (spl_transfer_ix block tx ix))) (stx_instructions tx)) block.

(** ** SplOpsParser *)

(** [SplOpsParser._decode]: name, mint, args *)
Definition spl_ops_decode (ix : SolanaInstruction) (tx : SolanaTransaction)
    : result (option (string * string * args_t)) :=
  match b58decode (ix_data_b58 ix) with
  | Err _ | Ok [] => Ok None
  | Ok ((d0 :: _) as data) =>
      let disc := byte_Z d0 in
      if (disc =? 4) && Nat.leb 9 (length data) then
        match ix_accounts ix with
        | source :: delegate :: _ :: _ =>
            let? mint := resolve_mint_of source tx in
            Ok (match mint with
                | None => None
                | Some m => Some ("approve", m, [("source", PStr source);
                    ("delegate", PStr delegate); ("amount", PStr (py_str (u64_at data 1)))])
                end)
        | _ => Ok None
        end
      else if disc =? 5 then
        match ix_accounts ix with
        | source :: _ :: _ =>
            let? mint := resolve_mint_of source tx in
            Ok (match mint with
                | None => None
                | Some m => Some ("revoke", m, [("source", PStr source)])
                end)
        | _ => Ok None
        end
      else if (disc =? 7) && Nat.leb 9 (length data) then
        match ix_accounts ix with
        | mint :: dest :: _ :: _ =>
            Ok (Some ("mint_to", mint, [("mint", PStr mint); ("dest", PStr dest);
                      ("amount", PStr (py_str (u64_at data 1)))]))
        | _ => Ok None
        end
      else if (disc =? 8) && Nat.leb 9 (length data) then
        match ix_accounts ix with
        | source :: mint :: _ :: _ =>
            Ok (Some ("burn", mint, [("source", PStr source); ("mint", PStr mint);
                      ("amount", PStr (py_str (u64_at data 1)))]))
        | _ => Ok None
        end
      else Ok None
  end.

Definition spl_ops_ix (block : SolanaBlock) (tx : SolanaTransaction)
    (ix : SolanaInstruction) : result (option Event) :=
  if negb (bool_decide (ix_program_id ix ∈ TOKEN_PROGRAMS)) then Ok None
  else if negb (ix_stack_depth ix =? 1) then Ok None
  else
    let? res := spl_ops_decode ix tx in
    Ok (match res with
        | None => None
        | Some (name, mint, args) =>
            Some (sol_event block tx "call" (Some mint) (Some name) args (signature_raw tx))
        end).

Definition spl_ops_parse (block : SolanaBlock) : gen R Event :=
  each_successful (λ block tx,
    gfor (λ ix, gyield_opt (mlift (spl_ops_ix block tx ix))) (stx_instructions tx)) block.

(** ** AnchorIdlEventParser *)

(** The white space of Python's regular expressions (ASCII part) *)
Definition re_space (c : ascii) : bool :=
  let n := N_of_ascii c in (((9 <=? n) && (n <=? 13)) || ((28 <=? n) && (n <=? 32)))%N.
Definition re_digit (c : ascii) : bool :=
  let n := N_of_ascii c in ((48 <=? n) && (n <=? 57))%N.

(** The longest prefix whose characters satisfy [p], and the rest *)
Fixpoint span (p : ascii → bool) (s : string) : string * string :=
  match s with
  | String c t => if p c then let '(a, b) := span p t in (String c a, b) else ("", s)
  | EmptyString => ("", "")
  end.

(** [_PROGRAM_INVOKE_RE.match(line)]: the program id *)
Definition match_invoke (line : string) : option string :=
  if startswith line "Program " then
    let '(pid, rest) := span (λ c, negb (re_space c)) (str_drop 8 line) in
    if String.eqb pid "" then None
    else if startswith rest " invoke [" then
      let '(digits, tail) := span re_digit (str_drop 9 rest) in
      if String.eqb digits "" then None
      else if String.eqb tail "]" || String.eqb tail ("]" +:+ String "010"%char "") then Some pid
      else None
    else None
  else None.

Definition PROGRAM_DATA_PREFIX : string := "Program data: ".

(** [AnchorIdlEventParser._try_decode] *)
Definition anchor_try_decode (block : SolanaBlock) (tx : SolanaTransaction)
    (b64_data program_id : string) : M R (option Event) :=
  match b64decode b64_data with
  | Err _ => mret None
  | Ok raw =>
      if Nat.ltb (length raw) 8 then mret None
      else
        let disc_hex := bytes_hex (take 8 raw) in
        let* lookup := al_idl_event program_id disc_hex in
        match lookup with
        | None => mret None
        | Some (event_name, struct) =>
            match decode_anchor_borsh struct (drop 8 raw) with
            | Err (DecodeFailed _) =>
                mret (Some (sol_event block tx "event" (Some program_id) None []
                  [("program_data", PStr b64_data); ("program_id", PStr program_id);
                   ("discriminator", PStr disc_hex)]))
            | Err e => mthrow e
            | Ok args =>
                mret (Some (sol_event block tx "event" (Some program_id) (Some event_name) args
                  (signature_raw tx)))
            end
        end
  end.

(** [_extract]: the loop over the log lines, with the program stack (top first) *)
Fixpoint anchor_extract (block : SolanaBlock) (tx : SolanaTransaction)
    (program_stack : list string) (lines : list string) : gen R Event :=
  match lines with
  | [] => gnil
  | line :: t =>
      match match_invoke line with
      | Some pid => anchor_extract block tx (pid :: program_stack) t
      | None =>
          if startswith line "Program " && endswith line " success" then
            anchor_extract block tx (tail program_stack) t
          else match program_stack with
               | program_id :: _ =>
                   if startswith line PROGRAM_DATA_PREFIX then
                     gapp (gyield_opt (anchor_try_decode block tx
                             (str_drop (String.length PROGRAM_DATA_PREFIX) line) program_id))
                       (anchor_extract block tx program_stack t)
                   else anchor_extract block tx program_stack t
               | [] => anchor_extract block tx program_stack t
               end
      end
  end.

Definition anchor_event_parse (block : SolanaBlock) : gen R Event :=
  each_successful (λ block tx, anchor_extract block tx [] (stx_log_messages tx)) block.

(** ** AnchorIdlCallParser *)

Definition anchor_call_try_decode (block : SolanaBlock) (tx : SolanaTransaction)
    (ix : SolanaInstruction) : M R (option Event) :=
  match b58decode (ix_data_b58 ix) with
  | Err _ => mret None
  | Ok data =>
      if Nat.ltb (length data) 8 then mret None
      else
        let* lookup := al_idl_call (ix_program_id ix) (bytes_hex (take 8 data)) in
        match lookup with
        | None => mret None
        | Some (fn_name, struct) =>
            match decode_anchor_borsh struct (drop 8 data) with
            | Err (DecodeFailed _) => mret None
            | Err e => mthrow e
            | Ok args =>
                mret (Some (sol_event block tx "call" (Some (ix_program_id ix)) (Some fn_name) args
                  (signature_raw tx)))
            end
        end
  end.

Definition anchor_call_parse (block : SolanaBlock) : gen R Event :=
  each_successful (λ block tx,
    gfor (λ ix, if negb (ix_stack_depth ix =? 1) then gnil
                else gyield_opt (anchor_call_try_decode block tx ix)) (stx_instructions tx)) block.

(** The Solana pipeline ([ChainRunner._build_pipeline]) *)
Definition solana_parsers (has_registry : bool) : list (SolanaBlock → gen R Event) :=
  [sol_native_parse; spl_transfer_parse; spl_ops_parse] ++
  if has_registry then [anchor_event_parse; anchor_call_parse] else [].
End solana_parsers.

(** ** Encodings *)

(** What a wallet or program puts into the instruction data of a token transfer. *)
Inductive spl_form := FTransfer | FChecked (decimals : byte) | FWithFee (decimals : byte) (fee : Z).

Definition spl_encode (f : spl_form) (amount : Z) : list byte :=
  match f with
  | FTransfer => x03 :: le_pack 8 amount
  | FChecked d => x0c :: le_pack 8 amount ++ [d]
  | FWithFee d fee => x1a :: x01 :: le_pack 8 amount ++ d :: le_pack 8 fee
  end.

(** The accounts the token program wants for each form. *)
Definition spl_accounts (f : spl_form) (source mint dest owner : string) : list string :=
  match f with
  | FTransfer => [source; dest; owner]
  | _ => [source; mint; dest; owner]
  end.

Definition spl_fee (f : spl_form) : option Z :=
  match f with FWithFee _ fee => Some fee | _ => None end.

(** ** Execution traces and their log lines *)

Inductive trace :=
  | TData (payload : string)
  | TOther (line : string)
  | TCall (pid depth : string) (body : list trace).

Definition invoke_line (pid depth : string) : string :=
  "Program " +:+ pid +:+ " invoke [" +:+ depth +:+ "]".
Definition success_line (pid : string) : string := "Program " +:+ pid +:+ " success".
Definition data_line (payload : string) : string := PROGRAM_DATA_PREFIX +:+ payload.

(** The log messages the Solana runtime prints for a trace. *)
Fixpoint trace_lines (t : trace) : list string :=
  match t with
  | TData p => [data_line p]
  | TOther l => [l]
  | TCall pid depth body =>
      invoke_line pid depth :: (body ≫= trace_lines) ++ [success_line pid]
  end.

(** The data each program emitted: the program is the innermost one running. *)
Fixpoint trace_data (parent : string) (t : trace) : list (string * string) :=
  match t with
  | TData p => [(parent, p)]
  | TOther _ => []
  | TCall pid _ body => body ≫= trace_data pid
  end.

Definition is_success (line : string) : bool :=
  startswith line "Program " && endswith line " success".

Fixpoint str_forall (p : ascii → bool) (s : string) : bool :=
  match s with String c t => p c && str_forall p t | EmptyString => true end.

(** Ids are words, depths numbers, and no other line looks like a control line. *)
Fixpoint trace_ok (t : trace) : Prop :=
  match t with
  | TData p => match_invoke (data_line p) = None ∧ is_success (data_line p) = false
  | TOther l => match_invoke l = None ∧ is_success l = false ∧
                startswith l PROGRAM_DATA_PREFIX = false
  | TCall pid depth body =>
      pid ≠ "" ∧ str_forall (λ c, negb (re_space c)) pid = true ∧
      depth ≠ "" ∧ str_forall re_digit depth = true ∧
      (fix go (l : list trace) : Prop :=
         match l with [] => True | x :: l' => trace_ok x ∧ go l' end) body
  end.

Section trace_ind.
Variable P : trace → Prop.
Hypothesis HData : ∀ p, P (TData p).
Hypothesis HOther : ∀ l, P (TOther l).
Hypothesis HCall : ∀ pid depth body, Forall P body → P (TCall pid depth body).

Fixpoint trace_rect' (t : trace) : P t :=
  match t with
  | TData p => HData p
  | TOther l => HOther l
  | TCall pid depth body => HCall pid depth body
      ((fix go (l : list trace) : Forall P l :=
          match l with
          | [] => Forall_nil_2 _
          | x :: l' => Forall_cons_2 _ _ _ (trace_rect' x) (go l')
          end) body)
  end.
End trace_ind.

Lemma trace_ok_call pid depth body :
  trace_ok (TCall pid depth body) ↔
  pid ≠ "" ∧ str_forall (λ c, negb (re_space c)) pid = true ∧
  depth ≠ "" ∧ str_forall re_digit depth = true ∧ Forall trace_ok body.
Proof.
  simpl. do 4 (apply and_iff_compat_l). induction body as [|x l IH]; [by split|].
  rewrite Forall_cons, IH. done.
Qed.

(** ** Lemmas on the line formats *)

Lemma span_app p s t :
  str_forall p s = true → match t with String c _ => p c = false | _ => True end →
  span p (s +:+ t) = (s, t).
Proof.
  induction s as [|c s IH]; simpl; intros Hs Ht.
  { destruct t as [|c t]; [done|]. simpl. by rewrite Ht. }
  apply andb_true_iff in Hs as [Hc Hs]. rewrite Hc.
  change (s ++ t)%string with (s +:+ t). by rewrite IH.
Qed.

Lemma str_drop_prefix n p t : String.length p = n → str_drop n (p +:+ t) = t.
Proof. intros <-. apply str_drop_app. Qed.

Lemma match_invoke_line pid depth :
  pid ≠ "" → str_forall (λ c, negb (re_space c)) pid = true →
  depth ≠ "" → str_forall re_digit depth = true →
  match_invoke (invoke_line pid depth) = Some pid.
Proof.
  intros Hp Hps Hd Hds. unfold match_invoke, invoke_line.
  rewrite startswith_app, str_drop_prefix by done.
  rewrite (span_app _ pid) by done. rewrite (proj2 (String.eqb_neq _ _) Hp).
  rewrite startswith_app, str_drop_prefix by done.
  rewrite (span_app _ depth) by done. by rewrite (proj2 (String.eqb_neq _ _) Hd).
Qed.

Lemma success_line_ok pid :
  pid ≠ "" → str_forall (λ c, negb (re_space c)) pid = true →
  match_invoke (success_line pid) = None ∧ is_success (success_line pid) = true.
Proof.
  intros Hp Hps. unfold success_line, match_invoke, is_success.
  rewrite startswith_app, str_drop_prefix by done.
  rewrite (span_app _ pid) by done. rewrite (proj2 (String.eqb_neq _ _) Hp). split; [done|].
  by rewrite str_app_assoc, endswith_app.
Qed.

(** ** Properties *)
Section properties.
Context {L : AbiLib} {R : Type} {AL : AbiLookup R}.

(** Generators that agree on every state. *)
Definition gen_eq {A} (g1 g2 : gen R A) : Prop := ∀ r, g1 r = g2 r.

Lemma gapp_nil_l {A} (g : gen R A) r : gapp gnil g r = g r.
Proof. unfold gapp, gnil. by destruct (g r) as [[] ?]. Qed.

Lemma gapp_nil_r {A} (g : gen R A) r : gapp g gnil r = g r.
Proof. unfold gapp, gnil. destruct (g r) as [[l [e|]] r']; [done|]. by rewrite app_nil_r. Qed.

Lemma gapp_assoc {A} (g1 g2 g3 : gen R A) r : gapp (gapp g1 g2) g3 r = gapp g1 (gapp g2 g3) r.
Proof.
  unfold gapp. destruct (g1 r) as [[l1 [e|]] r1]; [done|].
  destruct (g2 r1) as [[l2 [e|]] r2]; [done|]. destruct (g3 r2) as [[l3 e3] r3].
  by rewrite app_assoc.
Qed.

Lemma gapp_ext {A} (g1 g1' g2 g2' : gen R A) r :
  (∀ r, g1 r = g1' r) → (∀ r, g2 r = g2' r) → gapp g1 g2 r = gapp g1' g2' r.
Proof. intros H1 H2. unfold gapp. rewrite H1. destruct (g1' r) as [[l [e|]] r']; [done|]. by rewrite H2. Qed.

Definition decode_data (cid : string) block tx (d : string * string) : gen R Event :=
  gyield_opt (anchor_try_decode cid block tx d.2 d.1).

(** A trace that runs under [parent] yields its data and leaves the stack as it was. *)
Definition transparent (cid : string) block tx (t : trace) : Prop :=
  ∀ parent stack rest r,
    anchor_extract cid block tx (parent :: stack) (trace_lines t ++ rest) r =
    gapp (gfor (decode_data cid block tx) (trace_data parent t))
      (anchor_extract cid block tx (parent :: stack) rest) r.

Lemma anchor_extract_body cid block tx pid body stack rest r :
  pid ≠ "" → str_forall (λ c, negb (re_space c)) pid = true →
  Forall (transparent cid block tx) body →
  anchor_extract cid block tx (pid :: stack) ((body ≫= trace_lines) ++ success_line pid :: rest) r =
  gapp (gfor (decode_data cid block tx) (body ≫= trace_data pid))
    (anchor_extract cid block tx stack rest) r.
Proof.
  intros Hp Hps Hb. destruct (success_line_ok pid Hp Hps) as [Hsi Hss].
  revert r. induction Hb as [|x body Hx _ IH]; intros r.
  - change (([] : list trace) ≫= trace_lines) with (@nil string).
    change (([] : list trace) ≫= trace_data pid) with (@nil (string * string)).
    cbn [app gfor]. rewrite gapp_nil_l. cbn [anchor_extract].
    rewrite Hsi. unfold is_success in Hss. by rewrite Hss.
  - rewrite !bind_cons, <- app_assoc, (Hx pid stack).
    rewrite (gapp_ext _ (gfor (decode_data cid block tx) (trace_data pid x)) _
      (gapp (gfor (decode_data cid block tx) (body ≫= trace_data pid))
        (anchor_extract cid block tx stack rest))) by (done || by intros; apply IH).
    rewrite <- gapp_assoc. apply gapp_ext; [|done]. intros r'. by rewrite gfor_app.
Qed.

Lemma trace_transparent cid block tx t : trace_ok t → transparent cid block tx t.
Proof.
  induction t as [p|l|pid depth body IH] using trace_rect'; intros Hok parent stack rest r.
  - destruct Hok as [Hi Hs]. cbn [trace_lines app anchor_extract]. rewrite Hi.
    unfold is_success in Hs. rewrite Hs. unfold data_line. rewrite startswith_app, str_drop_app.
    cbn [trace_data gfor]. apply gapp_ext; [|done]. intros r'. by rewrite gapp_nil_r.
  - destruct Hok as (Hi&Hs&Hd). cbn [trace_lines app anchor_extract]. rewrite Hi.
    unfold is_success in Hs. rewrite Hs, Hd. cbn [trace_data gfor]. by rewrite gapp_nil_l.
  - apply trace_ok_call in Hok as (Hp&Hps&Hd&Hds&Hb). cbn [trace_lines app anchor_extract].
    rewrite match_invoke_line by done. rewrite <- app_assoc. cbn [app trace_data].
    apply anchor_extract_body; [done..|]. rewrite Forall_forall in IH, Hb |- *. auto.
Qed.

Lemma anchor_extract_success cid block tx stack line rest r :
  match_invoke line = None → is_success line = true →
  anchor_extract cid block tx stack (line :: rest) r =
  anchor_extract cid block tx (tail stack) rest r.
Proof. intros Hi Hs. cbn [anchor_extract]. rewrite Hi. unfold is_success in Hs. by rewrite Hs. Qed.

Lemma str_take_le p t n : String.length p = n → str_take n (p +:+ t) = p.
Proof. intros <-. apply str_take_app. Qed.

Lemma u64_at_pack pre z rest n :
  length pre = n → 0 <= z < 2 ^ 64 → u64_at (pre ++ le_pack 8 z ++ rest) n = z.
Proof.
  intros <- Hz. unfold u64_at. rewrite drop_app_length, take_app_length' by (by rewrite le_pack_length).
  by apply le_unpack_pack.
Qed.

(** A SOL transfer survives the trip through the instruction encoding: a
    top-level System-program instruction with the transfer discriminator and any
    unsigned 64-bit amount yields exactly one native transfer between its first two
    accounts, with the decimal amount. *)
Lemma sol_transfer_roundtrip cid block tx ix lamports from to rest :
  ix_program_id ix = SOLANA_SYSTEM_PROGRAM_ID → ix_stack_depth ix = 1 →
  b58decode (ix_data_b58 ix) = Ok (SOL_TRANSFER_DISC ++ le_pack 8 lamports) →
  0 <= lamports < 2 ^ 64 → ix_accounts ix = from :: to :: rest →
  sol_transfer_ix cid block tx ix =
  Some (sol_event cid block tx "native_transfer" None None
    [("from", PStr from); ("to", PStr to); ("value", PStr (py_str lamports))] (signature_raw tx)).
Proof.
  intros Hp Hs Hd Hz Ha. unfold sol_transfer_ix, sol_decode_transfer.
  rewrite Hp, Hs, Hd, Ha, String.eqb_refl. cbn [negb Z.eqb Pos.eqb].
  rewrite length_app, le_pack_length. cbn [length SOL_TRANSFER_DISC Nat.eqb Nat.add
    SOL_TRANSFER_DATA_LEN negb]. rewrite bool_decide_true by done. cbn [negb].
  change (drop 4 _) with (le_pack 8 lamports). by rewrite le_unpack_pack.
Qed.

(** Token transfers survive the trip through each of the three instruction
    encodings the parser knows (Transfer, TransferChecked, TransferCheckedWithFee):
    accounts, any unsigned 64-bit amount and fee are recovered exactly; the mint is
    the instruction's own account, or for the unchecked form the one of the source
    account's token balance. *)
Lemma spl_transfer_roundtrip f amount source mint dest owner ix tx :
  b58decode (ix_data_b58 ix) = Ok (spl_encode f amount) →
  ix_accounts ix = spl_accounts f source mint dest owner →
  (f = FTransfer → resolve_mint_of source tx = Ok (Some mint)) →
  0 <= amount < 2 ^ 64 → (∀ d fee, f = FWithFee d fee → 0 <= fee < 2 ^ 64) →
  spl_decode ix tx = Ok (Some (source, dest, amount, mint, spl_fee f)).
Proof.
  intros Hd Ha Hm Hz Hf. unfold spl_decode. rewrite Hd, Ha.
  assert (∀ (z : Z) rest, length (le_pack 8 z ++ rest) = (8 + length rest)%nat) as Hl.
  { intros. by rewrite length_app, le_pack_length. }
  destruct f as [|d|d fee]; cbn [spl_encode spl_accounts spl_fee].
  - rewrite Hm by done. cbn [length]. rewrite le_pack_length.
    cbn [byte_Z Z.eqb Pos.eqb andb Nat.leb rbind]. do 5 f_equal.
    rewrite <- (app_nil_r (le_pack 8 amount)). by apply (u64_at_pack [x03]).
  - cbn [length]. rewrite Hl. cbn [length]. do 6 f_equal. by apply (u64_at_pack [x0c]).
  - cbn [length]. rewrite Hl. cbn [length]. rewrite le_pack_length.
    rewrite bool_decide_true by done. cbn [negb].
    assert (u64_at (x1a :: x01 :: le_pack 8 amount ++ d :: le_pack 8 fee) 2 = amount) as Hu1.
    { by apply (u64_at_pack [x1a; x01]). }
    assert (u64_at (x1a :: x01 :: le_pack 8 amount ++ d :: le_pack 8 fee) 11 = fee) as Hu2.
    { rewrite <- (app_nil_r (le_pack 8 fee)).
      change (x1a :: x01 :: le_pack 8 amount ++ d :: le_pack 8 fee ++ [])
        with ([x1a; x01] ++ le_pack 8 amount ++ [d] ++ le_pack 8 fee ++ []).
      rewrite !app_assoc, <- (app_assoc _ (le_pack 8 fee)). apply u64_at_pack; [|by eapply Hf].
      by rewrite !length_app, le_pack_length. }
    by rewrite Hu1, Hu2.
Qed.

(** C35 Log data is attributed to the program that emitted it: on the log of any properly nested
    execution (any depth of cross-program calls, other log lines in between) whose other lines
    and data are not taken for brackets ([trace_ok]: none reads as an invocation, or begins with
    "Program " and ends in " success", as a program's own "Program log: ... success" does, see
    [success_message_pops_stack]), the parser decodes exactly the data lines, in order, each
    against the innermost program running at that point. *)
Theorem anchor_data_attributed cid block tx calls r :
  Forall trace_ok calls → Forall (λ t, ∃ pid depth body, t = TCall pid depth body) calls →
  anchor_extract cid block tx [] (calls ≫= trace_lines) r =
  gfor (decode_data cid block tx) (calls ≫= trace_data "") r.
Proof.
  intros Hok Hc. revert r. induction Hc as [|t calls (pid&depth&body&->) _ IH]; intros r; [done|].
  apply Forall_cons in Hok as [Ht Hok]. rewrite !bind_cons, gfor_app.
  apply trace_ok_call in Ht as (Hp&Hps&Hd&Hds&Hb). cbn [trace_lines app anchor_extract trace_data].
  rewrite match_invoke_line, <- app_assoc by done. cbn [app].
  rewrite anchor_extract_body; [|done..|].
  - apply gapp_ext; [done|]. intros. by apply IH.
  - eapply Forall_impl; [exact Hb|]. intros t. apply trace_transparent.
Qed.

(** A program can hide its events, or pass them off as its caller's, with a log
    message: any "Program log:" line that ends in " success" pops the program stack
    as if the program had returned, so the data that follows is decoded against the
    caller. *)
Lemma success_message_pops_stack cid block tx pid outer stack m payload rest r :
  match_invoke ("Program log: " +:+ m +:+ " success") = None → trace_ok (TData payload) →
  anchor_extract cid block tx (pid :: outer :: stack)
    (("Program log: " +:+ m +:+ " success") :: data_line payload :: rest) r =
  gapp (decode_data cid block tx (outer, payload))
    (anchor_extract cid block tx (outer :: stack) rest) r.
Proof.
  intros Hm Hok. rewrite anchor_extract_success; [|done|].
  - change (data_line payload :: rest) with (trace_lines (TData payload) ++ rest). cbn [tail].
    rewrite (trace_transparent cid block tx (TData payload) Hok outer stack rest r).
    apply gapp_ext; [|done]. intros r'. cbn [trace_data gfor]. by rewrite gapp_nil_r.
  - unfold is_success. apply andb_true_iff. split.
    + exact (startswith_app "Program " ("log: " +:+ m +:+ " success")).
    + by rewrite str_app_assoc, endswith_app.
Qed.
End properties.

(** ** Witnesses *)
Module SolSample.
#[export] Instance lookup : AbiLookup unit := {|
  al_event t := mret None;
  al_call s := mret None;
  al_idl_event p d := mret (Some (p, CScalar "u64"));
  al_idl_call p d := mret None;
|}.

Definition tx : SolanaTransaction :=
  mkSolTx "sig" 9 true 5000 ["alice"; "bob"] [] [] []
    [mkTokenBalance 0 "MINT" None 10 6] [] [].
Definition block : SolanaBlock := mkSolBlock 9 "hash" 8 None [tx].

(** Toy base58 is hex. *)
Definition ix (pid : string) (accounts : list string) (data : list byte) : SolanaInstruction :=
  mkInstruction pid accounts (bytes_hex data) 1.

(** An outer program calling an inner one; both emit data. *)
Definition calls : list trace :=
  [TCall "Outer" "1" [TOther "Program log: start"; TData "AAAAAAAAAAA=";
     TCall "Inner" "2" [TData "AQAAAAAAAAA="]; TData "AgAAAAAAAAA="]].
End SolSample.
#[local] Existing Instance SolSample.lookup.
#[local] Existing Instance ToyLib.lib.

Lemma sol_transfer_roundtrip_witness :
  sol_transfer_ix "sol" SolSample.block SolSample.tx
    (SolSample.ix SOLANA_SYSTEM_PROGRAM_ID ["alice"; "bob"] (SOL_TRANSFER_DISC ++ le_pack 8 (2 ^ 63)))
  = Some (sol_event "sol" SolSample.block SolSample.tx "native_transfer" None None
      [("from", PStr "alice"); ("to", PStr "bob"); ("value", PStr (py_str (2 ^ 63)))]
      (signature_raw SolSample.tx)).
Proof.
  apply (sol_transfer_roundtrip (L:=ToyLib.lib) "sol" SolSample.block SolSample.tx _ (2 ^ 63)
    "alice" "bob" []); [reflexivity|reflexivity|vm_compute; reflexivity|lia|reflexivity].
Defined.

Lemma spl_transfer_roundtrip_witness :
  spl_decode (SolSample.ix SPL_TOKEN_PROGRAM_ID ["alice"; "bob"; "owner"] (spl_encode FTransfer 77))
    SolSample.tx = Ok (Some ("alice", "bob", 77, "MINT", None)).
Proof.
  apply (spl_transfer_roundtrip (L:=ToyLib.lib) FTransfer 77 "alice" "MINT" "bob" "owner");
    [vm_compute; reflexivity|reflexivity|intros; reflexivity|lia|intros; discriminate].
Defined.

Lemma anchor_data_attributed_witness :
  anchor_extract "sol" SolSample.block SolSample.tx [] (SolSample.calls ≫= trace_lines) tt =
  gfor (decode_data "sol" SolSample.block SolSample.tx)
    [("Outer", "AAAAAAAAAAA="); ("Inner", "AQAAAAAAAAA="); ("Outer", "AgAAAAAAAAA=")] tt.
Proof.
  apply (anchor_data_attributed (L:=ToyLib.lib) "sol" SolSample.block SolSample.tx SolSample.calls tt).
  - repeat constructor; try (vm_compute; reflexivity); discriminate.
  - repeat constructor. by exists "Outer", "1", [TOther "Program log: start"; TData "AAAAAAAAAAA=";
      TCall "Inner" "2" [TData "AQAAAAAAAAA="]; TData "AgAAAAAAAAA="].
Defined.

Lemma success_message_pops_stack_witness :
  anchor_extract "sol" SolSample.block SolSample.tx ["Inner"; "Outer"]
    ["Program log: swap success"; data_line "AQAAAAAAAAA="] tt =
  gapp (decode_data "sol" SolSample.block SolSample.tx ("Outer", "AQAAAAAAAAA="))
    (anchor_extract "sol" SolSample.block SolSample.tx ["Outer"] []) tt.
Proof.
  apply (success_message_pops_stack (L:=ToyLib.lib) "sol" SolSample.block SolSample.tx
    "Inner" "Outer" [] "swap" "AQAAAAAAAAA=" [] tt); [reflexivity|].
  split; vm_compute; reflexivity.
Defined.
