(* ===== verification/EventTypes.v ===== *)
(** * What parsers yield (core/parser/*.py, core/parser/event.py)

    [EventKind] and the fields of [Event] are a discipline the parsers follow by convention: a kind
    decides which of contract, name and arguments are there, and the other fields say where in the block the event
    comes from.  [well_typed] writes it down; the events of every parser, of both kinds of chain and of call traces,
    satisfy it item by item. *)
From S2P Require Import Prelude PyStr PyVal Types Decoder AbiLookup Pipeline EvmParsers SolanaParsers.

(** ** The discipline *)

(** The block an event comes from *)
Record origin := mkOrigin {
  og_number : Z;
  og_hash : string;
  og_timestamp : Z;
}.

Definition evm_origin (b : Block) : origin :=
  let h := blk_header b in mkOrigin (hdr_number h) (hdr_hash h) (hdr_timestamp h).

Definition solana_origin (b : SolanaBlock) : origin :=
  mkOrigin (sb_slot b) (sb_block_hash b) (default 0 (sb_block_time b)).

(** What in the block it comes from: a transaction, a log, a traced call, an instruction, or a line of
    a transaction's log *)
Inductive item :=
  | FromTx (tx : Tx)
  | FromLog (l : Log)
  | FromCall (c : InternalCall)
  | FromInstruction (tx : SolanaTransaction) (ix : SolanaInstruction)
  | FromLine (tx : SolanaTransaction) (line : string).

(** What the event says of its item.  Call traces do not say which transaction they belong to. *)
Definition stems (it : item) (ev : Event) : Prop :=
  match it with
  | FromTx tx =>
      tx_status tx = 1 ∧ ev_tx_hash ev = tx_hash tx ∧ ev_tx_index ev = Some (tx_index tx) ∧ ev_log_index ev = None ∧
      ∃ to, tx_to_addr tx = Some to ∧
        (ev_kind ev = "native_transfer" ∧ 0 < tx_value tx ∧
           ev_args ev = [("from", PStr (tx_from_addr tx)); ("to", PStr to); ("value", PStr (py_str (tx_value tx)))] ∨
         ev_kind ev = "call" ∧ ev_contract ev = Some (lower to))
  | FromLog l =>
      ev_tx_hash ev = log_tx_hash l ∧ ev_log_index ev = Some (log_log_index l) ∧
      ev_contract ev = Some (lower (log_address l)) ∧ ev_kind ev ∈ ["token_transfer"; "event"]
  | FromCall c =>
      ev_tx_hash ev = "" ∧ ev_tx_index ev = None ∧ ev_log_index ev = None ∧ ev_kind ev = "call" ∧
      ev_contract ev = if bool_decide (ic_type c ∈ ["CREATE"; "CREATE2"]) then ic_created_address c
                       else Some (lower (default "" (ic_to_addr c)))
  | FromInstruction tx ix =>
      stx_success tx = true ∧ ix_stack_depth ix = 1 ∧ ev_tx_hash ev = stx_signature tx ∧
      ev_tx_index ev = None ∧ ev_log_index ev = None
  | FromLine tx line =>
      stx_success tx = true ∧ ev_tx_hash ev = stx_signature tx ∧ ev_tx_index ev = None ∧ ev_log_index ev = None ∧
      ev_kind ev = "event"
  end.

Definition is_str (v : pyval) : Prop := match v with PStr _ => True | _ => False end.

(** A transfer names its parties and its value, a decimal integer, first. *)
Definition transfer_args (args : list (string * pyval)) : Prop :=
  ∃ from to v more, args = [("from", PStr from); ("to", PStr to); ("value", PStr (py_str v))] ++ more ∧
    Forall (λ kv, is_str kv.2 ∧ kv.1 ∈ ["mint"; "fee"]) more.

Inductive shape : string → option string → option string → list (string * pyval) → Prop :=
  | shape_native args : transfer_args args → shape "native_transfer" None None args
  | shape_token c args : transfer_args args → shape "token_transfer" (Some c) (Some "Transfer") args
  | shape_event c n args : shape "event" (Some c) (Some n) args
  | shape_raw_event c : shape "event" (Some c) None []
  | shape_call c n args : shape "call" c (Some n) args.

Record well_typed (cid : string) (o : origin) (it : item) (ev : Event) : Prop := {
  wt_chain : ev_chain_id ev = cid;
  wt_number : ev_block_number ev = og_number o;
  wt_hash : ev_block_hash ev = og_hash o;
  wt_timestamp : ev_block_timestamp ev = og_timestamp o;
  wt_item : stems it ev;
  wt_shape : shape (ev_kind ev) (ev_contract ev) (ev_name ev) (ev_args ev);
}.

(** ** Generators that yield at most one value per item, in the order of the items *)
Section itemwise.
Context {R A I : Type} (P : I → A → Prop).

Definition per_item (items : list I) (l : list A) : Prop := ∃ kept, sublist kept items ∧ Forall2 P kept l.
Definition itemwise (items : list I) (g : gen R A) : Prop := ∀ r, per_item items (g r).1.1.
Definition m_all (it : I) (m : M R (option A)) : Prop := ∀ r a, (m r).1 = Ok (Some a) → P it a.

Lemma per_item_nil items : per_item items [].
Proof. exists []. split; [apply sublist_nil_l|constructor]. Qed.

Lemma per_item_app i1 i2 l1 l2 : per_item i1 l1 → per_item i2 l2 → per_item (i1 ++ i2) (l1 ++ l2).
Proof. intros (k1 & ? & ?) (k2 & ? & ?). exists (k1 ++ k2). split; [by apply sublist_app|by apply Forall2_app]. Qed.

Lemma itemwise_gnil items : itemwise items gnil.
Proof. intros r. apply per_item_nil. Qed.

Lemma itemwise_gyield_opt it m : m_all it m → itemwise [it] (gyield_opt m).
Proof.
  intros Hm r. specialize (Hm r). unfold gyield_opt.
  destruct (m r) as [[[a|]|e] r']; cbn in *; [|apply per_item_nil..].
  exists [it]. split; [done|]. repeat constructor. by apply Hm.
Qed.

Lemma itemwise_gapp i1 i2 g1 g2 : itemwise i1 g1 → itemwise i2 g2 → itemwise (i1 ++ i2) (gapp g1 g2).
Proof.
  intros H1 H2 r. specialize (H1 r). unfold gapp. destruct (g1 r) as [[l [e|]] r1].
  - cbn in *. rewrite <-(app_nil_r l). apply per_item_app; [done|apply per_item_nil].
  - specialize (H2 r1). destruct (g2 r1) as [[l2 e2] r2]. by apply per_item_app.
Qed.

Lemma itemwise_gfor {X} (items : X → list I) (f : X → gen R A) l :
  (∀ x, x ∈ l → itemwise (items x) (f x)) → itemwise (l ≫= items) (gfor f l).
Proof.
  induction l as [|x l IH]; intros Hf; cbn [gfor]; [apply itemwise_gnil|]. rewrite bind_cons.
  apply itemwise_gapp; [apply Hf; left|]. apply IH. intros y Hy. apply Hf. by right.
Qed.

Lemma itemwise_gtry items g : itemwise items g → itemwise items (gtry g).
Proof. intros H r. specialize (H r). unfold gtry. by destruct (g r) as [[l e] r']. Qed.

Lemma itemwise_pipeline {B} (parsers : list (B → gen R A)) (items : list (list I)) b :
  Forall2 (λ its p, itemwise its (p b)) items parsers → itemwise (concat items) (pipeline_run parsers b).
Proof.
  unfold pipeline_run. induction 1 as [|its p items parsers Hp _ IH]; [apply itemwise_gnil|].
  cbn [gfor concat]. apply itemwise_gapp; [by apply itemwise_gtry|exact IH].
Qed.

Lemma itemwise_omap {X} (inj : X → I) (f : X → option A) l :
  (∀ x a, f x = Some a → P (inj x) a) → itemwise (inj <$> l) (gyield (omap f l)).
Proof.
  intros Hf r. cbn. induction l as [|x l (kept & Hk & HP)]; [apply per_item_nil|]. csimpl.
  destruct (f x) as [a|] eqn:E.
  - exists (inj x :: kept). split; [by apply sublist_skip|]. constructor; [by apply Hf|done].
  - exists kept. split; [by apply sublist_cons|done].
Qed.

Lemma m_all_ret it o : (∀ a, o = Some a → P it a) → m_all it (mret o).
Proof. intros H r a Ha. cbn in Ha. apply H. congruence. Qed.

Lemma m_all_none it : m_all it (mret None).
Proof. by apply m_all_ret. Qed.

Lemma m_all_some it a : P it a → m_all it (mret (Some a)).
Proof. intros H. apply m_all_ret. by intros ? [= <-]. Qed.

Lemma m_all_throw it e : m_all it (mthrow e).
Proof. by intros r a. Qed.

Lemma m_all_bind {B} it (m : M R B) k : (∀ b, m_all it (k b)) → m_all it (mbind m k).
Proof.
  intros Hk r a. unfold mbind. destruct (m r) as [[b|e] r1]; [|done]. apply Hk.
Qed.

Lemma m_all_lift it (x : result (option A)) : (∀ a, x = Ok (Some a) → P it a) → m_all it (mlift x).
Proof. intros H r a Ha. apply H. destruct x; cbn in *; congruence. Qed.
End itemwise.

Create HintDb event_types discriminated.
#[export] Hint Resolve m_all_none m_all_some m_all_throw m_all_bind : event_types.
#[export] Hint Constructors shape : event_types.

(** The discipline of an event given by its fields *)
Ltac typed := split; cbn; try reflexivity; eauto with event_types.

Lemma transfer_args_plain from to v :
  transfer_args [("from", PStr from); ("to", PStr to); ("value", PStr (py_str v))].
Proof. exists from, to, v, []. by split. Qed.
#[export] Hint Resolve transfer_args_plain : event_types.

(** ** EVM *)

(** The items of the pipeline, parser by parser *)
Definition evm_items (has_registry : bool) (b : Block) : list item :=
  (FromTx <$> blk_txs b) ++ (FromLog <$> blk_logs b) ++
  if has_registry then (FromLog <$> blk_logs b) ++ (FromTx <$> blk_txs b) else [].

(** A call and what it calls, outermost first *)
Fixpoint call_items (c : InternalCall) : list item := FromCall c :: (ic_calls c ≫= call_items).

Section evm.
Context {R : Type} `{AL : AbiLookup R} (cid : string) (b : Block).
Let ok := well_typed cid (evm_origin b).

Lemma native_well_typed : itemwise ok (FromTx <$> blk_txs b) (evm_native_parse (R:=R) cid b).
Proof.
  apply itemwise_omap. intros tx ev. unfold native_transfer.
  destruct (tx_to_addr tx) as [to|] eqn:Eto; [|done]. destruct (_ || _) eqn:Eg; [done|]. intros [= <-].
  apply orb_false_iff in Eg as [Hv Hs]. apply negb_false_iff, Z.eqb_eq in Hs. apply Z.leb_gt in Hv.
  typed. split_and!; try done. exists to. split; [done|]. by left.
Qed.

Lemma erc20_well_typed : itemwise ok (FromLog <$> blk_logs b) (erc20_parse (R:=R) cid b).
Proof.
  apply itemwise_omap. intros l ev. unfold erc20_try_decode.
  destruct (log_topics l) as [|t0 [|t1 [|t2 [|]]]]; try done; destruct (negb _); try done.
  destruct (Nat.ltb _ _); [done|]. destruct (py_int _ _); [|done]. intros [= <-]. typed.
  split_and!; try done. left.
Qed.

Lemma log_events items (f : Log → M R (option Event)) :
  items = FromLog <$> blk_logs b → (∀ l, m_all ok (FromLog l) (f l)) →
  itemwise ok items (gfor (λ l, gyield_opt (f l)) (blk_logs b)).
Proof.
  intros -> Hf. replace (FromLog <$> blk_logs b) with (blk_logs b ≫= λ l, [FromLog l]).
  - apply itemwise_gfor. intros l _. by apply itemwise_gyield_opt.
  - induction (blk_logs b) as [|l t IH]; [done|]. csimpl. by rewrite IH.
Qed.

Lemma abi_event_well_typed : itemwise ok (FromLog <$> blk_logs b) (abi_event_parse cid b).
Proof.
  apply log_events; [done|]. intros l. unfold abi_handle_log.
  assert (∀ ev, ev_chain_id ev = cid → ok (FromLog l) ev → m_all (R:=R) ok (FromLog l) (mret (Some ev))) as Hret
    by (intros ev _; apply m_all_some).
  destruct (log_topics l); [apply m_all_none|]. apply m_all_bind. intros [[n dec]|].
  - destruct (dec _ _) as [args|[]]; try apply m_all_throw; (apply Hret; [done|]); typed;
      (split_and!; try done; right; left).
  - apply Hret; [done|]. typed. split_and!; try done. right. left.
Qed.

Lemma abi_call_well_typed : itemwise ok (FromTx <$> blk_txs b) (abi_call_parse cid b).
Proof.
  replace (FromTx <$> blk_txs b) with (blk_txs b ≫= λ tx, [FromTx tx])
    by (induction (blk_txs b) as [|l t IH]; [done|]; csimpl; by rewrite IH).
  apply itemwise_gfor. intros tx _. apply itemwise_gyield_opt. unfold abi_handle_tx.
  destruct (negb _) eqn:Es; [apply m_all_none|]. apply negb_false_iff, Z.eqb_eq in Es.
  destruct (tx_to_addr tx) as [to|] eqn:Eto; [|apply m_all_none].
  destruct (Nat.ltb _ _); [apply m_all_none|]. apply m_all_bind. intros [[n dec]|]; [|apply m_all_none].
  destruct (dec _) as [args|[]]; try apply m_all_throw; try apply m_all_none. apply m_all_some. typed.
  split_and!; try done. exists to. split; [done|]. by right.
Qed.

Lemma evm_pipeline_well_typed has_registry :
  itemwise ok (evm_items has_registry b) (pipeline_run (evm_parsers cid has_registry) b).
Proof.
  unfold evm_items, evm_parsers. destruct has_registry.
  - replace ((FromTx <$> blk_txs b) ++ _) with
      (concat [FromTx <$> blk_txs b; FromLog <$> blk_logs b; FromLog <$> blk_logs b; FromTx <$> blk_txs b])
      by (cbn; by rewrite app_nil_r).
    apply itemwise_pipeline. cbn [app].
    repeat (apply Forall2_cons; split); try apply Forall2_nil_2;
      eauto using native_well_typed, erc20_well_typed, abi_event_well_typed, abi_call_well_typed.
  - replace ((FromTx <$> blk_txs b) ++ _) with (concat [FromTx <$> blk_txs b; FromLog <$> blk_logs b])
      by (cbn; by rewrite !app_nil_r).
    apply itemwise_pipeline. cbn [app].
    repeat (apply Forall2_cons; split); try apply Forall2_nil_2; eauto using native_well_typed, erc20_well_typed.
Qed.

Lemma evm_events_chain has_registry r :
  Forall (λ ev, ev_chain_id ev = cid) (pipeline_run (evm_parsers cid has_registry) b r).1.1.
Proof.
  destruct (evm_pipeline_well_typed has_registry r) as (kept & _ & H).
  induction H as [|it ev kept evs H _ IH]; constructor; [apply H|done].
Qed.

Lemma internal_call_typed call :
  m_all ok (FromCall call) (internal_try_decode cid (blk_header b) call).
Proof.
  unfold internal_try_decode. case_bool_decide as Hc.
  - apply m_all_some. typed. split_and!; try done. by rewrite bool_decide_eq_true_2.
  - destruct (Nat.ltb _ _); [apply m_all_none|]. apply m_all_bind.
    intros [[n dec]|]; [|apply m_all_none].
    destruct (dec _) as [args|[]]; try apply m_all_throw; try apply m_all_none.
    apply m_all_some. typed. split_and!; try done. by rewrite bool_decide_eq_false_2.
Qed.

Lemma internal_well_typed traces : itemwise ok (traces ≫= call_items) (internal_call_parse cid traces b).
Proof.
  assert (∀ call depth, itemwise ok (call_items call) (internal_walk cid (blk_header b) depth call)) as Hwalk.
  { fix walk 1. intros [ty from to v gas inp out err calls created] depth.
    cbn [internal_walk call_items]. destruct (MAX_DEPTH <? depth); [apply itemwise_gnil|]. cbn [ic_error ic_calls].
    destruct err; [apply itemwise_gnil|].
    match goal with |- itemwise _ (?it :: ?items) _ => change (it :: items) with ([it] ++ items) end.
    apply itemwise_gapp; [apply itemwise_gyield_opt, internal_call_typed|].
    induction calls as [|c calls IH]; [apply itemwise_gnil|].
    cbn [gfor]. rewrite bind_cons. apply itemwise_gapp; [apply walk|apply IH]. }
  apply itemwise_gfor. intros call _. apply Hwalk.
Qed.
End evm.

(** ** Solana *)

(** The instructions of a block, and the lines of its transactions' logs *)
Definition instructions (b : SolanaBlock) : list item :=
  sb_transactions b ≫= λ tx, FromInstruction tx <$> stx_instructions tx.
Definition log_lines (b : SolanaBlock) : list item :=
  sb_transactions b ≫= λ tx, FromLine tx <$> stx_log_messages tx.

Definition solana_items (has_registry : bool) (b : SolanaBlock) : list item :=
  instructions b ++ instructions b ++ instructions b ++
  if has_registry then log_lines b ++ instructions b else [].

Section solana.
Context {L : AbiLib} {R : Type} {AL : AbiLookup R} (cid : string) (b : SolanaBlock).
Let ok := well_typed cid (solana_origin b).

Lemma each_successful_typed (items : SolanaTransaction → list item) extract :
  (∀ tx, stx_success tx = true → itemwise ok (items tx) (extract b tx)) →
  itemwise ok (sb_transactions b ≫= items) (each_successful (R:=R) extract b).
Proof.
  intros H. apply itemwise_gfor. intros tx _. destruct (stx_success tx) eqn:E; [by apply H|apply itemwise_gnil].
Qed.

(** The loop over the instructions of a transaction *)
Lemma each_instruction_typed tx (f : SolanaInstruction → gen R Event) :
  (∀ ix, itemwise ok [FromInstruction tx ix] (f ix)) →
  itemwise ok (FromInstruction tx <$> stx_instructions tx) (gfor f (stx_instructions tx)).
Proof.
  intros Hf. replace (FromInstruction tx <$> stx_instructions tx) with
    (stx_instructions tx ≫= λ ix, [FromInstruction tx ix])
    by (induction (stx_instructions tx) as [|l t IH]; [done|]; csimpl; by rewrite IH).
  apply itemwise_gfor. intros ix _. apply Hf.
Qed.

Lemma instruction_event_typed tx ix kind contract name args raw :
  stx_success tx = true → (ix_stack_depth ix =? 1) = true → shape kind contract name args →
  ok (FromInstruction tx ix) (sol_event cid b tx kind contract name args raw).
Proof. intros H1 H2%Z.eqb_eq H3. split; cbn; try done. Qed.

Lemma sol_native_typed : itemwise ok (instructions b) (sol_native_parse (R:=R) cid b).
Proof.
  apply each_successful_typed. intros tx Htx. apply itemwise_omap. intros ix ev. unfold sol_transfer_ix.
  destruct (negb _); [done|]. destruct (negb (ix_stack_depth ix =? 1)) eqn:Ed; [done|]. apply negb_false_iff in Ed.
  destruct (sol_decode_transfer ix); [|done].
  destruct (ix_accounts ix) as [|x [|y l]]; try done. intros [= <-]. apply instruction_event_typed; [done..|].
  constructor. apply transfer_args_plain.
Qed.

Lemma spl_transfer_typed : itemwise ok (instructions b) (spl_transfer_parse (R:=R) cid b).
Proof.
  apply each_successful_typed. intros tx Htx. apply each_instruction_typed. intros ix.
  apply itemwise_gyield_opt, m_all_lift. intros ev. unfold spl_transfer_ix.
  destruct (negb _); [done|]. destruct (negb (ix_stack_depth ix =? 1)) eqn:Ed; [done|]. apply negb_false_iff in Ed.
  destruct (spl_decode ix tx) as [[[[[[from to] amount] mint] fee]|]|]; cbn [rbind]; try done.
  intros [= <-]. apply instruction_event_typed; [done..|]. constructor. exists from, to, amount.
  exists (("mint", PStr mint) :: match fee with Some f => [("fee", PStr (py_str f))] | None => [] end).
  split; [done|]. destruct fee; repeat constructor; set_solver.
Qed.

Lemma spl_ops_typed : itemwise ok (instructions b) (spl_ops_parse (R:=R) cid b).
Proof.
  apply each_successful_typed. intros tx Htx. apply each_instruction_typed. intros ix.
  apply itemwise_gyield_opt, m_all_lift. intros ev. unfold spl_ops_ix.
  destruct (negb _); [done|]. destruct (negb (ix_stack_depth ix =? 1)) eqn:Ed; [done|]. apply negb_false_iff in Ed.
  destruct (spl_ops_decode ix tx) as [[[[name mint] args]|]|]; cbn [rbind]; try done.
  intros [= <-]. apply instruction_event_typed; [done..|constructor].
Qed.

Lemma anchor_event_typed : itemwise ok (log_lines b) (anchor_event_parse cid b).
Proof.
  apply each_successful_typed. intros tx Htx. generalize (@nil string) as stack.
  induction (stx_log_messages tx) as [|line lines IH]; intros stack; cbn [anchor_extract];
    [apply itemwise_gnil|].
  assert (∀ g : gen R Event, itemwise ok (FromLine tx <$> lines) g → itemwise ok (FromLine tx <$> line :: lines) g) as Hskip.
  { intros g Hg r. destruct (Hg r) as (kept & Hk & HP). exists kept. split; [by apply sublist_cons|done]. }
  destruct (match_invoke line); [apply Hskip, IH|]. destruct (_ && _); [apply Hskip, IH|].
  destruct stack as [|pid stack]; [apply Hskip, IH|]. destruct (startswith _ _); [|apply Hskip, IH].
  change (FromLine tx <$> line :: lines) with ([FromLine tx line] ++ (FromLine tx <$> lines)).
  apply itemwise_gapp; [|apply IH]. apply itemwise_gyield_opt. unfold anchor_try_decode.
  destruct (b64decode _) as [raw|]; [|apply m_all_none]. destruct (Nat.ltb _ _); [apply m_all_none|].
  apply m_all_bind. intros [[n struct]|]; [|apply m_all_none].
  destruct (decode_anchor_borsh _ _) as [args|[]]; try apply m_all_throw;
    (apply m_all_some; split; cbn; try done; constructor).
Qed.

Lemma anchor_call_typed : itemwise ok (instructions b) (anchor_call_parse cid b).
Proof.
  apply each_successful_typed. intros tx Htx. apply each_instruction_typed. intros ix.
  destruct (negb _) eqn:Ed; [apply itemwise_gnil|]. apply negb_false_iff in Ed.
  apply itemwise_gyield_opt. unfold anchor_call_try_decode.
  destruct (b58decode _) as [data|]; [|apply m_all_none]. destruct (Nat.ltb _ _); [apply m_all_none|].
  apply m_all_bind. intros [[n struct]|]; [|apply m_all_none].
  destruct (decode_anchor_borsh _ _) as [args|[]]; try apply m_all_throw; try apply m_all_none.
  apply m_all_some, instruction_event_typed; [done..|constructor].
Qed.

Lemma solana_pipeline_well_typed has_registry :
  itemwise ok (solana_items has_registry b) (pipeline_run (solana_parsers cid has_registry) b).
Proof.
  unfold solana_items, solana_parsers. destruct has_registry.
  - replace (instructions b ++ _) with
      (concat [instructions b; instructions b; instructions b; log_lines b; instructions b])
      by (cbn; by rewrite app_nil_r).
    apply itemwise_pipeline. cbn [app]. repeat (apply Forall2_cons; split); try apply Forall2_nil_2;
      eauto using sol_native_typed, spl_transfer_typed, spl_ops_typed, anchor_event_typed, anchor_call_typed.
  - replace (instructions b ++ _) with (concat [instructions b; instructions b; instructions b])
      by (cbn; by rewrite !app_nil_r).
    apply itemwise_pipeline. cbn [app]. repeat (apply Forall2_cons; split); try apply Forall2_nil_2;
      eauto using sol_native_typed, spl_transfer_typed, spl_ops_typed.
Qed.
End solana.

(** C12 Every event is well typed and says where it comes from.  Whatever the block, the lookups and their decoders, the
    events a pipeline or the call-trace parser yields correspond one to one, in order, to some of the items of
    the block: for the EVM pipeline to the transactions, the logs, the logs and the transactions that its parsers go
    through in turn, for Solana to the instructions and the log lines, for traces to the calls, outermost first.  Each
    event names the chain and the block, and of its own item the transaction (its hash, with the index for
    a transaction; for a log the hash and log index it carries; the signature of a successful transaction on Solana; nothing
    for a traced call) and on EVM the contract, or the parties and value.  Its kind fixes its fields: transfers
    name both parties and a decimal value first, token transfers and decoded events a contract and a name, calls a
    function, and an undecoded event has neither name nor arguments. *)
Theorem events_well_typed `{L : AbiLib} {R} {AL : AbiLookup R} cid has_registry (r : R) :
  (∀ b, per_item (well_typed cid (evm_origin b)) (evm_items has_registry b)
     (pipeline_run (evm_parsers cid has_registry) b r).1.1) ∧
  (∀ b, per_item (well_typed cid (solana_origin b)) (solana_items has_registry b)
     (pipeline_run (solana_parsers cid has_registry) b r).1.1) ∧
  (∀ b traces, per_item (well_typed cid (evm_origin b)) (traces ≫= call_items)
     (internal_call_parse cid traces b r).1.1).
Proof.
  split; [|split].
  - intros b. apply evm_pipeline_well_typed.
  - intros b. apply solana_pipeline_well_typed.
  - intros b traces. apply internal_well_typed.
Qed.
