(* ===== verification/FilterSet.v ===== *)
(** * The server-side log filter (core/matcher/filter_set.py)

    [build_evm_log_filter] derives the [eth_getLogs] filter of a chain from the
    snapshot and the registry.  The main theorem relates it to the other end of the
    pipeline: what it filters out, the parsers and the matcher would not have turned
    into a notification. *)
From S2P Require Import Prelude PyStr PyVal Types Snapshot Filters Matcher Decoder AbiLookup.
From S2P Require Import Registry Pipeline EvmParsers.

(** ** Operations *)

Record EvmLogFilterSet := mkFilterSet {
  fs_addresses : option (list string);
  fs_topic0s : option (list string);
  fs_skip_logs : bool;
}.

(** [topics_param] *)
Definition topics_param (f : EvmLogFilterSet) : option (list (list string)) :=
  match fs_topic0s f with
  | Some ((_ :: _) as l) => Some [l]
  | _ => None
  end.

Definition LOG_CONSUMING_KINDS : list string := ["event"; "token_transfer"].

(** [sorted(set)] *)
Definition sorted_set (s : gset string) : list string := merge_sort String.le (elements s).

(** [_collect_topic0s] *)
Fixpoint collect_topic0s (relevant : list SnapshotSubscription) (abi_registry : option AbiRegistry)
    (out : gset string) : option (gset string) :=
  match relevant with
  | [] => Some out
  | s :: t =>
      if String.eqb (sub_match_kind s) "token_transfer" then
        collect_topic0s t abi_registry ({[ERC20_TRANSFER_TOPIC0]} ∪ out)
      else
        match sub_abi_id s, sub_match_name s, abi_registry with
        | Some aid, Some name, Some reg =>
            match event_topic0_for reg aid name with
            | None => None
            | Some t0 => collect_topic0s t abi_registry ({[t0]} ∪ out)
            end
        | _, _, _ => None
        end
  end.

Definition relevant_subs (s : ConfigSnapshot) (cid : string) : list SnapshotSubscription :=
  filter (λ x, sub_match_kind x ∈ LOG_CONSUMING_KINDS) (subscriptions_for_chain s cid).

Definition build_evm_log_filter (s : ConfigSnapshot) (cid : string)
    (abi_registry : option AbiRegistry) : EvmLogFilterSet :=
  let relevant := relevant_subs s cid in
  match relevant with
  | [] => mkFilterSet None None true
  | _ =>
      let addresses :=
        if existsb (λ x, match sub_address x with None => true | Some _ => false end) relevant
        then None
        else Some (sorted_set (list_to_set (omap (λ x, lower <$> sub_address x) relevant))) in
      let topic0s := sorted_set <$> collect_topic0s relevant abi_registry ∅ in
      mkFilterSet addresses topic0s false
  end.

(** ** What the filter selects

    The documented meaning of [eth_getLogs]: an address list and a list of
    candidates for topic 0, both compared as hex without case; an omitted one does
    not filter. *)
Definition selects (f : EvmLogFilterSet) (l : Log) : bool :=
  negb (fs_skip_logs f) &&
  match fs_addresses f with
  | None => true
  | Some a => bool_decide (lower (log_address l) ∈ lower <$> a)
  end &&
  match topics_param f with
  | Some (t0s :: _) =>
      match log_topics l with
      | [] => false
      | t0 :: _ => bool_decide (lower t0 ∈ lower <$> t0s)
      end
  | _ => true
  end.

(** ** Lemmas *)

Lemma elem_of_sorted_set x s : x ∈ sorted_set s ↔ x ∈ s.
Proof. unfold sorted_set. by rewrite merge_sort_Permutation, elem_of_elements. Qed.

Lemma sorted_set_sorted s : Sorted String.le (sorted_set s) ∧ NoDup (sorted_set s).
Proof.
  split; [apply Sorted_merge_sort; apply _|].
  unfold sorted_set. rewrite merge_sort_Permutation. apply NoDup_elements.
Qed.

Lemma collect_topic0s_incl relevant reg out T :
  collect_topic0s relevant reg out = Some T → out ⊆ T.
Proof.
  revert out. induction relevant as [|s l IH]; simpl; intros out HT; [by simplify_eq|].
  repeat case_match; try done; apply IH in HT; set_solver.
Qed.

(** What a collected set contains for each subscription. *)
Lemma collect_topic0s_sub relevant reg out T s :
  collect_topic0s relevant reg out = Some T → s ∈ relevant →
  (sub_match_kind s = "token_transfer" ∧ ERC20_TRANSFER_TOPIC0 ∈ T) ∨
  (sub_match_kind s ≠ "token_transfer" ∧ ∃ aid n r t0, sub_abi_id s = Some aid ∧
    sub_match_name s = Some n ∧ reg = Some r ∧ event_topic0_for r aid n = Some t0 ∧ t0 ∈ T).
Proof.
  revert out. induction relevant as [|x l IH]; simpl; intros out HT Hs; [set_solver|].
  destruct (String.eqb_spec (sub_match_kind x) "token_transfer") as [Hk|Hk].
  - apply elem_of_cons in Hs as [->|Hs]; [|by eapply IH].
    apply collect_topic0s_incl in HT. left. set_solver.
  - destruct (sub_abi_id x) as [aid|] eqn:Ha; [|done].
    destruct (sub_match_name x) as [n|] eqn:Hn; [|done]. destruct reg as [r|]; [|done].
    destruct (event_topic0_for r aid n) as [t0|] eqn:Ht; [|done].
    apply elem_of_cons in Hs as [->|Hs]; [|by eapply IH].
    apply collect_topic0s_incl in HT. right. split; [done|]. exists aid, n, r, t0. set_solver.
Qed.

Lemma topic0_for_elem idx aid n t0 :
  topic0_for idx aid n = Some t0 → (t0, (aid, n)) ∈ idx.
Proof.
  induction idx as [|[t [a m]] idx IH]; simpl; [done|].
  destruct (String.eqb_spec a aid), (String.eqb_spec m n); simpl; intros; simplify_eq; set_solver.
Qed.

Lemma addr_norm_lower a b : addr_norm a = addr_norm (lower b) → lower a = lower b.
Proof.
  unfold addr_norm. intros Heq.
  assert ((if startswith (lower b) "0x" then lower (lower b) else lower b) = lower b) as Hb.
  { destruct (startswith (lower b) "0x"); [apply lower_idemp|done]. }
  rewrite Hb in Heq. destruct (startswith a "0x"); [done|]. by rewrite Heq, lower_idemp.
Qed.

(** The two ways a log becomes an event. *)
Inductive log_yields `{!AbiLib} (cid : string) (h : BlockHeader) (tx_idx : gmap string Z)
    (reg : option AbiRegistry) (l : Log) : Event → Prop :=
  | yields_erc20 ev : erc20_try_decode cid h tx_idx l = Some ev → log_yields cid h tx_idx reg l ev
  | yields_abi r ev : reg = Some r → (abi_handle_log cid h l r).1 = Ok (Some ev) →
      log_yields cid h tx_idx reg l ev.

Section completeness.
Context {L : AbiLib} {LL : AbiLibLaws}.

(** No two indexed events share a name. *)
Definition names_unique (r : AbiRegistry) : Prop :=
  ∀ t0 t0' aid aid' n, dget t0 (reg_topic0_index r) = Some (aid, n) →
    dget t0' (reg_topic0_index r) = Some (aid', n) → t0 = t0'.

Lemma abi_event_cases cid h l r ev :
  coherent r → (abi_handle_log cid h l r).1 = Ok (Some ev) →
  ev_kind ev = "event" ∧ ev_contract ev = Some (lower (log_address l)) ∧
  ev_chain_id ev = cid ∧
  ∃ t0 ts, log_topics l = t0 :: ts ∧
    (ev_name ev = None ∨
     ∃ aid n, ev_name ev = Some n ∧ dget (lower t0) (reg_topic0_index r) = Some (aid, n)).
Proof.
  intros Hco. unfold abi_handle_log. destruct (log_topics l) as [|t0 ts] eqn:Ht; [done|].
  unfold mbind. pose proof (proj1 (registry_al_event t0 r Hco)) as Hans.
  destruct (al_event t0 r) as [res r']. cbn [fst] in Hans. subst res.
  unfold event_answer. destruct (dget (lower t0) (reg_topic0_index r)) as [[aid n]|] eqn:Hi; simpl.
  2: { intros [= <-]. simpl. split_and!; try done. eauto 10. }
  destruct (get_event_decoder aid t0 r) as [[d|e] r2]; simpl; [|done].
  destruct (run_event_decoder d _ _) as [args|[]]; simpl; intros [= <-]; simpl;
    (split_and!; [done..|]); exists t0, ts; (split; [done|]); [right|left]; eauto.
Qed.

Lemma erc20_cases cid h tx_idx l ev :
  erc20_try_decode cid h tx_idx l = Some ev →
  ev_kind ev = "token_transfer" ∧ ev_contract ev = Some (lower (log_address l)) ∧
  ev_chain_id ev = cid ∧
  ∃ t0 ts, log_topics l = t0 :: ts ∧ lower t0 = ERC20_TRANSFER_TOPIC0.
Proof.
  unfold erc20_try_decode. destruct (log_topics l) as [|t0 ts]; [done|].
  destruct (String.eqb_spec (lower t0) ERC20_TRANSFER_TOPIC0) as [He|]; [|done].
  intros Hev. simpl in Hev. repeat case_match; try done. simplify_eq/=. split_and!; eauto.
Qed.

(** What both ways have in common. *)
Lemma log_yields_cases cid h tx_idx reg l ev :
  (∀ r, reg = Some r → coherent r) → log_yields cid h tx_idx reg l ev →
  ev_contract ev = Some (lower (log_address l)) ∧ ev_chain_id ev = cid ∧
  ∃ t0 ts, log_topics l = t0 :: ts ∧
    (ev_kind ev = "token_transfer" ∧ lower t0 = ERC20_TRANSFER_TOPIC0 ∨
     ev_kind ev = "event" ∧ (ev_name ev = None ∨ ∃ r aid n, reg = Some r ∧ ev_name ev = Some n ∧
       dget (lower t0) (reg_topic0_index r) = Some (aid, n))).
Proof.
  intros Hco [ev' He|r ev' -> He].
  - apply erc20_cases in He as (?&?&?&t0&ts&?&?). eauto 10.
  - apply abi_event_cases in He as (?&?&?&t0&ts&?&[?|(aid&n&?&?)]); [| |by apply Hco];
      (split_and!; [done..|]); exists t0, ts; (split; [done|]); right; eauto 10.
Qed.

Lemma wanted_relevant s cid sub ev :
  sub ∈ snap_subscriptions s → wants sub ev → ev_chain_id ev = cid →
  ev_kind ev ∈ LOG_CONSUMING_KINDS → sub ∈ relevant_subs s cid.
Proof.
  intros Hin [] Hc Hk. unfold relevant_subs, subscriptions_for_chain.
  rewrite !list_elem_of_filter. split; [congruence|]. split; [|done]. split; congruence.
Qed.

(** The address part: a wanted event's log is at one of the listed addresses. *)
Lemma address_selected relevant sub a c :
  sub ∈ relevant → sub_address sub = Some a → lower a = lower c →
  lower c ∈ lower <$> sorted_set (list_to_set (omap (λ x, lower <$> sub_address x) relevant)).
Proof.
  intros Hin Ha Heq. apply list_elem_of_fmap. exists (lower a).
  split; [by rewrite lower_idemp|]. apply elem_of_sorted_set, elem_of_list_to_set.
  apply list_elem_of_omap. exists sub. by rewrite Ha.
Qed.

Lemma sorted_set_cons T x : x ∈ T → ∃ y l, sorted_set T = y :: l.
Proof.
  intros Hx%elem_of_sorted_set. destruct (sorted_set T); [by apply elem_of_nil in Hx|eauto].
Qed.

(** The server-side filter loses nothing: whenever a log that the filter does
    not select would still be parsed into an event (ERC-20 or ABI), no enabled
    subscription wants that event, so dropping it at the node loses no notification.
    The names in the registry's event index must be unique. *)
Lemma log_filter_complete s cid reg h tx_idx l ev sub :
  (∀ r, reg = Some r → coherent r ∧ names_unique r) →
  log_yields cid h tx_idx reg l ev →
  selects (build_evm_log_filter s cid reg) l = false →
  sub ∈ snap_subscriptions s → ¬ wants sub ev.
Proof.
  intros Hreg Hev Hsel Hin Hw.
  apply log_yields_cases in Hev as (Hc&Hcid&t0&ts&Ht&Hkind); [|naive_solver].
  assert (sub ∈ relevant_subs s cid) as Hrel.
  { eapply wanted_relevant; [done..|]. unfold LOG_CONSUMING_KINDS. set_solver. }
  enough (selects (build_evm_log_filter s cid reg) l = true) by congruence.
  unfold build_evm_log_filter. destruct (relevant_subs s cid) as [|x rel] eqn:Hr; [set_solver|].
  rewrite <- Hr in *. clear x rel Hr. unfold selects. cbn [fs_skip_logs negb andb].
  apply andb_true_iff. split.
  - cbn [fs_addresses]. destruct (existsb _ _) eqn:Hex; [done|].
    destruct (sub_address sub) as [a|] eqn:Ha.
    + destruct (wants_address _ _ Hw a Ha) as (c&Hc'&Heq). simplify_eq.
      apply bool_decide_eq_true, (address_selected _ sub a); [done..|]. by apply addr_norm_lower.
    + exfalso. apply not_true_iff_false in Hex. apply Hex, existsb_exists. exists sub.
      split; [by apply list_elem_of_In|]. by rewrite Ha.
  - unfold topics_param. cbn [fs_topic0s].
    destruct (collect_topic0s _ _ _) as [T|] eqn:HT; [|done]. cbn.
    enough (lower t0 ∈ T ∧ lower (lower t0) = lower t0) as [HinT Hl].
    { destruct (sorted_set_cons T _ HinT) as (y&l'&Hs). rewrite Hs, Ht. apply bool_decide_eq_true.
      rewrite <- Hs. apply list_elem_of_fmap. exists (lower t0). by rewrite elem_of_sorted_set. }
    split; [|apply lower_idemp].
    pose proof (wants_kind _ _ Hw) as Hwk.
    destruct (collect_topic0s_sub _ _ _ _ _ HT Hrel)
      as [[Hk HE]|[Hk (aid&n&r&t&Haid&Hn&->&Hfor&HtT)]]; destruct Hkind as [[Hek Hel]|[Hek Hname]];
      [congruence|congruence|congruence|].
    pose proof (wants_name _ _ Hw n Hn) as Hen.
    destruct Hname as [Hno|(r'&aid'&n'&[= <-]&Hn'&Hi)]; [congruence|]. simplify_eq.
    destruct (Hreg r eq_refl) as [Hco Huniq].
    apply topic0_for_elem in Hfor. apply (elem_of_dget _ _ _) in Hfor.
    + by rewrite (Huniq _ _ _ _ _ Hi Hfor).
    + by apply (rebuild_index_declared "event" event_topic0 _ _ (co_topic0_index r Hco)).
Qed.

(** An overloaded event is fetched under one signature only: for a subscription
    on an event name that the index holds under several topics, the filter asks for
    the first topic alone.  A log with another topic of that name is not selected,
    although it would be decoded under this very name and the subscription wants it. *)
Lemma overloaded_event_not_fetched s cid r h l sub aid n t1 t0 ts dec args :
  relevant_subs s cid = [sub] → sub_match_kind sub = "event" → sub_abi_id sub = Some aid →
  sub_match_name sub = Some n → sub_address sub = None → sub_start_block sub = None →
  sub_arg_filters sub = [] → event_topic0_for r aid n = Some t1 →
  log_topics l = t0 :: ts → lower t0 ≠ lower t1 →
  (al_event t0 r).1 = Ok (Some (n, dec)) → dec (log_topics l) (log_data l) = Ok args →
  selects (build_evm_log_filter s cid (Some r)) l = false ∧
  ∃ ev, (abi_handle_log cid h l r).1 = Ok (Some ev) ∧ wants sub ev.
Proof.
  intros Hrel Hk Haid Hn Ha Hsb Hf Hfor Ht Hne Hlook Hdec. split.
  - unfold selects. apply andb_false_iff. right. unfold build_evm_log_filter. rewrite Hrel.
    cbn [collect_topic0s]. rewrite Hk, Haid, Hn, Hfor. cbn.
    unfold topics_param. cbn [fs_topic0s].
    destruct (sorted_set ({[t1]} ∪ ∅)) as [|y l'] eqn:Hs.
    { assert (t1 ∈ sorted_set ({[t1]} ∪ ∅)) as Hin by (apply elem_of_sorted_set; set_solver).
      rewrite Hs in Hin. by apply elem_of_nil in Hin. }
    rewrite Ht. apply bool_decide_eq_false. intros (x&Hx&Hin)%list_elem_of_fmap.
    rewrite <- Hs, elem_of_sorted_set in Hin. assert (x = t1) as -> by set_solver. done.
  - exists (abi_decoded cid h l n args). split.
    + unfold abi_handle_log. rewrite Ht. unfold mbind. destruct (al_event t0 r) as [res r'].
      cbn [fst] in Hlook. subst res. by rewrite <- Ht, Hdec.
    + assert (sub ∈ relevant_subs s cid) as Hin by (rewrite Hrel; left).
      unfold relevant_subs, subscriptions_for_chain in Hin. rewrite !list_elem_of_filter in Hin.
      destruct Hin as (_&[Hc He]&_). constructor; simpl; try done; try congruence.
      rewrite Hf. constructor.
Qed.
End completeness.

(** ** Witnesses *)
Module FilterSample.
#[local] Existing Instance ToyLib.lib.
#[local] Existing Instance ToyLib.laws.

(** [Paid(uint256)], an overload of [ToyLib.paid_event] *)
Definition paid_overload : pyval :=
  PDict [("type", PStr "event"); ("name", PStr "Paid");
         ("inputs", PList [ToyLib.input "value" "uint256" false])].

Definition sub : SnapshotSubscription :=
  mkSub "s1" "payments" "eth" None (Some "token") "event" (Some "Paid") [] true ["c1"] None None.
Definition snap (body : pyval) : ConfigSnapshot :=
  mkSnapshot 1 [sub] [] [] [mkAbi "token" "Token" "evm_abi" body].
Definition reg (body : pyval) : AbiRegistry := (refresh (snap body) AbiRegistry_init).2.

Definition plain : pyval := PList [ToyLib.paid_event].
Definition overloaded : pyval := PList [ToyLib.paid_event; paid_overload].

Definition header : BlockHeader := mkHeader 5 "0xb5" "0xb4" 1000.
Definition transfer : Log :=
  erc20_transfer_log "0xaa" "0xT" ERC20_TRANSFER_TOPIC0 0 5 (replicate 12 x00)
    (replicate 20 x11) (replicate 20 x22) 7 "".
Definition overload_log : Log :=
  mkLog "0xbb" 1 "0xC" ["0x" +:+ bytes_hex (ToyLib.pack 32 "Paid(uint256)")]
    ("0x" +:+ ToyLib.word 9) 5.

Lemma reg_coherent body : (refresh (snap body) AbiRegistry_init).1 = Ok tt → coherent (reg body).
Proof.
  intros Hok. apply (refresh_coherent (snap body) AbiRegistry_init tt); [apply coherent_init|].
  unfold reg. by rewrite <- Hok, <- surjective_pairing.
Qed.

(** An ERC-20 transfer on a chain whose only subscription is on [Paid] is not
    selected, and rightly so. *)
Lemma log_filter_complete_witness :
  ∃ ev, log_yields "eth" header ∅ (Some (reg plain)) transfer ev ∧ ¬ wants sub ev.
Proof.
  eexists. split.
  - apply (yields_erc20 "eth" header ∅ (Some (reg plain)) transfer). vm_compute. reflexivity.
  - eapply (@log_filter_complete ToyLib.lib ToyLib.laws (snap plain) "eth" (Some (reg plain))
      header ∅ transfer).
    + intros r [= <-]. split; [apply reg_coherent; vm_compute; reflexivity|].
      intros t0 t0' aid aid' n H1%dget_elem_of H2%dget_elem_of. vm_compute in H1, H2.
      apply list_elem_of_In in H1, H2. simpl in H1, H2. naive_solver.
    + apply (yields_erc20 "eth" header ∅ (Some (reg plain)) transfer). vm_compute. reflexivity.
    + vm_compute. reflexivity.
    + left.
Defined.

Lemma overloaded_event_not_fetched_witness :
  selects (build_evm_log_filter (snap overloaded) "eth" (Some (reg overloaded))) overload_log = false
  ∧ ∃ ev, (abi_handle_log "eth" header overload_log (reg overloaded)).1 = Ok (Some ev) ∧
    wants sub ev.
Proof.
  apply (@overloaded_event_not_fetched ToyLib.lib ToyLib.laws (snap overloaded) "eth" (reg overloaded) header
    overload_log sub "token" "Paid" ToyLib.paid_topic0
    ("0x" +:+ bytes_hex (ToyLib.pack 32 "Paid(uint256)")) []
    (run_event_decoder (EventDecoder paid_overload)) [("value", PStr "9")]);
    try reflexivity; try (vm_compute; reflexivity).
  vm_compute. discriminate.
Defined.
End FilterSample.
