(* ===== verification/RpcPool.v ===== *)
(** * The RPC endpoint pool (core/chains/rpc_pool.py)

    Endpoints are tried in priority order; an endpoint that failed
    [failure_threshold] times in a row is skipped until its cooldown ends, unless all
    are cooling down.  Times are integers in an arbitrary unit read from the world's
    monotonic clock.  [attempt h] is one awaited request bounded by the timeout: it
    runs in the world together with the pool, since other calls may use the pool
    while it is awaited. *)
From S2P Require Import Prelude PyStr.

(** ** State *)

Record EndpointState (H : Type) := mkEp {
  ep_handle : H;
  ep_index : nat;
  ep_consecutive_failures : Z;
  ep_unhealthy_until : Z;
}.
Arguments mkEp {H}. Arguments ep_handle {H}. Arguments ep_index {H}.
Arguments ep_consecutive_failures {H}. Arguments ep_unhealthy_until {H}.

Record EndpointPool (H : Type) := mkPool {
  pool_failure_threshold : Z;
  pool_cooldown : Z;
  pool_eps : list (EndpointState H);
  pool_up : gmap nat Z;        (** gauge RPC_ENDPOINT_UP by endpoint index *)
  pool_failovers : Z;          (** counter RPC_FAILOVER_TOTAL *)
}.
Arguments mkPool {H}. Arguments pool_failure_threshold {H}. Arguments pool_cooldown {H}.
Arguments pool_eps {H}. Arguments pool_up {H}. Arguments pool_failovers {H}.

Section pool.
Context {H : Type}.
Implicit Types (p : EndpointPool H) (ep : EndpointState H).

(** ** Operations *)

Definition pool_init (handles : list H) (failure_threshold cooldown : Z)
    : result (EndpointPool H) :=
  match handles with
  | [] => Err (ValueError "EndpointPool requires at least one endpoint")
  | _ => Ok (mkPool failure_threshold cooldown (imap (λ i h, mkEp h i 0 0) handles)
               (list_to_map ((λ i, (i, 1)) <$> seq 0 (length handles))) 0)
  end.

Definition pool_handles p : list H := ep_handle <$> pool_eps p.

(** [_candidates]: an endpoint object is named by its index, its position *)
Definition candidates p (now : Z) : list nat :=
  ep_index <$> match filter (λ e, ep_unhealthy_until e <= now) (pool_eps p) with
               | [] => pool_eps p
               | healthy => healthy
               end.

Definition set_ep p (i : nat) ep (up : gmap nat Z) : EndpointPool H :=
  mkPool (pool_failure_threshold p) (pool_cooldown p) (<[i := ep]> (pool_eps p)) up
    (pool_failovers p).

(** [_mark_success] *)
Definition mark_success (i : nat) p : EndpointPool H :=
  match pool_eps p !! i with
  | Some ep =>
      if negb (ep_consecutive_failures ep =? 0) || negb (ep_unhealthy_until ep =? 0) then
        set_ep p i (mkEp (ep_handle ep) (ep_index ep) 0 0) (<[ep_index ep := 1]> (pool_up p))
      else p
  | None => p
  end.

(** [_mark_failure], at clock [now] *)
Definition mark_failure (i : nat) (now : Z) p : EndpointPool H :=
  match pool_eps p !! i with
  | Some ep =>
      let n := ep_consecutive_failures ep + 1 in
      if pool_failure_threshold p <=? n then
        set_ep p i (mkEp (ep_handle ep) (ep_index ep) n (now + pool_cooldown p))
          (<[ep_index ep := 0]> (pool_up p))
      else set_ep p i (mkEp (ep_handle ep) (ep_index ep) n (ep_unhealthy_until ep)) (pool_up p)
  | None => p
  end.

Definition count_failover p : EndpointPool H :=
  mkPool (pool_failure_threshold p) (pool_cooldown p) (pool_eps p) (pool_up p)
    (pool_failovers p + 1).

Section call.
Context {W T : Type} (monotonic : W → Z) (attempt : H → M (EndpointPool H * W) T).

(** The loop of [call] over the candidates that remain *)
Fixpoint call_loop (n : nat) (cands : list nat) (last_exc : option exn)
    : M (EndpointPool H * W) T := λ s,
  match cands with
  | [] => (Err (AllEndpointsFailed ("all " +:+ py_str (Z.of_nat n) +:+ " endpoints failed")
                  last_exc), s)
  | i :: rest =>
      match pool_eps s.1 !! i with
      | None => (Err (OtherError "IndexError" ""), s)
      | Some ep =>
          match attempt (ep_handle ep) s with
          | (Ok result, (p, w)) => (Ok result, (mark_success i p, w))
          | (Err exc, (p, w)) =>
              let p := mark_failure i (monotonic w) p in
              let p := match rest with [] => p | _ => count_failover p end in
              call_loop n rest (Some exc) (p, w)
          end
      end
  end.

Definition call : M (EndpointPool H * W) T := λ s,
  let cands := candidates s.1 (monotonic s.2) in
  call_loop (length cands) cands None s.
End call.

(** ** Well-formed pools *)

(** Positions name endpoints, an endpoint is unhealthy exactly when it has reached
    the threshold, and the gauge says so. *)
Definition ep_wf (threshold : Z) (up : gmap nat Z) (i : nat) ep : Prop :=
  ep_index ep = i ∧ 0 <= ep_consecutive_failures ep ∧
  (ep_consecutive_failures ep < threshold → ep_unhealthy_until ep = 0) ∧
  up !! i = Some (if threshold <=? ep_consecutive_failures ep then 0 else 1).

Definition pool_wf p : Prop :=
  pool_eps p ≠ [] ∧ 1 <= pool_failure_threshold p ∧
  ∀ i ep, pool_eps p !! i = Some ep → ep_wf (pool_failure_threshold p) (pool_up p) i ep.

Lemma pool_init_wf handles threshold cooldown p :
  1 <= threshold → pool_init handles threshold cooldown = Ok p →
  pool_wf p ∧ pool_handles p = handles.
Proof.
  intros Ht. unfold pool_init. destruct handles as [|h hs] eqn:Hh; [done|]. rewrite <- Hh.
  intros [= <-]. split.
  - split; [by subst|]. split; [done|]. cbn [pool_eps pool_failure_threshold pool_up]. intros i ep.
    rewrite list_lookup_imap. intros (x&Hx&->)%fmap_Some. unfold ep_wf. simpl. split_and!; try done.
    rewrite (proj2 (Z.leb_gt _ _)) by lia. apply elem_of_list_to_map_1.
    + rewrite <- list_fmap_compose, list_fmap_id. apply NoDup_seq.
    + apply list_elem_of_fmap. exists i. split; [done|]. apply elem_of_seq.
      apply lookup_lt_Some in Hx. lia.
  - unfold pool_handles. cbn [pool_eps]. clear. 
    apply list_eq. intros i. rewrite list_lookup_fmap, list_lookup_imap.
    by destruct (handles !! i).
Qed.

Lemma set_ep_wf p i ep ep' up :
  pool_wf p → pool_eps p !! i = Some ep →
  ep_wf (pool_failure_threshold p) up i ep' →
  (∀ j, j ≠ i → up !! j = pool_up p !! j) → pool_wf (set_ep p i ep' up).
Proof.
  intros (Hne&Ht&Hw) Hi He Hup. split; [|split; [done|]].
  - simpl. intros Hnil. apply (f_equal length) in Hnil. rewrite length_insert in Hnil.
    by destruct (pool_eps p).
  - simpl. intros j e. rewrite list_lookup_insert_Some.
    intros [(->&<-&_)|[Hj Hl]]; [done|].
    destruct (Hw j e Hl) as (?&?&?&Hu). unfold ep_wf. rewrite Hup by done. done.
Qed.

Lemma mark_success_wf i p : pool_wf p → pool_wf (mark_success i p).
Proof.
  intros Hw. unfold mark_success. destruct (pool_eps p !! i) as [ep|] eqn:Hi; [|done].
  destruct (_ || _); [|done]. pose proof Hw as (Hne&Ht&Heps). destruct (Heps i ep Hi) as (Hx&_).
  eapply set_ep_wf; [done..| |].
  - unfold ep_wf. simpl. rewrite Hx, lookup_insert_eq, (proj2 (Z.leb_gt _ _)) by lia.
    by split_and!.
  - intros j Hj. by rewrite Hx, lookup_insert_ne.
Qed.

Lemma mark_failure_wf i now p : pool_wf p → pool_wf (mark_failure i now p).
Proof.
  intros Hw. unfold mark_failure. destruct (pool_eps p !! i) as [ep|] eqn:Hi; [|done].
  pose proof Hw as (Hne&Ht&Heps). destruct (Heps i ep Hi) as (Hx&Hn&Hz&Hu).
  destruct (Z.leb_spec (pool_failure_threshold p) (ep_consecutive_failures ep + 1)) as [Hle|Hgt].
  - eapply set_ep_wf; [done..| |].
    + unfold ep_wf. simpl. rewrite Hx, lookup_insert_eq, (proj2 (Z.leb_le _ _)) by lia.
      split_and!; [done|lia|lia|done].
    + intros j Hj. by rewrite Hx, lookup_insert_ne.
  - eapply set_ep_wf; [done..| |done]. unfold ep_wf. simpl.
    rewrite (proj2 (Z.leb_gt _ _)) by lia. rewrite (proj2 (Z.leb_gt _ _)) in Hu by lia.
    split_and!; [done|lia|intros; apply Hz; lia|done].
Qed.

Lemma mark_success_handles i p : pool_handles (mark_success i p) = pool_handles p.
Proof.
  unfold mark_success. destruct (pool_eps p !! i) as [ep|] eqn:Hi; [|done].
  destruct (_ || _); [|done]. unfold pool_handles. simpl. rewrite list_fmap_insert. simpl.
  apply list_insert_id. by rewrite list_lookup_fmap, Hi.
Qed.

Lemma mark_failure_handles i now p : pool_handles (mark_failure i now p) = pool_handles p.
Proof.
  unfold mark_failure. destruct (pool_eps p !! i) as [ep|] eqn:Hi; [|done].
  destruct (_ <=? _); unfold pool_handles; simpl; rewrite list_fmap_insert; simpl;
    apply list_insert_id; by rewrite list_lookup_fmap, Hi.
Qed.

Lemma count_failover_wf p : pool_wf p → pool_wf (count_failover p).
Proof. done. Qed.

(** ** One call by itself *)
Section sequential.
Context {W T : Type} (monotonic : W → Z) (request : H → M W T).

(** The pool is not used by anyone else while the request is awaited. *)
Definition alone (h : H) : M (EndpointPool H * W) T := λ '(p, w),
  let '(r, w') := request h w in (r, (p, w')).

(** The reference: try the handles in order, return the first success. *)
Fixpoint try_in_order (n : nat) (hs : list H) (last_exc : option exn) : M W T := λ w,
  match hs with
  | [] => (Err (AllEndpointsFailed ("all " +:+ py_str (Z.of_nat n) +:+ " endpoints failed")
                  last_exc), w)
  | h :: rest =>
      match request h w with
      | (Ok x, w') => (Ok x, w')
      | (Err e, w') => try_in_order n rest (Some e) w'
      end
  end.

(** The endpoints a call may use at [now], in priority order. *)
Definition usable p (now : Z) : list (EndpointState H) :=
  match filter (λ e, ep_unhealthy_until e <= now) (pool_eps p) with
  | [] => pool_eps p
  | healthy => healthy
  end.

Lemma usable_elem p now ep : ep ∈ usable p now → ep ∈ pool_eps p.
Proof.
  unfold usable. destruct (filter _ _) as [|x l] eqn:E; [done|]. rewrite <- E.
  rewrite list_elem_of_filter. tauto.
Qed.

Lemma call_loop_reference n eps0 last p w :
  pool_wf p → Forall (λ e, pool_handles p !! ep_index e = Some (ep_handle e)) eps0 →
  ∃ p', call_loop monotonic alone n (ep_index <$> eps0) last (p, w) =
    ((try_in_order n (ep_handle <$> eps0) last w).1,
     (p', (try_in_order n (ep_handle <$> eps0) last w).2)) ∧
    pool_wf p' ∧ pool_handles p' = pool_handles p.
Proof.
  revert last p w. induction eps0 as [|e eps0 IH]; intros last p w Hw He.
  { exists p. done. }
  apply Forall_cons in He as [Hi He]. cbn [fmap list_fmap call_loop try_in_order].
  unfold pool_handles in Hi. rewrite list_lookup_fmap in Hi.
  destruct (pool_eps p !! ep_index e) as [ep|] eqn:Hep; [|done].
  simpl. rewrite Hep. simpl in Hi. injection Hi as ->.
  destruct (request (ep_handle e) w) as [[x|exc] w']; simpl.
  { eexists. split; [done|]. split; [by apply mark_success_wf|apply mark_success_handles]. }
  set (p1 := mark_failure (ep_index e) (monotonic w') p).
  assert (pool_wf p1 ∧ pool_handles p1 = pool_handles p) as [Hw1 Hh1].
  { split; [by apply mark_failure_wf|apply mark_failure_handles]. }
  destruct eps0 as [|e2 eps0]; [exists p1; done|].
  destruct (IH (Some exc) (count_failover p1) w') as (p'&Hc&Hwp&Hhp).
  - by apply count_failover_wf.
  - change (pool_handles (count_failover p1)) with (pool_handles p1). by rewrite Hh1.
  - exists p'. split; [exact Hc|]. split; [done|]. rewrite Hhp. exact Hh1.
Qed.

Lemma usable_handles p now :
  pool_wf p → Forall (λ e, pool_handles p !! ep_index e = Some (ep_handle e)) (usable p now).
Proof.
  intros (_&_&Hw). apply Forall_forall. intros e He%usable_elem.
  apply list_elem_of_lookup in He as [i Hi]. destruct (Hw i e Hi) as (->&_).
  unfold pool_handles. by rewrite list_lookup_fmap, Hi.
Qed.
End sequential.

(** ** Properties *)

(** C22 A call through the pool behaves like trying the usable endpoints in
    priority order until one answers: the healthy ones, or all of them when none is.
    It returns the first success, raises [AllEndpointsFailed] with the last error
    only when every usable endpoint failed, and leaves a well-formed pool with the
    same endpoints. *)
Theorem call_first_success {W T} (monotonic : W → Z) (request : H → M W T) p w :
  pool_wf p →
  let hs := ep_handle <$> usable p (monotonic w) in
  hs ≠ [] ∧
  ∃ p', call monotonic (alone request) (p, w) =
    ((try_in_order request (length hs) hs None w).1,
     (p', (try_in_order request (length hs) hs None w).2)) ∧
    pool_wf p' ∧ pool_handles p' = pool_handles p.
Proof.
  intros Hw hs. split.
  { unfold hs, usable. destruct Hw as (Hne&_). destruct (filter _ _); [|done].
    by destruct (pool_eps p). }
  unfold call. change (candidates (p, w).1 (monotonic (p, w).2))
    with (ep_index <$> usable p (monotonic w)).
  rewrite length_fmap, <- (length_fmap ep_handle). apply call_loop_reference; [done|].
  by apply usable_handles.
Qed.

(** The state of one endpoint. *)
Definition ep_state p (i : nat) : option (Z * Z * option Z) :=
  (λ e, (ep_consecutive_failures e, ep_unhealthy_until e, pool_up p !! i)) <$> pool_eps p !! i.

(** [n] consecutive failures of endpoint [i], at the clock readings [times]. *)
Definition fail_times (i : nat) (times : list Z) p : EndpointPool H :=
  foldl (λ p now, mark_failure i now p) p times.

Lemma mark_failure_threshold i now p :
  pool_failure_threshold (mark_failure i now p) = pool_failure_threshold p ∧
  pool_cooldown (mark_failure i now p) = pool_cooldown p.
Proof. unfold mark_failure. by repeat case_match. Qed.

Lemma fail_times_state i times p ep :
  pool_wf p → pool_eps p !! i = Some ep →
  ∃ ep', pool_eps (fail_times i times p) !! i = Some ep' ∧ pool_wf (fail_times i times p) ∧
    pool_failure_threshold (fail_times i times p) = pool_failure_threshold p ∧
    ep_consecutive_failures ep' = ep_consecutive_failures ep + Z.of_nat (length times) ∧
    (∀ t, last times = Some t →
      pool_failure_threshold p <= ep_consecutive_failures ep' →
      ep_unhealthy_until ep' = t + pool_cooldown p).
Proof.
  intros Hw Hi. unfold fail_times. induction times as [|now times IH] using rev_ind.
  { exists ep. simpl. split_and!; [done..|lia|done]. }
  destruct IH as (ep1&H1&Hw1&Ht1&Hn1&_). rewrite foldl_app. simpl.
  set (p1 := foldl _ p times) in *.
  assert (pool_cooldown p1 = pool_cooldown p) as Hcd.
  { unfold p1. clear. induction times as [|x l IH] using rev_ind; [done|].
    rewrite foldl_app. simpl. by rewrite (proj2 (mark_failure_threshold _ _ _)). }
  pose proof (mark_failure_wf i now p1 Hw1) as Hw2.
  rewrite (proj1 (mark_failure_threshold i now p1)), length_app, last_snoc.
  unfold mark_failure in *. rewrite H1 in *. rewrite Ht1 in *.
  assert (i < length (pool_eps p1))%nat as Hlt by (by eapply lookup_lt_Some).
  destruct (Z.leb_spec (pool_failure_threshold p) (ep_consecutive_failures ep1 + 1)); simpl;
    rewrite list_lookup_insert_eq by done; eexists; (split; [done|]); simpl;
    (split_and!; [done|done|lia|]); intros t [= <-]; simpl; [by rewrite Hcd|lia].
Qed.

Lemma candidates_healthy p now i ep :
  pool_wf p → pool_eps p !! i = Some ep →
  (∃ e, e ∈ pool_eps p ∧ ep_unhealthy_until e <= now) →
  i ∈ candidates p now → ep_unhealthy_until ep <= now.
Proof.
  intros (_&_&Hw) Hi (e&He&Hen) Hin. unfold candidates in Hin.
  apply list_elem_of_fmap in Hin as (e'&->&He').
  destruct (filter _ _) as [|x l] eqn:E.
  { assert (e ∈ filter (λ e, ep_unhealthy_until e <= now) (pool_eps p)) as Hf
      by (by apply list_elem_of_filter). rewrite E in Hf. by apply elem_of_nil in Hf. }
  rewrite <- E, list_elem_of_filter in He'. destruct He' as [Hle He'].
  apply list_elem_of_lookup in He' as [j Hj]. destruct (Hw j e' Hj) as (Hx&_).
  rewrite Hx in Hi. simplify_eq. done.
Qed.

Lemma healthy_candidate p now i ep :
  pool_wf p → pool_eps p !! i = Some ep → ep_unhealthy_until ep <= now → i ∈ candidates p now.
Proof.
  intros (_&_&Hw) Hi Hle. destruct (Hw i ep Hi) as (Hx&_). unfold candidates.
  apply list_elem_of_fmap. exists ep. split; [done|].
  assert (ep ∈ filter (λ e, ep_unhealthy_until e <= now) (pool_eps p)) as Hf.
  { apply list_elem_of_filter. split; [done|]. by eapply list_elem_of_lookup_2. }
  destruct (filter _ _); [by apply elem_of_nil in Hf|done].
Qed.

(** The circuit breaker trips exactly at the threshold: an endpoint that was
    healthy and fails [n] times in a row has [n] recorded failures; from the
    threshold on it is marked down, and it is skipped until the cooldown after its
    last failure ends as long as another endpoint is usable; any success makes it
    healthy again. *)
Lemma breaker_trips_at_threshold p i ep times t now :
  pool_wf p → pool_eps p !! i = Some ep → ep_consecutive_failures ep = 0 →
  last times = Some t →
  let p' := fail_times i times p in
  let n := Z.of_nat (length times) in
  pool_wf p' ∧
  (ep_state p' i = if pool_failure_threshold p <=? n
                   then Some (n, t + pool_cooldown p, Some 0) else Some (n, 0, Some 1)) ∧
  (pool_failure_threshold p <= n → now < t + pool_cooldown p →
     (∃ e, e ∈ pool_eps p' ∧ ep_unhealthy_until e <= now) → i ∉ candidates p' now) ∧
  (t + pool_cooldown p <= now → 0 <= now → i ∈ candidates p' now) ∧
  ep_state (mark_success i p') i = Some (0, 0, Some 1).
Proof.
  intros Hw Hi H0 Hlast p' n.
  destruct (fail_times_state i times p ep Hw Hi) as (ep'&Hi'&Hw'&Ht'&Hn'&Hu').
  fold p' in Hi', Hw', Ht'. fold n in Hn'. rewrite H0, Z.add_0_l in Hn'.
  specialize (Hu' t Hlast). rewrite Hn' in Hu'.
  pose proof (proj2 (proj2 Hw') i ep' Hi') as (Hx&_&Hz&Hup). rewrite Ht', Hn' in Hz, Hup.
  assert (1 <= n) as Hn1.
  { unfold n. destruct times; [done|]. simpl. lia. }
  assert (ep_unhealthy_until ep' = if pool_failure_threshold p <=? n then t + pool_cooldown p else 0)
    as Huntil by (destruct (Z.leb_spec (pool_failure_threshold p) n); auto).
  split_and!; [done| | | |].
  - unfold ep_state. rewrite Hi'. simpl. rewrite Hn', Hup, Huntil.
    by destruct (pool_failure_threshold p <=? n).
  - intros Hle Hnow Hother Hin.
    apply (candidates_healthy p' now i ep' Hw' Hi') in Hin; [|done].
    rewrite Huntil, (proj2 (Z.leb_le _ _)) in Hin by done. lia.
  - intros Hnow Hpos. apply (healthy_candidate p' now i ep' Hw' Hi').
    rewrite Huntil. destruct (pool_failure_threshold p <=? n); lia.
  - unfold ep_state, mark_success. rewrite Hi', Hn'.
    destruct (Z.eqb_spec n 0); [lia|]. simpl.
    rewrite list_lookup_insert_eq by (by eapply lookup_lt_Some). simpl.
    by rewrite Hx, lookup_insert_eq.
Qed.
End pool.

(** ** Witnesses *)
Module PoolSample.
(** Three endpoints; the world is the clock, a request takes one tick and only
    the endpoint named "c" answers. *)
Definition pool : EndpointPool string :=
  match pool_init ["a"; "b"; "c"] 3 30 with Ok p => p | Err _ => mkPool 3 30 [] ∅ 0 end.
Definition request (h : string) : M Z string := λ now,
  (if String.eqb h "c" then Ok "pong" else Err (RuntimeError "down"), now + 1).

Lemma pool_ok : pool_wf pool.
Proof. by apply (pool_init_wf ["a"; "b"; "c"] 3 30). Qed.
End PoolSample.

Lemma call_first_success_witness :
  (call (λ w, w) (alone PoolSample.request) (PoolSample.pool, 100)).1 = Ok "pong".
Proof.
  destruct (call_first_success (λ w, w) PoolSample.request PoolSample.pool 100 PoolSample.pool_ok)
    as (_&p'&Hc&_). rewrite Hc. vm_compute. reflexivity.
Defined.

Lemma breaker_trips_at_threshold_witness :
  ep_state (fail_times 0 [1; 2; 3] PoolSample.pool) 0 = Some (3, 33, Some 0) ∧
  0%nat ∉ candidates (fail_times 0 [1; 2; 3] PoolSample.pool) 10.
Proof.
  destruct (breaker_trips_at_threshold PoolSample.pool 0 (mkEp "a" 0 0 0) [1; 2; 3] 3 10
    PoolSample.pool_ok eq_refl eq_refl eq_refl) as (_&Hs&Hskip&_).
  split; [exact Hs|]. apply Hskip; [vm_compute; discriminate|vm_compute; reflexivity|].
  exists (mkEp "b" 1 0 0). split; [right; left|vm_compute; discriminate].
Defined.
