(* ===== verification/Lifecycle.v ===== *)
(** * Connections and background tasks (core/bus/redis_bus.py, core/config/db.py, the watchers, the adapters)

    [RedisBus] and [Database] each own at most one connection, the two watchers their tasks, an adapter its
    HTTP handles.  Creating, using and closing them is the interface [Platform] over a state [W];
    [platform_laws] says which handles are open and which tasks alive after each call. *)
From S2P Require Import Prelude PyStr PyVal Hoare RpcPool.

(** How a task ends that is cancelled and awaited *)
Inductive ended :=
  | Returned
  | Cancelled                  (** [await] raises [CancelledError] *)
  | Failed (e : exn).          (** [await] raises what the task had raised before *)

Class Platform (W : Type) := {
  pf_create_engine : string → W → nat * W;      (** create_async_engine, async_sessionmaker *)
  pf_dispose : nat → M W unit;                  (** engine.dispose *)
  pf_select_1 : nat → M W unit;                 (** SELECT 1 in a session of the engine *)
  pf_from_url : string → W → nat * W;           (** aioredis.from_url *)
  pf_ping : nat → M W bool;
  pf_aclose : nat → M W unit;
  pf_publish : nat → string → pyval → M W unit; (** client.publish(channel, json.dumps(payload)) *)
  pf_create_task : string → W → nat * W;        (** asyncio.create_task(..., name=...) *)
  pf_cancel : nat → W → ended * W;              (** task.cancel(), then await task *)
}.

Record RedisBus := mkBus { rb_url : string; rb_client : option nat }.
Record Database := mkDatabase { dt_url : string; dt_engine : option nat }.
(** [ConfigWatcher]'s tasks and stop event; [ReplayWatcher]'s task *)
Record ConfigTasks := mkConfigTasks { ct_sub : option nat; ct_poll : option nat; ct_stop : bool }.
Record ReplayTask := mkReplayTask { rt_task : option nat }.

Section lifecycle.
Context {W : Type} `{!Platform W}.

(** An operation of the platform inside a method of an object of type [S] *)
Definition lift_world {S A} (m : M W A) : M (S * W) A := mzoom snd (λ w s, (s.1, w)) m.
Definition put_object {S} (o : S) : M (S * W) unit := mmodify (λ s, (o, s.2)).

(** ** [RedisBus] *)
Definition RedisBus_init (url : string) : RedisBus := mkBus url None.

Definition bus_connect : M (RedisBus * W) unit :=
  let* b := mgets fst in
  let* c := lift_world (λ w, let '(c, w') := pf_from_url (rb_url b) w in (Ok c, w')) in
  put_object (mkBus (rb_url b) (Some c)) ;;*
  lift_world (pf_ping c) ;;*
  mret tt.

Definition bus_disconnect : M (RedisBus * W) unit :=
  let* b := mgets fst in
  match rb_client b with
  | None => mret tt
  | Some c => lift_world (pf_aclose c) ;;* put_object (mkBus (rb_url b) None)
  end.

Definition bus_client : M (RedisBus * W) nat :=
  let* b := mgets fst in
  match rb_client b with
  | None => mthrow (AssertionError "RedisBus.connect() must be called first")
  | Some c => mret c
  end.

Definition bus_ping : M (RedisBus * W) bool :=
  let* b := mgets fst in
  match rb_client b with
  | None => mret false
  | Some c => mcatch (lift_world (pf_ping c)) (λ _, mret false)
  end.

Definition bus_publish (channel : string) (payload : pyval) : M (RedisBus * W) unit :=
  let* b := mgets fst in
  match rb_client b with
  | None => mthrow (AssertionError "")
  | Some c => lift_world (pf_publish c channel payload)
  end.

(** ** [Database] *)
Definition Database_init (url : string) : Database := mkDatabase url None.

Definition db_connect : M (Database * W) unit :=
  let* d := mgets fst in
  let* h := lift_world (λ w, let '(h, w') := pf_create_engine (dt_url d) w in (Ok h, w')) in
  put_object (mkDatabase (dt_url d) (Some h)).

Definition db_disconnect : M (Database * W) unit :=
  let* d := mgets fst in
  match dt_engine d with
  | None => mret tt
  | Some h => lift_world (pf_dispose h) ;;* put_object (mkDatabase (dt_url d) None)
  end.

(** [session] and [engine]: the engine they use *)
Definition db_engine : M (Database * W) nat :=
  let* d := mgets fst in
  match dt_engine d with
  | None => mthrow (AssertionError "Database not connected")
  | Some h => mret h
  end.

(** ** The watchers *)
Definition spawn {S} (name : string) : M (S * W) nat :=
  lift_world (λ w, let '(t, w') := pf_create_task name w in (Ok t, w')).

(** [ConfigWatcher.start] after its first reload *)
Definition config_start : M (ConfigTasks * W) unit :=
  let* sub := spawn "config-watcher-sub" in
  let* c := mgets fst in
  put_object (mkConfigTasks (Some sub) (ct_poll c) (ct_stop c)) ;;*
  let* poll := spawn "config-watcher-poll" in
  put_object (mkConfigTasks (Some sub) (Some poll) (ct_stop c)).

(** [t.cancel()] and [await t], every exception suppressed *)
Definition stop_quietly (t : option nat) : M (ConfigTasks * W) unit :=
  match t with
  | None => mret tt
  | Some t => lift_world (λ w, (Ok tt, (pf_cancel t w).2))
  end.

(** [ConfigWatcher.stop] *)
Definition config_stop : M (ConfigTasks * W) unit :=
  let* c := mgets fst in
  put_object (mkConfigTasks (ct_sub c) (ct_poll c) true) ;;*
  stop_quietly (ct_sub c) ;;*
  stop_quietly (ct_poll c) ;;*
  put_object (mkConfigTasks None None true).

(** [t.cancel()] and [await t] with [suppress(CancelledError)] *)
Definition cancel_await (t : nat) : M W unit := λ w,
  match pf_cancel t w with
  | (Failed e, w') => (Err e, w')
  | (_, w') => (Ok tt, w')
  end.

Definition replay_start : M (ReplayTask * W) unit :=
  let* t := spawn "replay_watcher" in
  put_object (mkReplayTask (Some t)).

(** [ReplayWatcher.stop] *)
Definition replay_stop : M (ReplayTask * W) unit :=
  let* r := mgets fst in
  match rt_task r with
  | None => mret tt
  | Some t => lift_world (cancel_await t) ;;* put_object (mkReplayTask None)
  end.

(** What the worker keeps of them, and the beginning of its [shutdown]: the clean-up task, then the two
    watchers *)
Record Background := mkBackground {
  bg_cleanup : option nat;
  bg_config : option ConfigTasks;
  bg_replay : option ReplayTask;
}.

Definition halt_cleanup : M (Background * W) unit :=
  let* b := mgets fst in
  match bg_cleanup b with
  | None => mret tt
  | Some t => lift_world (cancel_await t) ;;* put_object (mkBackground None (bg_config b) (bg_replay b))
  end.
Definition halt_config : M (Background * W) unit := λ '(b, w),
  match bg_config b with
  | None => (Ok tt, (b, w))
  | Some c => let '(r, (c', w')) := config_stop (c, w) in
              (r, (mkBackground (bg_cleanup b) (Some c') (bg_replay b), w'))
  end.
Definition halt_replay : M (Background * W) unit := λ '(b, w),
  match bg_replay b with
  | None => (Ok tt, (b, w))
  | Some t => let '(r, (t', w')) := replay_stop (t, w) in
              (r, (mkBackground (bg_cleanup b) (bg_config b) (Some t'), w'))
  end.
Definition halt : M (Background * W) unit := halt_cleanup ;;* halt_config ;;* halt_replay.

(** ** Adapters *)

(** [EvmAdapter.disconnect]: the providers of the pool's handles, each exception suppressed *)
Definition evm_disconnect {H} (provider_disconnect : H → M W unit) : M (option (EndpointPool H) * W) unit :=
  let* pool := mgets fst in
  match pool with
  | None => mret tt
  | Some p =>
      mfor (pool_handles p) (λ h, mcatch (lift_world (provider_disconnect h)) (λ _, mret tt)) ;;*
      put_object None
  end.

(** [SolanaAdapter]: one HTTP client, and a pool whose handles are the URLs *)
Record SolanaConn := mkSolanaConn { sn_client : option nat; sn_pool : option (EndpointPool string) }.

Definition solana_connect (urls : list string) (failure_threshold cooldown : Z) (new_client : W → nat * W)
    : M (SolanaConn * W) unit :=
  let* c := lift_world (λ w, let '(c, w') := new_client w in (Ok c, w')) in
  let* s := mgets fst in
  put_object (mkSolanaConn (Some c) (sn_pool s)) ;;*
  let* p := mlift (pool_init urls failure_threshold cooldown) in
  put_object (mkSolanaConn (Some c) (Some p)).

Definition solana_disconnect : M (SolanaConn * W) unit :=
  let* s := mgets fst in
  match sn_client s with
  | None => put_object (mkSolanaConn None None)
  | Some c => lift_world (pf_aclose c) ;;* put_object (mkSolanaConn None None)
  end.

(** ** What is open and what runs *)

(** A closed handle is no longer open; one whose closing raises still is.  A task that is cancelled and
    awaited has ended, however it ended. *)
Record platform_laws (opened tasks : W → gset nat) : Prop := {
  pl_create_engine url w : let '(h, w') := pf_create_engine url w in
    (h ∉ opened w) ∧ opened w' = {[h]} ∪ opened w ∧ tasks w' = tasks w;
  pl_from_url url w : let '(h, w') := pf_from_url url w in
    (h ∉ opened w) ∧ opened w' = {[h]} ∪ opened w ∧ tasks w' = tasks w;
  pl_dispose h w : (let '(r, w') := pf_dispose h w in
    opened w' = (if is_ok r then opened w ∖ {[h]} else opened w) ∧ tasks w' = tasks w);
  pl_aclose h w : (let '(r, w') := pf_aclose h w in
    opened w' = (if is_ok r then opened w ∖ {[h]} else opened w) ∧ tasks w' = tasks w);
  pl_ping h w : opened (pf_ping h w).2 = opened w ∧ tasks (pf_ping h w).2 = tasks w;
  pl_select_1 h w : opened (pf_select_1 h w).2 = opened w ∧ tasks (pf_select_1 h w).2 = tasks w;
  pl_cancel t w : opened (pf_cancel t w).2 = opened w ∧ tasks (pf_cancel t w).2 = tasks w ∖ {[t]};
}.

Definition config_tasks (c : ConfigTasks) : list nat := option_list (ct_sub c) ++ option_list (ct_poll c).
Definition background (b : Background) : gset nat :=
  list_to_set (option_list (bg_cleanup b) ++ from_option config_tasks [] (bg_config b) ++
               from_option (option_list ∘ rt_task) [] (bg_replay b)).

Ltac sets := clear; apply set_eq; intros ?; set_unfold; tauto.

Lemma bind_eq {S A B} (m : M S A) (k : A → M S B) s :
  mbind m k s = match m s with (Ok a, s') => k a s' | (Err e, s') => (Err e, s') end.
Proof. done. Qed.

Lemma config_stop_done opened tasks (laws : platform_laws opened tasks) c w :
  ∃ w', config_stop (c, w) = (Ok tt, (mkConfigTasks None None true, w')) ∧
    opened w' = opened w ∧ tasks w' = tasks w ∖ list_to_set (config_tasks c).
Proof.
  destruct c as [sub poll st]. unfold config_stop, stop_quietly, config_tasks, lift_world, put_object,
    mbind, mgets, mmodify, mzoom, mret. cbn.
  pose proof (λ t w, proj1 (pl_cancel _ _ laws t w)) as Ho. pose proof (λ t w, proj2 (pl_cancel _ _ laws t w)) as Hr.
  destruct sub as [t|], poll as [t'|]; cbn; eexists; (split; [reflexivity|]);
    rewrite ?Ho, ?Hr; (split; [done|]); sets.
Qed.

Lemma cancel_await_done opened tasks (laws : platform_laws opened tasks) t w :
  ∃ w', cancel_await t w = (match (pf_cancel t w).1 with Failed e => Err e | _ => Ok tt end, w') ∧
    opened w' = opened w ∧ tasks w' = tasks w ∖ {[t]}.
Proof.
  pose proof (pl_cancel _ _ laws t w) as H. unfold cancel_await.
  destruct (pf_cancel t w) as [[| |e] w'], H as [H1 H2]; exists w'; by split_and!.
Qed.

(** Each of the three, as a result, what is left of [b], and the tasks it ended *)
Lemma halt_cleanup_done opened tasks (laws : platform_laws opened tasks) b w :
  ∃ r w', halt_cleanup (b, w) = (r, (match r with Ok _ => mkBackground None (bg_config b) (bg_replay b) | _ => b end, w')) ∧
    opened w' = opened w ∧ tasks w' = tasks w ∖ list_to_set (option_list (bg_cleanup b)) ∧
    match r with Ok _ => True | Err e => ∃ t w0, bg_cleanup b = Some t ∧ (pf_cancel t w0).1 = Failed e end.
Proof.
  destruct b as [[t|] c r]; unfold halt_cleanup, lift_world, put_object, mbind, mgets, mmodify, mzoom, mret; cbn.
  - destruct (cancel_await_done opened tasks laws t w) as (w' & -> & Ho & Hr).
    destruct (pf_cancel t w) as [[| |e] w1] eqn:E; [exists (Ok tt)|exists (Ok tt)|exists (Err e)]; exists w';
      (split; [reflexivity|]); rewrite Ho, Hr; (split; [done|]); (split; [sets|]); try done. exists t, w. by rewrite E.
  - exists (Ok tt), w. split; [reflexivity|]. by rewrite difference_empty_L.
Qed.

Lemma halt_config_done opened tasks (laws : platform_laws opened tasks) b w :
  ∃ w', halt_config (b, w) =
      (Ok tt, (mkBackground (bg_cleanup b) ((λ _, mkConfigTasks None None true) <$> bg_config b) (bg_replay b), w')) ∧
    opened w' = opened w ∧ tasks w' = tasks w ∖ list_to_set (from_option config_tasks [] (bg_config b)).
Proof.
  destruct b as [t [c|] r]; unfold halt_config; cbn -[config_stop].
  - destruct (config_stop_done opened tasks laws c w) as (w' & -> & Ho & Hr). by exists w'.
  - exists w. by rewrite difference_empty_L.
Qed.

Lemma halt_replay_done opened tasks (laws : platform_laws opened tasks) b w :
  ∃ r b' w', halt_replay (b, w) = (r, (b', w')) ∧ opened w' = opened w ∧
    tasks w' = tasks w ∖ list_to_set (from_option (option_list ∘ rt_task) [] (bg_replay b)) ∧
    match r with
    | Ok _ => bg_cleanup b' = bg_cleanup b ∧ bg_config b' = bg_config b ∧
              from_option (option_list ∘ rt_task) [] (bg_replay b') = []
    | Err e => ∃ t w0, rt_task <$> bg_replay b = Some (Some t) ∧ (pf_cancel t w0).1 = Failed e
    end.
Proof.
  destruct b as [t c [[[u|]]|]]; unfold halt_replay, replay_stop, lift_world, put_object, mbind, mgets, mmodify, mzoom, mret; cbn.
  - destruct (cancel_await_done opened tasks laws u w) as (w' & -> & Ho & Hr).
    destruct (pf_cancel u w) as [[| |e] w1] eqn:E; cbn; eexists _, _, w'; (split; [reflexivity|]);
      rewrite Ho, Hr; (split; [done|]); (split; [sets|]); try done. exists u, w. by rewrite E.
  - eexists _, _, w. split; [reflexivity|]. by rewrite difference_empty_L.
  - eexists _, _, w. split; [reflexivity|]. by rewrite difference_empty_L.
Qed.

(** What [shutdown] waits for first.  Stopping the clean-up task and the two watchers either
    ends every one of their tasks and forgets them, closing nothing else, or raises exactly what the
    clean-up task or the replay watcher's task had died of; what the configuration watcher's tasks died
    of is never raised. *)
Lemma halt_outcome opened tasks (laws : platform_laws opened tasks) b w :
  let '(r, (b', w')) := halt (b, w) in
  opened w' = opened w ∧
  match r with
  | Ok _ => background b' = ∅ ∧ tasks w' = tasks w ∖ background b
  | Err e => ∃ t w0, (bg_cleanup b = Some t ∨ rt_task <$> bg_replay b = Some (Some t)) ∧ (pf_cancel t w0).1 = Failed e
  end.
Proof.
  unfold halt. rewrite (bind_eq halt_cleanup).
  destruct (halt_cleanup_done _ _ laws b w) as (r1 & w1 & -> & Ho1 & Hr1 & He1).
  destruct r1 as [[]|e]; cbn [fst snd].
  2: { split; [done|]. destruct He1 as (t & w0 & ? & ?). exists t, w0. split; [by left|done]. }
  rewrite (bind_eq halt_config). destruct (halt_config_done _ _ laws (mkBackground None (bg_config b) (bg_replay b)) w1)
    as (w2 & -> & Ho2 & Hr2). cbn [bg_cleanup bg_config bg_replay] in *.
  destruct (halt_replay_done _ _ laws (mkBackground None ((λ _, mkConfigTasks None None true) <$> bg_config b) (bg_replay b)) w2)
    as (r3 & b3 & w3 & -> & Ho3 & Hr3 & He3). cbn [bg_cleanup bg_config bg_replay] in *. split; [congruence|].
  destruct r3 as [[]|e].
  - destruct He3 as (H1 & H2 & H3). unfold background. rewrite H1, H2, H3, Hr3, Hr2, Hr1.
    destruct (bg_config b); cbn; (split; [done|]); sets.
  - destruct He3 as (t & w0 & ? & ?). exists t, w0. split; [by right|done].
Qed.
(** [EvmAdapter.disconnect] asks every handle of the pool, whatever some of them raise; a second call does
    nothing. *)
Lemma evm_disconnect_all {H} (provider_disconnect : H → M W unit) (p : EndpointPool H) w :
  let w' := foldl (λ w h, (provider_disconnect h w).2) w (pool_handles p) in
  evm_disconnect provider_disconnect (Some p, w) = (Ok tt, (None, w')) ∧
  evm_disconnect provider_disconnect (None, w') = (Ok tt, (None, w')).
Proof.
  split; [|done]. unfold evm_disconnect. rewrite bind_eq. cbn [mgets fst].
  rewrite bind_eq. assert (∀ hs (o : option (EndpointPool H)) w,
    mfor hs (λ h, mcatch (lift_world (provider_disconnect h)) (λ _, mret tt)) (o, w) =
    (Ok tt, (o, foldl (λ w h, (provider_disconnect h w).2) w hs))) as ->; [|done].
  intros hs. induction hs as [|h hs IH]; intros o w0; [done|]. cbn [mfor foldl]. rewrite bind_eq.
  assert (mcatch (lift_world (provider_disconnect h)) (λ _, mret tt) (o, w0) =
          (Ok tt, (o, (provider_disconnect h w0).2))) as ->; [|apply IH].
  unfold mcatch, lift_world, mzoom. cbn. by destruct (provider_disconnect h w0) as [[[]|e] w1].
Qed.

(** Connecting a closed bus or database opens one handle, which it then holds, even when the first ping
    raises; disconnecting closes it. *)
Lemma bus_connect_opens opened tasks (laws : platform_laws opened tasks) url w :
  ∃ r h w', bus_connect (RedisBus_init url, w) = (r, (mkBus url (Some h), w')) ∧
    (h ∉ opened w) ∧ opened w' = {[h]} ∪ opened w ∧ tasks w' = tasks w ∧
    ∃ w1, is_ok r = is_ok (pf_ping h w1).1.
Proof.
  unfold bus_connect, lift_world, put_object, mbind, mgets, mmodify, mzoom, mret. cbn.
  pose proof (pl_from_url _ _ laws url w) as Hu. destruct (pf_from_url url w) as [h w1].
  destruct Hu as (Hf & Ho & Ht). pose proof (pl_ping _ _ laws h w1) as [Hpo Hpt].
  cbn. destruct (pf_ping h w1) as [[x|e] w2] eqn:E; cbn in *; eexists _, h, w2;
    (split; [reflexivity|]); (split; [done|]); rewrite Hpo, Hpt; (split; [done|]); (split; [done|]);
    exists w1; by rewrite E.
Qed.

Lemma db_connect_opens opened tasks (laws : platform_laws opened tasks) url w :
  ∃ h w', db_connect (Database_init url, w) = (Ok tt, (mkDatabase url (Some h), w')) ∧
    (h ∉ opened w) ∧ opened w' = {[h]} ∪ opened w ∧ tasks w' = tasks w.
Proof.
  unfold db_connect, lift_world, put_object, mbind, mgets, mmodify, mzoom, mret. cbn.
  pose proof (pl_create_engine _ _ laws url w) as Hu. destruct (pf_create_engine url w) as [h w1].
  by exists h, w1.
Qed.

Lemma bus_disconnect_closes opened tasks (laws : platform_laws opened tasks) url h w :
  ∃ r w', bus_disconnect (mkBus url (Some h), w) = (r, (mkBus url (if is_ok r then None else Some h), w')) ∧
    opened w' = (if is_ok r then opened w ∖ {[h]} else opened w) ∧ tasks w' = tasks w.
Proof.
  unfold bus_disconnect, lift_world, put_object, mbind, mgets, mmodify, mzoom. cbn.
  pose proof (pl_aclose _ _ laws h w) as Ha. destruct (pf_aclose h w) as [[[]|e] w1]; [exists (Ok tt), w1|exists (Err e), w1];
    (split; [reflexivity|done]).
Qed.

Lemma db_disconnect_closes opened tasks (laws : platform_laws opened tasks) url h w :
  ∃ r w', db_disconnect (mkDatabase url (Some h), w) = (r, (mkDatabase url (if is_ok r then None else Some h), w')) ∧
    opened w' = (if is_ok r then opened w ∖ {[h]} else opened w) ∧ tasks w' = tasks w.
Proof.
  unfold db_disconnect, lift_world, put_object, mbind, mgets, mmodify, mzoom. cbn.
  pose proof (pl_dispose _ _ laws h w) as Ha. destruct (pf_dispose h w) as [[[]|e] w1]; [exists (Ok tt), w1|exists (Err e), w1];
    (split; [reflexivity|done]).
Qed.
End lifecycle.

(** ** A platform whose pings, closings and tasks fail as told *)
Module PlatformSample.
(** The open handles and the live tasks *)
Definition world : Type := gset nat * gset nat.

Definition down : exn := OtherError "ConnectionError" "".
Definition opens (w : world) : nat * world := let h := fresh w.1 in (h, ({[h]} ∪ w.1, w.2)).
Definition closes (ok : bool) (h : nat) : M world unit := λ w,
  if ok then (Ok tt, (w.1 ∖ {[h]}, w.2)) else (Err down, w).

Definition platform (ping aclose : bool) (ends : nat → ended) : Platform world := {|
  pf_create_engine _ := opens;
  pf_dispose := closes true;
  pf_select_1 _ := mret tt;
  pf_from_url _ := opens;
  pf_ping _ := if ping then mret true else mthrow down;
  pf_aclose := closes aclose;
  pf_publish _ _ _ := mret tt;
  pf_create_task _ w := let t := fresh w.2 in (t, (w.1, {[t]} ∪ w.2));
  pf_cancel t w := (ends t, (w.1, w.2 ∖ {[t]}));
|}.

Lemma platform_ok ping aclose ends : platform_laws (Platform0 := platform ping aclose ends) fst snd.
Proof.
  split; cbn; unfold opens, closes.
  - intros url w. split_and!; [apply is_fresh|done|done].
  - intros url w. split_and!; [apply is_fresh|done|done].
  - done.
  - intros h w. by destruct aclose.
  - intros h w. by destruct ping.
  - done.
  - done.
Qed.

(** The replay watcher's task has died. *)
Definition ends (t : nat) : ended := if decide (t = 3%nat) then Failed down else Cancelled.
Definition running : Background :=
  mkBackground (Some 0%nat) (Some (mkConfigTasks (Some 1%nat) (Some 2%nat) false)) (Some (mkReplayTask (Some 3%nat))).
End PlatformSample.

Lemma halt_outcome_witness :
  let r := halt (Platform0 := PlatformSample.platform true true PlatformSample.ends)
             (PlatformSample.running, (∅, {[0; 1; 2; 3; 4]}%nat)) in
  r.1 = Err PlatformSample.down ∧ r.2.2.1 = ∅ ∧
  ∃ t : nat, (t = 0 ∨ t = 3)%nat ∧ PlatformSample.ends t = Failed PlatformSample.down.
Proof.
  intros r.
  pose proof (halt_outcome (Platform0 := PlatformSample.platform true true PlatformSample.ends) fst snd
    (PlatformSample.platform_ok true true PlatformSample.ends) PlatformSample.running (∅, {[0; 1; 2; 3; 4]}%nat)) as H.
  fold r in H. split; [reflexivity|]. split; [apply H|].
  destruct H as [_ (t & w0 & Ht & He)]. exists t. split; [|exact He].
  destruct Ht as [[= <-]|[= <-]]; [by left|by right].
Defined.
