(* ===== verification/ChainLock.v ===== *)
(** * The distributed chain lock (core/worker/chain_lock.py)

    Redis is the class [Redis]; [redis_store] says what its four commands do to a store of keys
    with a value and an expiry time: a command is atomic, and one that raises may or may not
    have been applied.  [ChainLock]'s methods are sequences of commands between which other
    workers run, so the protocol is a step relation over the shared store, one command or
    one passage of time per step. *)
From S2P Require Import Prelude PyStr PyVal.

Class Redis (W : Type) := {
  rd_set_nx_ex : string → string → Z → M W bool;
  rd_get : string → M W (option string);
  rd_expire : string → Z → M W bool;
  rd_delete : string → M W unit;
}.

Definition LOCK_PREFIX : string := "chain_indexer:lock:".
Definition LOCK_TTL_S : Z := 30.
Definition RENEW_INTERVAL_S : Z := 10.

Record ChainLock := mkLock {
  cl_key : string;
  cl_worker_id : string;
  cl_renewing : bool;    (** [_renew_task] is alive *)
}.

Definition lock_init (chain_id worker_id : string) : ChainLock :=
  mkLock (LOCK_PREFIX +:+ chain_id) worker_id false.

(** ** The methods, when nothing interferes *)
Section methods.
Context {W : Type} `{!Redis W}.

Definition set_renewing (b : bool) : M (ChainLock * W) unit :=
  mmodify (λ '(l, w), (mkLock (cl_key l) (cl_worker_id l) b, w)).
Definition command {A} (m : ChainLock → M W A) : M (ChainLock * W) A := λ '(l, w),
  let '(r, w') := m l w in (r, (l, w')).

Definition acquire : M (ChainLock * W) bool :=
  let* result := command (λ l, rd_set_nx_ex (cl_key l) (cl_worker_id l) LOCK_TTL_S) in
  if result : bool then set_renewing true ;;* mret true
  else
    let* holder := command (λ l, rd_get (cl_key l)) in
    let* l := mgets fst in
    if decide (holder = Some (cl_worker_id l)) then set_renewing true ;;* mret true
    else mret false.

Definition release : M (ChainLock * W) unit :=
  set_renewing false ;;*
  let* holder := command (λ l, rd_get (cl_key l)) in
  let* l := mgets fst in
  if decide (holder = Some (cl_worker_id l)) then command (λ l, rd_delete (cl_key l)) else mret tt.

(** One round of [_renew_loop] after its sleep: does the loop go on? *)
Definition renew_round : M (ChainLock * W) bool :=
  mcatch
    (let* holder := command (λ l, rd_get (cl_key l)) in
     let* l := mgets fst in
     if decide (holder = Some (cl_worker_id l)) then
       command (λ l, rd_expire (cl_key l) LOCK_TTL_S) ;;* mret true
     else set_renewing false ;;* mret false)
    (λ _, mret true).
End methods.

(** ** The protocol for one chain *)

(** Where a worker is with the chain's lock *)
Inductive lock_pc :=
  | Free
  | AcquireGet                (** SET NX was refused, GET comes next *)
  | Held                      (** acquired; the renewal task sleeps *)
  | RenewExpire               (** the renewal saw itself as holder; EXPIRE comes next *)
  | Lost                      (** the renewal task ended; the worker goes on *)
  | ReleaseDelete.            (** [release] saw itself as holder; DEL comes next *)

(** The worker runs the chain *)
Definition runs (p : lock_pc) : bool :=
  match p with Held | RenewExpire | Lost | ReleaseDelete => true | Free | AcquireGet => false end.

Record Locks (W : Type) := mkLocks {
  lk_redis : W;
  lk_pc : string → lock_pc;
}.
Arguments mkLocks {W}. Arguments lk_redis {W}. Arguments lk_pc {W}.

Section protocol.
Context {W : Type} `{!Redis W}.
Variables (clock : W → Z) (entry : W → option (string * Z)) (key : string).

(** The value of the key, unless it has expired *)
Definition holder (w : W) : option string :=
  match entry w with Some (v, e) => if clock w <? e then Some v else None | None => None end.

(** The documented behaviour of the commands on [key] *)
Record redis_store : Prop := {
  rs_set v r w w' : rd_set_nx_ex key v LOCK_TTL_S w = (r, w') → clock w' = clock w ∧
    match holder w with
    | Some _ => entry w' = entry w ∧ r ≠ Ok true
    | None => (r = Ok true ∧ entry w' = Some (v, clock w + LOCK_TTL_S)) ∨
        (is_ok r = false ∧ (entry w' = entry w ∨ entry w' = Some (v, clock w + LOCK_TTL_S)))
    end;
  rs_get r w w' : rd_get key w = (r, w') →
    clock w' = clock w ∧ entry w' = entry w ∧ ∀ x, r = Ok x → x = holder w;
  rs_expire r w w' : rd_expire key LOCK_TTL_S w = (r, w') → clock w' = clock w ∧
    match entry w with
    | Some (v, e) =>
        (clock w < e ∧ entry w' = Some (v, clock w + LOCK_TTL_S)) ∨
        ((is_ok r = false ∨ e ≤ clock w) ∧ entry w' = entry w)
    | None => entry w' = None
    end;
  rs_delete r w w' : rd_delete key w = (r, w') → clock w' = clock w ∧
    (entry w' = None ∨ entry w' = entry w);
}.

Definition set_lock_pc (i : string) (p : lock_pc) (w : W) (s : Locks W) : Locks W :=
  mkLocks w (λ j, if decide (j = i) then p else lk_pc s j).
Inductive lock_event :=
  | Acquire (i : string)      (** the SET of [acquire] *)
  | Confirm (i : string)      (** the GET of [acquire] after a refused SET *)
  | Renew (i : string)        (** the GET of a renewal *)
  | Expire (i : string)
  | Release (i : string)      (** the GET of [release] *)
  | Delete (i : string)
  | Tick (w : W).             (** time passes *)

Definition lock_step (e : lock_event) (s : Locks W) : option (Locks W) :=
  let w := lk_redis s in
  match e with
  | Acquire i =>
      match lk_pc s i with
      | Free =>
          match rd_set_nx_ex key i LOCK_TTL_S w with
          | (Ok true, w') => Some (set_lock_pc i Held w' s)
          | (Ok false, w') => Some (set_lock_pc i AcquireGet w' s)
          | (Err _, w') => Some (set_lock_pc i Free w' s)
          end
      | _ => None
      end
  | Confirm i =>
      match lk_pc s i with
      | AcquireGet =>
          match rd_get key w with
          | (Ok h, w') =>
              Some (set_lock_pc i (if decide (h = Some i) then Held else Free) w' s)
          | (Err _, w') => Some (set_lock_pc i Free w' s)
          end
      | _ => None
      end
  | Renew i =>
      match lk_pc s i with
      | Held =>
          match rd_get key w with
          | (Ok h, w') =>
              Some (set_lock_pc i (if decide (h = Some i) then RenewExpire else Lost) w' s)
          | (Err _, w') => Some (set_lock_pc i Held w' s)
          end
      | _ => None
      end
  | Expire i =>
      match lk_pc s i with
      | RenewExpire =>
          match rd_expire key LOCK_TTL_S w with
          | (Ok _, w') => Some (set_lock_pc i Held w' s)
          | (Err _, w') => Some (set_lock_pc i Held w' s)
          end
      | _ => None
      end
  | Release i =>
      match lk_pc s i with
      | Held | RenewExpire | Lost =>
          match rd_get key w with
          | (Ok h, w') =>
              Some (set_lock_pc i (if decide (h = Some i) then ReleaseDelete else Free) w' s)
          | (Err _, w') => Some (set_lock_pc i Free w' s)
          end
      | _ => None
      end
  | Delete i =>
      match lk_pc s i with
      | ReleaseDelete => Some (set_lock_pc i Free (rd_delete key w).2 s)
      | _ => None
      end
  | Tick w' => Some (mkLocks w' (lk_pc s))
  end.

Fixpoint lock_run (es : list lock_event) (s : Locks W) : option (Locks W) :=
  match es with
  | [] => Some s
  | e :: t => match lock_step e s with Some s' => lock_run t s' | None => None end
  end.

(** ** Mutual exclusion *)

(** The key of a worker that runs does not expire on it: renewals succeed often enough *)
Definition timely (e : lock_event) (s : Locks W) : Prop :=
  match e with
  | Tick w' => clock (lk_redis s) ≤ clock w' ∧ entry w' = entry (lk_redis s) ∧
      ∀ i x, runs (lk_pc s i) = true → entry w' = Some (i, x) → clock w' < x
  | _ => True
  end.

Definition lock_steps (s s' : Locks W) : Prop := ∃ e, lock_step e s = Some s' ∧ timely e s.

Definition lock_init_state (w : W) : Locks W := mkLocks w (λ _, Free).

Lemma holder_entry w v : holder w = Some v ↔ ∃ e, entry w = Some (v, e) ∧ clock w < e.
Proof.
  unfold holder. destruct (entry w) as [[v' e]|]; [|naive_solver].
  destruct (Z.ltb_spec (clock w) e); naive_solver lia.
Qed.

Lemma holder_same w w' : clock w' = clock w → entry w' = entry w → holder w' = holder w.
Proof. unfold holder. by intros -> ->. Qed.

Definition exclusive (s : Locks W) : Prop :=
  ∀ i, runs (lk_pc s i) = true → holder (lk_redis s) = Some i.

Lemma exclusive_set i p w' s :
  exclusive s → holder w' = holder (lk_redis s) →
  (runs p = true → runs (lk_pc s i) = true ∨ holder (lk_redis s) = Some i) →
  exclusive (set_lock_pc i p w' s).
Proof.
  intros He Hh Hp j. simpl. rewrite Hh. destruct (decide (j = i)) as [->|]; [|apply He].
  intros Hr. destruct (Hp Hr); auto.
Qed.

Lemma lock_step_exclusive e s s' :
  redis_store → lock_step e s = Some s' → timely e s → exclusive s → exclusive s'.
Proof.
  intros HR H Ht He. unfold lock_step in H. set (w := lk_redis s) in *.
  destruct e as [i|i|i|i|i|i|w'].
  - destruct (lk_pc s i) eqn:Hpc; try done.
    destruct (rd_set_nx_ex key i LOCK_TTL_S w) as [r w'] eqn:E.
    apply (rs_set HR) in E as [Hc E]. destruct (holder w) as [v|] eqn:Hh.
    + destruct E as [Hen Hne]. assert (holder w' = holder w) as Hsame by by apply holder_same.
      destruct r as [[]|]; simplify_eq; by apply exclusive_set.
    + assert (Hnone : ∀ j, runs (lk_pc s j) = false).
      { intros j. destruct (runs (lk_pc s j)) eqn:Hr; [|done]. apply He in Hr. unfold w in Hh. congruence. }
      destruct E as [[-> Hen]|[Hok Hen]].
      * simplify_eq. intros j. simpl. destruct (decide (j = i)) as [->|]; [|by rewrite Hnone].
        intros _. apply holder_entry. exists (clock w + LOCK_TTL_S). split; [done|].
        rewrite Hc. unfold LOCK_TTL_S. lia.
      * destruct r as [|]; simplify_eq. intros j. simpl.
        destruct (decide (j = i)); [done|]. by rewrite Hnone.
  - destruct (lk_pc s i) eqn:Hpc; try done.
    destruct (rd_get key w) as [r w'] eqn:E. apply (rs_get HR) in E as (Hc & Hen & Hr).
    assert (holder w' = holder w) as Hsame by by apply holder_same.
    destruct r as [h|]; simplify_eq; apply exclusive_set; try done.
    specialize (Hr h eq_refl) as ->. case_decide; [by right|done].
  - destruct (lk_pc s i) eqn:Hpc; try done.
    destruct (rd_get key w) as [r w'] eqn:E. apply (rs_get HR) in E as (Hc & Hen & Hr).
    assert (holder w' = holder w) as Hsame by by apply holder_same.
    destruct r as [h|]; simplify_eq; apply exclusive_set; try done; intros _; left; by rewrite Hpc.
  - destruct (lk_pc s i) eqn:Hpc; try done.
    destruct (rd_expire key LOCK_TTL_S w) as [r w'] eqn:E. apply (rs_expire HR) in E as [Hc E].
    assert (Hi : holder w = Some i) by (apply He; by rewrite Hpc).
    assert (holder w' = holder w) as Hsame.
    { rewrite Hi. apply holder_entry in Hi as (x & Hx & Hlt). rewrite Hx in E. apply holder_entry.
      rewrite Hc. destruct E as [[_ ->]|[_ ->]]; eexists; (split; [done|]); unfold LOCK_TTL_S; lia. }
    destruct r; simplify_eq; apply exclusive_set; try done; intros _; left; by rewrite Hpc.
  - assert (∃ r w', rd_get key w = (r, w') ∧ runs (lk_pc s i) = true ∧
      s' = set_lock_pc i (match r with
        | Ok h => if decide (h = Some i) then ReleaseDelete else Free | Err _ => Free end) w' s)
      as (r & w' & E & Hruns & ->).
    { destruct (rd_get key w) as [[h|x] w']; destruct (lk_pc s i) eqn:Hpc; simplify_eq;
        by eexists _, _. }
    apply (rs_get HR) in E as (Hc & Hen & Hr). apply exclusive_set; [done|by apply holder_same|].
    by left.
  - destruct (lk_pc s i) eqn:Hpc; try done. simplify_eq. intros j. simpl.
    destruct (decide (j = i)) as [->|Hne]; [done|]. intros Hr.
    assert (holder w = Some i) by (apply He; by rewrite Hpc). apply He in Hr.
    unfold w in *. congruence.
  - simplify_eq. destruct Ht as (Hc & Hen & Hlive). intros i Hr. simpl in *.
    pose proof (He i Hr) as Hh. apply holder_entry in Hh as (x & Hx & _). apply holder_entry.
    exists x. unfold w in *. rewrite Hen. split; [done|]. apply (Hlive i); congruence.
Qed.

(** C10 As long as no running worker's key expires on it, at most one worker runs a chain,
    and it is the one Redis names as the holder, whatever commands fail and however acquisitions,
    renewals and releases of any number of workers interleave. *)
Theorem lock_mutual_exclusion w s i j :
  redis_store → rtc lock_steps (lock_init_state w) s →
  runs (lk_pc s i) = true → runs (lk_pc s j) = true →
  i = j ∧ holder (lk_redis s) = Some i.
Proof.
  intros HR Hsteps Hi Hj. assert (He : exclusive s).
  { revert Hsteps. apply (rtc_ind_r exclusive); [by intros k|].
    intros y z _ (e & H & Ht) Hy. by eapply lock_step_exclusive. }
  pose proof (He i Hi) as H1. pose proof (He j Hj) as H2. split; congruence.
Qed.

(** ** The methods are runs of the protocol *)

Definition state_is (s : Locks W) (w : W) (i : string) (p : lock_pc) : Prop :=
  lk_redis s = w ∧ lk_pc s i = p.

Lemma pc_set i p w (s : Locks W) : state_is (set_lock_pc i p w s) w i p.
Proof. split; [done|]. simpl. by rewrite decide_True. Qed.

Definition reaches (i : string) (s : Locks W) (w : W) (p : lock_pc) : Prop :=
  ∃ es s', lock_run es s = Some s' ∧ state_is s' w i p.

Lemma reaches_one e i s s' w p :
  lock_step e s = Some s' → state_is s' w i p → reaches i s w p.
Proof. intros H Hs. exists [e], s'. simpl. by rewrite H. Qed.

Lemma reaches_step e i s s' w p :
  lock_step e s = Some s' → reaches i s' w p → reaches i s w p.
Proof. intros H (es & s2 & Hr & Hs). exists (e :: es), s2. simpl. by rewrite H. Qed.

End protocol.
Arguments Acquire {W}. Arguments Confirm {W}. Arguments Renew {W}. Arguments Expire {W}.
Arguments Release {W}. Arguments Delete {W}. Arguments Tick {W}.

(** ** A Redis with a clock *)
Module ToyRedis.
Definition world : Type := Z * gmap string (string * Z).

Definition live (w : world) (k : string) : option (string * Z) :=
  match w.2 !! k with Some (v, e) => if w.1 <? e then Some (v, e) else None | None => None end.

#[export] Instance redis : Redis world := {|
  rd_set_nx_ex k v ttl := λ w,
    match live w k with
    | Some _ => (Ok false, w)
    | None => (Ok true, (w.1, <[k := (v, w.1 + ttl)]> w.2))
    end;
  rd_get k := λ w, (Ok (fst <$> live w k), w);
  rd_expire k ttl := λ w,
    match live w k with
    | Some (v, _) => (Ok true, (w.1, <[k := (v, w.1 + ttl)]> w.2))
    | None => (Ok false, w)
    end;
  rd_delete k := λ w, (Ok tt, (w.1, delete k w.2));
|}.

Lemma store key : redis_store fst (λ w : world, w.2 !! key) key.
Proof.
  split.
  - intros v r w w' H. unfold holder. cbn in H. unfold live in H.
    destruct (w.2 !! key) as [[v' e]|] eqn:E; [destruct (w.1 <? e)|]; simplify_eq; simpl;
      rewrite ?E, ?lookup_insert_eq; split; try done; by left.
  - intros r w w' H. cbn in H. simplify_eq. split_and!; try done. intros x [= <-].
    unfold live, holder. destruct (w'.2 !! key) as [[v e]|]; [|done]. by destruct (_ <? _).
  - intros r w w' H. cbn in H. unfold live in H.
    destruct (w.2 !! key) as [[v e]|] eqn:E; [destruct (Z.ltb_spec w.1 e)|]; simplify_eq; simpl;
      rewrite ?E, ?lookup_insert_eq; (split; [done|]); [by left|right; split; [by right|done]|done].
  - intros r w w' H. cbn in H. simplify_eq. simpl. split; [done|]. left. by rewrite lookup_delete_eq.
Qed.
End ToyRedis.

#[local] Existing Instance ToyRedis.redis.
Definition toy_key : string := "chain_indexer:lock:eth".
Definition toy_locks : Locks ToyRedis.world := lock_init_state (0, ∅).

(** Without that assumption exclusion is lost twice over.  A worker whose key expired is
    told so by its renewal and goes on running beside the new holder.  And GET-then-DEL is not
    atomic: a key that expires in between and is taken by another worker is deleted, so that a
    third worker can acquire it while the second still runs. *)
Lemma lock_expiry_breaks_exclusion :
  let stands ws := fmap (M:=option) (λ s : Locks ToyRedis.world,
    (lk_pc s <$> ws, runs ∘ lk_pc s <$> ws, fst <$> ToyRedis.live (lk_redis s) toy_key)) in
  let expired := (31, {[toy_key := ("a", 30)]}) in
  stands ["a"; "b"]
    (lock_run toy_key [Acquire "a"; Tick expired; Acquire "b"; Renew "a"] toy_locks) =
    Some ([Lost; Held], [true; true], Some "b") ∧
  stands ["a"; "b"; "c"]
    (lock_run toy_key [Acquire "a"; Release "a"; Tick expired; Acquire "b"; Delete "a"; Acquire "c"]
       toy_locks) =
    Some ([Free; Held; Held], [false; true; true], Some "c").
Proof. split; vm_compute; reflexivity. Qed.

Lemma lock_mutual_exclusion_witness :
  ∃ s, rtc (lock_steps fst (λ w : ToyRedis.world, w.2 !! toy_key) toy_key) toy_locks s ∧
    runs (lk_pc s "a") = true ∧
    holder fst (λ w : ToyRedis.world, w.2 !! toy_key) (lk_redis s) = Some "a".
Proof.
  eexists. split; [|split].
  - eapply rtc_l; [|eapply rtc_l; [|apply rtc_refl]].
    + exists (Acquire "a"). by split.
    + exists (Acquire "b"). by split.
  - reflexivity.
  - eapply (lock_mutual_exclusion fst (λ w : ToyRedis.world, w.2 !! toy_key) toy_key (0, ∅) _ "a" "a"
      (ToyRedis.store toy_key)); [|reflexivity..].
    eapply rtc_l; [|eapply rtc_l; [|apply rtc_refl]].
    + exists (Acquire "a"). by split.
    + exists (Acquire "b"). by split.
Defined.

