(* ===== verification/Retry.v ===== *)
(** * Retries (core/notifier/retry.py)

    The arguments come from a channel's configuration unchecked, so they are Python values:
    [max_attempts] a JSON value, the two of the delays values of a type [D] (JSON values and
    floats) with the operations the code applies to them, which may raise. *)
From S2P Require Import Prelude PyStr PyVal.

Class Arith (D : Type) := {
  dmul : D → D → result D;
  dpow : D → Z → result D;
  dseconds : D → option exn;   (** what [asyncio.sleep] raises on it: not a number *)
}.

(** [base_delay * (factor ** (attempt - 1))], slept for *)
Definition backoff {D} `{!Arith D} (base_delay factor : D) (attempt : Z) : result D :=
  let? p := dpow factor (attempt - 1) in
  let? delay := dmul base_delay p in
  match dseconds delay with None => Ok delay | Some e => Err e end.

(** [range(1, max_attempts + 1)]: how often it runs the body *)
Definition attempts (max_attempts : pyval) : result Z :=
  match max_attempts with
  | PInt n => Ok n
  | PBool b => Ok (Z.b2z b)
  | _ => Err (TypeError "max_attempts + 1")
  end.

(** ** retry_with_backoff *)
Section retry.
Context {D W T : Type} `{!Arith D} (op : M W T) (sleep : D → W → W).
Variables (max_attempts : pyval) (base_delay factor : D).

(** [n] is [max_attempts] as the number it counts for. *)
Definition exhausted (n : Z) (last_err : option exn) : exn :=
  RetryExhausted ("giving up after " +:+ py_str_of max_attempts +:+ " attempts") n last_err.

(** The loop from [attempt] on; [fuel] is the number of iterations left. *)
Fixpoint retry_from (n : Z) (fuel : nat) (attempt : Z) (last_err : option exn) : M W T := λ w,
  match fuel with
  | O => (Err (exhausted n last_err), w)
  | S fuel' =>
      match op w with
      | (Ok x, w') => (Ok x, w')
      | (Err (RetryAbort m), w') => (Err (RetryAbort m), w')
      | (Err e, w') =>
          if n <=? attempt then (Err (exhausted n (Some e)), w')
          else
            match backoff base_delay factor attempt with
            | Ok delay => retry_from n fuel' (attempt + 1) (Some e) (sleep delay w')
            | Err e' => (Err e', w')
            end
      end
  end.

Definition retry_with_backoff : M W T :=
  let* n := mlift (attempts max_attempts) in retry_from n (Z.to_nat n) 1 None.

(** How retries fail: with an abort, by exhaustion, or because a wait cannot be computed. *)
Definition retry_failure (n : Z) (e : exn) : Prop :=
  (∃ m, e = RetryAbort m) ∨ (∃ cause, e = exhausted n cause) ∨
  ∃ i, 1 ≤ i < n ∧ backoff base_delay factor i = Err e.

(** When each attempt hands over the request [q] at most once, and does so if it succeeds, so do
    the retries, at most once per attempt. *)
Lemma retry_from_trace {Q} (log : W → list Q) (q : Q) :
  (∀ w r w', op w = (r, w') → ∃ j, (j ≤ 1)%nat ∧ log w' = log w ++ replicate j q ∧
     (is_ok r = true → j = 1%nat)) →
  (∀ d w, log (sleep d w) = log w) →
  ∀ n fuel attempt last w r w', 1 ≤ attempt → retry_from n fuel attempt last w = (r, w') →
  ∃ k, (k ≤ fuel)%nat ∧ log w' = log w ++ replicate k q ∧
    match r with Ok _ => (1 ≤ k)%nat | Err e => retry_failure n e end.
Proof.
  intros Hop Hsleep n fuel.
  induction fuel as [|fuel IH]; intros a last w r w' Ha Hr; cbn [retry_from] in Hr.
  { simplify_eq. exists 0%nat. rewrite app_nil_r. unfold retry_failure. eauto 6. }
  destruct (op w) as [[x|e] w1] eqn:E; destruct (Hop _ _ _ E) as (j & Hj & Hlog & Hok).
  { simplify_eq. exists j. rewrite Hok in * by done. split_and!; [lia|done|lia]. }
  assert (∀ r2 w2, (if n <=? a then (Err (exhausted n (Some e)), w1) else
      match backoff base_delay factor a with
      | Ok delay => retry_from n fuel (a + 1) (Some e) (sleep delay w1)
      | Err e' => (Err e', w1)
      end) = (r2, w2) → ∃ k, (k ≤ S fuel)%nat ∧ log w2 = log w ++ replicate k q ∧
    match r2 with Ok _ => (1 ≤ k)%nat | Err e => retry_failure n e end) as Hnext.
  { intros r2 w2 H2. destruct (n <=? a) eqn:Ele; [|apply Z.leb_gt in Ele].
    { simplify_eq. exists j. unfold retry_failure. split_and!; [lia|done|eauto]. }
    destruct (backoff base_delay factor a) as [delay|e'] eqn:Eb.
    - apply IH in H2 as (k & Hk & Hlog' & Hres); [|lia]. exists (j + k)%nat.
      rewrite replicate_add, app_assoc, <- Hlog, <- (Hsleep delay w1).
      split_and!; [lia|done|destruct r2; [lia|done]].
    - simplify_eq. exists j. split_and!; [lia|done|]. right; right. by exists a. }
  destruct e; lazymatch goal with
  | _ : op w = (Err (RetryAbort _), _) |- _ =>
      simplify_eq; exists j; split_and!; [lia|done|left; by eexists]
  | _ => by apply Hnext
  end.
Qed.
End retry.

(** ** A world driven by a script: what each attempt will do, and what was slept *)
Section script.
Context {D T : Type} `{!Arith D}.

Definition script_world : Type := list (result T) * list D.

Definition scripted : M script_world T := λ '(s, sl),
  match s with
  | o :: s' => (o, (s', sl))
  | [] => (Err (RuntimeError "script exhausted"), ([], sl))
  end.

Definition record_sleep (d : D) (w : script_world) : script_world := (w.1, w.2 ++ [d]).

Definition retriable (o : result T) : Prop :=
  match o with Ok _ | Err (RetryAbort _) => False | Err _ => True end.

(** A run of retriable failures is slept through, for the delays base * factor^i. *)
Lemma retry_from_failures max n base_delay factor fails waits : ∀ fuel a last s sl,
  Forall retriable fails → (length fails <= fuel)%nat → a + Z.of_nat (length fails) <= n →
  (λ i, backoff base_delay factor (a + Z.of_nat i)) <$> seq 0 (length fails) = Ok <$> waits →
  ∃ last', retry_from scripted record_sleep max base_delay factor n fuel a last (fails ++ s, sl) =
    retry_from scripted record_sleep max base_delay factor n (fuel - length fails)
      (a + Z.of_nat (length fails)) last' (s, sl ++ waits).
Proof.
  revert waits. induction fails as [|o fails IH]; intros waits fuel a last s sl Hf Hn Ha Hw.
  { destruct waits; [|done]. exists last.
    cbn [length app]. by rewrite Nat.sub_0_r, Z.add_0_r, app_nil_r. }
  apply Forall_cons in Hf as [Ho Hf]. cbn [length] in Hn, Ha, Hw.
  destruct fuel as [|fuel]; [lia|]. destruct o as [x|e]; [done|].
  destruct waits as [|d waits]; [done|]. cbn [seq fmap list_fmap] in Hw.
  injection Hw as Hd Hw. rewrite Z.add_0_r in Hd.
  destruct (IH waits fuel (a + 1) (Some e) s (sl ++ [d]) Hf) as [last' Hl]; [lia..| |].
  { etrans; [|exact Hw]. rewrite <- fmap_S_seq, <- list_fmap_compose.
    apply list_fmap_ext. intros i x _. unfold compose. f_equal. lia. }
  exists last'. cbn [length retry_from app scripted Nat.sub].
  rewrite (proj2 (Z.leb_gt _ _)) by lia. rewrite Hd.
  replace (a + Z.of_nat (S (length fails))) with (a + 1 + Z.of_nat (length fails)) by lia.
  rewrite <- app_assoc in Hl. cbn [app] in Hl. rewrite <- Hl. by destruct e.
Qed.

(** The retry contract, for any number of attempts and any sequence of outcomes: after [k]
    retriable failures the sleeps so far are the first [k] terms base * factor^i; then a success
    is returned, an abort is raised at once, and a failure that is attempt number [max] raises
    [RetryExhausted] with that count and the last error, without a further sleep. *)
Lemma retry_contract max base_delay factor fails waits o rest :
  Forall retriable fails → Z.of_nat (length fails) < max →
  (retriable o → Z.of_nat (length fails) + 1 = max) →
  (λ i, backoff base_delay factor (1 + Z.of_nat i)) <$> seq 0 (length fails) = Ok <$> waits →
  retry_with_backoff scripted record_sleep (PInt max) base_delay factor (fails ++ o :: rest, []) =
  (match o with
   | Ok x => Ok x
   | Err (RetryAbort m) => Err (RetryAbort m)
   | Err e => Err (exhausted (PInt max) max (Some e))
   end, (rest, waits)).
Proof.
  intros Hf Hlt Hlast Hw.
  change (retry_with_backoff scripted record_sleep (PInt max) base_delay factor (fails ++ o :: rest, []))
    with (retry_from scripted record_sleep (PInt max) base_delay factor max (Z.to_nat max) 1 None
            (fails ++ o :: rest, [])).
  destruct (retry_from_failures (PInt max) max base_delay factor fails waits (Z.to_nat max) 1 None
    (o :: rest) []) as [last' ->]; [done|lia|lia|done|].
  destruct (Z.to_nat max - length fails)%nat as [|n] eqn:En; [lia|].
  cbn [retry_from scripted app]. destruct o as [x|e]; [done|].
  destruct e; cbn [retriable] in Hlast; try done;
    (rewrite (proj2 (Z.leb_le _ _)) by (specialize (Hlast I); lia); done).
Qed.
End script.

(** ** Sample: JSON values, with the arithmetic of the integers *)
Definition py_ints : Arith pyval := {|
  dmul a b := match a, b with PInt x, PInt y => Ok (PInt (x * y)) | _, _ => Err (TypeError "*") end;
  dpow a n := match a with PInt x => Ok (PInt (x ^ n)) | _ => Err (TypeError "**") end;
  dseconds d := match d with PInt _ => None | _ => Some (TypeError "<=") end;
|}.

Lemma retry_contract_witness :
  retry_with_backoff (Arith0:=py_ints) (scripted (T:=string)) record_sleep (PInt 3) (PInt 1) (PInt 4)
    ([Err (RuntimeError "503"); Err (RuntimeError "503"); Ok "sent"], []) =
  (Ok "sent", ([], [PInt 1; PInt 4])).
Proof.
  exact (retry_contract (Arith0:=py_ints) (T:=string) 3 (PInt 1) (PInt 4)
    [Err (RuntimeError "503"); Err (RuntimeError "503")] [PInt 1; PInt 4] (Ok "sent") []
    ltac:(repeat constructor) ltac:(vm_compute; reflexivity) ltac:(intros [])
    ltac:(vm_compute; reflexivity)).
Defined.
