(* ===== verification/HttpChannel.v ===== *)
(** * The HTTP channel (core/notifier/http.py, and [_retry_config] of channel.py)

    The HTTP client, JSON serialisation and HMAC are the operations of [HttpLib]. *)
From S2P Require Import Prelude PyStr PyVal Retry.

Class HttpLib (W : Type) := {
  (** method, url, body, headers; the status code or an exception *)
  http_request : string → string → string → list (string * pyval) → M W Z;
  json_dumps : list (string * pyval) → string;
  hmac_sha256_hex : string → string → string;
}.

(** [config.get("retry", {})], unchecked: what a dict holds under the three keys, or a value
    that is no dict *)
Inductive RetryConfig (D : Type) :=
  | RetryDict (max_attempts : option pyval) (base_delay backoff_factor : option D)
  | RetryOther (v : pyval).
Arguments RetryDict {D}. Arguments RetryOther {D}.

(** It, of a configuration; [operand] is a JSON value as arithmetic takes it. *)
Definition retry_entry {D} (operand : pyval → D) (config : list (string * pyval)) : RetryConfig D :=
  match default (PDict []) (dget "retry" config) with
  | PDict r => RetryDict (dget "max_attempts" r) (operand <$> dget "base_delay" r)
                 (operand <$> dget "backoff_factor" r)
  | v => RetryOther v
  end.

Record HttpChannel (D : Type) := mkHttpChannel {
  hc_url : string;
  hc_method : string;
  hc_headers : list (string * pyval);
  hc_hmac_secret : option string;
  hc_retry : RetryConfig D;
  hc_started : bool;   (** self._client is not None *)
}.
Arguments mkHttpChannel {D}. Arguments hc_url {D}. Arguments hc_method {D}.
Arguments hc_headers {D}. Arguments hc_hmac_secret {D}. Arguments hc_retry {D}.
Arguments hc_started {D}.

Section http.
Context {D W : Type} `{!Arith D, !HttpLib W} (one four : D) (sleep : D → W → W).
Implicit Types ch : HttpChannel D.

(** [HttpChannel.__init__] *)
Definition http_init (config : pyval) (retry : RetryConfig D) : result (HttpChannel D) :=
  let? url := py_getitem config "url" in
  let? u := py_as_str url in
  let? method := py_get config "method" (PStr "POST") in
  let? m := py_as_str method in
  let? headers := py_get config "headers" (PDict []) in
  let? secret := py_get config "hmac_secret" PNone in
  match headers, secret with
  | PDict h, PNone => Ok (mkHttpChannel u (upper m) h None retry false)
  | PDict h, PStr s => Ok (mkHttpChannel u (upper m) h (Some s) retry false)
  | _, _ => Err (TypeError "invalid channel config")
  end.

Definition http_start ch : HttpChannel D :=
  mkHttpChannel (hc_url ch) (hc_method ch) (hc_headers ch) (hc_hmac_secret ch) (hc_retry ch) true.
Definition http_stop ch : HttpChannel D :=
  mkHttpChannel (hc_url ch) (hc_method ch) (hc_headers ch) (hc_hmac_secret ch) (hc_retry ch) false.

(** [_retry_config] *)
Definition retry_config (rc : RetryConfig D) : result (pyval * D * D) :=
  match rc with
  | RetryDict max_attempts base_delay factor =>
      Ok (default (PInt 3) max_attempts, default one base_delay, default four factor)
  | RetryOther _ => Err (attribute_error "get")
  end.

(** [_RETRYABLE_STATUS] *)
Definition RETRYABLE_STATUS : list Z := [408; 429].

(** How [_post_once] takes a response. *)
Definition classify (url : string) (status : Z) : result unit :=
  let msg := "http " +:+ py_str status +:+ " from " +:+ url in
  if (200 <=? status) && (status <? 300) then Ok tt
  else if (400 <=? status) && (status <? 500) && negb (bool_decide (status ∈ RETRYABLE_STATUS))
  then Err (RetryAbort msg)
  else Err (RuntimeError msg).

Definition post_once ch (body : string) (headers : list (string * pyval)) : M W unit :=
  let* status := http_request (hc_method ch) (hc_url ch) body headers in
  mlift (classify (hc_url ch) status).

(** The headers of one delivery: the configured ones, a content type unless one is
    configured, and the signature of the body. *)
Definition send_headers ch (body : string) : list (string * pyval) :=
  let headers := if dmem "Content-Type" (hc_headers ch) then hc_headers ch
                 else dset "Content-Type" (PStr "application/json") (hc_headers ch) in
  match hc_hmac_secret ch with
  | Some (String _ _ as secret) =>
      dset "X-Signature" (PStr ("sha256=" +:+ hmac_sha256_hex secret body)) headers
  | _ => headers
  end.

(** [HttpChannel.send] *)
Definition http_send ch (payload : list (string * pyval)) : M W unit :=
  if negb (hc_started ch) then
    mthrow (AssertionError "HttpChannel.start() must be called first")
  else
    let body := json_dumps payload in
    let headers := send_headers ch body in
    let* settings := mlift (retry_config (hc_retry ch)) in
    let '(max_attempts, base_delay, factor) := settings in
    retry_with_backoff (post_once ch body headers) sleep max_attempts base_delay factor.
End http.
