(* ===== verification/Notifier.v ===== *)
(** * Payloads and dispatch (core/notifier/payload.py, core/notifier/notifier.py) *)
From S2P Require Import Prelude PyStr PyVal Types Snapshot.

(** ** Payloads *)

(** [_safe] *)
Fixpoint safe (obj : pyval) : pyval :=
  match obj with
  | PBytes l => PStr ("0x" +:+ bytes_hex l)
  | PDict d => PDict ((λ kv, (kv.1, safe kv.2)) <$> d)
  | PList l | PTuple l => PList (safe <$> l)
  | PInt _ | PBool _ | PStr _ | PNone => obj
  end.

Definition opt_str (s : option string) : pyval :=
  match s with Some s => PStr s | None => PNone end.
Definition opt_int (z : option Z) : pyval :=
  match z with Some z => PInt z | None => PNone end.

Definition event_payload (event : Event) : list (string * pyval) :=
  [("kind", PStr (ev_kind event)); ("name", opt_str (ev_name event));
   ("contract", safe (opt_str (ev_contract event)));
   ("block_number", PInt (ev_block_number event));
   ("block_hash", safe (PStr (ev_block_hash event)));
   ("block_timestamp", PInt (ev_block_timestamp event));
   ("tx_hash", safe (PStr (ev_tx_hash event)));
   ("tx_index", opt_int (ev_tx_index event)); ("log_index", opt_int (ev_log_index event));
   ("args", safe (PDict (ev_args event)))].

(** [build_payload]; [delivered_at] and [delivery_id] are the clock and the uuid it
    draws. *)
Definition build_payload (delivered_at : Z) (delivery_id : string) (event : Event)
    (sub : SnapshotSubscription) (replay : bool) : list (string * pyval) :=
  [("subscription_id", PStr (sub_id sub)); ("subscription_name", PStr (sub_name sub))] ++
  (if str_truthy (sub_business_name sub) then [("business_name", opt_str (sub_business_name sub))]
   else []) ++
  [("chain_id", PStr (ev_chain_id event)); ("event", PDict (event_payload event));
   ("delivered_at", PInt delivered_at); ("delivery_id", PStr delivery_id)] ++
  (if replay then [("replay", PBool true)] else []).

(** ** Dispatch *)

(** The driver objects and the environment. *)
Class ChannelEnv (Ch W : Type) := {
  ch_factory : SnapshotChannel → M W Ch;
  ch_start : Ch → M W unit;
  ch_stop : Ch → M W unit;
  ch_send : Ch → list (string * pyval) → M W unit;
  env_now : W → Z;
  env_uuid : W → string * W;
}.

(** [on_success] / [on_failure]: subscription, channel, chain, payload, error, attempts *)
Definition callback (W : Type) : Type :=
  option (string → string → pyval → list (string * pyval) → option exn → Z → M W unit).

Section notifier.
Context {Ch W : Type} `{!ChannelEnv Ch W}.
Variables (on_failure on_success : callback W).

(** The state is [_channels], a dict in insertion order, and the world. *)
Definition notifier_state : Type := list (string * Ch) * W.

Definition in_world {A} (m : M W A) : M notifier_state A := λ '(chs, w),
  let '(r, w') := m w in (r, (chs, w')).

(** [Notifier.start] *)
Definition notifier_start (channels : list SnapshotChannel) : M notifier_state unit :=
  mfor channels (λ cfg,
    let* inst := in_world (ch_factory cfg) in
    in_world (ch_start inst) ;;*
    mmodify (λ '(chs, w), (dset (ch_id cfg) inst chs, w))).

(** [Notifier.stop] *)
Definition notifier_stop : M notifier_state unit :=
  let* st := mget in
  mfor st.1 (λ kv, mcatch (in_world (ch_stop kv.2)) (λ _, mret tt)) ;;*
  mmodify (λ '(_, w), ([], w)).

(** One task of [dispatch] *)
Record job := mkJob {
  job_ch : Ch;
  job_payload : list (string * pyval);
  job_subscription_id : string;
  job_channel_id : string;
}.

(** [getattr(exc, "attempts", 1)] *)
Definition exn_attempts (e : exn) : Z :=
  match e with RetryExhausted _ n _ => n | _ => 1 end.

Definition run_callback (cb : callback W) (j : job) (error : option exn) (attempts : Z)
    : W → W := λ w,
  match cb with
  | None => w
  | Some f => (f (job_subscription_id j) (job_channel_id j)
                 (default (PStr "") (dget "chain_id" (job_payload j)))
                 (job_payload j) error attempts w).2   (* its exceptions are logged *)
  end.

(** [_send_one] *)
Definition send_one (j : job) (w : W) : W :=
  match ch_send (job_ch j) (job_payload j) w with
  | (Ok _, w') => run_callback on_success j None 1 w'
  | (Err exc, w') => run_callback on_failure j (Some exc) (exn_attempts exc) w'
  end.

(** The tasks created for one hit: its payload is built once. *)
Definition hit_jobs (chs : list (string * Ch)) (sub : SnapshotSubscription)
    (chans : list SnapshotChannel) (payload : list (string * pyval)) : list job :=
  omap (λ c, (λ ch, mkJob ch payload (sub_id sub) (ch_id c)) <$> dget (ch_id c) chs) chans.

(** The tasks [dispatch] creates, in order *)
Fixpoint dispatch_jobs (chs : list (string * Ch)) (event : Event)
    (hits : list (SnapshotSubscription * list SnapshotChannel)) (replay : bool) (w : W)
    : list job * W :=
  match hits with
  | [] => ([], w)
  | (sub, chans) :: t =>
      let '(uid, w1) := env_uuid w in
      let payload := build_payload (env_now w) uid event sub replay in
      let '(js, w2) := dispatch_jobs chs event t replay w1 in
      (hit_jobs chs sub chans payload ++ js, w2)
  end.

(** [dispatch]: the tasks run concurrently; [schedule] is the order in which they
    happen to complete. *)
Definition dispatch (schedule : list job → list job) (event : Event)
    (hits : list (SnapshotSubscription * list SnapshotChannel)) (replay : bool)
    (st : notifier_state) : notifier_state :=
  let '(js, w) := dispatch_jobs st.1 event hits replay st.2 in
  (st.1, foldl (λ w j, send_one j w) w (schedule js)).
End notifier.

(** ** JSON values *)

Inductive is_json : pyval → Prop :=
  | json_none : is_json PNone
  | json_bool b : is_json (PBool b)
  | json_int z : is_json (PInt z)
  | json_str s : is_json (PStr s)
  | json_list l : Forall is_json l → is_json (PList l)
  | json_dict d : Forall (λ kv, is_json kv.2) d → is_json (PDict d).

Lemma safe_json v : is_json (safe v).
Proof.
  induction v as [|b|z|s|l|l IH|l IH|d IH] using pyval_rect'; simpl; constructor;
    by apply Forall_fmap.
Qed.

Lemma safe_id v : is_json v → safe v = v.
Proof.
  induction v as [|b|z|s|l|l IH|l IH|d IH] using pyval_rect'; intros Hj; try done; simpl.
  - inversion Hj.
  - f_equal. inversion Hj as [| | | |? Hl|]; subst. induction Hl; [done|]. inversion IH; subst.
    simpl. f_equal; auto. apply IHHl; [done|by constructor].
  - inversion Hj.
  - f_equal. inversion Hj as [| | | | |? Hd]; subst. clear Hj.
    induction Hd as [|[k x] d Hx Hd IHd]; [done|]. inversion IH; subst.
    simpl. f_equal; auto. f_equal. auto.
Qed.

Lemma opt_str_json s : is_json (opt_str s).
Proof. destruct s; constructor. Qed.
Lemma opt_int_json z : is_json (opt_int z).
Proof. destruct z; constructor. Qed.

(** ** A ledger: a world that records what is delivered *)
Module Ledger.
Section ledger.
Context {Ch : Type}.

(** A delivery record: subscription, channel, delivery id, error, attempts *)
Definition record : Type := string * string * pyval * option exn * Z.

Record world := mkWorld {
  outcome : Ch → result unit;    (** what sending through each channel does *)
  records : list record;
  next_uuid : Z;
}.

#[export] Instance env (factory : SnapshotChannel → Ch) : ChannelEnv Ch world := {|
  ch_factory cfg := mret (factory cfg);
  ch_start _ := mret tt;
  ch_stop _ := mret tt;
  ch_send ch _ := λ w, (outcome w ch, w);
  env_now _ := 0;
  env_uuid w := (py_str (next_uuid w), mkWorld (outcome w) (records w) (next_uuid w + 1));
|}.

Definition record_delivery : callback world :=
  Some (λ sid cid _ payload error attempts w,
    (Ok tt, mkWorld (outcome w)
      (records w ++ [(sid, cid, default PNone (dget "delivery_id" payload), error, attempts)])
      (next_uuid w))).

Variable factory : SnapshotChannel → Ch.
Existing Instance env.

(** The record one job leaves. *)
Definition job_record (o : Ch → result unit) (j : job (Ch:=Ch)) : record :=
  let did := default PNone (dget "delivery_id" (job_payload j)) in
  match o (job_ch j) with
  | Ok _ => (job_subscription_id j, job_channel_id j, did, None, 1)
  | Err e => (job_subscription_id j, job_channel_id j, did, Some e, exn_attempts e)
  end.

Lemma send_one_record j w :
  send_one (W:=world) (ChannelEnv0:=env factory) record_delivery record_delivery j w =
  mkWorld (outcome w) (records w ++ [job_record (outcome w) j]) (next_uuid w).
Proof.
  unfold send_one, job_record. simpl. by destruct (outcome w (job_ch j)).
Qed.

Lemma send_all_records js w :
  foldl (λ w j, send_one (ChannelEnv0:=env factory) record_delivery record_delivery j w) w js =
  mkWorld (outcome w) (records w ++ (job_record (outcome w) <$> js)) (next_uuid w).
Proof.
  revert w. induction js as [|j js IH]; intros w; simpl.
  { destruct w. simpl. by rewrite app_nil_r. }
  rewrite send_one_record, IH. simpl. by rewrite <- app_assoc.
Qed.

Lemma dispatch_jobs_world chs event hits replay w :
  outcome (dispatch_jobs (ChannelEnv0:=env factory) chs event hits replay w).2 = outcome w ∧
  records (dispatch_jobs (ChannelEnv0:=env factory) chs event hits replay w).2 = records w.
Proof.
  revert w. induction hits as [|[sub chans] t IH]; intros w; [done|]. cbn [dispatch_jobs].
  cbn [env_uuid env]. specialize (IH (mkWorld (outcome w) (records w) (next_uuid w + 1))).
  destruct (dispatch_jobs chs event t replay _) as [js w2]. exact IH.
Qed.

(** Who is to be notified: every started channel of every hit. *)
Definition recipients (chs : list (string * Ch))
    (hits : list (SnapshotSubscription * list SnapshotChannel)) : list (string * string) :=
  hits ≫= λ '(sub, chans), omap (λ c, (λ _, (sub_id sub, ch_id c)) <$> dget (ch_id c) chs) chans.

Lemma hit_jobs_ids chs sub chans payload :
  (λ j, (job_subscription_id j, job_channel_id j)) <$> hit_jobs (Ch:=Ch) chs sub chans payload =
  omap (λ c, (λ _, (sub_id sub, ch_id c)) <$> dget (ch_id c) chs) chans.
Proof.
  unfold hit_jobs. induction chans as [|c chans IH]; [done|]. csimpl.
  destruct (dget (ch_id c) chs); csimpl; by rewrite <- IH.
Qed.

Lemma dispatch_jobs_ids chs event hits replay w :
  (λ j, (job_subscription_id j, job_channel_id j)) <$>
    (dispatch_jobs (ChannelEnv0:=env factory) chs event hits replay w).1 = recipients chs hits.
Proof.
  revert w. induction hits as [|[sub chans] t IH]; intros w; [done|]. cbn [dispatch_jobs].
  cbn [env_uuid env]. specialize (IH (mkWorld (outcome w) (records w) (next_uuid w + 1))).
  destruct (dispatch_jobs chs event t replay _) as [js w2]. cbn [fst] in IH |- *.
  rewrite fmap_app, hit_jobs_ids, IH. done.
Qed.

Lemma dispatch_jobs_ch chs event hits replay w :
  Forall (λ j, dget (job_channel_id j) chs = Some (job_ch j))
    (dispatch_jobs (ChannelEnv0:=env factory) chs event hits replay w).1.
Proof.
  revert w. induction hits as [|[sub chans] t IH]; intros w; [constructor|]. cbn [dispatch_jobs].
  cbn [env_uuid env]. specialize (IH (mkWorld (outcome w) (records w) (next_uuid w + 1))).
  destruct (dispatch_jobs chs event t replay _) as [js w2]. cbn [fst] in IH |- *.
  apply Forall_app. split; [|exact IH]. apply Forall_forall. intros j.
  unfold hit_jobs. rewrite list_elem_of_omap. intros (c&_&(ch&Hc&->)%fmap_Some). done.
Qed.

(** Delivery is exactly-once per (subscription, started channel), in every
    completion order of the concurrent sends: the records added are one per started
    channel of each hit, no channel's failure suppresses another's send, and each
    record is a success with one attempt or carries that channel's exception and its
    attempt count. *)
Lemma dispatch_records_each_once schedule event hits replay chs w :
  (∀ js, schedule js ≡ₚ js) →
  let st := dispatch (ChannelEnv0:=env factory) record_delivery record_delivery schedule event hits replay
              (chs, w) in
  ∃ new, records st.2 = records w ++ new ∧
    (λ '(sid, cid, _, _, _), (sid, cid)) <$> new ≡ₚ recipients chs hits ∧
    Forall (λ '(sid, cid, _, error, attempts),
      ∃ ch, dget cid chs = Some ch ∧
        match outcome w ch with
        | Ok _ => error = None ∧ attempts = 1
        | Err e => error = Some e ∧ attempts = exn_attempts e
        end) new.
Proof.
  intros Hs st. unfold st, dispatch. cbn [fst snd].
  pose proof (dispatch_jobs_world chs event hits replay w) as [Ho Hr].
  pose proof (dispatch_jobs_ids chs event hits replay w) as Hids.
  pose proof (dispatch_jobs_ch chs event hits replay w) as Hch.
  destruct (dispatch_jobs chs event hits replay w) as [js w']. cbn [fst snd] in *.
  rewrite send_all_records. cbn [records]. exists (job_record (outcome w') <$> schedule js).
  rewrite Hr, Ho. split; [done|]. split.
  - rewrite Hs, <- list_fmap_compose, <- Hids. erewrite list_fmap_ext; [reflexivity|].
    intros i j _. unfold job_record. simpl. by destruct (outcome w (job_ch j)).
  - rewrite Hs. apply Forall_fmap. eapply Forall_impl; [exact Hch|]. intros j Hj.
    unfold compose, job_record. destruct (outcome w (job_ch j)) eqn:E; exists (job_ch j);
      by rewrite E.
Qed.

(** One payload per subscription, not per channel: the deliveries that one hit
    makes through different channels carry the same delivery id. *)
Lemma channels_share_delivery_id event sub chans t replay chs w :
  let '(js, _) := dispatch_jobs (ChannelEnv0:=env factory) chs event ((sub, chans) :: t) replay w in
  ∃ n, n = length (hit_jobs chs sub chans []) ∧
    Forall (λ j, dget "delivery_id" (job_payload j) = Some (PStr (py_str (next_uuid w)))) (take n js).
Proof.
  cbn [dispatch_jobs env_uuid env].
  destruct (dispatch_jobs chs event t replay _) as [js w2]. eexists. split; [reflexivity|].
  set (p := build_payload _ _ _ _ _).
  assert (length (hit_jobs chs sub chans []) = length (hit_jobs chs sub chans p)) as ->.
  { unfold hit_jobs. induction chans as [|c l IH]; [done|]. csimpl.
    destruct (dget (ch_id c) chs); simpl; auto. }
  rewrite take_app_length. apply Forall_forall. intros j.
  unfold hit_jobs. rewrite list_elem_of_omap. intros (c&_&(ch&Hc&->)%fmap_Some). simpl.
  unfold p, build_payload. by destruct (str_truthy _), replay.
Qed.
End ledger.
End Ledger.

(** A payload is always serialisable: whatever the event's arguments are (bytes,
    tuples, nested objects), every value in it is plain JSON; arguments that already
    are JSON are delivered unchanged, and the replay flag is present exactly on
    replays. *)
Lemma payload_is_json now uid event sub replay :
  is_json (PDict (build_payload now uid event sub replay)) ∧
  (is_json (PDict (ev_args event)) →
    dget "event" (build_payload now uid event sub replay) =
      Some (PDict (event_payload event)) ∧
    dget "args" (event_payload event) = Some (PDict (ev_args event))) ∧
  dget "replay" (build_payload now uid event sub replay) =
    if replay then Some (PBool true) else None.
Proof.
  assert (is_json (PDict (event_payload event))) as Hev.
  { constructor. repeat (apply Forall_cons; split; [|]); [..|constructor]; cbn [snd];
      apply opt_str_json || apply opt_int_json || apply safe_json || constructor. }
  split; [|split].
  - constructor. unfold build_payload. rewrite !Forall_app. split_and!.
    + by repeat constructor.
    + destruct (str_truthy _); repeat constructor. apply opt_str_json.
    + repeat (apply Forall_cons; split; [|]); [constructor|exact Hev|constructor..].
    + destruct replay; repeat constructor.
  - intros Hj. split; [unfold build_payload; by destruct (str_truthy _)|].
    unfold event_payload. cbn [dget]. rewrite !decide_False by done. rewrite decide_True by done.
    by rewrite safe_id.
  - unfold build_payload. by destruct (str_truthy _), replay.
Qed.

(** ** Witness: two hits, one channel failing, one not started *)
Definition sample_sub (id : string) : SnapshotSubscription :=
  mkSub id id "eth" None None "event" None [] true ["a"; "b"; "c"] None None.
Definition sample_chan (id : string) : SnapshotChannel := mkChannel id id "http" [].
Definition sample_event : Event :=
  mkEvent "eth" 5 "0xb" 0 "0xt" None None "event" None None [("data", PBytes [x01])] [].

Lemma dispatch_records_each_once_witness :
  ∃ new, (λ '(sid, cid, _, _, _), (sid, cid)) <$> new ≡ₚ
    [("s1", "a"); ("s1", "b"); ("s2", "b")] ∧
  Ledger.records (dispatch (ChannelEnv0:=Ledger.env (λ c : SnapshotChannel, ch_id c))
    Ledger.record_delivery Ledger.record_delivery reverse sample_event
    [(sample_sub "s1", [sample_chan "a"; sample_chan "b"; sample_chan "z"]);
     (sample_sub "s2", [sample_chan "b"])] false
    ([("a", "a"); ("b", "b")],
     Ledger.mkWorld (λ c, if String.eqb c "b" then Err (RetryExhausted "" 3 None) else Ok tt)
       [] 0)).2 = new.
Proof.
  destruct (Ledger.dispatch_records_each_once (λ c : SnapshotChannel, ch_id c) reverse sample_event
    [(sample_sub "s1", [sample_chan "a"; sample_chan "b"; sample_chan "z"]);
     (sample_sub "s2", [sample_chan "b"])] false [("a", "a"); ("b", "b")]
    (Ledger.mkWorld (λ c, if String.eqb c "b" then Err (RetryExhausted "" 3 None) else Ok tt) [] 0)
    (λ js, reverse_Permutation js)) as (new&Hr&Hp&_).
  exists new. split; [exact Hp|exact Hr].
Defined.
