(* ===== verification/Channels.v ===== *)
(** * Notification channels (core/notifier/channel.py, kafka.py, rabbitmq.py,
    redis_streams.py, websocket.py)

    The four drivers that hand the payload to a broker, and the registry of drivers.  The
    broker clients (confluent-kafka, aio-pika, redis) are the operations of [Brokers];
    configuration values are JSON values the constructors do not inspect.  A driver is
    an object: [start] and [stop] change it, so operations are in [M (object * W)]. *)
From S2P Require Import Prelude PyStr PyVal Snapshot Retry HttpChannel Notifier.
From S2P Require Import Repositories.

Class Brokers (W : Type) := {
  dumps : list (string * pyval) → string;      (** json.dumps(payload, separators=(",", ":")) *)
  kafka_producer : list (string * pyval) → M W nat;
  kafka_produce : nat → pyval → string → option string → M W unit;
  kafka_poll : nat → M W unit;
  kafka_flush : nat → M W unit;
  amqp_connect : pyval → M W nat;
  amqp_open_channel : nat → M W nat;
  amqp_close : nat → M W unit;
  amqp_get_exchange : nat → pyval → M W nat;
  amqp_default_exchange : nat → nat;
  amqp_publish : nat → string → pyval → M W unit;
  redis_from_url : pyval → M W nat;
  redis_aclose : nat → M W unit;
  bus_client : M W nat;                        (** [RedisBus.client], which asserts *)
  redis_xadd : nat → pyval → string → option pyval → M W unit;
  redis_publish : nat → pyval → string → M W unit;
}.

(** ** Methods of an object in a world *)
Section objects.
Context {O W : Type}.

Definition in_env {A} (m : M W A) : M (O * W) A := λ '(o, w), let '(r, w') := m w in (r, (o, w')).
Definition self : M (O * W) O := mgets fst.
Definition set_self (f : O → O) : M (O * W) unit := mmodify (λ '(o, w), (f o, w)).
End objects.

(** ** The drivers *)
Record KafkaChannel (D : Type) := mkKafka {
  kf_bootstrap_servers : pyval;
  kf_topic : pyval;
  kf_key : pyval;
  kf_compression : pyval;
  kf_linger_ms : pyval;
  kf_batch_size : pyval;
  kf_acks : pyval;
  kf_retry : RetryConfig D;
  kf_producer : option nat;
}.
Record RabbitMQChannel (D : Type) := mkRabbit {
  rq_url : pyval;
  rq_exchange_name : pyval;
  rq_routing_key : pyval;
  rq_queue_name : pyval;
  rq_retry : RetryConfig D;
  rq_connection : option nat;
  rq_channel : option nat;
}.
Record RedisStreamsChannel (D : Type) := mkStreams {
  rs_stream : pyval;
  rs_maxlen : pyval;
  rs_redis_url : pyval;
  rs_retry : RetryConfig D;
  rs_own_client : option nat;
}.
Record WebSocketChannel (D : Type) := mkWs {
  ws_fanout_channel : pyval;
  ws_retry : RetryConfig D;
}.
Arguments mkKafka {D}. Arguments kf_bootstrap_servers {D}. Arguments kf_topic {D}.
Arguments kf_key {D}. Arguments kf_compression {D}. Arguments kf_linger_ms {D}.
Arguments kf_batch_size {D}. Arguments kf_acks {D}. Arguments kf_retry {D}.
Arguments kf_producer {D}.
Arguments mkRabbit {D}. Arguments rq_url {D}. Arguments rq_exchange_name {D}.
Arguments rq_routing_key {D}. Arguments rq_queue_name {D}. Arguments rq_retry {D}.
Arguments rq_connection {D}. Arguments rq_channel {D}.
Arguments mkStreams {D}. Arguments rs_stream {D}. Arguments rs_maxlen {D}.
Arguments rs_redis_url {D}. Arguments rs_retry {D}. Arguments rs_own_client {D}.
Arguments mkWs {D}. Arguments ws_fanout_channel {D}. Arguments ws_retry {D}.

Section drivers.
Context {D W : Type} `{!Arith D, !Brokers W} (one four : D) (sleep : D → W → W).
Implicit Types config : list (string * pyval).

Definition config_get config (k : string) (d : pyval) : pyval := default d (dget k config).
Definition config_item config (k : string) : result pyval := py_getitem (PDict config) k.

(** *** KafkaChannel *)
Definition kafka_init config (retry : RetryConfig D) : result (KafkaChannel D) :=
  let? servers := config_item config "bootstrap_servers" in
  let? topic := config_item config "topic" in
  Ok (mkKafka servers topic (config_get config "key" PNone)
    (config_get config "compression_type" (PStr "none")) (config_get config "linger_ms" (PInt 10))
    (config_get config "batch_size" (PInt 16384)) (config_get config "acks" (PStr "1")) retry None).

Definition kafka_set_producer (p : option nat) (c : KafkaChannel D) : KafkaChannel D :=
  mkKafka (kf_bootstrap_servers c) (kf_topic c) (kf_key c) (kf_compression c) (kf_linger_ms c)
    (kf_batch_size c) (kf_acks c) (kf_retry c) p.

Definition kafka_start : M (KafkaChannel D * W) unit :=
  let* c := self in
  let* p := in_env (kafka_producer
    [("bootstrap.servers", kf_bootstrap_servers c); ("compression.type", kf_compression c);
     ("linger.ms", kf_linger_ms c); ("batch.size", kf_batch_size c); ("acks", kf_acks c)]) in
  set_self (kafka_set_producer (Some p)).

Definition kafka_stop : M (KafkaChannel D * W) unit :=
  let* c := self in
  match kf_producer c with
  | Some p => in_env (kafka_flush p) ;;* set_self (kafka_set_producer None)
  | None => mret tt
  end.

(** [self._key.encode() if self._key else None] *)
Definition encoded_key (key : pyval) : result (option string) :=
  if py_truth key then
    match key with
    | PStr s => Ok (Some s)
    | _ => Err (attribute_error "encode")
    end
  else Ok None.

Definition kafka_produce_once (p : nat) (c : KafkaChannel D) (body : string) : M W unit :=
  let* key := mlift (encoded_key (kf_key c)) in
  kafka_produce p (kf_topic c) body key ;;* kafka_poll p.

Definition with_retry (rc : RetryConfig D) (once : M W unit) : M W unit :=
  let* settings := mlift (retry_config one four rc) in
  let '(max_attempts, base_delay, factor) := settings in
  retry_with_backoff once sleep max_attempts base_delay factor.

Definition kafka_send (c : KafkaChannel D) (payload : list (string * pyval)) : M W unit :=
  match kf_producer c with
  | None => mthrow (AssertionError "")
  | Some p => with_retry (kf_retry c) (kafka_produce_once p c (dumps payload))
  end.

(** *** RabbitMQChannel *)
Definition rabbit_init config (retry : RetryConfig D) : result (RabbitMQChannel D) :=
  let? url := config_item config "url" in
  Ok (mkRabbit url (config_get config "exchange" (PStr "")) (config_get config "routing_key" (PStr ""))
    (config_get config "queue" PNone) retry None None).

Definition rabbit_set (conn chan : option nat) (c : RabbitMQChannel D) : RabbitMQChannel D :=
  mkRabbit (rq_url c) (rq_exchange_name c) (rq_routing_key c) (rq_queue_name c) (rq_retry c)
    conn chan.

Definition rabbit_start : M (RabbitMQChannel D * W) unit :=
  let* c := self in
  let* conn := in_env (amqp_connect (rq_url c)) in
  set_self (rabbit_set (Some conn) (rq_channel c)) ;;*
  let* chan := in_env (amqp_open_channel conn) in
  set_self (rabbit_set (Some conn) (Some chan)).

Definition rabbit_stop : M (RabbitMQChannel D * W) unit :=
  let* c := self in
  match rq_connection c with
  | Some conn => in_env (amqp_close conn) ;;* set_self (rabbit_set None None)
  | None => mret tt
  end.

Definition rabbit_publish_once (chan : nat) (c : RabbitMQChannel D) (body : string) : M W unit :=
  let* exchange := if py_truth (rq_exchange_name c)
                   then amqp_get_exchange chan (rq_exchange_name c)
                   else mret (amqp_default_exchange chan) in
  amqp_publish exchange body (rq_routing_key c).

Definition rabbit_send (c : RabbitMQChannel D) (payload : list (string * pyval)) : M W unit :=
  match rq_channel c with
  | None => mthrow (AssertionError "")
  | Some chan => with_retry (rq_retry c) (rabbit_publish_once chan c (dumps payload))
  end.

(** *** RedisStreamsChannel *)
Definition streams_init config (retry : RetryConfig D) : result (RedisStreamsChannel D) :=
  let? stream := config_item config "stream" in
  Ok (mkStreams stream (config_get config "maxlen" PNone) (config_get config "redis_url" PNone)
    retry None).

Definition streams_set (client : option nat) (c : RedisStreamsChannel D) : RedisStreamsChannel D :=
  mkStreams (rs_stream c) (rs_maxlen c) (rs_redis_url c) (rs_retry c) client.

Definition streams_start : M (RedisStreamsChannel D * W) unit :=
  let* c := self in
  if py_truth (rs_redis_url c) then
    let* client := in_env (redis_from_url (rs_redis_url c)) in set_self (streams_set (Some client))
  else mret tt.

Definition streams_stop : M (RedisStreamsChannel D * W) unit :=
  let* c := self in
  match rs_own_client c with
  | Some client => in_env (redis_aclose client) ;;* set_self (streams_set None)
  | None => mret tt
  end.

Definition xadd_once (c : RedisStreamsChannel D) (body : string) : M W unit :=
  let* client := match rs_own_client c with Some client => mret client | None => bus_client end in
  redis_xadd client (rs_stream c) body
    (match rs_maxlen c with PNone => None | n => Some n end).

Definition streams_send (c : RedisStreamsChannel D) (payload : list (string * pyval)) : M W unit :=
  with_retry (rs_retry c) (xadd_once c (dumps payload)).

(** *** WebSocketChannel *)
Definition ws_init config (retry : RetryConfig D) : result (WebSocketChannel D) :=
  let? fanout := config_item config "ws_fanout_channel" in Ok (mkWs fanout retry).

Definition ws_start : M (WebSocketChannel D * W) unit := mret tt.
Definition ws_stop : M (WebSocketChannel D * W) unit := mret tt.

Definition publish_once (c : WebSocketChannel D) (body : string) : M W unit :=
  let* client := bus_client in redis_publish client (ws_fanout_channel c) body.

Definition ws_send (c : WebSocketChannel D) (payload : list (string * pyval)) : M W unit :=
  with_retry (ws_retry c) (publish_once c (dumps payload)).
End drivers.

(** ** The registry (core/notifier/channel.py)

    A class object: its identity, and the class attributes [__init_subclass__] looks at. *)
Inductive class_id := CHttpChannel | CKafkaChannel | CRabbitMQChannel | CRedisStreamsChannel
  | CWebSocketChannel.

#[export] Instance class_id_eq_dec : EqDecision class_id.
Proof. solve_decision. Defined.

Record channel_class := mkClass {
  cls_id : class_id;
  cls_name : string;
  cls_type : option pyval;
  cls_config_schema : option pyval;
}.

Definition registry := gmap string channel_class.

Definition register_channel (t : string) (cls : channel_class) : M registry unit := λ reg,
  match reg !! t with
  | Some c =>
      if decide (cls_id c = cls_id cls) then (Ok tt, <[t := cls]> reg)
      else (Err (ValueError ("channel type " +:+ repr_text false t +:+ " already registered to " +:+
                             cls_name c)), reg)
  | None => (Ok tt, <[t := cls]> reg)
  end.

(** [Channel.__init_subclass__] *)
Definition init_subclass (cls : channel_class) : M registry unit :=
  match cls_type cls with
  | Some (PStr (String _ _ as t)) =>
      match cls_config_schema cls with
      | Some (PDict _) => register_channel t cls
      | _ => mthrow (TypeError (cls_name cls +:+
               " must declare a `config_schema` class attribute (dict)."))
      end
  | t => mthrow (TypeError (cls_name cls +:+
           " must declare a `type` class attribute (non-empty str). Got " +:+
           py_repr (default PNone t) +:+ "."))
  end.

Definition schema (required : list string) (properties : list (string * pyval)) : pyval :=
  PDict [("type", PStr "object"); ("required", PList (PStr <$> required));
         ("properties", PDict properties)].
Definition of_type (t : string) : pyval := PDict [("type", PStr t)].
Definition at_least (n : Z) : pyval := PDict [("type", PStr "integer"); ("minimum", PInt n)].

Definition http_class : channel_class :=
  mkClass CHttpChannel "HttpChannel" (Some (PStr "http")) (Some (schema ["url"]
    [("url", of_type "string"); ("method", of_type "string"); ("headers", of_type "object");
     ("hmac_secret", of_type "string"); ("timeout_seconds", of_type "number")])).
Definition kafka_class : channel_class :=
  mkClass CKafkaChannel "KafkaChannel" (Some (PStr "kafka"))
    (Some (schema ["bootstrap_servers"; "topic"]
    [("bootstrap_servers", of_type "string"); ("topic", of_type "string"); ("key", of_type "string");
     ("compression_type", of_type "string"); ("linger_ms", at_least 0); ("batch_size", at_least 1);
     ("acks", of_type "string")])).
Definition rabbitmq_class : channel_class :=
  mkClass CRabbitMQChannel "RabbitMQChannel" (Some (PStr "rabbitmq")) (Some (schema ["url"]
    [("url", of_type "string"); ("exchange", of_type "string"); ("routing_key", of_type "string");
     ("queue", of_type "string")])).
Definition streams_class : channel_class :=
  mkClass CRedisStreamsChannel "RedisStreamsChannel" (Some (PStr "mq")) (Some (schema ["stream"]
    [("stream", of_type "string"); ("maxlen", of_type "integer"); ("redis_url", of_type "string")])).
Definition ws_class : channel_class :=
  mkClass CWebSocketChannel "WebSocketChannel" (Some (PStr "ws"))
    (Some (schema ["ws_fanout_channel"] [("ws_fanout_channel", of_type "string")])).

(** Importing the modules, in the order of apps/worker/main.py and apps/web/main.py *)
Definition channel_classes : list channel_class :=
  [http_class; kafka_class; rabbitmq_class; streams_class; ws_class].
Definition CHANNEL_REGISTRY : registry := (mfor channel_classes init_subclass ∅).2.

(** ** Drivers as objects *)
Inductive driver (D : Type) :=
  | DHttp (c : HttpChannel D)
  | DKafka (c : KafkaChannel D)
  | DRabbit (c : RabbitMQChannel D)
  | DStreams (c : RedisStreamsChannel D)
  | DWs (c : WebSocketChannel D).
Arguments DHttp {D}. Arguments DKafka {D}. Arguments DRabbit {D}. Arguments DStreams {D}.
Arguments DWs {D}.

Section driver.
Context {D W : Type} `{!Arith D, !Brokers W, !HttpLib W} (one four : D) (sleep : D → W → W).
(** A JSON value as an operand of the delays' arithmetic *)
Variable operand : pyval → D.

(** [cls(config=config, bus=bus)] *)
Definition construct (cls : channel_class) (config : list (string * pyval)) : result (driver D) :=
  let retry := retry_entry operand config in
  match cls_id cls with
  | CHttpChannel => rmap DHttp (http_init (PDict config) retry)
  | CKafkaChannel => rmap DKafka (kafka_init config retry)
  | CRabbitMQChannel => rmap DRabbit (rabbit_init config retry)
  | CRedisStreamsChannel => rmap DStreams (streams_init config retry)
  | CWebSocketChannel => rmap DWs (ws_init config retry)
  end.

(** [_make_channel_factory] of the worker, [_default_factory] of the notifier *)
Definition channel_factory (cfg : SnapshotChannel) : result (driver D) :=
  match CHANNEL_REGISTRY !! ch_type cfg with
  | None => Err (KeyError (ch_type cfg))
  | Some cls => construct cls (ch_config cfg)
  end.

Definition on_driver {O} (wrap : O → driver D) (c : O) (m : M (O * W) unit)
    : M (driver D * W) unit := λ '(_, w), let '(r, (c', w')) := m (c, w) in (r, (wrap c', w')).

Definition driver_start : M (driver D * W) unit :=
  let* d := self in
  match d with
  | DHttp c => set_self (λ _, DHttp (http_start c))
  | DKafka c => on_driver DKafka c kafka_start
  | DRabbit c => on_driver DRabbit c rabbit_start
  | DStreams c => on_driver DStreams c streams_start
  | DWs c => on_driver DWs c ws_start
  end.

Definition driver_stop : M (driver D * W) unit :=
  let* d := self in
  match d with
  | DHttp c => set_self (λ _, DHttp (http_stop c))
  | DKafka c => on_driver DKafka c kafka_stop
  | DRabbit c => on_driver DRabbit c rabbit_stop
  | DStreams c => on_driver DStreams c streams_stop
  | DWs c => on_driver DWs c ws_stop
  end.

Definition driver_send (d : driver D) (payload : list (string * pyval)) : M W unit :=
  match d with
  | DHttp c => http_send one four sleep c payload
  | DKafka c => kafka_send one four sleep c payload
  | DRabbit c => rabbit_send one four sleep c payload
  | DStreams c => streams_send one four sleep c payload
  | DWs c => ws_send one four sleep c payload
  end.
End driver.

(** ** The drivers behind the notifier's interface: handles into a heap of objects *)
Section heap.
Context {D W : Type} `{!Arith D, !Brokers W, !HttpLib W} (one four : D) (sleep : D → W → W).
Variables (operand : pyval → D) (now : W → Z) (uuid : W → string * W).

Definition heap_world : Type := list (driver D) * W.

Definition at_handle (h : nat) (m : M (driver D * W) unit) : M heap_world unit := λ '(heap, w),
  match heap !! h with
  | None => (Err (RuntimeError "dangling handle"), (heap, w))
  | Some d => let '(r, (d', w')) := m (d, w) in (r, (<[h := d']> heap, w'))
  end.

Definition heap_alloc (cfg : SnapshotChannel) : M heap_world nat := λ '(heap, w),
  match channel_factory operand cfg with
  | Err e => (Err e, (heap, w))
  | Ok d => (Ok (length heap), (heap ++ [d], w))
  end.

Definition driver_env : ChannelEnv nat heap_world := {|
  ch_factory := heap_alloc;
  ch_start h := at_handle h driver_start;
  ch_stop h := at_handle h driver_stop;
  ch_send h payload := at_handle h (let* d := self in in_env (driver_send one four sleep d payload));
  env_now hw := now hw.2;
  env_uuid hw := let '(u, w) := uuid hw.2 in (u, (hw.1, w));
|}.
End heap.

(** ** Deliveries *)
Inductive sent :=
  | SHttp (method url body : string) (headers : list (string * pyval))
  | SKafka (topic : pyval) (body : string) (key : option string)
  | SAmqp (body : string) (routing_key : pyval)
  | SStream (stream : pyval) (body : string) (maxlen : option pyval)
  | SPublish (channel : pyval) (body : string).

Section sends.
Context {D W : Type} `{!Arith D, !Brokers W, !HttpLib W} (one four : D) (sleep : D → W → W).
Variable log : W → list sent.

(** [m] hands [q] to a client library at most once, and once if it succeeds *)
Definition hands {A} (m : M W A) (q : sent) : Prop := ∀ w r w', m w = (r, w') →
  ∃ j, (j ≤ 1)%nat ∧ log w' = log w ++ replicate j q ∧ (is_ok r = true → j = 1%nat).
Definition silent {A} (m : M W A) : Prop := ∀ w, log (m w).2 = log w.

(** [log] is what the client libraries have been handed *)
Record delivery_log : Prop := {
  dl_sleep d w : log (sleep d w) = log w;
  dl_http m u b h : hands (http_request m u b h) (SHttp m u b h);
  dl_produce p t b k : hands (kafka_produce p t b k) (SKafka t b k);
  dl_poll p : silent (kafka_poll p);
  dl_exchange c n : silent (amqp_get_exchange c n);
  dl_amqp x b k : hands (amqp_publish x b k) (SAmqp b k);
  dl_client : silent bus_client;
  dl_xadd c s b m : hands (redis_xadd c s b m) (SStream s b m);
  dl_publish c ch b : hands (redis_publish c ch b) (SPublish ch b);
}.

Lemma hands_after {A B} (m : M W A) (k : A → M W B) q :
  silent m → (∀ a, hands (k a) q) → hands (mbind m k) q.
Proof.
  intros Hm Hk w r w' H. unfold mbind in H. specialize (Hm w).
  destruct (m w) as [[a|e] w1]; cbn [snd] in Hm; [rewrite <- Hm; by apply (Hk a)|].
  simplify_eq. exists 0%nat. rewrite app_nil_r, Hm. split_and!; [lia|done|done].
Qed.

Lemma hands_before {A B} (m : M W A) (k : A → M W B) q :
  hands m q → (∀ a, silent (k a)) → hands (mbind m k) q.
Proof.
  intros Hm Hk w r w' H. unfold mbind in H. destruct (m w) as [[a|e] w1] eqn:E;
    destruct (Hm _ _ _ E) as (j & Hj & Hlog & Hok).
  - specialize (Hk a w1). rewrite H in Hk. cbn [snd] in Hk. exists j.
    rewrite Hk. split_and!; [done..|]. by rewrite Hok.
  - simplify_eq. by exists j.
Qed.

Lemma silent_ret {A} (a : A) : silent (mret a).
Proof. done. Qed.
Lemma silent_lift {A} (r : result A) : silent (mlift r).
Proof. done. Qed.

(** The attempts a driver may make, and what each hands over *)
Definition driver_retry (d : driver D) : RetryConfig D :=
  match d with
  | DHttp c => hc_retry c | DKafka c => kf_retry c | DRabbit c => rq_retry c
  | DStreams c => rs_retry c | DWs c => ws_retry c
  end.

Definition request_of (d : driver D) (payload : list (string * pyval)) : sent :=
  match d with
  | DHttp c =>
      let body := json_dumps payload in SHttp (hc_method c) (hc_url c) body (send_headers c body)
  | DKafka c => SKafka (kf_topic c) (dumps payload)
                  (match encoded_key (kf_key c) with Ok k => k | Err _ => None end)
  | DRabbit c => SAmqp (dumps payload) (rq_routing_key c)
  | DStreams c => SStream (rs_stream c) (dumps payload)
                    (match rs_maxlen c with PNone => None | n => Some n end)
  | DWs c => SPublish (ws_fanout_channel c) (dumps payload)
  end.

(** The number of attempts that retry settings allow, 3 unless they say otherwise; none when they
    are no dict or the number is no integer *)
Definition attempts_allowed (rc : RetryConfig D) : option Z :=
  match rc with
  | RetryDict None _ _ => Some 3
  | RetryDict (Some (PInt n)) _ _ => Some n
  | RetryDict (Some (PBool b)) _ _ => Some (if b then 1 else 0)
  | _ => None
  end.
Definition delays_of (rc : RetryConfig D) : D * D :=
  match rc with
  | RetryDict _ base_delay factor => (default one base_delay, default four factor)
  | RetryOther _ => (one, four)
  end.

(** What sending is to do with the requests handed over: nothing at all when the retry settings
    cannot be used, else [q] at most once per attempt, at least once on success. *)
Definition delivers_with (rc : RetryConfig D) (q : sent) (r : result unit) (w w' : W) : Prop :=
  match attempts_allowed rc with
  | None => w' = w ∧ (r = Err (attribute_error "get") ∨ ∃ m, r = Err (TypeError m))
  | Some n => ∃ k, (k ≤ Z.to_nat n)%nat ∧ log w' = log w ++ replicate k q ∧
      match r with
      | Ok _ => (1 ≤ k)%nat
      | Err e => (∃ m, e = RetryAbort m) ∨ (∃ m cause, e = RetryExhausted m n cause) ∨
                 ∃ i, 1 ≤ i < n ∧ backoff (delays_of rc).1 (delays_of rc).2 i = Err e
      end
  end.

Lemma retry_config_spec rc :
  match attempts_allowed rc with
  | None => retry_config one four rc = Err (attribute_error "get") ∨
      ∃ max m, retry_config one four rc = Ok (max, (delays_of rc).1, (delays_of rc).2) ∧
               attempts max = Err (TypeError m)
  | Some n => ∃ max, retry_config one four rc = Ok (max, (delays_of rc).1, (delays_of rc).2) ∧
                     attempts max = Ok n
  end.
Proof. destruct rc as [[[]|] b f|v]; cbn; eauto 6. Qed.

Lemma with_retry_trace rc once q (w : W) r w' :
  (∀ d w, log (sleep d w) = log w) → hands once q →
  with_retry one four sleep rc once w = (r, w') → delivers_with rc q r w w'.
Proof.
  intros Hs Ho. unfold with_retry, delivers_with, mbind, mlift, retry_with_backoff.
  pose proof (retry_config_spec rc) as Hrc. destruct (attempts_allowed rc) as [n|].
  - destruct Hrc as (max & -> & Hmax). unfold mbind, mlift. rewrite Hmax. intros H.
    destruct (retry_from_trace once sleep max (delays_of rc).1 (delays_of rc).2 log q Ho Hs n
      (Z.to_nat n) 1 None w r w' ltac:(lia) H) as (k & Hk & Hlog & Hres).
    exists k. split_and!; [done..|]. destruct r as [|e]; [done|].
    unfold retry_failure, exhausted in Hres. naive_solver.
  - destruct Hrc as [->|(max & m & -> & Hmax)]; [intros H; simplify_eq; eauto|].
    unfold mbind, mlift. rewrite Hmax. intros H. simplify_eq. eauto.
Qed.

Lemma kafka_attempt p c body :
  delivery_log →
  hands (kafka_produce_once (D:=D) p c body) (SKafka (kf_topic c) body
    (match encoded_key (kf_key c) with Ok k => k | Err _ => None end)).
Proof.
  intros HL. unfold kafka_produce_once. destruct (encoded_key (kf_key c)) as [k|e].
  - change (hands (kafka_produce p (kf_topic c) body k ;;* kafka_poll p)
      (SKafka (kf_topic c) body k)).
    apply hands_before; [apply (dl_produce HL)|intros _; apply (dl_poll HL)].
  - intros w r w' H. cbn in H. simplify_eq. exists 0%nat. rewrite app_nil_r. split_and!; [lia|done..].
Qed.

Lemma rabbit_attempt chan c body :
  delivery_log → hands (rabbit_publish_once (D:=D) chan c body) (SAmqp body (rq_routing_key c)).
Proof.
  intros HL. apply hands_after; [|intros x; apply (dl_amqp HL)].
  destruct (py_truth _); [apply (dl_exchange HL)|apply silent_ret].
Qed.

Lemma xadd_attempt c body :
  delivery_log → hands (xadd_once (D:=D) c body) (SStream (rs_stream c) body
    (match rs_maxlen c with PNone => None | n => Some n end)).
Proof.
  intros HL. apply hands_after; [|intros x; apply (dl_xadd HL)].
  destruct (rs_own_client c); [apply silent_ret|apply (dl_client HL)].
Qed.

Lemma publish_attempt c body :
  delivery_log → hands (publish_once (D:=D) c body) (SPublish (ws_fanout_channel c) body).
Proof.
  intros HL. apply hands_after; [apply (dl_client HL)|intros x; apply (dl_publish HL)].
Qed.

Lemma post_attempt (c : HttpChannel D) body headers :
  delivery_log → hands (post_once c body headers) (SHttp (hc_method c) (hc_url c) body headers).
Proof.
  intros HL. apply hands_before; [apply (dl_http HL)|intros x; apply silent_lift].
Qed.

(** [start] has succeeded *)
Definition started (d : driver D) : bool :=
  match d with
  | DHttp c => hc_started c
  | DKafka c => match kf_producer c with Some _ => true | None => false end
  | DRabbit c => match rq_channel c with Some _ => true | None => false end
  | DStreams _ | DWs _ => true
  end.

End sends.

(** ** Configurations the web API accepts

    [jsonschema.validate]: the error message, if any *)
Class JsonSchema := js_validate : list (string * pyval) → pyval → option string.

Definition schema_required (s : pyval) : list string :=
  match py_getitem s "required" with
  | Ok (PList l) => omap (λ v, match v with PStr k => Some k | _ => None end) l
  | _ => []
  end.

Definition schema_type_of (s : pyval) (k : string) : option string :=
  match py_getitem s "properties" with
  | Ok p => match py_getitem p k with
            | Ok q => match py_getitem q "type" with Ok (PStr t) => Some t | _ => None end
            | Err _ => None
            end
  | Err _ => None
  end.

Definition has_json_type (v : pyval) (t : string) : bool :=
  match v with
  | PStr _ => String.eqb t "string"
  | PDict _ => String.eqb t "object"
  | PList _ | PTuple _ => String.eqb t "array"
  | PInt _ => String.eqb t "integer" || String.eqb t "number"
  | PBool _ => String.eqb t "boolean"
  | PNone => String.eqb t "null"
  | PBytes _ => false
  end.

(** What the keywords [required] and [properties] mean *)
Class JsonSchemaLaws `{JsonSchema} : Prop := {
  js_required config s k : js_validate config s = None → k ∈ schema_required s →
    is_Some (dget k config);
  js_typed config s k v t : js_validate config s = None → dget k config = Some v →
    schema_type_of s k = Some t → has_json_type v t = true;
}.

Definition ToySchema : JsonSchema := λ config s,
  if forallb (λ k, dmem k config) (schema_required s) &&
     forallb (λ kv, match schema_type_of s kv.1 with
                    | Some t => has_json_type kv.2 t | None => true end) config
  then None else Some "invalid".

Lemma ToySchema_laws : JsonSchemaLaws (H:=ToySchema).
Proof.
  split; intros config s k; unfold js_validate, ToySchema;
    destruct (forallb _ (schema_required s)) eqn:E1, (forallb _ config) eqn:E2; try done.
  - intros _ Hk. rewrite forallb_forall in E1. apply list_elem_of_In, E1 in Hk.
    unfold dmem in Hk. by destruct (dget k config).
  - intros v t _ Hv Ht. rewrite forallb_forall in E2.
    specialize (E2 (k, v)). cbn [fst snd] in E2. rewrite Ht in E2.
    apply E2, list_elem_of_In. by apply dget_elem_of.
Qed.

Section accepted.
Context `{JL : JsonSchemaLaws} {D : Type} (operand : pyval → D).

Lemma accepted_item config s k :
  js_validate config s = None → k ∈ schema_required s → is_ok (config_item config k) = true.
Proof.
  intros Hv Hk. destruct (js_required config s k Hv Hk) as [v Hg].
  unfold config_item, py_getitem. by rewrite Hg.
Qed.

Lemma accepted_string config s k v :
  js_validate config s = None → schema_type_of s k = Some "string" → dget k config = Some v →
  ∃ x, v = PStr x.
Proof.
  intros Hv Ht Hg. pose proof (js_typed config s k v _ Hv Hg Ht). destruct v; try done. by eexists.
Qed.

Lemma http_accepts config retry sch :
  js_validate config sch = None → "url" ∈ schema_required sch →
  (∀ k, k ∈ ["url"; "method"; "hmac_secret"] → schema_type_of sch k = Some "string") →
  schema_type_of sch "headers" = Some "object" →
  is_ok (http_init (PDict config) (retry : RetryConfig D)) = true.
Proof.
  intros Hv Hreq Hstr Hobj. destruct (js_required _ _ _ Hv Hreq) as [u Hu].
  unfold http_init, py_getitem, py_get. rewrite Hu. cbn [rbind].
  destruct (accepted_string _ _ _ _ Hv (Hstr "url" ltac:(set_solver)) Hu) as [us ->].
  cbn [rbind py_as_str].
  assert (∃ m, match dget "method" config with Some x => x | None => PStr "POST" end = PStr m) as [m Hm].
  { destruct (dget "method" config) eqn:E; [|by eexists].
    by apply (accepted_string _ _ _ _ Hv (Hstr "method" ltac:(set_solver))) in E. }
  assert (∃ h, match dget "headers" config with Some x => x | None => PDict [] end = PDict h) as [h Hh].
  { destruct (dget "headers" config) as [v|] eqn:E; [|by eexists].
    pose proof (js_typed _ _ _ _ _ Hv E Hobj). destruct v; try done. by eexists. }
  assert (dget "hmac_secret" config = None ∨ ∃ x, dget "hmac_secret" config = Some (PStr x)) as Hsec.
  { destruct (dget "hmac_secret" config) eqn:E; [right|by left].
    apply (accepted_string _ _ _ _ Hv (Hstr "hmac_secret" ltac:(set_solver))) in E as [x ->].
    by exists x. }
  rewrite Hm. cbn [rbind py_as_str]. rewrite Hh. cbn [rbind].
  by destruct Hsec as [->|[x ->]].
Qed.

Lemma registry_classes t :
  CHANNEL_REGISTRY !! ChannelType_value t = Some
    (match t with
     | ChannelType_mq => streams_class | ChannelType_http => http_class
     | ChannelType_ws => ws_class | ChannelType_kafka => kafka_class
     | ChannelType_rabbitmq => rabbitmq_class
     end).
Proof. destruct t; vm_compute; reflexivity. Qed.

Lemma rmap_ok {A B} (f : A → B) r : is_ok (rmap f r) = is_ok r.
Proof. by destruct r. Qed.

(** The registry and the stored channels fit: exactly the channel types of the database
    have a driver, under their own name; and a configuration that passes the driver's
    schema never makes its constructor fail. *)
Lemma validated_channel_constructs t id name config :
  ∃ cls sch, CHANNEL_REGISTRY !! ChannelType_value t = Some cls ∧
    cls_type cls = Some (PStr (ChannelType_value t)) ∧ cls_config_schema cls = Some sch ∧
    (js_validate config sch = None →
     is_ok (channel_factory operand (mkChannel id name (ChannelType_value t) config)) = true) ∧
    ∀ k, is_Some (CHANNEL_REGISTRY !! k) → ∃ t', k = ChannelType_value t'.
Proof.
  assert (∀ k, is_Some (CHANNEL_REGISTRY !! k) → ∃ t', k = ChannelType_value t') as Hdom.
  { intros k [c Hc%elem_of_map_to_list].
    assert ((k, c).1 ∈ ["ws"; "mq"; "kafka"; "rabbitmq"; "http"]) as Hk.
    { assert ((map_to_list CHANNEL_REGISTRY).*1 ⊆ ["ws"; "mq"; "kafka"; "rabbitmq"; "http"]) as Hs
        by (apply (bool_decide_eq_true _); vm_compute; reflexivity).
      apply Hs, list_elem_of_fmap. by exists (k, c). }
    repeat (apply elem_of_cons in Hk as [Hk|Hk]; [|]); [..|by apply not_elem_of_nil in Hk];
      cbn [fst] in Hk; subst k; [exists ChannelType_ws|exists ChannelType_mq
      |exists ChannelType_kafka|exists ChannelType_rabbitmq|exists ChannelType_http]; done. }
  unfold channel_factory. cbn [ch_type ch_config]. rewrite registry_classes.
  destruct t; eexists _, _; (split_and!; [reflexivity|reflexivity|reflexivity| |exact Hdom]);
    intros Hv; unfold construct; cbn [cls_id streams_class http_class ws_class kafka_class
      rabbitmq_class]; rewrite rmap_ok.
  - unfold streams_init. pose proof (accepted_item _ _ "stream" Hv ltac:(vm_compute; set_solver)).
    by destruct (config_item config "stream").
  - eapply http_accepts; [exact Hv|vm_compute; set_solver| |reflexivity].
    intros k Hk. each_elem Hk.
  - unfold ws_init.
    pose proof (accepted_item _ _ "ws_fanout_channel" Hv ltac:(vm_compute; set_solver)).
    by destruct (config_item config "ws_fanout_channel").
  - unfold kafka_init.
    pose proof (accepted_item _ _ "bootstrap_servers" Hv ltac:(vm_compute; set_solver)).
    pose proof (accepted_item _ _ "topic" Hv ltac:(vm_compute; set_solver)).
    by destruct (config_item config "bootstrap_servers"), (config_item config "topic").
  - unfold rabbit_init. pose proof (accepted_item _ _ "url" Hv ltac:(vm_compute; set_solver)).
    by destruct (config_item config "url").
Qed.
End accepted.

(** ** A broker driven by a script: which hand-overs fail, and what was handed over *)
Module ScriptBroker.
Definition world : Type := list bool * list sent.

Definition hand_over (q : sent) : M world unit := λ '(script, sents),
  match script with
  | false :: t => (Err (OtherError "BrokerError" "down"), (t, sents))
  | true :: t => (Ok tt, (t, sents ++ [q]))
  | [] => (Ok tt, ([], sents ++ [q]))
  end.

Definition brokers (ser : list (string * pyval) → string) : Brokers world := {|
  dumps := ser;
  kafka_producer _ := mret 0%nat;
  kafka_produce _ t b k := hand_over (SKafka t b k);
  kafka_poll _ := mret tt;
  kafka_flush _ := mret tt;
  amqp_connect _ := mret 0%nat;
  amqp_open_channel _ := mret 0%nat;
  amqp_close _ := mret tt;
  amqp_get_exchange _ _ := mret 0%nat;
  amqp_default_exchange _ := 0%nat;
  amqp_publish _ b k := hand_over (SAmqp b k);
  redis_from_url _ := mret 0%nat;
  redis_aclose _ := mret tt;
  bus_client := mret 0%nat;
  redis_xadd _ s b m := hand_over (SStream s b m);
  redis_publish _ c b := hand_over (SPublish c b);
|}.

Definition http (ser : list (string * pyval) → string) : HttpLib world := {|
  http_request m u b h := hand_over (SHttp m u b h) ;;* mret 200;
  json_dumps := ser;
  hmac_sha256_hex _ b := b;
|}.

Lemma hand_over_hands q : hands snd (hand_over q) q.
Proof.
  intros [script sents] r w' H. destruct script as [|[] t]; cbn in H; simplify_eq;
    [exists 1%nat|exists 1%nat|exists 0%nat]; rewrite ?app_nil_r; split_and!; try lia; done.
Qed.

Lemma log_laws ser : delivery_log (D:=pyval) (Brokers0:=brokers ser) (HttpLib0:=http ser)
  (λ _ w, w) snd.
Proof.
  split; try done; intros; try apply hand_over_hands.
  by apply hands_before; [apply hand_over_hands|].
Qed.
End ScriptBroker.

#[local] Existing Instance py_ints.

Definition sample_driver (retry : list (string * pyval)) : driver pyval :=
  DKafka (mkKafka (PStr "b:9092") (PStr "topic") PNone (PStr "none") (PInt 10) (PInt 16384)
    (PStr "1") (retry_entry id retry) (Some 0%nat)).


Lemma validated_channel_constructs_witness :
  is_ok (channel_factory (D:=pyval) id
    (mkChannel "c" "hook" "http" [("url", PStr "http://x"); ("method", PStr "put")])) = true.
Proof.
  destruct (validated_channel_constructs (JL:=ToySchema_laws) (D:=pyval)
    id ChannelType_http "c" "hook"
    [("url", PStr "http://x"); ("method", PStr "put")])
    as (cls & sch & Hc & _ & Hs & Hok & _).
  apply Hok. vm_compute in Hc. simplify_eq. cbn in Hs. simplify_eq. reflexivity.
Defined.
