(* ===== verification/Schemas.v ===== *)
(** * Request models of the management API (apps/web/schemas.py)

    A request body is first read into its typed fields, which is pydantic's work; each
    [*_validate] is what the model's own constraints then do: [Field] bounds, literals and the
    validators, in the order pydantic runs them.  A violated constraint is answered 422. *)
From S2P Require Import Prelude PyStr PyVal Filters Repositories.

(** ** [str.strip] *)
Definition py_space (c : ascii) : bool :=
  is_space c || ((28 <=? N_of_ascii c) && (N_of_ascii c <=? 31))%N.

Fixpoint lstrip (s : string) : string :=
  match s with
  | EmptyString => EmptyString
  | String c t => if py_space c then lstrip t else s
  end.

Fixpoint rstrip (s : string) : string :=
  match s with
  | EmptyString => EmptyString
  | String c t =>
      match rstrip t with
      | EmptyString => if py_space c then EmptyString else String c EmptyString
      | t' => String c t'
      end
  end.

Definition strip (s : string) : string := rstrip (lstrip s).

(** ** Constraints *)
Definition unprocessable (detail : string) : exn := HTTPException 422 detail.

Definition require (ok : bool) (detail : string) : result unit :=
  if ok then Ok tt else Err (unprocessable detail).

(** [Field(ge=lo, le=hi)], [Field(min_length=1, max_length=n)] *)
Definition between (lo hi z : Z) : bool := (lo <=? z) && (z <=? hi).
Definition length_in (lo hi : nat) (s : string) : bool :=
  (lo <=? String.length s)%nat && (String.length s <=? hi)%nat.

(** ** Chains *)
Record ChainCreate := mkChainCreate {
  cc_id : string;
  cc_kind : string;
  cc_rpc_http : string;
  cc_rpc_ws : option string;
  cc_confirmations : Z;
  cc_poll_interval_ms : Z;
  cc_commitment : option string;
  cc_trace_internal_calls : bool;
  cc_log_query_range_blocks : Z;
  cc_slot_query_range_blocks : Z;
  cc_rpc_http_fallbacks : list string;
  cc_rpc_timeout_ms : Z;
  cc_enabled : bool;
}.

Definition ChainKind_of (s : string) : option ChainKind :=
  match s with
  | "evm" => Some ChainKind_evm | "solana" => Some ChainKind_solana | _ => None
  end%string.

(** [_check_kind_fields] *)
Definition check_kind_fields (p : ChainCreate) : result unit :=
  if String.eqb (cc_kind p) "solana" && bool_decide (cc_commitment p = None)
  then Err (unprocessable "Solana chains must specify commitment")
  else if String.eqb (cc_kind p) "evm" && bool_decide (cc_commitment p ≠ None)
  then Err (unprocessable "EVM chains must not specify commitment")
  else Ok tt.

(** The loop of [_normalize_fallbacks]; [out] is also the set [seen] *)
Fixpoint dedup_fallbacks (primary : string) (cleaned out : list string) : list string :=
  match cleaned with
  | [] => out
  | u :: t =>
      dedup_fallbacks primary t
        (if bool_decide (u = primary) || bool_decide (u ∈ out) then out else out ++ [u])
  end.

(** [_normalize_fallbacks] *)
Definition normalize_fallbacks (primary : string) (fallbacks : list string) : list string :=
  dedup_fallbacks primary
    (strip <$> filter (λ u, u ≠ "" ∧ strip u ≠ "") fallbacks) [].

Definition chain_create_fields (p : ChainCreate) : bool :=
  length_in 1 64 (cc_id p) && bool_decide (is_Some (ChainKind_of (cc_kind p))) &&
  (1 <=? String.length (cc_rpc_http p))%nat &&
  between 0 10000 (cc_confirmations p) && between 100 60000 (cc_poll_interval_ms p) &&
  bool_decide (cc_commitment p ∈ [None; Some "confirmed"; Some "finalized"]) &&
  between 1 10000 (cc_log_query_range_blocks p) &&
  between 1 500000 (cc_slot_query_range_blocks p) &&
  between 100 120000 (cc_rpc_timeout_ms p).

Definition chain_create_validate (p : ChainCreate) : result ChainCreate :=
  let? _ := require (chain_create_fields p) "chain" in
  let? _ := check_kind_fields p in
  Ok (mkChainCreate (cc_id p) (cc_kind p) (cc_rpc_http p) (cc_rpc_ws p) (cc_confirmations p)
        (cc_poll_interval_ms p) (cc_commitment p) (cc_trace_internal_calls p)
        (cc_log_query_range_blocks p) (cc_slot_query_range_blocks p)
        (normalize_fallbacks (cc_rpc_http p) (cc_rpc_http_fallbacks p)) (cc_rpc_timeout_ms p)
        (cc_enabled p)).

(** ** Channels *)
Record ChannelCreate := mkChannelCreate {
  chc_name : string;
  chc_type : string;
  chc_config : list (string * pyval);
}.

Definition ChannelType_of (s : string) : option ChannelType :=
  match s with
  | "mq" => Some ChannelType_mq | "http" => Some ChannelType_http | "ws" => Some ChannelType_ws
  | "kafka" => Some ChannelType_kafka | "rabbitmq" => Some ChannelType_rabbitmq | _ => None
  end%string.

Definition channel_create_validate (p : ChannelCreate) : result ChannelCreate :=
  let? _ := require (length_in 1 255 (chc_name p) &&
                     bool_decide (is_Some (ChannelType_of (chc_type p)))) "channel" in
  Ok p.

(** ** Subscriptions *)
Record SubscriptionCreate := mkSubscriptionCreate {
  sc_name : string;
  sc_business_name : option string;
  sc_chain_id : string;
  sc_address : option string;
  sc_abi_id : option string;
  sc_match_kind : string;
  sc_match_name : option string;
  sc_arg_filters : list (string * pyval);
  sc_start_block : option Z;
  sc_enabled : bool;
}.

Definition MatchKind_of (s : string) : option MatchKind :=
  match s with
  | "native_transfer" => Some MatchKind_native_transfer
  | "token_transfer" => Some MatchKind_token_transfer
  | "event" => Some MatchKind_event | "call" => Some MatchKind_call | _ => None
  end%string.

(** [_normalize_business_name] *)
Definition normalize_business_name (v : option string) : option string :=
  match v with
  | None => None
  | Some s => match strip s with EmptyString => None | s' => Some s' end
  end.

(** [ArgFilterValue] *)
Definition is_filter_scalar (v : pyval) : bool :=
  match v with PStr _ | PInt _ | PBool _ => true | _ => false end.
Definition is_filter_value (v : pyval) : bool :=
  match v with PList l => forallb is_filter_scalar l | _ => is_filter_scalar v end.

(** [_check_operator_grammar] *)
Definition check_operator_grammar (v : list (string * pyval)) : result unit :=
  match validate v.*1 with
  | Ok _ => Ok tt
  | Err e => Err (unprocessable (exn_str e))
  end.

Definition subscription_create_validate (p : SubscriptionCreate) : result SubscriptionCreate :=
  let business := normalize_business_name (sc_business_name p) in
  let? _ := require (length_in 1 255 (sc_name p) &&
                     match business with Some s => length_in 0 255 s | None => true end &&
                     bool_decide (is_Some (MatchKind_of (sc_match_kind p))) &&
                     forallb (λ kv, is_filter_value kv.2) (sc_arg_filters p)) "subscription" in
  let? _ := check_operator_grammar (sc_arg_filters p) in
  Ok (mkSubscriptionCreate (sc_name p) business (sc_chain_id p) (sc_address p) (sc_abi_id p)
        (sc_match_kind p) (sc_match_name p) (sc_arg_filters p) (sc_start_block p) (sc_enabled p)).

Record ReplayRequest := mkReplayRequest { rr_from_block : Z; rr_to_block : Z }.

Definition replay_request_validate (p : ReplayRequest) : result ReplayRequest :=
  let? _ := require ((0 <=? rr_from_block p) && (0 <=? rr_to_block p)) "replay" in Ok p.

(** ** ABIs *)
Record AbiCreate := mkAbiCreate {
  ac_name : string;
  ac_kind : string;
  ac_body : pyval;
}.

Definition AbiKind_of (s : string) : option AbiKind :=
  match s with
  | "evm_abi" => Some AbiKind_evm_abi | "solana_idl" => Some AbiKind_solana_idl | _ => None
  end%string.

Definition abi_create_validate (p : AbiCreate) : result AbiCreate :=
  let? _ := require (length_in 1 255 (ac_name p) &&
                     bool_decide (is_Some (AbiKind_of (ac_kind p))) &&
                     (is_dict (ac_body p) || is_list (ac_body p))) "abi" in
  Ok p.

(** ** Stripping and normalising *)
Lemma lstrip_head s : lstrip s = "" ∨ ∃ c t, lstrip s = String c t ∧ py_space c = false.
Proof.
  induction s as [|c s IH]; [by left|]. simpl. destruct (py_space c) eqn:E; [done|right; eauto].
Qed.

Lemma rstrip_head c t : py_space c = false → ∃ t', rstrip (String c t) = String c t'.
Proof. intros Hc. simpl. destruct (rstrip t); rewrite ?Hc; eauto. Qed.

Lemma rstrip_idemp s : rstrip (rstrip s) = rstrip s.
Proof.
  induction s as [|c s IH]; [done|]. simpl. destruct (rstrip s) as [|c' t'] eqn:E.
  - destruct (py_space c) eqn:Ec; [done|]. simpl. by rewrite Ec.
  - cbn [rstrip] in IH |- *. by rewrite IH.
Qed.

Lemma strip_idemp s : strip (strip s) = strip s.
Proof.
  unfold strip. destruct (lstrip_head s) as [->|(c & t & -> & Hc)]; [done|].
  destruct (rstrip_head c t Hc) as [t' Ht]. rewrite Ht. cbn [lstrip]. rewrite Hc, <- Ht.
  apply rstrip_idemp.
Qed.

Lemma dedup_spec primary cleaned out :
  NoDup out → primary ∉ out →
  NoDup (dedup_fallbacks primary cleaned out) ∧ primary ∉ dedup_fallbacks primary cleaned out ∧
  (∀ u, u ∈ dedup_fallbacks primary cleaned out ↔ u ∈ out ∨ (u ∈ cleaned ∧ u ≠ primary)) ∧
  ∃ more, dedup_fallbacks primary cleaned out = out ++ more ∧ (more `sublist_of` cleaned).
Proof.
  revert out. induction cleaned as [|u t IH]; intros out Hnd Hp; cbn [dedup_fallbacks].
  { split_and!; try done; [set_solver|]. exists []. by rewrite app_nil_r. }
  destruct (bool_decide (u = primary) || bool_decide (u ∈ out)) eqn:E.
  - apply orb_true_iff in E as [E%bool_decide_eq_true|E%bool_decide_eq_true];
      destruct (IH out Hnd Hp) as (H1 & H2 & H3 & more & H4 & H5); split_and!; try done;
      try (intros v; rewrite H3; set_solver); exists more; split; [done|by constructor|done|by constructor].
  - apply orb_false_iff in E as [E1%bool_decide_eq_false E2%bool_decide_eq_false].
    destruct (IH (out ++ [u])) as (H1 & H2 & H3 & more & H4 & H5).
    { apply NoDup_app. split_and!; [done| |apply NoDup_singleton].
      intros x Hx ->%list_elem_of_singleton. done. }
    { rewrite elem_of_app, list_elem_of_singleton. intros [?|?]; [done|]. by apply E1. }
    split_and!; try done.
    + intros v. rewrite H3. set_solver.
    + exists (u :: more). rewrite H4, <- app_assoc. split; [done|by constructor].
Qed.

Lemma dedup_id primary l out :
  NoDup (out ++ l) → primary ∉ l → dedup_fallbacks primary l out = out ++ l.
Proof.
  revert out. induction l as [|u l IH]; intros out Hnd Hp; cbn [dedup_fallbacks].
  { by rewrite app_nil_r. }
  apply not_elem_of_cons in Hp as [Hne Hp].
  rewrite bool_decide_eq_false_2 by done. rewrite bool_decide_eq_false_2.
  - cbn [orb]. rewrite IH; rewrite <- ?app_assoc; done.
  - intros Hin. apply NoDup_app in Hnd as (_ & Hd & _). apply (Hd u Hin). left.
Qed.

(** Fallback endpoints are stored normalised: no blank, no duplicate, never the
    primary; every given URL other than the primary is there, stripped, in the order of first
    occurrence; normalising again changes nothing. *)
Lemma fallbacks_normalized primary l :
  let out := normalize_fallbacks primary l in
  NoDup out ∧ primary ∉ out ∧
  (∀ u, u ∈ out ↔ u ≠ primary ∧ u ≠ "" ∧ ∃ v, v ∈ l ∧ u = strip v) ∧
  (out `sublist_of` (strip <$> l)) ∧
  normalize_fallbacks primary out = out.
Proof.
  intros out. unfold out, normalize_fallbacks.
  set (cleaned := strip <$> filter _ l).
  destruct (dedup_spec primary cleaned []) as (H1 & H2 & H3 & more & H4 & H5);
    [constructor|set_solver|].
  assert (Hin : ∀ u, u ∈ dedup_fallbacks primary cleaned [] ↔
    u ≠ primary ∧ u ≠ "" ∧ ∃ v, v ∈ l ∧ u = strip v).
  { intros u. rewrite H3. unfold cleaned. rewrite list_elem_of_fmap.
    setoid_rewrite list_elem_of_filter. split.
    - intros [?%not_elem_of_nil|[(v & -> & [? ?] & ?) ?]]; [done|]. split_and!; eauto.
    - intros (Hp & Hne & v & Hv & ->). right. split; [|done]. exists v. split_and!; try done.
      intros ->. done. }
  split_and!; try done.
  - rewrite H4. cbn [app]. etrans; [exact H5|]. apply fmap_sublist, sublist_filter.
  - rewrite filter_all.
    2: { apply Forall_forall. intros u (_ & Hne & v & _ & ->)%Hin. by rewrite strip_idemp. }
    assert (strip <$> dedup_fallbacks primary cleaned [] = dedup_fallbacks primary cleaned [])
      as ->.
    { rewrite <- (list_fmap_id (dedup_fallbacks primary cleaned [])) at 2.
      apply list_fmap_ext. intros i u Hu%list_elem_of_lookup_2.
      apply Hin in Hu as (_ & _ & v & _ & ->). by rewrite strip_idemp. }
    by apply dedup_id.
Qed.

(** What a validated chain satisfies *)
Lemma chain_create_validated p p' :
  chain_create_validate p = Ok p' →
  chain_create_fields p' = true ∧ check_kind_fields p' = Ok tt ∧
  cc_rpc_http_fallbacks p' = normalize_fallbacks (cc_rpc_http p') (cc_rpc_http_fallbacks p).
Proof.
  unfold chain_create_validate, require. destruct (chain_create_fields p) eqn:E; [|done].
  cbn [rbind]. destruct (check_kind_fields p) as [[]|] eqn:Ek; [|done].
  cbn [rbind]. intros [= <-]. split_and!; done.
Qed.
