(* ===== verification/WebApi.v ===== *)
(** * The management API (apps/web/deps.py, routers/_common.py, chains.py, channels.py,
    subscriptions.py, abis.py, delivery_records.py)

    A request handler works in one database session: [w_view] is what the session sees, its own
    uncommitted writes included, and [w_db] what is committed.  [serve] opens the
    session, validates the body, runs the handler and closes the session, which discards what
    was not committed.  HTTP errors are [HTTPException]s; any other exception is a 500. *)
From S2P Require Import Prelude PyStr PyVal Filters Snapshot Repositories Schemas.
From S2P Require Import Retry HttpChannel Notifier Channels.

Record Web (W : Type) := mkWeb {
  w_db : Db;
  w_view : Db;
  w_env : W;
}.
Arguments mkWeb {W}. Arguments w_db {W}. Arguments w_view {W}. Arguments w_env {W}.

Class WebEnv (W : Type) := {
  web_publish : string → list (string * pyval) → M W unit;   (** bus.publish *)
  web_redis_get : string → M W (option string);               (** bus.client.get *)
  web_uuid : W → string * W;
  web_now : W → Z;
  web_repr : exn → string;                                    (** repr(exc) *)
  web_fetch_idl : string → string → M W (option pyval);       (** core/abi/idl_fetcher.py *)
}.

(** ** The session *)
Section session.
Context {W : Type}.

Definition on_view {A} (m : M Db A) : M (Web W) A :=
  mzoom w_view (λ v w, mkWeb (w_db w) v (w_env w)) m.
Definition read {A} (f : Db → A) : M (Web W) A := mgets (f ∘ w_view).
Definition write (f : Db → Db) : M (Web W) unit :=
  mmodify (λ w, mkWeb (w_db w) (f (w_view w)) (w_env w)).
Definition on_env {A} (m : M W A) : M (Web W) A :=
  mzoom w_env (λ e w, mkWeb (w_db w) (w_view w) e) m.
Definition commit : M (Web W) unit := mmodify (λ w, mkWeb (w_view w) (w_view w) (w_env w)).
Definition rollback : M (Web W) unit := mmodify (λ w, mkWeb (w_db w) (w_db w) (w_env w)).

(** A row that must exist: 404 otherwise *)
Definition found {A} (detail : string) (f : Db → option A) : M (Web W) A :=
  let* r := read f in
  match r with Some x => mret x | None => mthrow (HTTPException 404 detail) end.
End session.

Section api.
Context {L : Sql} {J : JsonSchema} {D W : Type} `{!Arith D, !Brokers W, !HttpLib W, !WebEnv W}.
Variables (one four : D) (sleep : D → W → W) (operand : pyval → D).
Variable max_replay_blocks : Z.    (** load_settings().replay.max_replay_blocks *)

Definition fresh_uuid : M (Web W) string := on_env (λ e, let '(u, e') := web_uuid e in (Ok u, e')).

(** [bump_and_publish] *)
Definition bump_and_publish (entity entity_id action : string) : M (Web W) Z :=
  let* new_version := on_view version_bump in
  commit ;;*
  mcatch (on_env (web_publish "config_changed"
    [("entity", PStr entity); ("id", PStr entity_id); ("action", PStr action);
     ("version", PInt new_version)])) (λ _, mret tt) ;;*
  mret new_version.

(** ** Chains *)
Definition chain_row (kind : ChainKind) (p : ChainCreate) : ChainRow :=
  mkChainRow kind (cc_rpc_http p) (cc_rpc_ws p) (cc_confirmations p) (cc_poll_interval_ms p)
    (cc_enabled p) (cc_commitment p) (Some (cc_trace_internal_calls p))
    (cc_log_query_range_blocks p) (cc_slot_query_range_blocks p) (cc_rpc_http_fallbacks p)
    (cc_rpc_timeout_ms p).

(** [ChainKind(payload.kind)] *)
Definition enum {A} (v : option A) : M (Web W) A :=
  match v with Some x => mret x | None => mthrow (ValueError "not a valid enum value") end.

Definition create_chain (p : ChainCreate) : M (Web W) (string * ChainRow) :=
  let* existing := read (chain_get (cc_id p)) in
  match existing with
  | Some _ => mthrow (HTTPException 409 "chain id already exists")
  | None =>
      let* kind := enum (ChainKind_of (cc_kind p)) in
      let* row := on_view (chain_create (cc_id p) (chain_row kind p)) in
      bump_and_publish "chain" row.1 "create" ;;* mret row
  end.

(** The columns of [update_chain]: every one but the kind *)
Definition update_chain (chain_id : string) (p : ChainCreate) : M (Web W) (string * ChainRow) :=
  let* row := found "chain not found" (chain_get chain_id) in
  on_view (chain_update chain_id (λ r, chain_row (c_kind r) p)) ;;*
  bump_and_publish "chain" chain_id "update" ;;*
  let* row := found "chain not found" (chain_get chain_id) in
  mret (chain_id, row).

Definition list_chains : M (Web W) (list (string * ChainRow)) := read chain_list_all.

Definition get_chain (chain_id : string) : M (Web W) (string * ChainRow) :=
  let* row := found "chain not found" (chain_get chain_id) in mret (chain_id, row).

Definition delete_chain (chain_id : string) : M (Web W) unit :=
  let* _ := found "chain not found" (chain_get chain_id) in
  write (chain_delete chain_id) ;;*
  bump_and_publish "chain" chain_id "delete" ;;* mret tt.

(** enabled, latest_block, latest_block_hash *)
Definition chain_status (chain_id : string) : M (Web W) (bool * option Z * option string) :=
  let* chain := found "chain not found" (chain_get chain_id) in
  let* cp := read (checkpoint_get chain_id) in
  mret (c_enabled chain, k_last_block <$> cp, k_last_block_hash <$> cp).

(** tip_block, last_processed_block, lag_blocks *)
Definition get_chain_lag (chain_id : string) : M (Web W) (option Z * option Z * option Z) :=
  let* _ := found "chain not found" (chain_get chain_id) in
  let* tip_raw := on_env (web_redis_get ("chain:" +:+ chain_id +:+ ":tip")) in
  let* tip_block := match tip_raw with
                    | None => mret None
                    | Some s => let* z := mlift (py_int 10 s) in mret (Some z)
                    end in
  let* checkpoint := read (checkpoint_get chain_id) in
  let last_processed := k_last_block <$> checkpoint in
  mret (tip_block, last_processed,
    match tip_block, last_processed with
    | Some t, Some l => Some (Z.max 0 (t - l))
    | _, _ => None
    end).

(** ** Channels *)

(** The schema check of [create_channel] and [update_channel] *)
Definition check_config (p : ChannelCreate) : M (Web W) unit :=
  match CHANNEL_REGISTRY !! chc_type p with
  | Some cls =>
      match cls_config_schema cls with
      | Some schema =>
          match js_validate (chc_config p) schema with
          | None => mret tt
          | Some message => mthrow (HTTPException 422 message)
          end
      | None => mret tt
      end
  | None => mret tt
  end.

Definition create_channel (p : ChannelCreate) : M (Web W) (string * ChannelRow) :=
  check_config p ;;*
  let* type := enum (ChannelType_of (chc_type p)) in
  let* id := fresh_uuid in
  let* row := on_view (channel_create id (mkChannelRow (chc_name p) type (chc_config p))) in
  bump_and_publish "channel" row.1 "create" ;;* mret row.

Definition update_channel (channel_id : string) (p : ChannelCreate)
    : M (Web W) (string * ChannelRow) :=
  let* _ := found "channel not found" (channel_get channel_id) in
  check_config p ;;*
  on_view (channel_update channel_id
    (λ r, mkChannelRow (chc_name p) (h_type r) (chc_config p))) ;;*
  bump_and_publish "channel" channel_id "update" ;;*
  let* row := found "channel not found" (channel_get channel_id) in
  mret (channel_id, row).

Definition list_channels : M (Web W) (list (string * ChannelRow)) := read channel_list_all.

Definition get_channel (channel_id : string) : M (Web W) (string * ChannelRow) :=
  let* row := found "channel not found" (channel_get channel_id) in mret (channel_id, row).

Definition delete_channel (channel_id : string) : M (Web W) unit :=
  let* _ := found "channel not found" (channel_get channel_id) in
  write (channel_delete channel_id) ;;*
  bump_and_publish "channel" channel_id "delete" ;;* mret tt.

(** ** Subscriptions *)
Definition create_subscription (p : SubscriptionCreate) : M (Web W) (string * SubscriptionRow) :=
  let* _ := found "chain_id not found" (chain_get (sc_chain_id p)) in
  let* kind := enum (MatchKind_of (sc_match_kind p)) in
  let* id := fresh_uuid in
  let* sub := on_view (subscription_create id
    (mkSubscriptionRow (sc_name p) (sc_chain_id p) (sc_address p) (sc_abi_id p) kind
       (sc_match_name p) (sc_arg_filters p) (sc_enabled p) (sc_start_block p) None
       (sc_business_name p))) in
  bump_and_publish "subscription" sub.1 "create" ;;* mret sub.

(** Neither the chain nor the progress of a subscription is updated *)
Definition update_subscription (sub_id : string) (p : SubscriptionCreate)
    : M (Web W) (string * SubscriptionRow) :=
  let* _ := found "subscription not found" (subscription_get sub_id) in
  let* kind := enum (MatchKind_of (sc_match_kind p)) in
  on_view (subscription_update sub_id (λ r,
    mkSubscriptionRow (sc_name p) (s_chain_id r) (sc_address p) (sc_abi_id p) kind
      (sc_match_name p) (sc_arg_filters p) (sc_enabled p) (sc_start_block p)
      (s_last_processed_block r) (sc_business_name p))) ;;*
  bump_and_publish "subscription" sub_id "update" ;;*
  let* row := found "subscription not found" (subscription_get sub_id) in
  mret (sub_id, row).

Definition list_subscriptions : M (Web W) (list (string * SubscriptionRow)) :=
  read subscription_list_all.

Definition get_subscription (sub_id : string)
    : M (Web W) (string * SubscriptionRow * list string) :=
  let* sub := found "subscription not found" (subscription_get sub_id) in
  let* channel_ids := read (bound_channel_ids sub_id) in
  mret (sub_id, sub, channel_ids).

Definition delete_subscription (sub_id : string) : M (Web W) unit :=
  let* _ := found "subscription not found" (subscription_get sub_id) in
  write (subscription_delete sub_id) ;;*
  bump_and_publish "subscription" sub_id "delete" ;;* mret tt.

Definition bind_channel (sub_id channel_id : string) : M (Web W) unit :=
  let* _ := found "subscription not found" (subscription_get sub_id) in
  let* _ := found "channel not found" (channel_get channel_id) in
  mcatch (on_view (bind_channel_row sub_id channel_id)) (λ e,
    match e with
    | IntegrityError _ => rollback ;;* mthrow (HTTPException 409 "channel already bound")
    | _ => mthrow e
    end) ;;*
  bump_and_publish "subscription" sub_id "bind_channel" ;;* mret tt.

Definition with_enabled (b : bool) (r : SubscriptionRow) : SubscriptionRow :=
  mkSubscriptionRow (s_name r) (s_chain_id r) (s_address r) (s_abi_id r) (s_match_kind r)
    (s_match_name r) (s_arg_filters r) b (s_start_block r) (s_last_processed_block r)
    (s_business_name r).

Definition pause_subscription (sub_id : string) : M (Web W) unit :=
  let* _ := found "subscription not found" (subscription_get sub_id) in
  on_view (subscription_update sub_id (with_enabled false)) ;;*
  bump_and_publish "subscription" sub_id "pause" ;;* mret tt.

Definition resume_subscription (sub_id : string) : M (Web W) unit :=
  let* _ := found "subscription not found" (subscription_get sub_id) in
  on_view (subscription_update sub_id (with_enabled true)) ;;*
  bump_and_publish "subscription" sub_id "resume" ;;* mret tt.

(** The ["subscription"] and ["channels"] of a replay request *)
Definition replay_subscription_fields (sub_id : string) (sub : SubscriptionRow)
    (channel_ids : list string) : list (string * pyval) :=
  [("id", PStr sub_id); ("name", PStr (s_name sub)); ("chain_id", PStr (s_chain_id sub));
   ("address", opt_str (s_address sub)); ("abi_id", opt_str (s_abi_id sub));
   ("match_kind", PStr (MatchKind_value (s_match_kind sub)));
   ("match_name", opt_str (s_match_name sub)); ("arg_filters", PDict (s_arg_filters sub));
   ("enabled", PBool true); ("channel_ids", PList (PStr <$> channel_ids)); ("start_block", PNone);
   ("business_name", opt_str (s_business_name sub))].

Definition replay_channel_fields (c : string * ChannelRow) : list (string * pyval) :=
  [("id", PStr c.1); ("name", PStr (h_name c.2)); ("type", PStr (ChannelType_value (h_type c.2)));
   ("config", PDict (h_config c.2))].

Definition replay_message (request_id sub_id : string) (sub : SubscriptionRow)
    (channel_ids : list string) (channels : list (string * ChannelRow)) (from_block to_block : Z)
    : list (string * pyval) :=
  [("request_id", PStr request_id); ("chain_id", PStr (s_chain_id sub));
   ("subscription", PDict (replay_subscription_fields sub_id sub channel_ids));
   ("channels", PList ((λ c, PDict (replay_channel_fields c)) <$> channels));
   ("from_block", PInt from_block); ("to_block", PInt to_block)].

(** Returns request_id, chain_id and span *)
Definition replay_subscription (sub_id : string) (p : ReplayRequest)
    : M (Web W) (string * string * Z) :=
  let* sub := found "subscription not found" (subscription_get sub_id) in
  if rr_to_block p <? rr_from_block p then mthrow (HTTPException 422 "to_block < from_block") else
  let span := rr_to_block p - rr_from_block p + 1 in
  if max_replay_blocks <? span then
    mthrow (HTTPException 422
      ("replay span " +:+ py_str span +:+ " exceeds max " +:+ py_str max_replay_blocks))
  else
    let* channel_ids := read (bound_channel_ids sub_id) in
    let* channels := read (λ d, omap (λ cid, (λ r, (cid, r)) <$> channel_get cid d) channel_ids) in
    let* request_id := fresh_uuid in
    on_env (web_publish "replay_request"
      (replay_message request_id sub_id sub channel_ids channels (rr_from_block p)
         (rr_to_block p))) ;;*
    mret (request_id, s_chain_id sub, span).

(** ** ABIs *)
Definition create_abi (p : AbiCreate) : M (Web W) (string * AbiRow) :=
  let* kind := enum (AbiKind_of (ac_kind p)) in
  let* id := fresh_uuid in
  let* row := on_view (abi_create id (mkAbiRow (ac_name p) kind (ac_body p))) in
  bump_and_publish "abi" row.1 "create" ;;* mret row.

Definition list_abis : M (Web W) (list (string * AbiRow)) := read abi_list_all.

Definition get_abi (abi_id : string) : M (Web W) (string * AbiRow) :=
  let* row := found "abi not found" (abi_get abi_id) in mret (abi_id, row).

Definition delete_abi (abi_id : string) : M (Web W) unit :=
  let* _ := found "abi not found" (abi_get abi_id) in
  write (abi_delete abi_id) ;;*
  bump_and_publish "abi" abi_id "delete" ;;* mret tt.

Definition fetch_and_create_idl (program_id rpc_url : string) (name : option string)
    : M (Web W) (string * AbiRow) :=
  let* idl := on_env (web_fetch_idl rpc_url program_id) in
  match idl with
  | None =>
      mthrow (HTTPException 404 ("IDL not found on-chain for program " +:+ program_id))
  | Some body =>
      let* id := fresh_uuid in
      let given := match name with Some (String _ _ as s) => s
                   | _ => "idl-" +:+ str_take 8 program_id end in
      let* row := on_view (abi_create id (mkAbiRow given AbiKind_solana_idl body)) in
      bump_and_publish "abi" row.1 "create" ;;* mret row
  end.

(** ** Delivery records *)
Definition list_delivery_records (subscription_id status_filter : option string)
    : M (Web W) (list (string * DeliveryRecordRow)) :=
  let* rows := read (delivery_list_all 200 subscription_id status_filter) in mlift rows.

(** [ch.start(); try: ch.send(payload) finally: ch.stop()] of a fresh driver *)
Definition push_once (cls : channel_class) (config payload : list (string * pyval)) : M W unit :=
  let* ch := mlift (construct operand cls config) in
  λ e,
    let '(r, (_, e')) :=
      (driver_start ;;*
       (λ s, let '(r, s1) := (let* d := self in
                              in_env (driver_send one four sleep d payload)) s in
             match driver_stop s1 with
             | (Ok _, s2) => (r, s2)
             | (Err exc, s2) => (Err exc, s2)
             end)) (ch, e) in
    (r, e').

Definition retry_delivery (delivery_id : string) : M (Web W) unit :=
  let* row := found "delivery not found" (delivery_get delivery_id) in
  let* ch_row := found "channel no longer exists" (channel_get (d_channel_id row)) in
  match CHANNEL_REGISTRY !! ChannelType_value (h_type ch_row) with
  | None => mthrow (HTTPException 400
      ("unknown channel type: " +:+ ChannelType_value (h_type ch_row)))
  | Some cls =>
      mcatch (on_env (push_once cls (h_config ch_row) (d_event_payload row))) (λ exc,
        rollback ;;*
        on_view (bump_attempt delivery_id (web_repr exc)) ;;*
        commit ;;*
        mthrow (HTTPException 502 ("重推失败: " +:+ web_repr exc))) ;;*
      let* e := mgets w_env in
      on_view (mark_resolved delivery_id (web_now e)) ;;*
      commit
  end.

Definition resolve_delivery (delivery_id : string) : M (Web W) unit :=
  let* _ := found "delivery not found" (delivery_get delivery_id) in
  let* e := mgets w_env in
  on_view (mark_resolved delivery_id (web_now e)) ;;*
  commit.

Definition delete_delivery (delivery_id : string) : M (Web W) unit :=
  let* _ := found "delivery not found" (delivery_get delivery_id) in
  write (delivery_delete delivery_id) ;;*
  commit.

(** ** Routes *)
Inductive request :=
  | CreateChain (p : ChainCreate)
  | UpdateChain (chain_id : string) (p : ChainCreate)
  | ListChains
  | GetChain (chain_id : string)
  | DeleteChain (chain_id : string)
  | ChainStatus (chain_id : string)
  | ChainLag (chain_id : string)
  | CreateChannel (p : ChannelCreate)
  | UpdateChannel (channel_id : string) (p : ChannelCreate)
  | ListChannels
  | GetChannel (channel_id : string)
  | DeleteChannel (channel_id : string)
  | CreateSubscription (p : SubscriptionCreate)
  | UpdateSubscription (sub_id : string) (p : SubscriptionCreate)
  | ListSubscriptions
  | GetSubscription (sub_id : string)
  | DeleteSubscription (sub_id : string)
  | BindChannel (sub_id channel_id : string)
  | PauseSubscription (sub_id : string)
  | ResumeSubscription (sub_id : string)
  | ReplaySubscription (sub_id : string) (p : ReplayRequest)
  | CreateAbi (p : AbiCreate)
  | ListAbis
  | GetAbi (abi_id : string)
  | DeleteAbi (abi_id : string)
  | FetchIdl (program_id rpc_url : string) (name : option string)
  | ListDeliveries (subscription_id status_filter : option string)
  | RetryDelivery (delivery_id : string)
  | ResolveDelivery (delivery_id : string)
  | DeleteDelivery (delivery_id : string).

Inductive response :=
  | RNone
  | RChain (r : string * ChainRow)
  | RChains (l : list (string * ChainRow))
  | RStatus (r : bool * option Z * option string)
  | RLag (r : option Z * option Z * option Z)
  | RChannelOut (r : string * ChannelRow)
  | RChannels (l : list (string * ChannelRow))
  | RSub (r : string * SubscriptionRow)
  | RSubs (l : list (string * SubscriptionRow))
  | RSubDetail (r : string * SubscriptionRow * list string)
  | RReplay (r : string * string * Z)
  | RAbiOut (r : string * AbiRow)
  | RAbis (l : list (string * AbiRow))
  | RDeliveries (l : list (string * DeliveryRecordRow)).

Definition answer {A} (f : A → response) (m : M (Web W) A) : M (Web W) response :=
  let* x := m in mret (f x).

(** The query's [status] is a literal of the four statuses *)
Definition status_literal (s : option string) : result unit :=
  match s with
  | None => Ok tt
  | Some s => match DeliveryStatus_of s with
              | Ok _ => Ok tt | Err _ => Err (unprocessable "status")
              end
  end.

Definition handle (req : request) : M (Web W) response :=
  let body {A B} (validate : A → result A) (p : A) (k : A → M (Web W) B) :=
    let* p' := mlift (validate p) in k p' in
  match req with
  | CreateChain p => answer RChain (body chain_create_validate p create_chain)
  | UpdateChain id p => answer RChain (body chain_create_validate p (update_chain id))
  | ListChains => answer RChains list_chains
  | GetChain id => answer RChain (get_chain id)
  | DeleteChain id => answer (λ _, RNone) (delete_chain id)
  | ChainStatus id => answer RStatus (chain_status id)
  | ChainLag id => answer RLag (get_chain_lag id)
  | CreateChannel p => answer RChannelOut (body channel_create_validate p create_channel)
  | UpdateChannel id p => answer RChannelOut (body channel_create_validate p (update_channel id))
  | ListChannels => answer RChannels list_channels
  | GetChannel id => answer RChannelOut (get_channel id)
  | DeleteChannel id => answer (λ _, RNone) (delete_channel id)
  | CreateSubscription p => answer RSub (body subscription_create_validate p create_subscription)
  | UpdateSubscription id p =>
      answer RSub (body subscription_create_validate p (update_subscription id))
  | ListSubscriptions => answer RSubs list_subscriptions
  | GetSubscription id => answer RSubDetail (get_subscription id)
  | DeleteSubscription id => answer (λ _, RNone) (delete_subscription id)
  | BindChannel s c => answer (λ _, RNone) (bind_channel s c)
  | PauseSubscription id => answer (λ _, RNone) (pause_subscription id)
  | ResumeSubscription id => answer (λ _, RNone) (resume_subscription id)
  | ReplaySubscription id p => answer RReplay (body replay_request_validate p (replay_subscription id))
  | CreateAbi p => answer RAbiOut (body abi_create_validate p create_abi)
  | ListAbis => answer RAbis list_abis
  | GetAbi id => answer RAbiOut (get_abi id)
  | DeleteAbi id => answer (λ _, RNone) (delete_abi id)
  | FetchIdl p u n => answer RAbiOut (fetch_and_create_idl p u n)
  | ListDeliveries s st =>
      mlift (status_literal st) ;;* answer RDeliveries (list_delivery_records s st)
  | RetryDelivery id => answer (λ _, RNone) (retry_delivery id)
  | ResolveDelivery id => answer (λ _, RNone) (resolve_delivery id)
  | DeleteDelivery id => answer (λ _, RNone) (delete_delivery id)
  end.

(** One request: [get_session] opens a session and closes it afterwards *)
Definition serve (req : request) : M (Web W) response := λ w,
  let '(r, w') := handle req (mkWeb (w_db w) (w_db w) (w_env w)) in
  (r, mkWeb (w_db w') (w_db w') (w_env w')).
End api.

(** ** Transactions *)
Section transactions.
Context {L : Sql} {W : Type} `{!WebEnv W}.

(** [m] changes neither the database nor the session's view *)
Definition reads {A} (m : M (Web W) A) : Prop := ∀ w,
  w_db (m w).2 = w_db w ∧ w_view (m w).2 = w_view w.

(** [m], started in a fresh session on a database where [P] holds, either fails without a
    trace, or makes one change allowed by [S] together with one increment of the version *)
Definition bumps {A} (P : Db → Prop) (S : Db → Db → Prop) (m : M (Web W) A) : Prop := ∀ w r w',
  w_view w = w_db w → P (w_db w) → m w = (r, w') →
  match r with
  | Ok _ => ∃ d, S (w_db w) d ∧ w_db w' = (version_bump d).2
  | Err _ => w_db w' = w_db w
  end.

Lemma reads_bind {A B} (m : M (Web W) A) (k : A → M (Web W) B) :
  reads m → (∀ a, reads (k a)) → reads (mbind m k).
Proof.
  intros Hm Hk w. unfold mbind. specialize (Hm w). destruct (m w) as [[a|e] w1]; [|exact Hm].
  cbn [snd] in Hm. destruct (Hk a w1) as [-> ->]. exact Hm.
Qed.

Lemma reads_ret {A} (a : A) : reads (mret a).
Proof. intros w. by split. Qed.
Lemma reads_throw {A} e : reads (mthrow (A:=A) e).
Proof. intros w. by split. Qed.
Lemma reads_lift {A} (r : result A) : reads (mlift r).
Proof. intros w. by split. Qed.
Lemma reads_read {A} (f : Db → A) : reads (read f).
Proof. intros w. by split. Qed.
Lemma reads_env {A} (m : M W A) : reads (on_env m).
Proof. intros w. unfold on_env, mzoom. by destruct (m (w_env w)). Qed.
Lemma reads_found {A} d (f : Db → option A) : reads (found d f).
Proof. intros w. unfold found, read, mbind, mgets. simpl. by destruct (f (w_view w)). Qed.
Lemma reads_uuid : reads fresh_uuid.
Proof. apply reads_env. Qed.
Lemma reads_enum {A} (v : option A) : reads (enum v).
Proof. by destruct v. Qed.
Lemma reads_answer {A} (f : A → response) m : reads m → reads (answer f m).
Proof. intros Hm. apply reads_bind; [done|]. intros a. apply reads_ret. Qed.

Lemma bumps_after {A B} P S (m : M (Web W) A) (k : A → M (Web W) B) :
  reads m → (∀ a, bumps P S (k a)) → bumps P S (mbind m k).
Proof.
  intros Hm Hk w r w' Hw HP H. unfold mbind in H. destruct (Hm w) as [Hdb Hv].
  destruct (m w) as [[a|e] w1]; cbn [snd] in *; [|by simplify_eq].
  specialize (Hk a w1 r w'). rewrite Hv, Hdb in Hk. by apply Hk.
Qed.

Lemma bumps_found {A B} (P : Db → Prop) S detail (f : Db → option A) (k : A → M (Web W) B) :
  (∀ x, bumps (λ d, P d ∧ f d = Some x) S (k x)) → bumps P S (let* x := found detail f in k x).
Proof.
  intros Hk w r w' Hw HP H. unfold found, read, mbind, mgets, compose in H. rewrite Hw in H.
  destruct (f (w_db w)) as [x|] eqn:E; [by apply (Hk x)|]. cbn in H. by simplify_eq.
Qed.

Lemma bumps_lift {A B} P S (v : result A) (k : A → M (Web W) B) :
  (∀ a, v = Ok a → bumps P S (k a)) → bumps P S (let* a := mlift v in k a).
Proof.
  intros Hk w r w' Hw HP H. destruct v as [a|e]; [by apply (Hk a eq_refl)|].
  cbn in H. by simplify_eq.
Qed.

Lemma bumps_throw {A} P S e : bumps P S (mthrow (A:=A) e).
Proof. intros w r w' _ _ H. unfold mthrow in H. by simplify_eq. Qed.

Lemma bumps_answer {A} P S (f : A → response) m : bumps P S m → bumps P S (answer f m).
Proof.
  intros Hm w r w' Hw HP H. unfold answer, mbind in H.
  destruct (m w) as [[a|e] w1] eqn:E; specialize (Hm _ _ _ Hw HP E); unfold mret in H; simplify_eq;
    exact Hm.
Qed.

(** Publishing is best effort: it neither fails nor touches the database *)
Lemma bump_and_publish_spec e i act w : ∃ w',
  bump_and_publish e i act w = (Ok (version_get (version_bump (w_view w)).2), w') ∧
  w_db w' = (version_bump (w_view w)).2 ∧ w_view w' = (version_bump (w_view w)).2.
Proof.
  unfold bump_and_publish, on_view, on_env, commit, mzoom, mmodify, mbind, mcatch, version_bump.
  destruct (db_version (w_view w)); cbn -[web_publish];
    destruct (web_publish _ _ _) as [[]]; cbn; eexists; done.
Qed.

(** The common shape of the handlers: one statement, the version and the commit, then
    something that only looks at what was committed *)
Lemma bumps_commit {A B} (P : Db → Prop) (S : Db → Db → Prop) (m : M (Web W) A) e i act
    (k : A → M (Web W) B) :
  (∀ w a w1, w_view w = w_db w → P (w_db w) → m w = (Ok a, w1) → S (w_db w) (w_view w1) ∧
     ∀ w2, w_view w2 = (version_bump (w_view w1)).2 → ∃ b, k a w2 = (Ok b, w2)) →
  (∀ w x w1, w_view w = w_db w → m w = (Err x, w1) → w_db w1 = w_db w) →
  bumps P S (let* a := m in bump_and_publish e (i a) act ;;* k a).
Proof.
  intros Hok Herr w r w' Hw HP H. unfold mbind at 1 in H.
  destruct (m w) as [[a|x] w1] eqn:E; [|simplify_eq; by apply (Herr _ _ _ Hw) in E].
  destruct (Hok _ _ _ Hw HP E) as [HS Hk].
  destruct (bump_and_publish_spec e (i a) act w1) as (w2 & Hb & Hdb2 & Hv2).
  unfold mbind in H. rewrite Hb in H. destruct (Hk w2 Hv2) as [b Hb']. rewrite Hb' in H.
  simplify_eq. by exists (w_view w1).
Qed.

Lemma bumps_statement {A B} (P : Db → Prop) (S : Db → Db → Prop) (stmt : M Db A) e i act
    (k : A → M (Web W) B) :
  (∀ d a d', P d → stmt d = (Ok a, d') → S d d' ∧
     ∀ w, w_view w = (version_bump d').2 → ∃ b, k a w = (Ok b, w)) →
  bumps P S (let* a := on_view stmt in bump_and_publish e (i a) act ;;* k a).
Proof.
  intros H. apply bumps_commit.
  - intros w a w1 Hw HP. unfold on_view, mzoom. rewrite Hw.
    destruct (stmt (w_db w)) as [r d'] eqn:E. intros [= -> <-]. by apply (H _ _ _ HP) in E.
  - intros w x w1 Hw. unfold on_view, mzoom. destruct (stmt (w_view w)) as [r d'].
    by intros [= -> <-].
Qed.

Lemma bumps_write {B} (P : Db → Prop) (S : Db → Db → Prop) f e i act (b : B) :
  (∀ d, P d → S d (f d)) →
  bumps P S (write f ;;* bump_and_publish e i act ;;* mret b).
Proof.
  intros H. apply (bumps_commit P S (write f) e (λ _, i) act (λ _, mret b)).
  - intros w a w1 Hw HP. unfold write, mmodify. intros [= <- <-]. cbn [w_view]. rewrite Hw.
    split; [by apply H|]. intros w2 _. by exists b.
  - intros w x w1 _. by intros [=].
Qed.

(** [serve] of a request whose handler only reads, or bumps *)
Lemma serve_fresh {D} {J : JsonSchema} `{!Arith D, !Brokers W, !HttpLib W} (one four : D) sleep
    operand max_replay req w r w' :
  serve one four sleep operand max_replay req w = (r, w') →
  ∃ w1, handle one four sleep operand max_replay req (mkWeb (w_db w) (w_db w) (w_env w)) = (r, w1) ∧
    w_db w' = w_db w1.
Proof.
  unfold serve. destruct (handle _ _ _ _ _ _ _) as [r1 w1]. intros [= <- <-]. by exists w1.
Qed.
End transactions.

(** ** What the stored configuration satisfies *)
Record chain_row_ok (r : ChainRow) : Prop := {
  ok_confirmations : 0 ≤ c_confirmations r ≤ 10000;
  ok_poll : 100 ≤ c_poll_interval_ms r ≤ 60000;
  ok_commitment : c_commitment r ∈ [None; Some "confirmed"; Some "finalized"];
  ok_log_range : 1 ≤ c_log_query_range_blocks r ≤ 10000;
  ok_slot_range : 1 ≤ c_slot_query_range_blocks r ≤ 500000;
  ok_timeout : 100 ≤ c_rpc_timeout_ms r ≤ 120000;
  ok_endpoints : c_rpc_http r ≠ "" ∧ NoDup (c_rpc_http r :: c_rpc_http_fallbacks r);
}.

Record subscription_row_ok (r : SubscriptionRow) : Prop := {
  ok_grammar : validate (s_arg_filters r).*1 = Ok tt;
  ok_values : Forall (λ kv, is_filter_value kv.2 = true) (s_arg_filters r);
  ok_business : s_business_name r ≠ Some "";
}.

Definition rows_ok (d : Db) : Prop :=
  map_Forall (λ _, chain_row_ok) (db_chains d) ∧
  map_Forall (λ _, subscription_row_ok) (db_subscriptions d).

Section changes.
Context {L : Sql}.

(** One statement of the repositories on the configuration tables *)
Definition config_change (d d' : Db) : Prop :=
  db_step d d' ∧ db_version d' = db_version d ∧ db_deliveries d' = db_deliveries d ∧
  (rows_ok d → rows_ok d').

Lemma chain_create_ok id r d a d' :
  chain_row_ok r → chain_create id r d = (Ok a, d') → config_change d d' ∧ a = (id, r).
Proof.
  intros Hr H. assert (Hs : db_step d d') by (by eapply step_chain_create).
  unfold chain_create in H. destruct (has _ _); [done|]. destruct (check_row _); simplify_eq.
  split; [|done]. split_and!; try done. intros [Hc Hsub]. split; [|done].
  by apply map_Forall_insert_2.
Qed.

Lemma chain_update_ok id f d a d' :
  (∀ r, chain_row_ok (f r)) → chain_update id f d = (Ok a, d') → config_change d d'.
Proof.
  intros Hf H. assert (Hs : db_step d d') by (by eapply step_chain_update).
  unfold chain_update in H. destruct (db_chains d !! id); [|simplify_eq; split_and!; done].
  destruct (check_row _); simplify_eq. split_and!; try done. intros [Hc Hsub]. split; [|done].
  by apply map_Forall_insert_2.
Qed.

Lemma subscription_create_ok id r d a d' :
  subscription_row_ok r → subscription_create id r d = (Ok a, d') →
  config_change d d' ∧ a = (id, r).
Proof.
  intros Hr H. assert (Hs : db_step d d') by (by eapply step_subscription_create).
  unfold subscription_create in H. destruct (has _ _); [done|].
  destruct (check_row _); [|done]. destruct (check_fk _); simplify_eq.
  split; [|done]. split_and!; try done. intros [Hc Hsub]. split; [done|].
  by apply map_Forall_insert_2.
Qed.

Lemma subscription_update_ok id f d a d' :
  (∀ r, subscription_row_ok r → subscription_row_ok (f r)) →
  subscription_update id f d = (Ok a, d') → config_change d d'.
Proof.
  intros Hf H. assert (Hs : db_step d d') by (by eapply step_subscription_update).
  unfold subscription_update in H.
  destruct (db_subscriptions d !! id) as [r|] eqn:E; [|simplify_eq; split_and!; done].
  destruct (check_row _); [|done]. destruct (check_fk _); simplify_eq.
  split_and!; try done. intros [Hc Hsub]. split; [done|].
  apply map_Forall_insert_2; [apply Hf; by apply (Hsub id)|done].
Qed.

Lemma channel_create_ok id r d a d' :
  channel_create id r d = (Ok a, d') → config_change d d' ∧ a = (id, r).
Proof.
  intros H. assert (Hs : db_step d d') by (by eapply step_channel_create).
  unfold channel_create in H. destruct (has _ _); [done|].
  destruct (check_row _); simplify_eq. by split_and!.
Qed.

Lemma channel_update_ok id f d a d' :
  channel_update id f d = (Ok a, d') → config_change d d'.
Proof.
  intros H. assert (Hs : db_step d d') by (by eapply step_channel_update).
  unfold channel_update in H. destruct (db_channels d !! id); [|simplify_eq; split_and!; done].
  destruct (check_row _); simplify_eq. by split_and!.
Qed.

Lemma abi_create_ok id r d a d' :
  abi_create id r d = (Ok a, d') → config_change d d' ∧ a = (id, r).
Proof.
  intros H. assert (Hs : db_step d d') by (by eapply step_abi_create).
  unfold abi_create in H. destruct (has _ _); [done|].
  destruct (check_row _); simplify_eq. by split_and!.
Qed.

Lemma bind_ok s c d a d' : bind_channel_row s c d = (Ok a, d') → config_change d d'.
Proof.
  intros H. assert (Hs : db_step d d') by (by eapply step_bind).
  unfold bind_channel_row in H. case_bool_decide; [done|].
  destruct (check_fk _); simplify_eq. by split_and!.
Qed.

Lemma chain_delete_ok id d : config_change d (chain_delete id d).
Proof.
  split; [constructor|]. unfold chain_delete. destruct (db_chains d !! id); [|by split_and!].
  destruct sql_fk; split_and!; try done; intros [Hc Hs]; split; simpl;
    try by apply map_Forall_delete.
  - intros k r [Hr _]%map_lookup_filter_Some. by apply (Hs k).
  - done.
Qed.

Lemma channel_delete_ok id d : config_change d (channel_delete id d).
Proof.
  split; [constructor|]. unfold channel_delete. destruct (db_channels d !! id); [|by split_and!].
  by destruct sql_fk; split_and!.
Qed.

Lemma subscription_delete_ok id d : config_change d (subscription_delete id d).
Proof.
  split; [constructor|]. unfold subscription_delete.
  destruct (db_subscriptions d !! id); [|by split_and!].
  destruct sql_fk; split_and!; try done; intros [Hc Hs]; split; simpl; try done;
    by apply map_Forall_delete.
Qed.

Lemma abi_delete_ok id d : config_change d (abi_delete id d).
Proof.
  split; [constructor|]. unfold abi_delete. destruct (db_abis d !! id); [|by split_and!].
  destruct sql_fk; split_and!; try done. intros [Hc Hs]. split; simpl; [done|].
  apply map_Forall_fmap. intros k r Hr. specialize (Hs k r Hr).
  cbn. unfold clear_abi. case_bool_decide; [|done]. by destruct Hs.
Qed.
End changes.

(** ** The handlers that change the configuration *)
Section handlers.
Context {L : Sql} {J : JsonSchema} {D W : Type} `{!Arith D, !Brokers W, !HttpLib W, !WebEnv W}.
Implicit Types P : Db → Prop.

Lemma found_some {A} detail (f : Db → option A) (w : Web W) x :
  f (w_view w) = Some x → found detail f w = (Ok x, w).
Proof. unfold found, read, mbind, mgets, compose. by intros ->. Qed.

Lemma found_bind {A B} detail (f : Db → option A) (k : A → M (Web W) B) (w : Web W) x :
  f (w_view w) = Some x → (let* y := found detail f in k y) w = k x w.
Proof. intros H. unfold mbind. by rewrite (found_some _ _ _ x). Qed.

Lemma bump_tables d :
  db_chains (version_bump d).2 = db_chains d ∧
  db_channels (version_bump d).2 = db_channels d ∧
  db_subscriptions (version_bump d).2 = db_subscriptions d.
Proof. unfold version_bump. by destruct (db_version d). Qed.

(** A [PUT]: the row exists before, hence after, the statement *)
Lemma bumps_put {R A} P detail (get : Db → option R) (stmt : M Db unit) e i act (out : R → A) :
  (∀ d d', P d → stmt d = (Ok tt, d') → config_change d d' ∧ is_Some (get (version_bump d').2)) →
  bumps P config_change (on_view stmt ;;* bump_and_publish e i act ;;*
    (let* r := found (W:=W) detail get in mret (out r))).
Proof.
  intros H. apply (bumps_statement P config_change stmt e (λ _, i) act
    (λ _, let* r := found detail get in mret (out r))).
  intros d [] d' HP Hs. destruct (H _ _ HP Hs) as [Hc [r Hr]]. split; [done|].
  intros w Hw. exists (out r). unfold mbind. rewrite (found_some _ _ _ r); [done|by rewrite Hw].
Qed.

Lemma chain_row_validated k p p' :
  chain_create_validate p = Ok p' → chain_row_ok (chain_row k p').
Proof.
  intros H. apply chain_create_validated in H as (Hf & _ & Hfb).
  unfold chain_create_fields, between in Hf. rewrite !andb_true_iff, !Z.leb_le in Hf.
  destruct Hf as ((((((((_ & _) & Hlen) & ?) & ?) & Hcm%bool_decide_eq_true) & ?) & ?) & ?).
  split; cbn [chain_row c_confirmations c_poll_interval_ms c_commitment
    c_log_query_range_blocks c_slot_query_range_blocks c_rpc_timeout_ms c_rpc_http
    c_rpc_http_fallbacks]; try done.
  split.
  - intros E. rewrite E in Hlen. done.
  - rewrite Hfb. unfold normalize_fallbacks.
    destruct (dedup_spec (cc_rpc_http p')
      (strip <$> filter (λ u, u ≠ "" ∧ strip u ≠ "") (cc_rpc_http_fallbacks p)) [])
      as (Hnd & Hp & _); [constructor|set_solver|]. by constructor.
Qed.

Lemma create_chain_bumps P p p' :
  chain_create_validate p = Ok p' → bumps P config_change (create_chain (W:=W) p').
Proof.
  intros Hv. unfold create_chain. apply bumps_after; [apply reads_read|]. intros [x|];
    [apply bumps_throw|].
  apply bumps_after; [apply reads_enum|]. intros k.
  apply (bumps_statement P config_change _ "chain" fst "create" mret).
  intros d a d' _ H. apply chain_create_ok in H as [? ->]; [|by eapply chain_row_validated].
  split; [done|]. intros w _. by eexists.
Qed.

Lemma update_chain_bumps P id p p' :
  chain_create_validate p = Ok p' → bumps P config_change (update_chain (W:=W) id p').
Proof.
  intros Hv. apply bumps_found. intros x.
  apply (bumps_put _ _ (chain_get id) _ "chain" id "update" (λ r, (id, r))).
  intros d d' [_ Hx] H. split; [eapply chain_update_ok; [|exact H]|].
  - intros r. by eapply chain_row_validated.
  - unfold chain_get in *. destruct (bump_tables d') as [-> _].
    unfold chain_update in H. rewrite Hx in H. destruct (check_row _); simplify_eq. simpl.
    by rewrite lookup_insert_eq.
Qed.

Lemma check_config_reads p : reads (W:=W) (check_config p).
Proof.
  unfold check_config. destruct (CHANNEL_REGISTRY !! _) as [cls|]; [|apply reads_ret].
  destruct (cls_config_schema cls); [|apply reads_ret].
  destruct (js_validate _ _); [apply reads_throw|apply reads_ret].
Qed.

Lemma create_channel_bumps P p : bumps P config_change (create_channel (W:=W) p).
Proof.
  apply bumps_after; [apply check_config_reads|]. intros _.
  apply bumps_after; [apply reads_enum|]. intros t.
  apply bumps_after; [apply reads_uuid|]. intros id.
  apply (bumps_statement P config_change _ "channel" fst "create" mret).
  intros d a d' _ H. apply channel_create_ok in H as [? ->]. split; [done|]. intros w _. by eexists.
Qed.

Lemma update_channel_bumps P id p : bumps P config_change (update_channel (W:=W) id p).
Proof.
  apply bumps_found. intros x. apply bumps_after; [apply check_config_reads|]. intros _.
  apply (bumps_put _ _ (channel_get id) _ "channel" id "update" (λ r, (id, r))).
  intros d d' [_ Hx] H. split; [by eapply channel_update_ok|].
  unfold channel_get in *. destruct (bump_tables d') as (_ & -> & _).
  unfold channel_update in H. rewrite Hx in H. destruct (check_row _); simplify_eq. simpl.
  by rewrite lookup_insert_eq.
Qed.

Lemma subscription_validated p p' :
  subscription_create_validate p = Ok p' →
  validate (sc_arg_filters p').*1 = Ok tt ∧
  Forall (λ kv, is_filter_value kv.2 = true) (sc_arg_filters p') ∧ sc_business_name p' ≠ Some "".
Proof.
  unfold subscription_create_validate, require. destruct (_ && _ && _ && _) eqn:E; [|done].
  cbn [rbind]. unfold check_operator_grammar.
  destruct (validate (sc_arg_filters p).*1) as [[]|] eqn:Ev; [|done]. cbn [rbind].
  intros [= <-]. cbn [sc_arg_filters sc_business_name]. split_and!; [done| |].
  - rewrite !andb_true_iff in E. destruct E as [_ E]. rewrite forallb_forall in E.
    apply Forall_forall. intros kv Hkv%list_elem_of_In. by apply E.
  - unfold normalize_business_name. destruct (sc_business_name p); [|done]. by destruct (strip _).
Qed.

Lemma create_subscription_bumps P p p' :
  subscription_create_validate p = Ok p' → bumps P config_change (create_subscription (W:=W) p').
Proof.
  intros (Hg & Hval & Hb)%subscription_validated. apply bumps_found. intros x.
  apply bumps_after; [apply reads_enum|]. intros k.
  apply bumps_after; [apply reads_uuid|]. intros id.
  apply (bumps_statement _ config_change _ "subscription" fst "create" mret).
  intros d a d' _ H. apply subscription_create_ok in H as [? ->]; [|by split].
  split; [done|]. intros w _. by eexists.
Qed.

Lemma subscription_put_found id f d d' x :
  subscription_get id d = Some x → subscription_update id f d = (Ok tt, d') →
  is_Some (subscription_get id (version_bump d').2).
Proof.
  unfold subscription_get, subscription_update. intros Hx H.
  destruct (bump_tables d') as (_ & _ & ->). rewrite Hx in H.
  destruct (check_row _); [|done]. destruct (check_fk _); simplify_eq. simpl.
  by rewrite lookup_insert_eq.
Qed.

Lemma update_subscription_bumps P id p p' :
  subscription_create_validate p = Ok p' →
  bumps P config_change (update_subscription (W:=W) id p').
Proof.
  intros (Hg & Hval & Hb)%subscription_validated. apply bumps_found. intros x.
  apply bumps_after; [apply reads_enum|]. intros k.
  apply (bumps_put _ _ (subscription_get id) _ "subscription" id "update" (λ r, (id, r))).
  intros d d' [_ Hx] H. split; [|by eapply subscription_put_found].
  eapply subscription_update_ok; [|exact H]. intros r _. by split.
Qed.

Lemma set_enabled_bumps P id b act :
  bumps P config_change (
    let* _ := found (W:=W) "subscription not found" (subscription_get id) in
    on_view (subscription_update id (with_enabled b)) ;;*
    bump_and_publish "subscription" id act ;;* mret tt).
Proof.
  apply bumps_found. intros x.
  apply (bumps_statement _ config_change _ "subscription" (λ _, id) act (λ _, mret tt)).
  intros d [] d' _ H. split; [|intros w _; by eexists].
  eapply subscription_update_ok; [|exact H]. by intros r [].
Qed.

Lemma bind_channel_bumps P s c : bumps P config_change (bind_channel (W:=W) s c).
Proof.
  apply bumps_found. intros x. apply bumps_found. intros y.
  apply (bumps_commit _ config_change _ "subscription" (λ _, s) "bind_channel" (λ _, mret tt)).
  - intros w a w1 Hw _ H. split; [|intros w2 _; by eexists].
    unfold mcatch, on_view, mzoom in H. rewrite Hw in H.
    destruct (bind_channel_row s c (w_db w)) as [[[]|e] d'] eqn:E.
    + simplify_eq. by eapply bind_ok.
    + unfold rollback, mthrow, mbind, mmodify in H. by destruct e; simplify_eq.
  - intros w e w1 Hw H. unfold mcatch, on_view, mzoom in H. rewrite Hw in H.
    destruct (bind_channel_row s c (w_db w)) as [[[]|e'] d'] eqn:E; [by simplify_eq|].
    unfold rollback, mthrow, mbind, mmodify in H. by destruct e'; simplify_eq.
Qed.

Lemma create_abi_bumps P p : bumps P config_change (create_abi (W:=W) p).
Proof.
  apply bumps_after; [apply reads_enum|]. intros k.
  apply bumps_after; [apply reads_uuid|]. intros id.
  apply (bumps_statement P config_change _ "abi" fst "create" mret).
  intros d a d' _ H. apply abi_create_ok in H as [? ->]. split; [done|]. intros w _. by eexists.
Qed.

Lemma fetch_idl_bumps P p u n : bumps P config_change (fetch_and_create_idl (W:=W) p u n).
Proof.
  apply bumps_after; [apply reads_env|]. intros [body|]; [|apply bumps_throw].
  apply bumps_after; [apply reads_uuid|]. intros id.
  apply (bumps_statement P config_change _ "abi" fst "create" mret).
  intros d a d' _ H. apply abi_create_ok in H as [? ->]. split; [done|]. intros w _. by eexists.
Qed.
End handlers.

(** ** Every request *)
Definition config_write (req : request) : bool :=
  match req with
  | CreateChain _ | UpdateChain _ _ | DeleteChain _ | CreateChannel _ | UpdateChannel _ _
  | DeleteChannel _ | CreateSubscription _ | UpdateSubscription _ _ | DeleteSubscription _
  | BindChannel _ _ | PauseSubscription _ | ResumeSubscription _ | CreateAbi _ | DeleteAbi _
  | FetchIdl _ _ _ => true
  | _ => false
  end.

Definition delivery_write (req : request) : bool :=
  match req with RetryDelivery _ | ResolveDelivery _ | DeleteDelivery _ => true | _ => false end.

Section requests.
Context {L : Sql} {J : JsonSchema} {D W : Type} `{!Arith D, !Brokers W, !HttpLib W, !WebEnv W}.
Variables (one four : D) (sleep : D → W → W) (operand : pyval → D).
Variable max_replay : Z.
Implicit Types w : Web W.

Lemma config_write_bumps req P : config_write req = true → bumps P config_change (handle one four sleep operand max_replay req).
Proof.
  destruct req; intros Hreq; try discriminate Hreq; unfold handle; apply bumps_answer;
    try (apply bumps_lift; intros p' Hp').
  - by eapply create_chain_bumps.
  - by eapply update_chain_bumps.
  - apply bumps_found. intros x. apply bumps_write. intros d _. apply chain_delete_ok.
  - apply create_channel_bumps.
  - apply update_channel_bumps.
  - apply bumps_found. intros x. apply bumps_write. intros d _. apply channel_delete_ok.
  - by eapply create_subscription_bumps.
  - by eapply update_subscription_bumps.
  - apply bumps_found. intros x. apply bumps_write. intros d _. apply subscription_delete_ok.
  - apply bind_channel_bumps.
  - apply set_enabled_bumps.
  - apply set_enabled_bumps.
  - apply create_abi_bumps.
  - apply bumps_found. intros x. apply bumps_write. intros d _. apply abi_delete_ok.
  - apply fetch_idl_bumps.
Qed.

Lemma read_request_reads req :
  config_write req = false → delivery_write req = false →
  reads (handle one four sleep operand max_replay req).
Proof.
  destruct req; intros H1 H2; try discriminate H1; try discriminate H2; unfold handle;
    try (apply reads_answer); try (apply reads_bind; [apply reads_lift|intros p']); try apply reads_read;
    try (apply reads_bind; [apply reads_found|intros x]); try apply reads_ret.
  - apply reads_bind; [apply reads_read|intros cp]. apply reads_ret.
  - apply reads_bind; [apply reads_env|intros tip].
    apply reads_bind; [|intros t; apply reads_bind; [apply reads_read|intros cp; apply reads_ret]].
    destruct tip; [|apply reads_ret]. apply reads_bind; [apply reads_lift|intros z; apply reads_ret].
  - apply reads_bind; [apply reads_read|intros ids]. apply reads_ret.
  - cbn zeta. destruct (rr_to_block _ <? _); [apply reads_throw|].
    destruct (max_replay <? _); [apply reads_throw|].
    apply reads_bind; [apply reads_read|intros ids].
    apply reads_bind; [apply reads_read|intros chs].
    apply reads_bind; [apply reads_uuid|intros rid].
    apply reads_bind; [apply reads_env|intros []]. apply reads_ret.
  - apply reads_answer. apply reads_bind; [apply reads_read|intros rows]. apply reads_lift.
Qed.

Lemma delivery_update_only id f d r d' :
  delivery_update id f d = (r, d') → ∃ dels, d' = set_deliveries dels d.
Proof.
  unfold delivery_update. destruct (db_deliveries d !! id); [destruct (check_row _)|];
    intros [= <- <-]; try by eexists.
  all: exists (db_deliveries d); by destruct d.
Qed.

(** A delivery request leaves every table but the delivery records *)
Definition records_only {A} (m : M (Web W) A) : Prop := ∀ w, w_view w = w_db w →
  ∃ dels, w_db (m w).2 = set_deliveries dels (w_db w).

Lemma set_deliveries_id d : d = set_deliveries (db_deliveries d) d.
Proof. by destruct d. Qed.

Lemma records_found {A B} detail (f : Db → option A) (k : A → M (Web W) B) :
  (∀ x, records_only (k x)) → records_only (let* x := found detail f in k x).
Proof.
  intros Hk w Hw. unfold found, read, mbind, mgets, compose. destruct (f (w_view w)) as [x|].
  - by apply Hk.
  - exists (db_deliveries (w_db w)). apply set_deliveries_id.
Qed.

Lemma records_after {A B} (m : M (Web W) A) (k : A → M (Web W) B) :
  reads m → (∀ a, records_only (k a)) → records_only (mbind m k).
Proof.
  intros Hm Hk w Hw. unfold mbind. destruct (Hm w) as [Hdb Hv].
  destruct (m w) as [[a|e] w1]; cbn [snd] in *.
  - destruct (Hk a w1) as [dels Hd]; [by rewrite Hv, Hdb|]. exists dels. by rewrite Hd, Hdb.
  - exists (db_deliveries (w_db w)). rewrite Hdb. apply set_deliveries_id.
Qed.

Lemma records_commit {A} id f (k : M (Web W) A) :
  (∀ w, w_db (k w).2 = w_db w) → records_only (on_view (delivery_update id f) ;;* commit ;;* k).
Proof.
  intros Hk w Hw. unfold mbind, on_view, mzoom, commit, mmodify. rewrite Hw.
  destruct (delivery_update id f (w_db w)) as [[[]|e] d'] eqn:E.
  - apply delivery_update_only in E as [dels ->]. exists dels. by rewrite Hk.
  - exists (db_deliveries (w_db w)). apply set_deliveries_id.
Qed.

Lemma resolve_records id now (w : Web W) :
  w_view w = w_db w →
  ∃ dels, w_db ((on_view (mark_resolved id now) ;;* commit) w).2 = set_deliveries dels (w_db w).
Proof.
  intros Hw. unfold mbind, on_view, mzoom, commit, mmodify, mark_resolved. rewrite Hw.
  destruct (delivery_update id _ (w_db w)) as [[[]|e] d'] eqn:E; cbn [snd w_db].
  - apply delivery_update_only in E as [dels ->]. by exists dels.
  - exists (db_deliveries (w_db w)). apply set_deliveries_id.
Qed.

Lemma records_answer {A} (f : A → response) (m : M (Web W) A) :
  records_only m → records_only (answer f m).
Proof.
  intros Hm w Hw. destruct (Hm w Hw) as [dels Hd]. exists dels. rewrite <- Hd.
  unfold answer, mbind. by destruct (m w) as [[a|e] w1].
Qed.

Lemma delivery_request_records req :
  delivery_write req = true → records_only (handle one four sleep operand max_replay req).
Proof.
  destruct req; intros H; try discriminate H; unfold handle; apply records_answer;
    apply records_found; intros x.
  - apply records_found. intros ch.
    destruct (CHANNEL_REGISTRY !! _) as [cls|];
      [|intros w Hw; exists (db_deliveries (w_db w)); apply set_deliveries_id].
    intros w Hw. unfold mcatch, mbind at 1, on_env, mzoom at 1.
    destruct (push_once _ _ _ _ _ _ _ (w_env w)) as [[[]|e] env].
    + unfold mbind at 1, mgets. exact (resolve_records delivery_id (web_now env) (mkWeb (w_db w) (w_view w) env) Hw).
    + set (detail := ("重推失败: " +:+ web_repr e)%string).
      destruct (records_commit delivery_id (with_attempt (web_repr e))
        (mthrow (A:=unit) (HTTPException 502 detail)) (λ _, eq_refl)
        (mkWeb (w_db w) (w_db w) env) eq_refl) as [dels Hd].
      exists dels. cbn [w_db] in Hd. rewrite <- Hd. clear Hd.
      unfold mbind, rollback, mmodify, bump_attempt. cbn [w_db w_view w_env].
      by destruct (on_view _ _) as [[[]|] ?].
  - intros w Hw. unfold mbind at 1, mgets. by apply resolve_records.
  - intros w Hw. unfold write, commit, mmodify, mbind. cbn [snd w_db w_view]. rewrite Hw.
    by eexists.
Qed.

Lemma version_get_bump d d' :
  db_version d' = db_version d → version_get (version_bump d').2 = version_get d + 1.
Proof.
  unfold version_get, version_bump. intros H. destruct (db_version d') as [v|] eqn:E; rewrite <- H;
    reflexivity.
Qed.

Lemma serve_config_write req w r w' :
  config_write req = true → serve one four sleep operand max_replay req w = (r, w') →
  match r with
  | Ok _ => ∃ d, config_change (w_db w) d ∧ w_db w' = (version_bump d).2
  | Err _ => w_db w' = w_db w
  end.
Proof.
  intros Hreq H. apply serve_fresh in H as (w1 & Hh & ->).
  exact (config_write_bumps req (λ _, True) Hreq (mkWeb (w_db w) (w_db w) (w_env w)) r w1 eq_refl
    I Hh).
Qed.

(** C5 Configuration changes and their version are one transaction: a request that writes
    configuration either succeeds, and then exactly one statement on the configuration tables
    and one increment of the version are committed together, or it fails, validation and
    conflicts and engine errors included, and nothing is; every other request leaves
    configuration and version as they are, and only the three that write delivery
    records touch anything at all. *)
Theorem api_versions_every_change req w r w' :
  serve one four sleep operand max_replay req w = (r, w') →
  if config_write req
  then match r with
       | Ok _ => version_get (w_db w') = version_get (w_db w) + 1 ∧
                 ∃ d, config_change (w_db w) d ∧ w_db w' = (version_bump d).2
       | Err _ => w_db w' = w_db w
       end
  else ∃ dels, w_db w' = set_deliveries dels (w_db w) ∧
         (delivery_write req = false → w_db w' = w_db w).
Proof.
  intros H. destruct (config_write req) eqn:Hreq.
  - apply (serve_config_write _ _ _ _ Hreq) in H. destruct r; [|done].
    destruct H as (d & Hc & Hd). split; [|by exists d].
    rewrite Hd. apply version_get_bump. by destruct Hc as (_ & ? & _).
  - apply serve_fresh in H as (w1 & Hh & ->). destruct (delivery_write req) eqn:Hdel.
    + destruct (delivery_request_records req Hdel (mkWeb (w_db w) (w_db w) (w_env w)) eq_refl)
        as [dels Hd].
      rewrite Hh in Hd. exists dels. by split.
    + destruct (read_request_reads req Hreq Hdel (mkWeb (w_db w) (w_db w) (w_env w))) as [Hd _].
      rewrite Hh in Hd. cbn [snd w_db] in Hd. exists (db_deliveries (w_db w)).
      rewrite Hd. split; [apply set_deliveries_id|done].
Qed.

(** One request, whatever it is and however it ends *)
Definition request_step (w w' : Web W) : Prop :=
  ∃ req r, serve one four sleep operand max_replay req w = (r, w').

Lemma request_step_keeps_rows w w' : request_step w w' → rows_ok (w_db w) → rows_ok (w_db w').
Proof.
  intros (req & r & H) Hok. destruct (config_write req) eqn:Hreq.
  - apply (serve_config_write _ _ _ _ Hreq) in H. destruct r; [|by rewrite H].
    destruct H as (d & (_ & _ & _ & Hc) & ->). destruct (Hc Hok) as [H1 H2].
    destruct (bump_tables d) as (E1 & _ & E2). split; [by rewrite E1|by rewrite E2].
  - apply serve_fresh in H as (w1 & Hh & ->). destruct (delivery_write req) eqn:Hdel.
    + destruct (delivery_request_records req Hdel (mkWeb (w_db w) (w_db w) (w_env w)) eq_refl)
        as [dels Hd].
      rewrite Hh in Hd. cbn [snd] in Hd. by rewrite Hd.
    + destruct (read_request_reads req Hreq Hdel (mkWeb (w_db w) (w_db w) (w_env w))) as [Hd _].
      rewrite Hh in Hd. cbn [snd w_db] in Hd. by rewrite Hd.
Qed.

(** C19 Whatever requests the API serves, the configuration a worker loads is usable: every
    chain's confirmations, intervals and timeouts are within their bounds and its windows hold at least
    one block, so that catch-up terminates; its endpoints are distinct; every subscription's
    filter has a valid operator grammar over scalar values or lists of them. *)
Theorem served_configuration_valid {SL : SqlLaws} w w' :
  rows_ok (w_db w) → rtc request_step w w' →
  let snap := load_snapshot (w_db w') in
  (∀ c, c ∈ snap_chains snap →
     1 ≤ chain_log_query_range_blocks c ∧ 1 ≤ chain_slot_query_range_blocks c ∧
     0 ≤ chain_confirmations c ≤ 10000 ∧ 100 ≤ chain_poll_interval_ms c ∧
     NoDup (chain_rpc_http c :: chain_rpc_http_fallbacks c)) ∧
  (∀ x, x ∈ snap_subscriptions snap →
     validate (sub_arg_filters x).*1 = Ok tt ∧
     Forall (λ kv, is_filter_value kv.2 = true) (sub_arg_filters x)).
Proof.
  intros Hok Hsteps snap.
  assert (Hok' : rows_ok (w_db w')).
  { revert Hok. induction Hsteps as [|x y z Hxy _ IH]; [done|].
    intros Hx. apply IH. by apply (request_step_keeps_rows x). }
  destruct Hok' as [Hc Hs]. split.
  - intros c Hin. unfold snap in Hin. apply loaded_chain in Hin as (id & r & Hr & ->).
    destruct (Hc id r Hr) as [? [? ?] ? [? ?] [? ?] ? [? ?]]. cbn [snapshot_chain
      chain_log_query_range_blocks chain_slot_query_range_blocks chain_confirmations
      chain_poll_interval_ms chain_rpc_http chain_rpc_http_fallbacks snd].
    split_and!; solve [done | lia].
  - intros x (id & r & Hr & _ & _ & ->)%loaded_subscriptions.
    by destruct (Hs id r Hr).
Qed.

(** A manual retry settles the record either way: when the fresh driver delivers the
    stored payload the record is resolved at that time; when anything fails (construction,
    start, send, stop) the caller gets 502 and the record keeps its status with one more attempt
    and the new error, committed although the request fails.  Nothing else changes. *)
Lemma retry_delivery_settles id w row ch cls :
  db_deliveries (w_db w) !! id = Some row →
  db_channels (w_db w) !! d_channel_id row = Some ch →
  CHANNEL_REGISTRY !! ChannelType_value (h_type ch) = Some cls →
  (∀ r, sql_reject (RDelivery id r) = None) →
  let after f :=
    set_deliveries (<[id := f row]> (db_deliveries (w_db w))) (w_db w) in
  serve one four sleep operand max_replay (RetryDelivery id) w =
  match push_once one four sleep operand cls (h_config ch) (d_event_payload row) (w_env w) with
  | (Ok _, env) =>
      let d := after (with_status Delivery_resolved (Some (web_now env))) in
      (Ok RNone, mkWeb d d env)
  | (Err e, env) =>
      let d := after (with_attempt (web_repr e)) in
      (Err (HTTPException 502 ("重推失败: " +:+ web_repr e)), mkWeb d d env)
  end.
Proof.
  intros Hrow Hch Hcls Hrej after. unfold serve, handle, answer, retry_delivery.
  unfold mbind at 1. rewrite (found_bind _ _ _ _ row), (found_bind _ _ _ _ ch), Hcls by done.
  unfold mcatch, mbind, on_env, mzoom. cbn [w_env w_db w_view].
  destruct (push_once _ _ _ _ _ _ _ (w_env w)) as [[[]|e] env];
    unfold rollback, on_view, mzoom, mmodify, mgets, mret, mthrow, commit, mark_resolved,
      bump_attempt, delivery_update, check_row;
    cbn [w_env w_db w_view]; rewrite Hrow, Hrej; reflexivity.
Qed.
End requests.

(** ** A concrete API *)
#[local] Existing Instance py_ints.

Module ApiSample.
#[export] Instance env : WebEnv ScriptBroker.world := {|
  web_publish _ _ := mret tt;
  web_redis_get _ := mret None;
  web_uuid w := ("c" +:+ py_str (Z.of_nat (length w.1)), w);
  web_now _ := 7;
  web_repr := exn_str;
  web_fetch_idl _ _ := mret None;
|}.

Definition ser (_ : list (string * pyval)) : string := "{}".

Definition api (req : request) : M (Web ScriptBroker.world) response :=
  serve (L:=ToySql) (J:=ToySchema) (Brokers0:=ScriptBroker.brokers ser)
    (HttpLib0:=ScriptBroker.http ser) (PInt 1) (PInt 4) (λ _ w, w) id 1000 req.

Fixpoint run (reqs : list request) (w : Web ScriptBroker.world) : Web ScriptBroker.world :=
  match reqs with [] => w | r :: t => run t (api r w).2 end.

Definition start (d : Db) (script : list bool) : Web ScriptBroker.world :=
  mkWeb d d (script, []).

Definition solana (kind : string) (commitment : option string) : ChainCreate :=
  mkChainCreate "sol" kind "http://s" None 0 1000 commitment false 100 1000 [] 10000 true.
Definition channel (type : string) (config : list (string * pyval)) : ChannelCreate :=
  mkChannelCreate "alerts" type config.

Lemma run_steps reqs w :
  rtc (request_step (L:=ToySql) (J:=ToySchema) (Brokers0:=ScriptBroker.brokers ser)
    (HttpLib0:=ScriptBroker.http ser) (PInt 1) (PInt 4) (λ _ w, w) id 1000)
    w (run reqs w).
Proof.
  revert w. induction reqs as [|r t IH]; intros w; [done|].
  eapply rtc_l; [|apply IH]. exists r, (api r w).1. apply surjective_pairing.
Qed.
End ApiSample.

(** The two updates validate a body against a kind they do not store: a PUT whose body
    says "evm" takes the commitment from a Solana chain, and one whose body says "ws" leaves an
    HTTP channel with a configuration its driver cannot be constructed from.  Both requests
    succeed. *)
Lemma updates_ignore_stored_kind :
  let w := ApiSample.run
    [CreateChain (ApiSample.solana "solana" (Some "finalized"));
     UpdateChain "sol" (ApiSample.solana "evm" None);
     CreateChannel (ApiSample.channel "http" [("url", PStr "http://x")]);
     UpdateChannel "c0" (ApiSample.channel "ws" [("ws_fanout_channel", PStr "f")])]
    (ApiSample.start empty_db []) in
  version_get (w_db w) = 4 ∧
  (∃ r, db_chains (w_db w) !! "sol" = Some r ∧ c_kind r = ChainKind_solana ∧
        c_commitment r = None) ∧
  (∃ r, db_channels (w_db w) !! "c0" = Some r ∧ h_type r = ChannelType_http ∧
        channel_factory (D:=pyval) id (snapshot_channel ("c0", r)) =
          Err (KeyError "url")).
Proof.
  cbn zeta. split; [vm_compute; reflexivity|].
  split; eexists; (split; [vm_compute; reflexivity|split; vm_compute; reflexivity]).
Qed.

Definition sample_requests : list request :=
  [CreateChain (ApiSample.solana "solana" (Some "finalized"));
   CreateChain (ApiSample.solana "solana" None)].

Lemma api_versions_every_change_witness :
  let w := ApiSample.start empty_db [] in
  let req := CreateChain (ApiSample.solana "solana" (Some "finalized")) in
  version_get (w_db (ApiSample.api req w).2) = 1.
Proof.
  cbn zeta.
  pose proof (api_versions_every_change (L:=ToySql) (J:=ToySchema)
    (Brokers0:=ScriptBroker.brokers ApiSample.ser) (HttpLib0:=ScriptBroker.http ApiSample.ser) (WebEnv0:=ApiSample.env)
    (PInt 1) (PInt 4) (λ _ w, w) id 1000
    (CreateChain (ApiSample.solana "solana" (Some "finalized"))) (ApiSample.start empty_db [])
    _ _ (surjective_pairing _)) as H.
  exact (proj1 H).
Defined.

Lemma toy_db_rows : rows_ok toy_db.
Proof.
  assert (subscription_row_ok (toy_sub_row true) ∧ subscription_row_ok (toy_sub_row false)) as [H1 H2].
  { split; split; simpl; try done; apply Forall_nil_2. }
  split.
  - assert (db_chains toy_db = {["eth" := toy_chain_row]}) as -> by (vm_compute; reflexivity).
    apply map_Forall_singleton. split; simpl; try lia; [left|].
    split; [done|]. by apply (bool_decide_unpack _).
  - assert (db_subscriptions toy_db =
      {["s" := toy_sub_row true; "t" := toy_sub_row true; "u" := toy_sub_row false]})
      as -> by (vm_compute; reflexivity).
    repeat (apply map_Forall_insert_2; [done|]). apply map_Forall_empty.
Qed.

Lemma served_configuration_valid_witness :
  let w := ApiSample.run sample_requests (ApiSample.start toy_db []) in
  Forall (λ c, 1 ≤ chain_log_query_range_blocks c) (snap_chains (load_snapshot (L:=ToySql) (w_db w))).
Proof.
  intros w. apply Forall_forall. intros c Hc.
  refine (proj1 (proj1 (served_configuration_valid (L:=ToySql) (J:=ToySchema)
    (Brokers0:=ScriptBroker.brokers ApiSample.ser) (HttpLib0:=ScriptBroker.http ApiSample.ser) (WebEnv0:=ApiSample.env)
    (PInt 1) (PInt 4) (λ _ w, w) id 1000 (SL:=ToySql_laws)
    (ApiSample.start toy_db []) w _ (ApiSample.run_steps _ _)) c Hc)).
  exact toy_db_rows.
Defined.

Lemma retry_delivery_settles_witness :
  let row := mkDeliveryRecordRow "s" "c" "eth" [] (Some "boom") 3 Delivery_failed 0 None false in
  let d := set_deliveries {["r" := row]} toy_db in
  ∃ env, ApiSample.api (RetryDelivery "r") (ApiSample.start d [true]) =
    (Ok RNone, mkWeb (set_deliveries {["r" := with_status Delivery_resolved (Some 7) row]} toy_db)
                     (set_deliveries {["r" := with_status Delivery_resolved (Some 7) row]} toy_db)
                     env).
Proof.
  intros row d. eexists. unfold ApiSample.api.
  rewrite (retry_delivery_settles (L:=ToySql) (J:=ToySchema)
    (Brokers0:=ScriptBroker.brokers ApiSample.ser) (HttpLib0:=ScriptBroker.http ApiSample.ser) (WebEnv0:=ApiSample.env)
    (PInt 1) (PInt 4) (λ _ w, w) id 1000 "r" (ApiSample.start d [true])
    row toy_channel_row http_class eq_refl eq_refl eq_refl (λ _, eq_refl)).
  vm_compute. reflexivity.
Defined.
