(* ===== verification/Resubmit.v ===== *)
(** * What GET answers, sent back with PUT (apps/web/schemas.py, routers/chains.py, channels.py, subscriptions.py)

    The response models, and the client that changes nothing: it reads a resource and puts back what it has read.
    pydantic ignores the fields a request body has too many. *)
From S2P Require Import Prelude PyStr PyVal Filters Snapshot Repositories Schemas.
From S2P Require Import Retry HttpChannel Notifier Channels WebApi.

(** ** Response models *)
Record ChainOut := mkChainOut {
  co_id : string;
  co_kind : string;
  co_rpc_http : string;
  co_rpc_ws : option string;
  co_confirmations : Z;
  co_poll_interval_ms : Z;
  co_commitment : option string;
  co_trace_internal_calls : option bool;
  co_log_query_range_blocks : Z;
  co_slot_query_range_blocks : Z;
  co_rpc_http_fallbacks : list string;
  co_rpc_timeout_ms : Z;
  co_enabled : bool;
}.

(** [ChainOut.model_validate(row)] *)
Definition chain_out (x : string * ChainRow) : ChainOut :=
  let r := x.2 in
  mkChainOut x.1 (ChainKind_value (c_kind r)) (c_rpc_http r) (c_rpc_ws r) (c_confirmations r)
    (c_poll_interval_ms r) (c_commitment r) (c_trace_internal_calls r) (c_log_query_range_blocks r)
    (c_slot_query_range_blocks r) (c_rpc_http_fallbacks r) (c_rpc_timeout_ms r) (c_enabled r).

Record ChannelOut := mkChannelOut {
  cho_id : string;
  cho_name : string;
  cho_type : string;
  cho_config : list (string * pyval);
}.

Definition channel_out (x : string * ChannelRow) : ChannelOut :=
  mkChannelOut x.1 (h_name x.2) (ChannelType_value (h_type x.2)) (h_config x.2).

Record SubscriptionOut := mkSubscriptionOut {
  so_id : string;
  so_name : string;
  so_business_name : option string;
  so_chain_id : string;
  so_address : option string;
  so_abi_id : option string;
  so_match_kind : string;
  so_match_name : option string;
  so_arg_filters : list (string * pyval);
  so_start_block : option Z;
  so_last_processed_block : option Z;
  so_enabled : bool;
}.

Definition subscription_out (x : string * SubscriptionRow) : SubscriptionOut :=
  let r := x.2 in
  mkSubscriptionOut x.1 (s_name r) (s_business_name r) (s_chain_id r) (s_address r) (s_abi_id r)
    (MatchKind_value (s_match_kind r)) (s_match_name r) (s_arg_filters r) (s_start_block r)
    (s_last_processed_block r) (s_enabled r).

(** The fields of [SubscriptionOut] and [channel_ids] *)
Record SubscriptionDetail := mkSubscriptionDetail {
  sd_base : SubscriptionOut;
  sd_channel_ids : list string;
}.
Definition subscription_detail (x : string * SubscriptionRow * list string) : SubscriptionDetail :=
  mkSubscriptionDetail (subscription_out x.1) x.2.

Record AbiOut := mkAbiOut {
  ao_id : string;
  ao_name : string;
  ao_kind : string;
  ao_body : pyval;
}.
Definition abi_out (x : string * AbiRow) : AbiOut :=
  mkAbiOut x.1 (a_name x.2) (AbiKind_value (a_kind x.2)) (a_body x.2).

(** ** The client *)

(** The typed body of what was read.  [trace_internal_calls] may be null in a response and must not be
    in a request. *)
Definition chain_body (o : ChainOut) : result ChainCreate :=
  match co_trace_internal_calls o with
  | None => Err (unprocessable "trace_internal_calls")
  | Some trace =>
      Ok (mkChainCreate (co_id o) (co_kind o) (co_rpc_http o) (co_rpc_ws o) (co_confirmations o)
            (co_poll_interval_ms o) (co_commitment o) trace (co_log_query_range_blocks o)
            (co_slot_query_range_blocks o) (co_rpc_http_fallbacks o) (co_rpc_timeout_ms o) (co_enabled o))
  end.

Definition channel_body (o : ChannelOut) : ChannelCreate :=
  mkChannelCreate (cho_name o) (cho_type o) (cho_config o).

Definition subscription_body (o : SubscriptionOut) : SubscriptionCreate :=
  mkSubscriptionCreate (so_name o) (so_business_name o) (so_chain_id o) (so_address o) (so_abi_id o)
    (so_match_kind o) (so_match_name o) (so_arg_filters o) (so_start_block o) (so_enabled o).

(** The PUT of what a GET of one chain, channel or subscription has answered *)
Definition resubmit (x : response) : option request :=
  match x with
  | RChain x =>
      match chain_body (chain_out x) with
      | Ok p => Some (UpdateChain (co_id (chain_out x)) p) | Err _ => None
      end
  | RChannelOut x => Some (UpdateChannel (cho_id (channel_out x)) (channel_body (channel_out x)))
  | RSubDetail x =>
      let o := sd_base (subscription_detail x) in Some (UpdateSubscription (so_id o) (subscription_body o))
  | _ => None
  end.

Definition is_get (req : request) : bool :=
  match req with GetChain _ | GetChannel _ | GetSubscription _ => true | _ => false end.

(** The answer to a PUT does not list the bound channels. *)
Definition put_answer (x : response) : response :=
  match x with RSubDetail (x, _) => RSub x | x => x end.

(** ** Validation is idempotent *)
Lemma ChainKind_of_value k : ChainKind_of (ChainKind_value k) = Some k.
Proof. by destruct k. Qed.
Lemma ChannelType_of_value k : ChannelType_of (ChannelType_value k) = Some k.
Proof. by destruct k. Qed.
Lemma MatchKind_of_value k : MatchKind_of (MatchKind_value k) = Some k.
Proof. by destruct k. Qed.

Lemma ChainKind_value_of s k : ChainKind_of s = Some k → s = ChainKind_value k.
Proof. unfold ChainKind_of. repeat case_match; intros; simplify_eq; done. Qed.
Lemma ChannelType_value_of s k : ChannelType_of s = Some k → s = ChannelType_value k.
Proof. unfold ChannelType_of. repeat case_match; intros; simplify_eq; done. Qed.
Lemma MatchKind_value_of s k : MatchKind_of s = Some k → s = MatchKind_value k.
Proof. unfold MatchKind_of. repeat case_match; intros; simplify_eq; done. Qed.

Lemma chain_validate_idemp p p' : chain_create_validate p = Ok p' → chain_create_validate p' = Ok p'.
Proof.
  intros H. destruct (chain_create_validated _ _ H) as (Hf & Hk & Hn).
  unfold chain_create_validate. rewrite Hf. cbn [require rbind]. rewrite Hk. cbn [rbind]. f_equal.
  pose proof (fallbacks_normalized (cc_rpc_http p') (cc_rpc_http_fallbacks p)) as (_ & _ & _ & _ & Hid).
  rewrite Hn, Hid, <-Hn. by destruct p'.
Qed.

Lemma business_name_idemp v : normalize_business_name (normalize_business_name v) = normalize_business_name v.
Proof.
  destruct v as [s|]; [|done]. unfold normalize_business_name. destruct (strip s) as [|c t] eqn:E; [done|].
  assert (strip (String c t) = String c t) as -> by (rewrite <-E; apply strip_idemp). done.
Qed.

Lemma subscription_validate_idemp p p' :
  subscription_create_validate p = Ok p' → subscription_create_validate p' = Ok p'.
Proof.
  unfold subscription_create_validate, require. destruct (_ && _ && _ && _) eqn:E; [|done]. cbn [rbind].
  destruct (check_operator_grammar _) as [[]|] eqn:Eg; [|done]. cbn [rbind]. intros [= <-].
  cbn [sc_business_name sc_name sc_match_kind sc_arg_filters sc_chain_id sc_address sc_abi_id sc_match_name
    sc_start_block sc_enabled]. by rewrite business_name_idemp, E, Eg.
Qed.

Lemma channel_validate_id p p' : channel_create_validate p = Ok p' → p' = p.
Proof. unfold channel_create_validate, require. destruct (_ && _); [|done]. by intros [= <-]. Qed.

(** ** Rows as the API writes them *)
Definition chain_posted (x : string * ChainRow) : Prop := ∃ p p',
  chain_create_validate p = Ok p' ∧ ChainKind_of (cc_kind p') = Some (c_kind x.2) ∧
  x = (cc_id p', chain_row (c_kind x.2) p').

Definition channel_posted {J : JsonSchema} (r : ChannelRow) : Prop := ∃ p,
  channel_create_validate p = Ok p ∧ (∀ W, check_config (W:=W) p = mret tt) ∧
  ChannelType_of (chc_type p) = Some (h_type r) ∧ r = mkChannelRow (chc_name p) (h_type r) (chc_config p).

Definition subscription_posted (r : SubscriptionRow) : Prop := ∃ p p',
  subscription_create_validate p = Ok p' ∧ MatchKind_of (sc_match_kind p') = Some (s_match_kind r) ∧
  r = mkSubscriptionRow (sc_name p') (s_chain_id r) (sc_address p') (sc_abi_id p') (s_match_kind r)
        (sc_match_name p') (sc_arg_filters p') (s_enabled r) (sc_start_block p') (s_last_processed_block r)
        (sc_business_name p').

(** The resource a response shows is one that a valid body of its own kind describes. *)
Definition posted {J : JsonSchema} (x : response) : Prop :=
  match x with
  | RChain x => chain_posted x
  | RChannelOut x => channel_posted x.2
  | RSub x | RSubDetail (x, _) => subscription_posted x.2
  | _ => False
  end.

(** The engine accepts again what it has stored. *)
Record engine_keeps {L : Sql} (d : Db) : Prop := {
  keeps_chains : ∀ id r, db_chains d !! id = Some r → sql_reject (Repositories.RChain id r) = None;
  keeps_channels : ∀ id r, db_channels d !! id = Some r → sql_reject (RChannel id r) = None;
  keeps_subscriptions : ∀ id r, db_subscriptions d !! id = Some r →
    sql_reject (RSubscription id r) = None ∧ (sql_fk = true → subscription_refs_ok d r = true);
}.

(** ** Unchanged statements *)
Section puts.
Context {L : Sql}.

Lemma set_chains_id d : set_chains (db_chains d) d = d.
Proof. by destruct d. Qed.
Lemma set_channels_id d : set_channels (db_channels d) d = d.
Proof. by destruct d. Qed.
Lemma set_subscriptions_id d : set_subscriptions (db_subscriptions d) d = d.
Proof. by destruct d. Qed.

Lemma chain_update_same id f r d :
  engine_keeps d → db_chains d !! id = Some r → f r = r → chain_update id f d = (Ok tt, d).
Proof.
  intros Hk Hr Hf. unfold chain_update, check_row. rewrite Hr, Hf, (keeps_chains d Hk id r Hr).
  by rewrite insert_id, set_chains_id.
Qed.

Lemma channel_update_same id f r d :
  engine_keeps d → db_channels d !! id = Some r → f r = r → channel_update id f d = (Ok tt, d).
Proof.
  intros Hk Hr Hf. unfold channel_update, check_row. rewrite Hr, Hf, (keeps_channels d Hk id r Hr).
  by rewrite insert_id, set_channels_id.
Qed.

Lemma subscription_update_same id f r d :
  engine_keeps d → db_subscriptions d !! id = Some r → f r = r → subscription_update id f d = (Ok tt, d).
Proof.
  intros Hk Hr Hf. unfold subscription_update, check_row, check_fk.
  destruct (keeps_subscriptions d Hk id r Hr) as [H1 H2]. rewrite Hr, Hf, H1.
  rewrite insert_id, set_subscriptions_id by done. destruct sql_fk; [by rewrite H2|done].
Qed.

Context {W : Type} `{!WebEnv W}.

(** The end of every PUT: a statement, the version, the commit, the row as it is now *)
Lemma put_run {R A} detail (get : Db → option R) (stmt : M Db unit) e i act (out : R → A) (w : Web W) d' x :
  stmt (w_view w) = (Ok tt, d') → get (version_bump d').2 = Some x →
  ∃ w2, (on_view stmt ;;* bump_and_publish e i act ;;* (let* r := found detail get in mret (out r))) w =
    (Ok (out x), w2) ∧ w_db w2 = (version_bump d').2.
Proof.
  intros Hs Hg. unfold mbind at 1. unfold on_view, mzoom. rewrite Hs.
  destruct (bump_and_publish_spec e i act (mkWeb (w_db w) d' (w_env w))) as (w2 & Hb & Hd & Hv).
  exists w2. split; [|exact Hd]. unfold mbind at 1. rewrite Hb. unfold mbind.
  rewrite (found_some detail get w2 x); [done|]. by rewrite Hv.
Qed.
End puts.

(** ** PUT what you GET *)
Section resubmitted.
Context {L : Sql} {J : JsonSchema} {D W : Type} `{!Arith D, !Brokers W, !HttpLib W, !WebEnv W}.
Variables (one four : D) (sleep : D → W → W) (operand : pyval → D).
Variable max_replay : Z.

(** The row a response shows is in the database *)
Definition shown (x : response) (d : Db) : Prop :=
  match x with
  | RChain (id, r) => db_chains d !! id = Some r
  | RChannelOut (id, r) => db_channels d !! id = Some r
  | RSubDetail (id, r, _) => db_subscriptions d !! id = Some r
  | _ => False
  end.

Lemma get_shows req w x w1 :
  is_get req = true → serve one four sleep operand max_replay req w = (Ok x, w1) → shown x (w_db w) ∧ w_db w1 = w_db w.
Proof.
  intros Hg H. unfold serve in H.
  destruct req; try discriminate Hg; cbn [handle] in H;
    unfold answer, get_chain, get_channel, get_subscription, found, read, mgets, mbind, compose in H;
    cbn [w_view w_db w_env] in H.
  - destruct (chain_get chain_id (w_db w)) eqn:E; cbn in H; [|done]. by injection H as <- <-.
  - destruct (channel_get channel_id (w_db w)) eqn:E; cbn in H; [|done]. by injection H as <- <-.
  - destruct (subscription_get sub_id (w_db w)) eqn:E; cbn in H; [|done]. by injection H as <- <-.
Qed.

Lemma answer_ok {A} (f : A → response) (m : M (Web W) A) w w2 a :
  m w = (Ok a, w2) → answer f m w = (Ok (f a), w2).
Proof. unfold answer, mbind. by intros ->. Qed.

Lemma serve_body req w x d w2 :
  w_db w2 = d →
  handle one four sleep operand max_replay req (mkWeb (w_db w) (w_db w) (w_env w)) = (Ok x, w2) →
  ∃ w3, serve one four sleep operand max_replay req w = (Ok x, w3) ∧ w_db w3 = d.
Proof. intros <- H. unfold serve. rewrite H. by eexists. Qed.

(** An accepted body on an existing chain *)
Lemma put_chain id p p' r w d' r' :
  chain_create_validate p = Ok p' → db_chains (w_db w) !! id = Some r →
  chain_update id (λ r, chain_row (c_kind r) p') (w_db w) = (Ok tt, d') → db_chains d' !! id = Some r' →
  ∃ w2, serve one four sleep operand max_replay (UpdateChain id p) w = (Ok (RChain (id, r')), w2) ∧ w_db w2 = (version_bump d').2.
Proof.
  intros Hv Hr Hs Hr'.
  destruct (put_run "chain not found" (chain_get id) _ "chain" id "update" (λ r, (id, r))
    (mkWeb (w_db w) (w_db w) (w_env w)) d' r' Hs) as (w2 & Hrun & Hd).
  { unfold chain_get. by rewrite (proj1 (bump_tables d')). }
  apply (serve_body _ _ _ _ w2 Hd). cbn [handle]. rewrite Hv. apply (answer_ok _ _ _ w2).
  change (update_chain (W:=W) id p' (mkWeb (w_db w) (w_db w) (w_env w)) = (Ok (id, r'), w2)).
  unfold update_chain. rewrite (found_bind _ (chain_get id) _ (mkWeb _ _ _) r Hr). exact Hrun.
Qed.

Lemma put_channel id p r w d' r' :
  channel_create_validate p = Ok p → check_config (W:=W) p = mret tt → db_channels (w_db w) !! id = Some r →
  channel_update id (λ r, mkChannelRow (chc_name p) (h_type r) (chc_config p)) (w_db w) = (Ok tt, d') →
  db_channels d' !! id = Some r' →
  ∃ w2, serve one four sleep operand max_replay (UpdateChannel id p) w = (Ok (RChannelOut (id, r')), w2) ∧ w_db w2 = (version_bump d').2.
Proof.
  intros Hv Hc Hr Hs Hr'.
  destruct (put_run "channel not found" (channel_get id) _ "channel" id "update" (λ r, (id, r))
    (mkWeb (w_db w) (w_db w) (w_env w)) d' r' Hs) as (w2 & Hrun & Hd).
  { unfold channel_get. by rewrite (proj1 (proj2 (bump_tables d'))). }
  apply (serve_body _ _ _ _ w2 Hd). cbn [handle]. rewrite Hv. apply (answer_ok _ _ _ w2).
  change (update_channel (W:=W) id p (mkWeb (w_db w) (w_db w) (w_env w)) = (Ok (id, r'), w2)).
  unfold update_channel. rewrite (found_bind _ (channel_get id) _ (mkWeb _ _ _) r Hr). rewrite Hc. exact Hrun.
Qed.

Lemma put_subscription id p p' k r w d' r' :
  subscription_create_validate p = Ok p' → MatchKind_of (sc_match_kind p') = Some k →
  db_subscriptions (w_db w) !! id = Some r →
  subscription_update id (λ r,
    mkSubscriptionRow (sc_name p') (s_chain_id r) (sc_address p') (sc_abi_id p') k
      (sc_match_name p') (sc_arg_filters p') (sc_enabled p') (sc_start_block p')
      (s_last_processed_block r) (sc_business_name p')) (w_db w) = (Ok tt, d') →
  db_subscriptions d' !! id = Some r' →
  ∃ w2, serve one four sleep operand max_replay (UpdateSubscription id p) w = (Ok (RSub (id, r')), w2) ∧ w_db w2 = (version_bump d').2.
Proof.
  intros Hv Hk Hr Hs Hr'.
  destruct (put_run "subscription not found" (subscription_get id) _ "subscription" id "update" (λ r, (id, r))
    (mkWeb (w_db w) (w_db w) (w_env w)) d' r' Hs) as (w2 & Hrun & Hd).
  { unfold subscription_get. by rewrite (proj2 (proj2 (bump_tables d'))). }
  apply (serve_body _ _ _ _ w2 Hd). cbn [handle]. rewrite Hv. apply (answer_ok _ _ _ w2).
  change (update_subscription (W:=W) id p' (mkWeb (w_db w) (w_db w) (w_env w)) = (Ok (id, r'), w2)).
  unfold update_subscription. rewrite (found_bind _ (subscription_get id) _ (mkWeb _ _ _) r Hr). rewrite Hk. exact Hrun.
Qed.

(** A body that describes the row is accepted and writes the row again. *)
Lemma chain_resubmitted x :
  chain_posted x → ∃ p, chain_body (chain_out x) = Ok p ∧ chain_create_validate p = Ok p ∧ chain_row (c_kind x.2) p = x.2.
Proof.
  intros (p & p' & Hv & Hk & Hx). exists p'. rewrite Hx. cbn [snd fst].
  split_and!; [|by eapply chain_validate_idemp|done].
  unfold chain_body, chain_out. cbn. rewrite <-(ChainKind_value_of _ _ Hk). by destruct p'.
Qed.

Lemma channel_resubmitted id r :
  channel_posted r → let p := channel_body (channel_out (id, r)) in
  channel_create_validate p = Ok p ∧ check_config (W:=W) p = mret tt ∧
  mkChannelRow (chc_name p) (h_type r) (chc_config p) = r.
Proof.
  intros (p & Hv & Hc & Ht & Hr) p'. destruct r as [n t c]. cbn in Ht, Hr. injection Hr as -> ->.
  assert (p' = p) as ->; [|by rewrite Hc].
  subst p'. unfold channel_body, channel_out. cbn. rewrite <-(ChannelType_value_of _ _ Ht). by destruct p.
Qed.

Lemma subscription_resubmitted id r :
  subscription_posted r → let p := subscription_body (subscription_out (id, r)) in
  subscription_create_validate p = Ok p ∧ MatchKind_of (sc_match_kind p) = Some (s_match_kind r) ∧
  mkSubscriptionRow (sc_name p) (s_chain_id r) (sc_address p) (sc_abi_id p) (s_match_kind r) (sc_match_name p)
    (sc_arg_filters p) (sc_enabled p) (sc_start_block p) (s_last_processed_block r) (sc_business_name p) = r.
Proof.
  intros (q & q' & Hv & Hk & Hr) p. split_and!; [|by apply MatchKind_of_value|by destruct r].
  apply subscription_validate_idemp in Hv. subst p. destruct r. cbn in Hk, Hr. injection Hr as -> -> -> -> -> -> ->.
  unfold subscription_body, subscription_out. cbn. rewrite <-(MatchKind_value_of _ _ Hk).
  revert Hv. unfold subscription_create_validate. cbn [sc_name sc_business_name sc_match_kind sc_arg_filters].
  destruct (require _ _) as [[]|]; [|done]. cbn [rbind]. destruct (check_operator_grammar _) as [[]|]; [|done].
  cbn [rbind]. intros [= Hq]. pose proof (f_equal sc_business_name Hq) as Hb. cbn in Hb. by rewrite Hb.
Qed.

(** C28 A client that puts back what it has read changes nothing.  When GET of a chain, channel or
    subscription answers with a resource that a valid body of its own kind describes (as every POST leaves it), and the
    engine accepts again what it has stored, the PUT of that answer is accepted; the database afterwards is the one before
    with one more version, and the answer shows the resource as it was read. *)
Theorem put_what_you_get req x w w1 :
  is_get req = true → serve one four sleep operand max_replay req w = (Ok x, w1) →
  posted x → engine_keeps (w_db w) →
  ∃ req' w2, resubmit x = Some req' ∧
    serve one four sleep operand max_replay req' w1 = (Ok (put_answer x), w2) ∧
    w_db w2 = (version_bump (w_db w)).2.
Proof.
  intros Hg H Hp Hk. destruct (get_shows _ _ _ _ Hg H) as [Hs Hd]. rewrite <-Hd in Hs, Hk |- *. clear H Hg Hd w. rename w1 into w.
  destruct x as [|[id r]| | | |[id r]| | | |[[id r] l]| | | |]; cbn [posted shown fst snd] in *;
    try contradiction.
  - destruct (chain_resubmitted _ Hp) as (p & Hb & Hv & Hrow). cbn [resubmit]. rewrite Hb. eexists. cbn [put_answer].
    destruct (put_chain id p p r w _ r Hv Hs (chain_update_same id _ r _ Hk Hs Hrow) Hs) as (w2 & H1 & H2). by exists w2.
  - destruct (channel_resubmitted id r Hp) as (Hv & Hc & Hrow). eexists.
    destruct (put_channel id _ r w _ r Hv Hc Hs (channel_update_same id _ r _ Hk Hs Hrow) Hs) as (w2 & H1 & H2). by exists w2.
  - destruct (subscription_resubmitted id r Hp) as (Hv & Hm & Hrow). eexists.
    destruct (put_subscription id _ _ _ r w _ r Hv Hm Hs (subscription_update_same id _ r _ Hk Hs Hrow) Hs)
      as (w2 & H1 & H2). by exists w2.
Qed.

(** *** What POST leaves *)
Lemma check_config_accepts p (w w1 : Web W) :
  check_config p w = (Ok tt, w1) → ∀ W', check_config (W:=W') p = mret tt.
Proof.
  unfold check_config. destruct (CHANNEL_REGISTRY !! _) as [cls|]; [|done].
  destruct (cls_config_schema cls); [|done]. by destruct (js_validate _ _).
Qed.

Lemma statement_answer {A} (stmt : M Db A) e (i : A → string) act (w w1 : Web W) x :
  (let* row := on_view stmt in bump_and_publish e (i row) act ;;* mret row) w = (Ok x, w1) →
  (stmt (w_view w)).1 = Ok x.
Proof.
  unfold mbind at 1. unfold on_view, mzoom. destruct (stmt (w_view w)) as [[a|?] d]; [|done]. unfold mbind.
  destruct (bump_and_publish_spec e (i a) act (mkWeb (w_db w) d (w_env w))) as (w2 & -> & _). by intros [= <- _].
Qed.

Lemma served_handle req w x w1 :
  serve one four sleep operand max_replay req w = (Ok x, w1) →
  ∃ w2, handle one four sleep operand max_replay req (mkWeb (w_db w) (w_db w) (w_env w)) = (Ok x, w2).
Proof. intros (w2 & H & _)%serve_fresh. by exists w2. Qed.

Lemma answer_inv {A} (f : A → response) (m : M (Web W) A) w x w2 :
  answer f m w = (Ok x, w2) → ∃ a, m w = (Ok a, w2) ∧ x = f a.
Proof. unfold answer, mbind. destruct (m w) as [[a|] ?]; [|done]. intros [= <- <-]. by exists a. Qed.

(** A chain, a channel and a subscription are stored as a valid body describes them. *)
Lemma create_posted req w x w1 :
  match req with CreateChain _ | CreateChannel _ | CreateSubscription _ => True | _ => False end →
  serve one four sleep operand max_replay req w = (Ok x, w1) → posted x.
Proof.
  intros Hreq (w2 & H)%served_handle. destruct req; try contradiction; cbn [handle] in H;
    apply answer_inv in H as (a & H & ->); unfold mbind at 1 in H; cbn [mlift] in H.
  - destruct (chain_create_validate p) as [p'|] eqn:Hv; [|done]. unfold mlift, create_chain in H.
    unfold mbind at 1, read at 1, mgets in H. destruct ((chain_get (cc_id p') ∘ w_view) _); [done|].
    destruct (ChainKind_of (cc_kind p')) as [k|] eqn:Ek; [|done]. cbn [enum] in H. unfold mbind at 1, mret at 1 in H.
    apply statement_answer in H. unfold chain_create in H. destruct (has _ _); [done|].
    destruct (check_row _); [|done]. injection H as <-. by exists p, p'.
  - destruct (channel_create_validate p) as [p'|] eqn:Hv; [|done]. pose proof (channel_validate_id _ _ Hv) as ->.
    unfold mlift, create_channel in H. unfold mbind at 1 in H.
    destruct (check_config p _) as [[[]|] w3] eqn:Ec; [|done].
    destruct (ChannelType_of (chc_type p)) as [k|] eqn:Ek; [|done]. cbn [enum] in H. unfold mbind at 1, mret at 1 in H.
    unfold mbind at 1 in H. destruct (fresh_uuid _) as [[id|] w4]; [|done].
    apply statement_answer in H. unfold channel_create in H. destruct (has _ _); [done|].
    destruct (check_row _); [|done]. injection H as <-. exists p. split_and!; try done. by eapply check_config_accepts.
  - destruct (subscription_create_validate p) as [p'|] eqn:Hv; [|done]. unfold mlift, create_subscription in H.
    unfold mbind at 1 in H. destruct (found _ _ _) as [[c|] w3]; [|done].
    destruct (MatchKind_of (sc_match_kind p')) as [k|] eqn:Ek; [|done]. cbn [enum] in H. unfold mbind at 1, mret at 1 in H.
    unfold mbind at 1 in H. destruct (fresh_uuid _) as [[id|] w4]; [|done].
    apply statement_answer in H. unfold subscription_create in H. destruct (has _ _); [done|].
    destruct (check_row _); [|done]. destruct (check_fk _); [|done]. injection H as <-. by exists p, p'.
Qed.
End resubmitted.

(** ** The edit form of the web interface (web/src/pages/Chains.tsx) *)

(** [ChainCreate] when only the fields without a default are given *)
Definition ChainCreate_defaults (id kind rpc_http : string) : ChainCreate :=
  mkChainCreate id kind rpc_http None 0 3000 None false 100 1000 [] 10000 true.

(** The form's body when nothing is edited: it has inputs for most fields and leaves the others to the model's
    defaults.  Endpoints hold no line breaks. *)
Definition edit_form (o : ChainOut) : ChainCreate :=
  let p := ChainCreate_defaults (co_id o) (co_kind o) (co_rpc_http o) in
  let evm := String.eqb (co_kind o) "evm" in
  mkChainCreate (cc_id p) (cc_kind p) (cc_rpc_http p)
    (match co_rpc_ws o with Some EmptyString => None | ws => ws end)
    (if evm then co_confirmations o else 0) (co_poll_interval_ms o)
    (if evm then None else match co_commitment o with Some c => Some c | None => Some "confirmed" end)
    (cc_trace_internal_calls p) (cc_log_query_range_blocks p) (cc_slot_query_range_blocks p)
    (co_rpc_http_fallbacks o) (if co_rpc_timeout_ms o =? 0 then 10000 else co_rpc_timeout_ms o) (co_enabled o).

(** The row with the columns the form has no input for *)
Definition forget_hidden (r : ChainRow) : ChainRow :=
  mkChainRow (c_kind r) (c_rpc_http r) (match c_rpc_ws r with Some EmptyString => None | ws => ws end)
    (c_confirmations r) (c_poll_interval_ms r) (c_enabled r) (c_commitment r) (Some false) 100 1000
    (c_rpc_http_fallbacks r) (c_rpc_timeout_ms r).

Lemma chain_validate_fixed p :
  chain_create_fields p = true → check_kind_fields p = Ok tt →
  normalize_fallbacks (cc_rpc_http p) (cc_rpc_http_fallbacks p) = cc_rpc_http_fallbacks p →
  chain_create_validate p = Ok p.
Proof. unfold chain_create_validate. intros -> -> ->. by destruct p. Qed.

Lemma edit_form_valid x :
  chain_posted x → c_kind x.2 = ChainKind_evm →
  chain_create_validate (edit_form (chain_out x)) = Ok (edit_form (chain_out x)) ∧
  chain_row ChainKind_evm (edit_form (chain_out x)) = forget_hidden x.2.
Proof.
  intros (p & p' & Hv & Hk & Hx) Hevm. rewrite Hevm in Hk, Hx. apply ChainKind_value_of in Hk as Hkind.
  destruct (chain_create_validated _ _ Hv) as (Hf & Hc & Hn).
  pose proof (fallbacks_normalized (cc_rpc_http p') (cc_rpc_http_fallbacks p)) as (_ & _ & _ & _ & Hid).
  rewrite <-Hn in Hid. clear Hn Hv. unfold check_kind_fields in Hc. rewrite Hkind in Hc.
  destruct (cc_commitment p') as [c|] eqn:Ecm; [done|]. clear Hc.
  unfold chain_create_fields in Hf. rewrite Ecm, !andb_true_iff in Hf.
  destruct Hf as ((((((((H1 & H2) & H3) & H4) & H5) & H6) & H7) & H8) & H9).
  assert ((cc_rpc_timeout_ms p' =? 0) = false) as Ht by (unfold between in H9; lia).
  set (form := edit_form (chain_out x)).
  assert (form = mkChainCreate (cc_id p') "evm" (cc_rpc_http p')
    (match cc_rpc_ws p' with Some EmptyString => None | ws => ws end) (cc_confirmations p') (cc_poll_interval_ms p')
    None false 100 1000 (cc_rpc_http_fallbacks p') (cc_rpc_timeout_ms p') (cc_enabled p')) as ->.
  { unfold form, edit_form, chain_out. rewrite Hx. cbn -[Z.eqb]. by rewrite Ht. }
  split; [|rewrite Hx; unfold forget_hidden, chain_row; cbn; by rewrite Ecm].
  apply chain_validate_fixed; [|done|exact Hid]. unfold chain_create_fields. cbn [cc_rpc_http cc_id cc_kind
    cc_confirmations cc_poll_interval_ms cc_commitment cc_log_query_range_blocks cc_slot_query_range_blocks
    cc_rpc_timeout_ms]. by rewrite H1, H3, H4, H5, H9.
Qed.

(** PUT replaces the whole row, and the edit form has no input for three of its columns: saving an EVM chain in
    the web interface without editing anything switches the tracing of internal calls off and
    resets both query ranges. *)
Lemma edit_form_resets {L : Sql} {J : JsonSchema} {D W : Type} `{!Arith D, !Brokers W, !HttpLib W, !WebEnv W}
    (one four : D) sleep operand max_replay id r (w : Web W) :
  chain_posted (id, r) → c_kind r = ChainKind_evm → db_chains (w_db w) !! id = Some r →
  (∀ r, sql_reject (Repositories.RChain id r) = None) →
  ∃ w2, serve one four sleep operand max_replay (UpdateChain id (edit_form (chain_out (id, r)))) w =
      (Ok (RChain (id, forget_hidden r)), w2) ∧
    db_chains (w_db w2) = <[id := forget_hidden r]> (db_chains (w_db w)).
Proof.
  intros Hp Hk Hr Hrej. destruct (edit_form_valid _ Hp Hk) as [Hv Hrow]. cbn [snd] in Hrow.
  destruct (put_chain one four sleep operand max_replay id _ _ r w
    (set_chains (<[id := forget_hidden r]> (db_chains (w_db w))) (w_db w)) (forget_hidden r) Hv Hr)
    as (w2 & H1 & H2).
  - unfold chain_update, check_row. rewrite Hr, Hrej, Hk, Hrow. done.
  - cbn. by rewrite lookup_insert_eq.
  - exists w2. split; [exact H1|]. rewrite H2. by rewrite (proj1 (bump_tables _)).
Qed.

(** ** Rows that cannot be put back *)

(** A Solana chain whose commitment a PUT of another kind has removed: what GET answers is refused. *)
Lemma stale_kind_refused :
  let w := ApiSample.run
    [CreateChain (ApiSample.solana "solana" (Some "finalized")); UpdateChain "sol" (ApiSample.solana "evm" None)]
    (ApiSample.start empty_db []) in
  let x := RChain ("sol", chain_row ChainKind_solana (ApiSample.solana "evm" None)) in
  let req := UpdateChain "sol" (ApiSample.solana "solana" None) in
  (ApiSample.api (GetChain "sol") w).1 = Ok x ∧ resubmit x = Some req ∧
  (ApiSample.api req w).1 = Err (unprocessable "Solana chains must specify commitment").
Proof. cbn zeta. split_and!; vm_compute; reflexivity. Qed.

(** A chain of the time before [trace_internal_calls] (the column is null) is answered with a null that no request
    may carry. *)
Lemma null_trace_refused x : c_trace_internal_calls x.2 = None → resubmit (RChain x) = None.
Proof. unfold resubmit, chain_body. cbn. by intros ->. Qed.

Lemma put_what_you_get_witness :
  let p := ApiSample.solana "solana" (Some "finalized") in
  let w := (ApiSample.api (CreateChain p) (ApiSample.start empty_db [])).2 in
  ∃ req' w2, resubmit (RChain ("sol", chain_row ChainKind_solana p)) = Some req' ∧
    ApiSample.api req' w = (Ok (RChain ("sol", chain_row ChainKind_solana p)), w2) ∧
    w_db w2 = (version_bump (w_db w)).2.
Proof.
  intros p w.
  assert (Hg : ApiSample.api (GetChain "sol") w = (Ok (RChain ("sol", chain_row ChainKind_solana p)), w))
    by (vm_compute; reflexivity).
  assert (Hk : engine_keeps (L:=ToySql) (w_db w)).
  { split; [done..|]. intros id r H. assert (db_subscriptions (w_db w) = ∅) as E by (vm_compute; reflexivity).
    rewrite E in H. by rewrite lookup_empty in H. }
  exact (put_what_you_get (L:=ToySql) (J:=ToySchema)
    (Brokers0:=ScriptBroker.brokers ApiSample.ser) (HttpLib0:=ScriptBroker.http ApiSample.ser) (WebEnv0:=ApiSample.env)
    (PInt 1) (PInt 4) (λ _ w, w) id 1000 (GetChain "sol")
    (RChain ("sol", chain_row ChainKind_solana p)) w w eq_refl Hg
    (ex_intro _ p (ex_intro _ p (conj eq_refl (conj eq_refl eq_refl)))) Hk).
Defined.
