(* ===== verification/IdlFetcher.v ===== *)
(** * On-chain Anchor IDLs (core/abi/idl_fetcher.py)

    Key derivation, the HTTP request, zlib and the JSON parser are the class [IdlLib]. *)
From S2P Require Import Prelude PyStr PyVal Snapshot AbiLookup Decoder Registry SolanaParsers.

Class IdlLib (W : Type) := {
  idl_address : string → result string;              (** Pubkey.find_program_address *)
  rpc_post_json : string → string → M W pyval;       (** getAccountInfo, resp.json() *)
  zlib_decompress : list byte → option (list byte);  (** [None]: zlib.error *)
  utf8_decode : list byte → option string;           (** [None]: UnicodeDecodeError *)
  json_loads : string → option pyval;                (** [None]: JSONDecodeError *)
}.

Definition ANCHOR_DISCRIMINATOR_LEN : nat := 8.

(** [k in v], [v[k] = x] and [len(v)] for any value *)
Definition contains (v : pyval) (k : string) : result bool :=
  match v with
  | PDict d => Ok (dmem k d)
  | PList l | PTuple l => Ok (existsb (py_eq (PStr k)) l)
  | PStr s => Ok (str_contains k s)
  | _ => Err (TypeError "argument is not iterable")
  end.
Definition setitem (v : pyval) (k : string) (x : pyval) : result pyval :=
  match v with
  | PDict d => Ok (PDict (dset k x d))
  | _ => Err (TypeError "object does not support item assignment")
  end.
Definition sized (v : pyval) : result unit :=
  match v with
  | PDict _ | PList _ | PTuple _ | PStr _ | PBytes _ => Ok tt
  | _ => Err (TypeError "object has no len()")
  end.

Section fetcher.
Context {W : Type} `{!IdlLib W}.

(** [_try_decompress]: the loop over [count] offsets *)
Fixpoint try_offsets (count : nat) (raw : list byte) (offset : nat) : option string :=
  match count with
  | O => None
  | S count' =>
      match zlib_decompress (drop offset raw) ≫= utf8_decode with
      | Some s => Some s
      | None => try_offsets count' raw (S offset)
      end
  end.

Definition try_decompress (raw : list byte) (start : nat) : option string :=
  try_offsets (Nat.min (start + 80) (length raw) - start) raw start.

(** [idl["metadata"]["address"]] defaults to the program. *)
Definition with_address (program_id : string) (idl : pyval) : result pyval :=
  let? has_meta := contains idl "metadata" in
  let? idl := if has_meta : bool then Ok idl else setitem idl "metadata" (PDict []) in
  let? meta := py_getitem idl "metadata" in
  let? has_address := contains meta "address" in
  let? idl := (if has_address : bool then Ok idl
               else let? meta' := setitem meta "address" (PStr program_id) in
                    setitem idl "metadata" meta') in
  let? events := py_get idl "events" (PList []) in
  let? _ := sized events in
  let? instructions := py_get idl "instructions" (PList []) in
  let? _ := sized instructions in
  Ok idl.

(** [resp.json().get("result")] and the account data in it *)
Definition account_data (body : pyval) : result (option string) :=
  let? res := py_get body "result" PNone in
  match res with
  | PNone => Ok None
  | _ =>
      let? value := py_get res "value" PNone in
      match value with
      | PNone => Ok None
      | _ =>
          let? value := py_getitem res "value" in
          let? data := py_getitem value "data" in
          match data with
          | PList (PStr s :: _) => Ok (Some s)
          | PList (_ :: _) => Err (TypeError "argument should be a bytes-like object or ASCII string")
          | PStr (String c _) => Ok (Some (String c EmptyString))
          | PList [] => Err (OtherError "IndexError" "list index out of range")
          | PStr EmptyString => Err (OtherError "IndexError" "string index out of range")
          | PDict _ => Err (KeyError "0")
          | _ => Err (TypeError "object is not subscriptable")
          end
      end
  end.

(** [fetch_idl_from_chain] *)
Definition fetch_idl_from_chain (rpc_url program_id : string) : M W (option pyval) :=
  let* idl_addr := mlift (idl_address program_id) in
  let* body := rpc_post_json rpc_url idl_addr in
  let* data := mlift (account_data body) in
  match data with
  | None => mret None
  | Some b64 =>
      let* raw := mlift (b64decode b64) in
      match try_decompress raw ANCHOR_DISCRIMINATOR_LEN with
      | None => mret None
      | Some idl_json =>
          match json_loads idl_json with
          | None => mret None
          | Some idl => let* idl := mlift (with_address program_id idl) in mret (Some idl)
          end
      end
  end.

(** ** What is found *)

Lemma try_offsets_first count raw offset s :
  try_offsets count raw offset = Some s ↔
  ∃ i, (i < count)%nat ∧ zlib_decompress (drop (offset + i) raw) ≫= utf8_decode = Some s ∧
    ∀ j, (j < i)%nat → zlib_decompress (drop (offset + j) raw) ≫= utf8_decode = None.
Proof.
  revert offset. induction count as [|count IH]; intros offset; cbn [try_offsets].
  { split; [done|]. intros (i & ? & _). lia. }
  destruct (zlib_decompress (drop offset raw) ≫= utf8_decode) as [s'|] eqn:E.
  - split.
    + intros [= ->]. exists 0%nat. rewrite Nat.add_0_r. split; [lia|]. split; [done|]. lia.
    + intros (i & Hi & Hs & Hj). destruct i as [|i].
      * rewrite Nat.add_0_r in Hs. congruence.
      * specialize (Hj 0%nat ltac:(lia)). rewrite Nat.add_0_r in Hj. congruence.
  - rewrite IH. split.
    + intros (i & Hi & Hs & Hj). exists (S i). rewrite <- Nat.add_succ_comm. split; [lia|].
      split; [done|]. intros [|j] Hlt; [by rewrite Nat.add_0_r|]. rewrite <- Nat.add_succ_comm.
      apply Hj. lia.
    + intros (i & Hi & Hs & Hj). destruct i as [|i]; [rewrite Nat.add_0_r in Hs; congruence|].
      exists i. rewrite <- Nat.add_succ_comm in Hs. split; [lia|]. split; [done|].
      intros j Hlt. specialize (Hj (S j) ltac:(lia)). by rewrite <- Nat.add_succ_comm in Hj.
Qed.

(** An IDL that names no address of its own is indexed under the program it was fetched for. *)
Lemma with_address_program program_id d idl :
  with_address program_id (PDict d) = Ok idl →
  (dget "metadata" d = None ∨ ∃ m, dget "metadata" d = Some (PDict m) ∧ dget "address" m = None) →
  idl_program_id idl = Ok (PStr program_id) ∧
  ∀ k, k ≠ "metadata" → ∀ v, py_get idl k v = py_get (PDict d) k v.
Proof.
  unfold with_address. cbn [contains rbind]. intros H Hmeta.
  assert (∃ d1 m, (dmem "metadata" d = true ∧ d1 = d ∨ dmem "metadata" d = false ∧
      d1 = dset "metadata" (PDict []) d) ∧ dget "metadata" d1 = Some (PDict m) ∧ dget "address" m = None ∧
      ∀ k, k ≠ "metadata" → dget k d1 = dget k d) as (d1 & m & Hd1 & Hm & Ha & Hk).
  { unfold dmem. destruct Hmeta as [Hn|(m & Hm & Ha)].
    - rewrite Hn. eexists _, []. split; [by right|]. split; [apply dget_dset_eq|]. split; [done|].
      intros k Hne. by apply dget_dset_ne.
    - rewrite Hm. exists d, m. by split; [left|]. }
  assert ((if dmem "metadata" d : bool then Ok (PDict d) else setitem (PDict d) "metadata" (PDict [])) =
          Ok (PDict d1)) as E.
  { by destruct Hd1 as [[-> ->]|[-> ->]]. }
  rewrite E in H. cbn [rbind py_getitem] in H. rewrite Hm in H. cbn [rbind contains] in H.
  unfold dmem in H. rewrite Ha in H. cbn [setitem rbind] in H.
  set (d2 := dset "metadata" (PDict (dset "address" (PStr program_id) m)) d1) in *.
  destruct (py_get (PDict d2) "events" (PList [])) as [ev|]; [|done]. cbn [rbind] in H.
  destruct (sized ev); [|done]. cbn [rbind] in H.
  destruct (py_get (PDict d2) "instructions" (PList [])) as [ins|]; [|done]. cbn [rbind] in H.
  destruct (sized ins); [|done]. cbn [rbind] in H. injection H as <-. split.
  - unfold idl_program_id, d2. cbn [py_get]. rewrite dget_dset_eq. cbn [rbind py_get].
    by rewrite dget_dset_eq.
  - intros k Hne v. unfold d2. cbn [py_get]. rewrite dget_dset_ne by done. by rewrite Hk.
Qed.

(** With sized [events] and [instructions], or none, nothing raises. *)
Lemma with_address_total program_id d :
  (dget "metadata" d = None ∨ ∃ m, dget "metadata" d = Some (PDict m) ∧ dget "address" m = None) →
  Forall (λ k, sized (default (PList []) (dget k d)) = Ok tt) ["events"; "instructions"] →
  ∃ idl, with_address program_id (PDict d) = Ok idl.
Proof.
  intros Hmeta [He [Hi _]%Forall_cons]%Forall_cons. unfold with_address. cbn [contains rbind].
  assert (∃ d1 m, (if dmem "metadata" d : bool then Ok (PDict d) else setitem (PDict d) "metadata" (PDict [])) =
      Ok (PDict d1) ∧ dget "metadata" d1 = Some (PDict m) ∧ dget "address" m = None ∧
      ∀ k, k ≠ "metadata" → dget k d1 = dget k d) as (d1 & m & E & Hm & Ha & Hk).
  { unfold dmem. destruct Hmeta as [Hn|(m & Hm & Ha)].
    - rewrite Hn. eexists _, []. split; [done|]. split; [apply dget_dset_eq|]. split; [done|].
      intros k Hne. by apply dget_dset_ne.
    - rewrite Hm. by exists d, m. }
  rewrite E. cbn [rbind py_getitem]. rewrite Hm. cbn [rbind contains]. unfold dmem. rewrite Ha.
  cbn [setitem rbind py_get]. rewrite !dget_dset_ne, !Hk by done.
  destruct (dget "events" d), (dget "instructions" d); cbn [default from_option rbind] in *;
    unfold id in *; rewrite ?He; cbn [rbind]; rewrite ?Hi; eauto.
Qed.

(** An IDL stored on chain is found whatever its account header: when the account data is a header of 8 to 87 bytes
    followed by the compressed text of an IDL, and no earlier offset happens to decompress, the fetcher
    returns this IDL, unchanged but for the address it lacked, so that the registry indexes it under
    the program it was fetched for. *)
Lemma stored_idl_found url program_id addr w w' body b64 header z raw_json text d :
  idl_address program_id = Ok addr → rpc_post_json url addr w = (Ok body, w') →
  account_data body = Ok (Some b64) → b64decode b64 = Ok (header ++ z) →
  (8 ≤ length header < 88)%nat → z ≠ [] →
  zlib_decompress z = Some raw_json → utf8_decode raw_json = Some text →
  Forall (λ j, zlib_decompress (drop j (header ++ z)) ≫= utf8_decode = None)
    (seq 8 (length header - 8)) →
  json_loads text = Some (PDict d) →
  (dget "metadata" d = None ∨ ∃ m, dget "metadata" d = Some (PDict m) ∧ dget "address" m = None) →
  Forall (λ k, sized (default (PList []) (dget k d)) = Ok tt) ["events"; "instructions"] →
  ∃ idl, fetch_idl_from_chain url program_id w = (Ok (Some idl), w') ∧
    idl_program_id idl = Ok (PStr program_id) ∧
    ∀ k, k ≠ "metadata" → ∀ v, py_get idl k v = py_get (PDict d) k v.
Proof.
  intros Haddr Hpost Hdata Hb64 Hlen Hz Hzlib Hutf Hearly Hjson Hmeta Hsized.
  assert (try_decompress (header ++ z) ANCHOR_DISCRIMINATOR_LEN = Some text) as Hfound.
  { apply try_offsets_first. unfold ANCHOR_DISCRIMINATOR_LEN in *. exists (length header - 8)%nat.
    assert (0 < length z)%nat by (destruct z; [done|cbn; lia]).
    split; [rewrite length_app; lia|]. split.
    - replace (8 + (length header - 8))%nat with (length header) by lia.
      rewrite drop_app_length, Hzlib. exact Hutf.
    - intros j Hj. rewrite Forall_forall in Hearly. apply Hearly, elem_of_seq. lia. }
  destruct (with_address_total program_id d Hmeta Hsized) as [idl Hidl].
  exists idl. split; [|by apply (with_address_program _ d)].
  unfold fetch_idl_from_chain, mbind, mlift. by rewrite Haddr, Hpost, Hdata, Hb64, Hfound, Hjson, Hidl.
Qed.
End fetcher.

(** An account with a header of twelve bytes; "compressing" puts the byte [x78] in front. *)
Module IdlFetcherSample.
Definition idl : list (string * pyval) := [("version", PStr "0.1.0"); ("events", PList [])].
Definition account : list byte := replicate 12 x00 ++ [x78; x01; x02].
Definition body : pyval :=
  PDict [("result", PDict [("value", PDict [("data", PList [PStr "AAAAAAAAAAAAAAAAeAEC"; PStr "base64"])])])].

Definition lib : IdlLib nat := {|
  idl_address program := Ok (program ++ "-idl")%string;
  rpc_post_json _ addr := λ w, (Ok body, S w);
  zlib_decompress b := match b with x78 :: r => Some r | _ => None end;
  utf8_decode b := match b with [x01; x02] => Some "{idl}" | _ => None end;
  json_loads s := if bool_decide (s = "{idl}") then Some (PDict idl) else None;
|}.
End IdlFetcherSample.

Lemma stored_idl_found_witness :
  ∃ idl, @fetch_idl_from_chain nat IdlFetcherSample.lib "http://rpc" "Prog" 0%nat = (Ok (Some idl), 1%nat) ∧
    idl_program_id idl = Ok (PStr "Prog").
Proof.
  destruct (@stored_idl_found nat IdlFetcherSample.lib "http://rpc" "Prog" "Prog-idl" 0%nat 1%nat
    IdlFetcherSample.body "AAAAAAAAAAAAAAAAeAEC" (replicate 12 x00) [x78; x01; x02] [x01; x02] "{idl}"
    IdlFetcherSample.idl) as (idl & H1 & H2 & _).
  all: try (vm_compute; reflexivity).
  - vm_compute. lia.
  - discriminate.
  - repeat constructor.
  - by left.
  - repeat constructor.
  - exists idl. by split.
Defined.
