(* ===== verification/EvmAdapter.v ===== *)
(** * The EVM adapter (core/chains/evm.py)

    The adapter turns what web3 returns (dictionaries with [HexBytes] or string
    fields, here [pyval]) into the types of the pipeline.  A request is an operation
    of the world: [request r h] asks endpoint [h]; the pool decides which endpoints
    are asked.  Requests that bypass the pool ask [w3], the first endpoint. *)
From S2P Require Import Prelude PyStr PyVal Types RpcPool.

(** ** Conversions *)

(** [_hexify] *)
Definition hexify (v : pyval) : string :=
  match v with
  | PStr s => s
  | PBytes l => "0x" +:+ bytes_hex l
  | _ => py_str_of v
  end.

(** [_intify]; the fallback [int(str(v), 0)] does not parse the [str] of the values
    that reach it. *)
Definition intify (v : pyval) : result Z :=
  match v with
  | PInt z => Ok z
  | PBool b => Ok (if b then 1 else 0)
  | PStr s => if startswith s "0x" then py_int 16 s else py_int 10 s
  | _ => Err (ValueError "invalid literal for int() with base 0")
  end.

(** [int(raw[k])] *)
Definition int_field (raw : pyval) (k : string) : result Z :=
  let? v := py_getitem raw k in py_int_of v.

(** [_hexify(raw[k])] *)
Definition hex_field (raw : pyval) (k : string) : result string :=
  let? v := py_getitem raw k in Ok (hexify v).

(** The header of a block returned over HTTP *)
Definition parse_header (raw : pyval) : result BlockHeader :=
  let? number := int_field raw "number" in
  let? hash := hex_field raw "hash" in
  let? parent_hash := hex_field raw "parentHash" in
  let? timestamp := int_field raw "timestamp" in
  Ok (mkHeader number hash parent_hash timestamp).

(** The header of an eth_subscribe notification *)
Definition parse_ws_head (head : pyval) : result BlockHeader :=
  let? n := py_getitem head "number" in
  let? number := intify n in
  let? hash := hex_field head "hash" in
  let? parent_hash := hex_field head "parentHash" in
  let? t := py_getitem head "timestamp" in
  let? timestamp := intify t in
  Ok (mkHeader number hash parent_hash timestamp).

(** [int(t.get(k, 0) or 0)] *)
Definition int_or_zero (t : pyval) (k : string) : result Z :=
  let? v := py_get t k (PInt 0) in py_int_of (py_or v (PInt 0)).

Definition parse_tx (t : pyval) : result Tx :=
  let? hash := hex_field t "hash" in
  let? index := int_or_zero t "transactionIndex" in
  let? from_addr := py_getitem t "from" in
  let? to := py_get t "to" PNone in
  let? value := int_or_zero t "value" in
  let? input := py_get t "input" (PStr "0x") in
  Ok (mkTx hash index (py_str_of from_addr)
        (if py_truth to then Some (py_str_of to) else None) value (hexify input) 1).

Definition parse_block (raw : pyval) : result Block :=
  let? header := parse_header raw in
  let? raw_txs := py_get raw "transactions" (PList []) in
  let? txs := py_iter raw_txs in
  let? txs := rtraverse parse_tx txs in
  Ok (mkBlock header txs []).

Definition parse_log (lg : pyval) : result Log :=
  let? tx_hash := hex_field lg "transactionHash" in
  let? log_index := int_field lg "logIndex" in
  let? address := py_getitem lg "address" in
  let? topics := py_getitem lg "topics" in
  let? topics := py_iter topics in
  let? data := py_getitem lg "data" in
  let? block_number := int_field lg "blockNumber" in
  Ok (mkLog tx_hash log_index (py_str_of address) (hexify <$> topics) (hexify data) block_number).

(** The [eth_getLogs] filter; empty lists are left out *)
Definition log_params (from_block to_block : Z) (addresses : option (list string))
    (topics : option (list (list string))) : list (string * pyval) :=
  [("fromBlock", PInt from_block); ("toBlock", PInt to_block)] ++
  match addresses with
  | Some ((_ :: _) as l) => [("address", PList (PStr <$> l))]
  | _ => []
  end ++
  match topics with
  | Some ((_ :: _) as l) => [("topics", PList ((λ t, PList (PStr <$> t)) <$> l))]
  | _ => []
  end.

(** ** Call traces *)

(** A field the node declares as a string *)
Definition text_field (raw : pyval) (k : string) (dflt : pyval) : result string :=
  let? v := py_get raw k dflt in py_as_str v.

(** [int(raw.get(k, "0x0"), 16)] *)
Definition hex_int_field (raw : pyval) (k : string) : result Z :=
  let? v := py_get raw k (PStr "0x0") in
  match v with
  | PStr s => py_int 16 s
  | PBytes l => py_int 16 (bytes_str l)
  | _ => Err (TypeError "int() can't convert non-string with explicit base")
  end.

(** [v.lower() if v else None] *)
Definition lower_opt (v : pyval) : result (option string) :=
  if py_truth v then let? s := py_as_str v in Ok (Some (lower s)) else Ok None.

Definition text_opt (v : pyval) : result (option string) :=
  match v with PNone => Ok None | _ => let? s := py_as_str v in Ok (Some s) end.

(** [_parse_call(raw, depth)] with [fuel = 65 - depth] *)
Fixpoint parse_call (fuel : nat) (raw : pyval) : result (option InternalCall) :=
  match fuel with
  | O => Ok None
  | S fuel' =>
      let? calls := py_get raw "calls" (PList []) in
      let? calls := py_iter calls in
      let? children := rtraverse (parse_call fuel') calls in
      let? type := text_field raw "type" (PStr "CALL") in
      let call_type := upper type in
      let? to := py_get raw "to" PNone in
      let '(created, to_addr) :=
        if bool_decide (call_type ∈ ["CREATE"; "CREATE2"]) then (to, PNone) else (PNone, to) in
      let? from := py_get raw "from" PNone in
      let? from_addr := py_as_str (py_or from (PStr "")) in
      let? to_addr := lower_opt to_addr in
      let? value := hex_int_field raw "value" in
      let? gas := hex_int_field raw "gas" in
      let? input := text_field raw "input" (PStr "0x") in
      let? output := text_field raw "output" (PStr "0x") in
      let? err := py_get raw "error" PNone in
      let? err := text_opt err in
      let? created := lower_opt created in
      Ok (Some (mkCall call_type (lower from_addr) to_addr value gas input output err
                  (omap id children) created))
  end.

Definition CALL_DEPTH : nat := 65.

(** ** Requests *)

Inductive rpc :=
  | BlockNumber
  | GetBlock (number : Z) (full_transactions : bool)
  | GetLogs (params : list (string * pyval))
  | DebugTrace (tx_hash : string).

Section adapter.
Context {H W : Type} (monotonic : W → Z) (request : rpc → H → M (EndpointPool H * W) pyval).

Definition adapter_state : Type := EndpointPool H * W.

(** [self._pool.call(...)] *)
Definition pool_call (r : rpc) : M adapter_state pyval := call monotonic (request r).

(** [connect]: [self._pool] and [self._w3], which are set even when the first request
    then fails *)
Definition connect (handles : list H) (failure_threshold cooldown : Z) (w : W)
    : result unit * (option (EndpointPool H * H) * W) :=
  match pool_init handles failure_threshold cooldown, handles with
  | Ok p, w3 :: _ =>
      let '(r, (p', w')) := pool_call BlockNumber (p, w) in
      (rmap (λ _, tt) r, (Some (p', w3), w'))
  | Err e, _ => (Err e, (None, w))
  | _, [] => (Err (OtherError "IndexError" ""), (None, w))
  end.

(** A request on [self._w3] *)
Context (w3 : H).
Definition w3_call (r : rpc) : M adapter_state pyval := request r w3.

Definition get_latest_block_number : M adapter_state Z :=
  let* v := pool_call BlockNumber in mlift (py_int_of v).

Definition fetch_block (number : Z) : M adapter_state Block :=
  let* raw := pool_call (GetBlock number true) in mlift (parse_block raw).

Definition fetch_logs (from_block to_block : Z) (addresses : option (list string))
    (topics : option (list (list string))) : M adapter_state (list Log) :=
  let* raw_logs := pool_call (GetLogs (log_params from_block to_block addresses topics)) in
  mlift (let? l := py_iter raw_logs in rtraverse parse_log l).

(** The inner loop of [_poll_heads]: headers until one cannot be fetched *)
Fixpoint poll_range (count : nat) (bn : Z) (s : adapter_state) : list BlockHeader * adapter_state :=
  match count with
  | O => ([], s)
  | S count' =>
      match (let* raw := w3_call (GetBlock bn false) in mlift (parse_header raw)) s with
      | (Err _, s') => ([], s')
      | (Ok h, s') => let '(hs, s'') := poll_range count' (bn + 1) s' in (h :: hs, s'')
      end
  end.

(** One round of [_poll_heads]: the headers it yields, and the new [last] *)
Definition poll_round (last : Z) : M adapter_state (list BlockHeader * Z) := λ s,
  match (let* v := w3_call BlockNumber in mlift (py_int_of v)) s with
  | (Err e, s') => (Err e, s')
  | (Ok n, s') =>
      if last <? n then
        let start := if 0 <=? last then last + 1 else n in
        let '(hs, s'') := poll_range (Z.to_nat (n + 1 - start)) start s' in (Ok (hs, n), s'')
      else (Ok ([], last), s')
  end.

(** [_poll_heads] for a number of rounds: what was yielded, and the exception that
    ended the generator if any *)
Fixpoint poll_heads (rounds : nat) (last : Z) (s : adapter_state) : list BlockHeader * option exn * adapter_state :=
  match rounds with
  | O => ([], None, s)
  | S rounds' =>
      match poll_round last s with
      | (Err e, s') => ([], Some e, s')
      | (Ok (hs, last'), s') =>
          let '(hs', e, s'') := poll_heads rounds' last' s' in (hs ++ hs', e, s'')
      end
  end.

(** [trace_transaction] *)
Definition trace_transaction (tx_hash : string) : M adapter_state (option InternalCall) := λ s,
  match w3_call (DebugTrace tx_hash) s with
  | (Err _, s') => (Ok None, s')
  | (Ok result, s') =>
      (mlift (let? raw := py_get result "result" PNone in
              match raw with PNone => Ok None | _ => parse_call CALL_DEPTH raw end)) s'
  end.

(** The hash [trace_block] traces: [.hex()] of bytes has no prefix *)
Definition trace_hash (tx : pyval) : string :=
  let tx_hash := match tx with PDict d => default tx (dget "hash" d) | _ => tx end in
  match tx_hash with PBytes l => bytes_hex l | v => py_str_of v end.

Fixpoint trace_txs (txs : list pyval) : M adapter_state (list InternalCall) :=
  match txs with
  | [] => mret []
  | tx :: t =>
      let* call := trace_transaction (trace_hash tx) in
      let* out := trace_txs t in
      mret (option_list call ++ out)
  end.

(** [trace_block] *)
Definition trace_block (number : Z) : M adapter_state (list InternalCall) :=
  let* block := w3_call (GetBlock number true) in
  let* txs := mlift (let? v := py_get block "transactions" (PList []) in py_iter v) in
  trace_txs txs.
End adapter.

(** ** Round trip of call traces *)

(** [int("0x" + b.hex(), 16)] *)
Lemma py_int_0x_hex l : l ≠ [] → py_int 16 ("0x" +:+ bytes_hex l) = Ok (be_unpack l).
Proof.
  destruct l as [|b l]; [done|]. intros _. destruct (byte_nibbles b) as (Hh&_).
  destruct (hex_digit_val _ Hh) as (_&Hu&_). unfold py_int.
  set (s := bytes_hex (b :: l)).
  change (int_sign (lskip ("0x" +:+ s))) with (1, "0x" +:+ s). cbv iota zeta beta.
  assert (startswith s "_" = false) as Hs.
  { unfold s. cbn [bytes_hex startswith]. by rewrite Ascii.eqb_sym, Hu. }
  assert (int_prefix 16 ("0x" +:+ s) = s) as ->.
  { change (int_prefix 16 ("0x" +:+ s)) with (if startswith s "_" then str_drop 1 s else s).
    by rewrite Hs. }
  rewrite Hs. unfold s. rewrite scan_bytes_hex. cbn [length].
  destruct (Z.eqb_spec (0 + 2 * Z.of_nat (S (length l))) 0); [lia|].
  cbn [lskip String.eqb negb Z.eqb Pos.eqb andb]. f_equal. unfold be_unpack. lia.
Qed.

Definition quantity (z : Z) : string := "0x" +:+ bytes_hex (be_pack 32 z).

Lemma py_int_quantity z : 0 <= z < 2 ^ 256 → py_int 16 (quantity z) = Ok z.
Proof.
  intros Hz. unfold quantity. rewrite py_int_0x_hex.
  - f_equal. apply be_unpack_pack. exact Hz.
  - intros Hn. apply (f_equal length) in Hn. by rewrite be_pack_length in Hn.
Qed.

Definition is_create (c : InternalCall) : bool := bool_decide (ic_type c ∈ ["CREATE"; "CREATE2"]).

(** The address a node reports under [to]: the created one for a creation *)
Definition reported_to (c : InternalCall) : option string :=
  if is_create c then ic_created_address c else ic_to_addr c.

(** The trace as the node's callTracer prints it *)
Fixpoint encode_call (c : InternalCall) : pyval :=
  PDict ([("type", PStr (ic_type c)); ("from", PStr (ic_from_addr c))] ++
         match reported_to c with Some a => [("to", PStr a)] | None => [] end ++
         [("value", PStr (quantity (ic_value c))); ("gas", PStr (quantity (ic_gas c)));
          ("input", PStr (ic_input c)); ("output", PStr (ic_output c))] ++
         match ic_error c with Some e => [("error", PStr e)] | None => [] end ++
         [("calls", PList (encode_call <$> ic_calls c))]).

(** The trace cut below a depth *)
Fixpoint prune (depth : nat) (c : InternalCall) : option InternalCall :=
  match depth with
  | O => None
  | S d => Some (mkCall (ic_type c) (ic_from_addr c) (ic_to_addr c) (ic_value c) (ic_gas c)
                   (ic_input c) (ic_output c) (ic_error c) (omap (prune d) (ic_calls c))
                   (ic_created_address c))
  end.

Definition norm_addr (a : option string) : Prop := ∀ s, a = Some s → s ≠ "" ∧ lower s = s.

(** What a trace in the pipeline's own form looks like, at every call *)
Fixpoint normal_call (c : InternalCall) : Prop :=
  upper (ic_type c) = ic_type c ∧ lower (ic_from_addr c) = ic_from_addr c ∧
  norm_addr (ic_to_addr c) ∧ norm_addr (ic_created_address c) ∧
  (if is_create c then ic_to_addr c = None else ic_created_address c = None) ∧
  0 <= ic_value c < 2 ^ 256 ∧ 0 <= ic_gas c < 2 ^ 256 ∧
  (fix go (l : list InternalCall) : Prop :=
     match l with [] => True | x :: t => normal_call x ∧ go t end) (ic_calls c).

Lemma normal_calls_forall c : normal_call c → Forall normal_call (ic_calls c).
Proof.
  destruct c as [ty fr to v g i o e calls cr]. cbn. intros (_&_&_&_&_&_&_&H).
  induction calls as [|x l IH]; constructor; [apply H|apply IH, H].
Qed.

Definition opt_field (o : option string) : pyval :=
  match o with Some s => PStr s | None => PNone end.

Lemma lower_opt_norm a : norm_addr a →
  lower_opt (opt_field a) = Ok a.
Proof.
  unfold lower_opt. destruct a as [s|]; [|done]. intros Hn. destruct (Hn s eq_refl) as [Hne Hl].
  cbn. rewrite (proj2 (String.eqb_neq _ _) Hne). cbn. by rewrite Hl.
Qed.

Lemma encode_call_fields c :
  py_get (encode_call c) "calls" (PList []) = Ok (PList (encode_call <$> ic_calls c)) ∧
  py_get (encode_call c) "type" (PStr "CALL") = Ok (PStr (ic_type c)) ∧
  py_get (encode_call c) "to" PNone = Ok (opt_field (reported_to c)) ∧
  py_get (encode_call c) "from" PNone = Ok (PStr (ic_from_addr c)) ∧
  py_get (encode_call c) "value" (PStr "0x0") = Ok (PStr (quantity (ic_value c))) ∧
  py_get (encode_call c) "gas" (PStr "0x0") = Ok (PStr (quantity (ic_gas c))) ∧
  py_get (encode_call c) "input" (PStr "0x") = Ok (PStr (ic_input c)) ∧
  py_get (encode_call c) "output" (PStr "0x") = Ok (PStr (ic_output c)) ∧
  py_get (encode_call c) "error" PNone = Ok (opt_field (ic_error c)).
Proof.
  assert (encode_call c = PDict ([("type", PStr (ic_type c)); ("from", PStr (ic_from_addr c))] ++
         match reported_to c with Some a => [("to", PStr a)] | None => [] end ++
         [("value", PStr (quantity (ic_value c))); ("gas", PStr (quantity (ic_gas c)));
          ("input", PStr (ic_input c)); ("output", PStr (ic_output c))] ++
         match ic_error c with Some e => [("error", PStr e)] | None => [] end ++
         [("calls", PList (encode_call <$> ic_calls c))])) as -> by (by destruct c).
  generalize (quantity (ic_value c)) (quantity (ic_gas c)) (encode_call <$> ic_calls c).
  intros qv qg cs. destruct (reported_to c), (ic_error c); repeat split; reflexivity.
Qed.

Lemma omap_id_fmap {A B} (f : A → option B) (l : list A) :
  omap id (f <$> l) = omap f l.
Proof. induction l as [|x l IH]; [done|]. csimpl. by destruct (f x); simpl; rewrite IH. Qed.

(** Call traces round trip.  A trace in the pipeline's form, printed as the node's
    callTracer prints it, is parsed back to the same trace cut below depth 64: calls
    nested at most 64 deep are all kept, with their types, addresses, amounts, errors
    and created contracts, and deeper ones are dropped. *)
Lemma parse_call_roundtrip fuel c :
  normal_call c → parse_call fuel (encode_call c) = Ok (prune fuel c).
Proof.
  revert c. induction fuel as [|fuel IH]; intros c Hn; [done|].
  pose proof (normal_calls_forall c Hn) as Hch.
  assert (rtraverse (parse_call fuel) (encode_call <$> ic_calls c) =
          Ok (prune fuel <$> ic_calls c)) as Htrav.
  { clear Hn. induction Hch as [|x l Hx _ IHl]; [done|]. rewrite fmap_cons. cbn [rtraverse].
    rewrite (IH x Hx). cbn [rbind]. by rewrite IHl. }
  assert (upper (ic_type c) = ic_type c ∧ lower (ic_from_addr c) = ic_from_addr c ∧
    norm_addr (ic_to_addr c) ∧ norm_addr (ic_created_address c) ∧
    (if is_create c then ic_to_addr c = None else ic_created_address c = None) ∧
    0 <= ic_value c < 2 ^ 256 ∧ 0 <= ic_gas c < 2 ^ 256) as (Hty&Hfr&Hto&Hcr&Hsplit&Hv&Hg).
  { destruct c. cbn in *. naive_solver. }
  destruct (encode_call_fields c) as (F1&F2&F3&F4&F5&F6&F7&F8&F9).
  cbn [parse_call]. unfold text_field, hex_int_field. rewrite F1. cbn [rbind py_iter].
  rewrite Htrav, F2. cbn [rbind py_as_str]. rewrite Hty, F3, F4.
  rewrite F5, F6, F7, F8, F9. cbn [rbind].
  assert (py_as_str (py_or (PStr (ic_from_addr c)) (PStr "")) = Ok (ic_from_addr c)) as Hf.
  { unfold py_or. cbn. by destruct (String.eqb_spec (ic_from_addr c) "") as [->|]. }
  assert (text_opt (opt_field (ic_error c)) = Ok (ic_error c)) as He by (by destruct (ic_error c)).
  unfold reported_to. fold (is_create c). destruct (is_create c).
  all: cbn [rbind]; rewrite Hf; cbn [rbind];
    change PNone with (opt_field None); rewrite !lower_opt_norm by done; cbn [rbind];
    rewrite !py_int_quantity by done; cbn [rbind py_as_str]; rewrite He; cbn [rbind];
    rewrite ?lower_opt_norm by done; cbn [rbind prune];
    by rewrite Hfr, omap_id_fmap, Hsplit.
Qed.

(** ** Polling *)
Section polling.
Context {H W : Type} (request : rpc → H → M (EndpointPool H * W) pyval) (w3 : H).

(** The first endpoint answers every block request with that block. *)
Definition serves_headers : Prop := ∀ bn s, ∃ h s',
  (let* raw := w3_call request w3 (GetBlock bn false) in mlift (parse_header raw)) s = (Ok h, s') ∧
  hdr_number h = bn.

Context (Hserves : serves_headers).

Lemma poll_range_numbers count bn s :
  hdr_number <$> (poll_range request w3 count bn s).1 = seqZ bn (Z.of_nat count).
Proof.
  revert bn s. induction count as [|count IH]; intros bn s; cbn [poll_range]; [done|].
  destruct (Hserves bn s) as (h&s'&->&Hh). specialize (IH (bn + 1) s').
  destruct (poll_range request w3 count (bn + 1) s') as [hs s'']. cbn [fst] in *.
  rewrite fmap_cons, IH, Hh, (seqZ_cons bn) by lia. do 2 f_equal; lia.
Qed.

(** Where a run of heads starts: right after the last one, or anywhere at first *)
Definition continues (last : Z) (numbers : list Z) : Prop :=
  ∃ first, (0 <= last → first = last + 1) ∧ numbers = seqZ first (Z.of_nat (length numbers)).

Lemma poll_heads_run rounds last s :
  -1 <= last → continues last (hdr_number <$> (poll_heads request w3 rounds last s).1.1).
Proof.
  revert last s. induction rounds as [|rounds IH]; intros last s Hlast; cbn [poll_heads].
  { by exists (last + 1). }
  unfold poll_round. destruct ((let* v := _ in _) s) as [[n|e] s']; [|by exists (last + 1)].
  destruct (Z.ltb_spec last n) as [Hn|Hn].
  - set (start := if 0 <=? last then last + 1 else n).
    assert (start <= n ∧ (0 <= last → start = last + 1)) as [Hle Hst].
    { unfold start. destruct (Z.leb_spec 0 last); lia. }
    pose proof (poll_range_numbers (Z.to_nat (n + 1 - start)) start s') as Hr.
    destruct (poll_range _ _ _ _) as [hs s1]. cbn [fst] in Hr.
    destruct (IH n s1 ltac:(lia)) as (f&Hf&Hnum). specialize (Hf ltac:(lia)). subst f.
    destruct (poll_heads _ _ _ _) as [[hs' e] s2]. cbn [fst] in *.
    exists start. split; [done|].
    rewrite fmap_app, length_app, Hr, length_seqZ, Nat2Z.inj_add, seqZ_app by lia.
    rewrite Z2Nat.id by lia. f_equal; [f_equal; lia|].
    etrans; [exact Hnum|]. f_equal. lia.
  - specialize (IH last s' Hlast). by destruct (poll_heads _ _ _ _) as [[hs' e] s2].
Qed.

(** Polling skips no head.  As long as block requests succeed, the heads
    [_poll_heads] yields over any number of rounds, whatever the tip does meanwhile,
    are consecutive blocks, each yielded once, starting with the tip of the first round. *)
Lemma poll_heads_consecutive rounds s :
  ∃ first, hdr_number <$> (poll_heads request w3 rounds (-1) s).1.1 =
    seqZ first (Z.of_nat (length (poll_heads request w3 rounds (-1) s).1.1)).
Proof.
  destruct (poll_heads_run rounds (-1) s ltac:(lia)) as (first&_&Hn). exists first.
  by rewrite length_fmap in Hn.
Qed.
End polling.

(** ** Witnesses *)
Module EvmSample.
Definition child : InternalCall :=
  mkCall "CREATE2" "0xb2" None 7 21000 "0x60" "0x" None [] (Some "0xc3").
Definition call : InternalCall :=
  mkCall "CALL" "0xa1" (Some "0xb2") 1000 90000 "0xdeadbeef" "0x" (Some "execution reverted")
    [child] None.

Definition raw_header (n : Z) : pyval :=
  PDict [("number", PInt n); ("hash", PBytes [x0a; byte_of_ascii (ascii_of_N (Z.to_N n))]);
         ("parentHash", PBytes [x0a; byte_of_ascii (ascii_of_N (Z.to_N (n - 1)))]);
         ("timestamp", PInt (1000 + n))].

(** A node whose tip advances by two blocks a round *)
Definition request (r : rpc) (_ : unit) : M (EndpointPool unit * Z) pyval := λ '(p, tip),
  match r with
  | BlockNumber => (Ok (PInt tip), (p, tip + 2))
  | GetBlock n _ => (Ok (raw_header n), (p, tip))
  | _ => (Ok (PList []), (p, tip))
  end.

Definition pool : EndpointPool unit := mkPool 3 30 [mkEp tt 0 0 0] ∅ 0.
End EvmSample.

Lemma parse_call_roundtrip_witness :
  parse_call CALL_DEPTH (encode_call EvmSample.call) = Ok (Some EvmSample.call).
Proof.
  rewrite (parse_call_roundtrip CALL_DEPTH EvmSample.call); [reflexivity|].
  cbn. repeat split; try (vm_compute; done); by simplify_eq.
Defined.

Lemma poll_heads_consecutive_witness :
  hdr_number <$> (poll_heads EvmSample.request tt 3 (-1) (EvmSample.pool, 10)).1.1
    = [10; 11; 12; 13; 14] ∧
  ∃ first, hdr_number <$> (poll_heads EvmSample.request tt 3 (-1) (EvmSample.pool, 10)).1.1 =
    seqZ first (Z.of_nat (length (poll_heads EvmSample.request tt 3 (-1) (EvmSample.pool, 10)).1.1)).
Proof.
  split; [vm_compute; reflexivity|]. apply poll_heads_consecutive.
  intros bn [p t]. eexists _, _. split; reflexivity.
Defined.
