(* ===== verification/WsHeads.v ===== *)
(** * Heads over a websocket (core/chains/evm.py, [_subscribe_heads_ws])

    web3 calls the handler [_on_head] from a task of its own; the handler puts each head into an unbounded queue,
    from which the asynchronous generator yields.  A state is what the task, the queue and the reader have
    done so far, a step one of their moves.  Whether [handle_subscriptions] goes on after a handler that raised,
    and when it ends otherwise (a lost connection), is decided by web3: the former is the parameter
    [survives], the latter an event. *)
From S2P Require Import Prelude PyStr PyVal Types RpcPool EvmAdapter.

(** The task of [handle_subscriptions]: it has ended by itself, or been cancelled by the generator's
    [finally] *)
Inductive handler_task := Running | Ended (raised : option exn) | CancelledByReader.

Record WsHeads := mkWsHeads {
  wh_queue : list BlockHeader;
  wh_task : handler_task;
  wh_yielded : list BlockHeader;
}.
Definition subscribed : WsHeads := mkWsHeads [] Running [].

Inductive ws_move :=
  | Notify (raw : pyval)                  (** web3 calls [_on_head] with this head *)
  | TaskEnds (raised : option exn)
  | Next                                  (** the reader asks: [yield await queue.get()] *)
  | Aclose.                               (** the reader closes the generator *)

Section heads.
Variable survives : exn → bool.

(** [None]: the move is not possible; a reader that asks an empty queue waits. *)
Definition ws_step (m : ws_move) (s : WsHeads) : option WsHeads :=
  match m, wh_task s with
  | Notify raw, Running =>
      Some (match parse_ws_head raw with
            | Ok h => mkWsHeads (wh_queue s ++ [h]) Running (wh_yielded s)
            | Err e => mkWsHeads (wh_queue s) (if survives e then Running else Ended (Some e)) (wh_yielded s)
            end)
  | TaskEnds raised, Running => Some (mkWsHeads (wh_queue s) (Ended raised) (wh_yielded s))
  | Next, (Running | Ended _) =>
      match wh_queue s with
      | h :: q => Some (mkWsHeads q (wh_task s) (wh_yielded s ++ [h]))
      | [] => None
      end
  | Aclose, (Running | Ended _) => Some (mkWsHeads (wh_queue s) CancelledByReader (wh_yielded s))
  | _, _ => None
  end.

Fixpoint ws_run (l : list ws_move) (s : WsHeads) : option WsHeads :=
  match l with
  | [] => Some s
  | m :: l => match ws_step m s with Some s' => ws_run l s' | None => None end
  end.

(** The heads web3 has handed over *)
Definition notified (m : ws_move) : option BlockHeader :=
  match m with
  | Notify raw => match parse_ws_head raw with Ok h => Some h | Err _ => None end
  | _ => None
  end.

Lemma ws_step_heads m s s' :
  ws_step m s = Some s' → wh_yielded s' ++ wh_queue s' = wh_yielded s ++ wh_queue s ++ option_list (notified m).
Proof.
  intros H. destruct m; cbn in H; destruct (wh_task s) eqn:Et; try discriminate H.
  - injection H as <-. unfold notified. destruct (parse_ws_head raw) as [h|e]; cbn; by rewrite ?app_assoc, ?app_nil_r.
  - injection H as <-. cbn. by rewrite app_nil_r.
  - destruct (wh_queue s) as [|h q]; [done|]. injection H as <-. cbn. by rewrite app_nil_r, <-app_assoc.
  - destruct (wh_queue s) as [|h q]; [done|]. injection H as <-. cbn. by rewrite app_nil_r, <-app_assoc.
  - injection H as <-. cbn. by rewrite app_nil_r.
  - injection H as <-. cbn. by rewrite app_nil_r.
Qed.

(** The bridge loses, repeats and reorders nothing: whatever the interleaving, what has been yielded and what still
    waits are together the well-formed heads web3 has handed over, in their order. *)
Lemma ws_heads_in_order l s :
  ws_run l subscribed = Some s → wh_yielded s ++ wh_queue s = omap notified l.
Proof.
  assert (∀ s0, ws_run l s0 = Some s → wh_yielded s ++ wh_queue s = wh_yielded s0 ++ wh_queue s0 ++ omap notified l) as H.
  { induction l as [|m l IH]; intros s0 Hr; cbn [ws_run] in Hr.
    - injection Hr as <-. cbn. by rewrite app_nil_r.
    - destruct (ws_step m s0) as [s1|] eqn:E; [|done]. rewrite (IH s1 Hr), app_assoc, (ws_step_heads m s0 s1 E).
      rewrite <-!app_assoc. cbn. by destruct (notified m). }
  intros Hr. by rewrite (H subscribed Hr).
Qed.

Definition task_over (s : WsHeads) : bool := match wh_task s with Ended _ => true | _ => false end.

(** A lost connection is never noticed.  Once the task of [handle_subscriptions] has ended, whatever it raised,
    the reader gets what is still in the queue and then waits for ever: the only move left is that
    somebody closes the generator, and nothing of what the task raised has reached the reader.  (Polling goes on
    after a failed request, and the Solana adapter reconnects.) *)
Lemma ended_task_stalls_reader l s s' :
  task_over s = true → ws_run l s = Some s' →
  wh_yielded s' ++ wh_queue s' = wh_yielded s ++ wh_queue s ∧
  (wh_queue s' = [] → ∀ m, m ≠ Aclose → ws_step m s' = None).
Proof.
  intros Hs Hr. assert (wh_task s' ≠ Running ∧ wh_yielded s' ++ wh_queue s' = wh_yielded s ++ wh_queue s) as [Ht Hy].
  { assert (wh_task s ≠ Running) as Hn by (intros E; unfold task_over in Hs; by rewrite E in Hs). clear Hs.
    revert s Hn Hr. induction l as [|m l IH]; intros s Hn Hr; cbn [ws_run] in Hr; [by injection Hr as <-|].
    destruct (ws_step m s) as [s1|] eqn:E; [|done].
    assert (wh_task s1 ≠ Running ∧ notified m = None) as [H1 H2].
    { destruct (wh_task s) eqn:Et; [done|..]; destruct m; cbn in E; rewrite Et in E; try discriminate E;
        try (injection E as <-; done).
      destruct (wh_queue s); [done|]. injection E as <-. done. }
    destruct (IH s1 H1 Hr) as [H3 H4]. split; [done|]. rewrite H4, (ws_step_heads m s s1 E), H2. cbn. by rewrite app_nil_r. }
  split; [done|]. intros Hq m Hm. destruct m; cbn; destruct (wh_task s'); try done; by rewrite Hq.
Qed.
End heads.

(** [subscribe_heads]: over the websocket when one is configured and its URL is not empty, else by polling *)
Definition subscribes_ws (rpc_ws : option string) : bool :=
  str_truthy rpc_ws.

(** A head, a lost connection, and a head nobody hears of *)
Example ws_lost :
  let head n := PDict [("number", PStr n); ("hash", PStr "0xa"); ("parentHash", PStr "0xb"); ("timestamp", PStr "0x1")] in
  (wh_queue <$> ws_run (λ _, false) [Notify (head "0x10"); TaskEnds None; Next] subscribed) = Some [] ∧
  ws_run (λ _, false) [Notify (head "0x10"); TaskEnds None; Next; Next] subscribed = None.
Proof. split; vm_compute; reflexivity. Qed.
