(* ===== verification/SolanaAdapter.v ===== *)
(** * The Solana adapter (core/chains/solana.py)

    JSON-RPC bodies are [pyval]s.  [request r url] posts a request to an endpoint,
    raises on an HTTP error, and returns the decoded body; [slot_of] is the response
    parser of the solders library.  Fields the records of the pipeline type as
    integers or strings are read with that type. *)
From S2P Require Import Prelude PyStr PyVal Types RpcPool SolanaParsers.

(** ** Reading typed fields *)

Definition as_Z (v : pyval) : result Z :=
  match as_int v with Some z => Ok z | None => Err (TypeError "not an int") end.

Definition get_int (v : pyval) (k : string) (dflt : Z) : result Z :=
  let? x := py_get v k (PInt dflt) in as_Z x.

Definition get_str (v : pyval) (k : string) (dflt : string) : result string :=
  let? x := py_get v k (PStr dflt) in py_as_str x.

(** [for x in v.get(k, [])] *)
Definition get_list (v : pyval) (k : string) : result (list pyval) :=
  let? x := py_get v k (PList []) in py_iter x.

(** [for x in v.get(k, []) or []] *)
Definition get_list_or (v : pyval) (k : string) : result (list pyval) :=
  let? x := py_get v k (PList []) in py_iter (py_or x (PList [])).

Definition opt_text (v : pyval) : result (option string) :=
  match v with PNone => Ok None | _ => let? s := py_as_str v in Ok (Some s) end.

(** ** Blocks *)

Definition index_error {A} (o : option A) : result A :=
  match o with Some x => Ok x | None => Err (OtherError "IndexError" "list index out of range") end.

(** [account_keys[prog_idx] if prog_idx < len(account_keys) else ""] *)
Definition resolve_program (account_keys : list string) (prog_idx : Z) : result string :=
  if prog_idx <? Z.of_nat (length account_keys) then index_error (py_nth account_keys prog_idx)
  else Ok "".

(** [[account_keys[i] for i in acct_indices if i < len(account_keys)]] *)
Fixpoint resolve_accounts (account_keys : list string) (acct_indices : list pyval)
    : result (list string) :=
  match acct_indices with
  | [] => Ok []
  | i :: t =>
      let? i := as_Z i in
      if i <? Z.of_nat (length account_keys) then
        let? k := index_error (py_nth account_keys i) in
        let? ks := resolve_accounts account_keys t in Ok (k :: ks)
      else resolve_accounts account_keys t
  end.

(** One instruction, top-level or inner *)
Definition parse_instruction (account_keys : list string) (stack_depth : Z) (ix : pyval)
    : result SolanaInstruction :=
  let? prog_idx := get_int ix "programIdIndex" 0 in
  let? prog_id := resolve_program account_keys prog_idx in
  let? acct_indices := get_list ix "accounts" in
  let? accounts := resolve_accounts account_keys acct_indices in
  let? data := get_str ix "data" "" in
  Ok (mkInstruction prog_id accounts data stack_depth).

(** The instructions of one entry of [innerInstructions] *)
Definition parse_inner (account_keys : list string) (inner : pyval)
    : result (list SolanaInstruction) :=
  let? ixs := get_list inner "instructions" in
  rtraverse (λ ix, let? index := get_int inner "index" 0 in
                   parse_instruction account_keys (index + 2) ix) ixs.

(** [_parse_token_balances] *)
Definition parse_token_balances (raw : pyval) : result (list SolanaTokenBalance) :=
  let? l := py_iter (py_or raw (PList [])) in
  rtraverse (λ tb,
    let? amt_info := py_get tb "uiTokenAmount" (PDict []) in
    let? account_index := get_int tb "accountIndex" 0 in
    let? mint := get_str tb "mint" "" in
    let? owner := py_get tb "owner" PNone in
    let? owner := opt_text owner in
    let? amount := py_get amt_info "amount" (PStr "0") in
    let? amount := py_int_of amount in
    let? decimals := get_int amt_info "decimals" 0 in
    Ok (mkTokenBalance account_index mint owner amount decimals)) l.

(** [k if isinstance(k, str) else k.get("pubkey", "")] *)
Definition account_key (k : pyval) : result string :=
  match k with PStr s => Ok s | _ => get_str k "pubkey" "" end.

(** [signatures[0] if signatures else ""] *)
Definition first_signature (signatures : pyval) : result string :=
  if py_truth signatures then
    let? l := py_iter signatures in
    let? s := index_error (head l) in py_as_str s
  else Ok "".

(** The body of the loop over the transactions; [None]: skipped *)
Definition parse_transaction (slot : Z) (tx_obj : pyval) : result (option SolanaTransaction) :=
  let? meta := py_get tx_obj "meta" (PDict []) in
  let meta := py_or meta (PDict []) in
  let? tx_data := py_get tx_obj "transaction" (PDict []) in
  if negb (is_dict tx_data) then Ok None else
  let? msg := py_get tx_data "message" (PDict []) in
  if negb (is_dict msg) then Ok None else
  let? signatures := py_get tx_data "signatures" (PList []) in
  let? sig := first_signature signatures in
  let? keys := get_list msg "accountKeys" in
  let? account_keys := rtraverse account_key keys in
  let? top := get_list msg "instructions" in
  let? top := rtraverse (parse_instruction account_keys 1) top in
  let? inners := get_list_or meta "innerInstructions" in
  let? inners := rtraverse (parse_inner account_keys) inners in
  let? err := py_get meta "err" PNone in
  let? fee := get_int meta "fee" 0 in
  let? pre := get_list meta "preBalances" in
  let? pre := rtraverse as_Z pre in
  let? post := get_list meta "postBalances" in
  let? post := rtraverse as_Z post in
  let? pre_tok := py_get meta "preTokenBalances" PNone in
  let? pre_tok := parse_token_balances pre_tok in
  let? post_tok := py_get meta "postTokenBalances" PNone in
  let? post_tok := parse_token_balances post_tok in
  let? logs := get_list_or meta "logMessages" in
  let? logs := rtraverse py_as_str logs in
  Ok (Some (mkSolTx sig slot (match err with PNone => true | _ => false end) fee account_keys
              pre post pre_tok post_tok logs (top ++ concat inners))).

(** [_parse_block] *)
Definition parse_sol_block (slot : Z) (res : pyval) : result SolanaBlock :=
  let? txs := get_list res "transactions" in
  let? txs := rtraverse (parse_transaction slot) txs in
  let? block_hash := get_str res "blockhash" "" in
  let? parent_slot := get_int res "parentSlot" (slot - 1) in
  let? block_time := py_get res "blockTime" PNone in
  let? block_time := match block_time with PNone => Ok None | v => rmap Some (as_Z v) end in
  Ok (mkSolBlock slot block_hash parent_slot block_time (omap id txs)).

(** [type(v).__name__] *)
Definition type_name (v : pyval) : string :=
  match v with
  | PNone => "NoneType" | PBool _ => "bool" | PInt _ => "int" | PStr _ => "str"
  | PBytes _ => "bytes" | PList _ => "list" | PTuple _ => "tuple" | PDict _ => "dict"
  end.

(** ** Requests *)

Inductive sol_rpc :=
  | GetSlot
  | GetBlock (slot : Z)
  | GetBlocks (start_slot end_slot : Z).

Section adapter.
Context {W : Type} (monotonic : W → Z) (slot_of : pyval → result Z)
  (request : sol_rpc → string → M (EndpointPool string * W) pyval).

Definition sol_state : Type := EndpointPool string * W.

Definition sol_call (r : sol_rpc) : M sol_state pyval := call monotonic (request r).

Definition get_latest_slot : M sol_state Z :=
  let* text := sol_call GetSlot in mlift (slot_of text).

(** [fetch_block] *)
Definition fetch_slot (slot : Z) : M sol_state (option SolanaBlock) :=
  let* body := sol_call (GetBlock slot) in
  mlift (match body with
         | PDict d =>
             match dget "error" d with
             | Some e => Err (RuntimeError ("RPC error: " +:+ py_repr e))
             | None => match default PNone (dget "result" d) with
                       | PNone => Ok None
                       | res => rmap Some (parse_sol_block slot res)
                       end
             end
         | _ => Err (RuntimeError ("RPC 返回不是 dict（" +:+ type_name body +:+ "）——检查 RPC URL 是否指向 Solana JSON-RPC 端点（不是 batch/webhook）。 样本: "
                       +:+ str_take 200 (py_repr body)))
         end).

(** [get_blocks] *)
Definition get_blocks (start_slot end_slot : Z) : M sol_state (list Z) :=
  let* body := sol_call (GetBlocks start_slot end_slot) in
  mlift (match body with
         | PDict d =>
             let? l := py_iter (py_or (default PNone (dget "result" d)) (PList [])) in
             rtraverse as_Z l
         | _ => Err (RuntimeError ("RPC 返回不是 dict（" +:+ type_name body +:+ "）"))
         end).

(** What both head subscriptions yield when [current] is seen after [last_slot] *)
Definition slots_upto (last_slot current : Z) : list Z * Z :=
  if last_slot <? current then (seqZ (last_slot + 1) (current - last_slot), current)
  else ([], last_slot).

(** [_poll_heads] for a number of rounds; a failed round is retried. *)
Fixpoint poll_slots (rounds : nat) (last_slot : Z) (s : sol_state) : list Z * sol_state :=
  match rounds with
  | O => ([], s)
  | S rounds' =>
      match get_latest_slot s with
      | (Err _, s') => poll_slots rounds' last_slot s'
      | (Ok current, s') =>
          let '(out, last') := slots_upto last_slot current in
          let '(outs, s'') := poll_slots rounds' last' s' in (out ++ outs, s'')
      end
  end.
End adapter.

(** The slot of a slotSubscribe message: [Some] when it is an int *)
Definition message_slot (data : pyval) : result (option Z) :=
  let? params := py_get data "params" (PDict []) in
  let? res := py_get params "result" (PDict []) in
  let? slot := py_get res "slot" PNone in
  Ok (as_int slot).

(** [_ws_heads] over the messages received, reconnections included: a message that
    raises ends its connection, and [last_slot] survives the reconnection. *)
Fixpoint ws_slots (msgs : list pyval) (last_slot : Z) : list Z :=
  match msgs with
  | [] => []
  | m :: t =>
      match message_slot m with
      | Ok (Some slot) => let '(out, last') := slots_upto last_slot slot in out ++ ws_slots t last'
      | _ => ws_slots t last_slot
      end
  end.

(** [subscribe_heads] starts either loop with [last_slot = 0]. *)
Definition FIRST_LAST_SLOT : Z := 0.

(** ** Heads *)

Lemma slots_upto_run last_slot current :
  let '(out, last') := slots_upto last_slot current in
  out = seqZ (last_slot + 1) (last' - last_slot) ∧ last_slot <= last'.
Proof.
  unfold slots_upto. destruct (Z.ltb_spec last_slot current); [split; [done|lia]|].
  by rewrite Z.sub_diag.
Qed.

Lemma seqZ_join a b c : a <= b → b <= c →
  seqZ (a + 1) (b - a) ++ seqZ (b + 1) (c - b) = seqZ (a + 1) (c - a).
Proof.
  intros. replace (c - a) with ((b - a) + (c - b)) by lia. rewrite seqZ_app by lia.
  do 2 f_equal. lia.
Qed.

Section heads.
Context {W : Type} (monotonic : W → Z) (slot_of : pyval → result Z)
  (request : sol_rpc → string → M (EndpointPool string * W) pyval).

Lemma poll_slots_run rounds last_slot s : ∃ top, last_slot <= top ∧
  (poll_slots monotonic slot_of request rounds last_slot s).1 = seqZ (last_slot + 1) (top - last_slot).
Proof.
  revert last_slot s. induction rounds as [|rounds IH]; intros last_slot s; cbn [poll_slots].
  { exists last_slot. by rewrite Z.sub_diag. }
  destruct (get_latest_slot _ _ _ s) as [[current|e] s']; [|apply IH].
  pose proof (slots_upto_run last_slot current) as Hu.
  destruct (slots_upto last_slot current) as [out last']. destruct Hu as [-> Hle].
  destruct (IH last' s') as (top&Htop&E). destruct (poll_slots _ _ _ _ _ _) as [outs s''].
  cbn [fst] in *. exists top. split; [lia|]. by rewrite E, seqZ_join by lia.
Qed.

Lemma ws_slots_run msgs last_slot : ∃ top, last_slot <= top ∧
  ws_slots msgs last_slot = seqZ (last_slot + 1) (top - last_slot).
Proof.
  revert last_slot. induction msgs as [|m msgs IH]; intros last_slot; cbn [ws_slots].
  { exists last_slot. by rewrite Z.sub_diag. }
  destruct (message_slot m) as [[slot|]|e]; [|apply IH..].
  pose proof (slots_upto_run last_slot slot) as Hu.
  destruct (slots_upto last_slot slot) as [out last']. destruct Hu as [-> Hle].
  destruct (IH last') as (top&Htop&E). exists top. split; [lia|]. by rewrite E, seqZ_join by lia.
Qed.

(** The slots a Solana head subscription yields.  Whatever requests fail,
    connections drop or messages are malformed, polling and the websocket both yield
    every slot from 1 up to the highest one seen, each once and in order.  No slot is skipped; but a
    subscription always starts over at slot 1, not at the checkpoint or the tip. *)
Lemma solana_heads_from_slot_one rounds msgs s :
  (∃ top, (poll_slots monotonic slot_of request rounds FIRST_LAST_SLOT s).1 = seqZ 1 top) ∧
  (∃ top, ws_slots msgs FIRST_LAST_SLOT = seqZ 1 top).
Proof.
  split; [destruct (poll_slots_run rounds FIRST_LAST_SLOT s) as (top&_&E)
         |destruct (ws_slots_run msgs FIRST_LAST_SLOT) as (top&_&E)];
    exists top; rewrite E; unfold FIRST_LAST_SLOT; f_equal; lia.
Qed.

(** JSON-RPC errors are not errors to [get_blocks].  For a body that carries an
    [error] and no [result], [fetch_block] raises and [get_blocks] reports
    that the range holds no block, so a catch-up window skips its slots. *)
Lemma get_blocks_hides_rpc_errors a b slot d e s s' :
  dget "error" d = Some e → dget "result" d = None →
  sol_call monotonic request (GetBlocks a b) s = (Ok (PDict d), s') →
  sol_call monotonic request (GetBlock slot) s = (Ok (PDict d), s') →
  get_blocks monotonic request a b s = (Ok [], s') ∧
  fetch_slot monotonic request slot s = (Err (RuntimeError ("RPC error: " +:+ py_repr e)), s').
Proof.
  intros He Hr H1 H2. unfold get_blocks, fetch_slot, mbind. by rewrite H1, H2, He, Hr.
Qed.
End heads.

(** ** Instructions *)

(** An instruction as getBlock prints it with [encoding = json] *)
Definition raw_instruction (program : nat) (accounts : list nat) (data : string) : pyval :=
  PDict [("programIdIndex", PInt (Z.of_nat program));
         ("accounts", PList ((λ i : nat, PInt (Z.of_nat i)) <$> accounts));
         ("data", PStr data)].

Lemma py_nth_nat {A} (l : list A) (i : nat) : py_nth l (Z.of_nat i) = l !! i.
Proof. unfold py_nth. by rewrite (proj2 (Z.leb_le 0 _)), Nat2Z.id by lia. Qed.

Lemma resolve_accounts_nat keys (idxs : list nat) :
  resolve_accounts keys ((λ i : nat, PInt (Z.of_nat i)) <$> idxs) = Ok (omap (λ i, keys !! i) idxs).
Proof.
  induction idxs as [|i idxs IH]; [done|]. csimpl. rewrite py_nth_nat.
  destruct (Z.ltb_spec (Z.of_nat i) (Z.of_nat (length keys))) as [Hlt|Hge].
  - destruct (lookup_lt_is_Some_2 keys i ltac:(lia)) as [k Hk]. rewrite Hk. cbn. by rewrite IH.
  - rewrite (lookup_ge_None_2 keys i) by lia. exact IH.
Qed.

(** Where an instruction's accounts come from.  The program and the accounts of an
    instruction are the message's account keys at the compiled indices, in order; an
    index beyond the message's own keys (an account loaded from an address lookup
    table) is left out, so the accounts after it move to earlier positions. *)
Lemma instruction_accounts keys depth program accounts data :
  parse_instruction keys depth (raw_instruction program accounts data) =
  Ok (mkInstruction (default "" (keys !! program)) (omap (λ i, keys !! i) accounts) data depth).
Proof.
  unfold parse_instruction. set (ix := raw_instruction program accounts data).
  change (get_int ix "programIdIndex" 0) with (Ok (Z.of_nat program)).
  change (get_list ix "accounts") with (Ok ((λ i : nat, PInt (Z.of_nat i)) <$> accounts)).
  change (get_str ix "data" "") with (Ok data). cbn [rbind]. rewrite resolve_accounts_nat.
  unfold resolve_program. rewrite py_nth_nat.
  destruct (Z.ltb_spec (Z.of_nat program) (Z.of_nat (length keys))) as [Hlt|Hge].
  - destruct (lookup_lt_is_Some_2 keys program ltac:(lia)) as [k Hk]. by rewrite Hk.
  - by rewrite (lookup_ge_None_2 keys program) by lia.
Qed.

(** ** Witnesses *)
Module SolSample.
Definition error_body : list (string * pyval) :=
  [("jsonrpc", PStr "2.0"); ("error", PDict [("code", PInt (-32004))]); ("id", PInt 1)].
Definition request (r : sol_rpc) (url : string) : M (EndpointPool string * Z) pyval := λ s,
  (Ok (PDict error_body), s).
Definition pool : EndpointPool string := mkPool 3 30 [mkEp "http://rpc" 0 0 0] ∅ 0.
Definition after : EndpointPool string * Z := (sol_call id request GetSlot (pool, 5)).2.
End SolSample.

Lemma get_blocks_hides_rpc_errors_witness :
  get_blocks id SolSample.request 100 200 (SolSample.pool, 5) = (Ok [], SolSample.after) ∧
  fetch_slot id SolSample.request 150 (SolSample.pool, 5) =
    (Err (RuntimeError ("RPC error: " +:+ py_repr (PDict [("code", PInt (-32004))]))),
     SolSample.after).
Proof.
  apply (get_blocks_hides_rpc_errors id SolSample.request 100 200 150 SolSample.error_body);
    vm_compute; reflexivity.
Defined.
