(* ===== verification/ChainRunner.v ===== *)
(** * The chain runner (apps/worker/chain_runner.py)

    The runner's own attributes are the record [runner].  Everything it calls (the
    adapter, the checkpoint repository, the notifiers, the shared registry, the tip
    publisher) is an operation of [RunnerEnv] over a state [W], which also holds the
    [runner]: other tasks may call [apply_snapshot] or [stop] whenever an operation is
    awaited, so an operation of the environment may change the attributes.  Notifiers
    are named by handles, since [apply_snapshot] replaces the runner's notifier while
    a block under way keeps the old one. *)
From S2P Require Import Prelude PyStr PyVal Types ConfirmationBuffer Snapshot Matcher AbiLookup.
From S2P Require Import Decoder Registry Pipeline EvmParsers SolanaParsers FilterSet RpcPool.

(** ** State and environment *)

Definition hits_t : Type := list (SnapshotSubscription * list SnapshotChannel).

(** The attributes of [ChainRunner] that [start] and [apply_snapshot] set *)
Record runner := mkRunner {
  r_matcher : Matcher;
  r_notifier : nat;
  r_filter : EvmLogFilterSet;
  r_snap : ConfigSnapshot;
  r_stop : bool;
  r_resume : option (Z * string);
}.

Definition set_matcher (m : Matcher) (r : runner) : runner :=
  mkRunner m (r_notifier r) (r_filter r) (r_snap r) (r_stop r) (r_resume r).
Definition set_notifier (n : nat) (r : runner) : runner :=
  mkRunner (r_matcher r) n (r_filter r) (r_snap r) (r_stop r) (r_resume r).
Definition set_filter (f : EvmLogFilterSet) (r : runner) : runner :=
  mkRunner (r_matcher r) (r_notifier r) f (r_snap r) (r_stop r) (r_resume r).
Definition set_snap (s : ConfigSnapshot) (r : runner) : runner :=
  mkRunner (r_matcher r) (r_notifier r) (r_filter r) s (r_stop r) (r_resume r).
Definition set_stop (b : bool) (r : runner) : runner :=
  mkRunner (r_matcher r) (r_notifier r) (r_filter r) (r_snap r) b (r_resume r).
Definition set_resume (p : option (Z * string)) (r : runner) : runner :=
  mkRunner (r_matcher r) (r_notifier r) (r_filter r) (r_snap r) (r_stop r) p.

Class RunnerEnv (W : Type) := {
  re_runner : W → runner;
  re_update : (runner → runner) → W → W;
  re_registry : W → option AbiRegistry;            (** self._abi_registry *)
  re_set_registry : AbiRegistry → W → W;
  (* the adapter *)
  re_connect : M W unit;
  re_disconnect : M W unit;
  re_latest : M W Z;                               (** get_latest_block_number / get_latest_slot *)
  re_fetch_block : Z → M W Block;
  re_fetch_logs : Z → Z → option (list string) → option (list (list string)) → M W (list Log);
  re_trace_block : option (Z → M W (list InternalCall));
  re_fetch_slot : Z → M W (option SolanaBlock);
  re_get_blocks : Z → Z → M W (list Z);
  (* notifiers *)
  re_notifier_new : W → nat * W;                   (** Notifier(...) *)
  re_notifier_start : nat → list SnapshotChannel → M W unit;
  re_notifier_stop : nat → M W unit;
  re_drain : nat → M W unit;                       (** wait_for(notifier.stop(), 30.0) *)
  re_dispatch : nat → Event → hits_t → bool → W → W;
  (* checkpoints and callbacks *)
  re_cp_get : string → M W (option (Z * string));
  re_cp_save : string → Z → string → M W unit;
  re_on_block : gset string → Z → W → W;           (** its exceptions are swallowed *)
  re_publish_tip : string → Z → M W unit;
}.

(** ** Log ranges *)

(** [_bucket_by_block] *)
Definition bucket_by_block (logs : list Log) : gmap Z (list Log) :=
  foldl (λ out lg, <[log_block_number lg := default [] (out !! log_block_number lg) ++ [lg]]> out)
    ∅ logs.

Definition DEGRADE_ERR_HINTS : list string :=
  ["too large"; "result too big"; "query timeout"; "limit exceeded"; "returned more than";
   "response size exceeded"; "block range"].

Definition SOL_RANGE_TOO_LARGE_HINTS : list string :=
  ["exceeds maximum"; "too large"; "limit exceeded"].

(** [any(h in str(exc).lower() for h in hints)] *)
Definition hinted (hints : list string) (e : exn) : bool :=
  existsb (λ h, str_contains h (lower (exn_str e))) hints.

Definition MAX_CATCHUP_BLOCKS : Z := 10000.

(** [min(candidates)] *)
Definition min_list (l : list Z) : option Z :=
  match l with [] => None | x :: t => Some (foldl Z.min x t) end.

Section runner.
Context {L : AbiLib} {W : Type} {env : RunnerEnv W} (chain : SnapshotChain).

Definition is_solana : bool := String.eqb (chain_kind chain) "solana".

(** ** Configuration *)

Definition rebuild_filter (snap : ConfigSnapshot) (w : W) : W :=
  if is_solana then w
  else re_update (set_filter (build_evm_log_filter snap (chain_id chain) (re_registry w))) w.

Definition new_notifier : M W nat := λ w, let '(n, w') := re_notifier_new w in (Ok n, w').

(** [start] *)
Definition start (snap : ConfigSnapshot) : M W unit :=
  re_connect ;;*
  let* resume := re_cp_get (chain_id chain) in
  mmodify (re_update (set_resume resume)) ;;*
  mmodify (re_update (set_matcher (Matcher_init snap))) ;;*
  let* n := new_notifier in
  mmodify (re_update (set_notifier n)) ;;*
  re_notifier_start n (snap_channels snap) ;;*
  mmodify (re_update (set_snap snap)) ;;*
  mmodify (rebuild_filter snap).

(** [apply_snapshot] *)
Definition apply_snapshot (snap : ConfigSnapshot) : M W unit :=
  mmodify (re_update (set_matcher (Matcher_init snap))) ;;*
  let* old := mgets (r_notifier ∘ re_runner) in
  re_notifier_stop old ;;*
  let* n := new_notifier in
  mmodify (re_update (set_notifier n)) ;;*
  re_notifier_start n (snap_channels snap) ;;*
  mmodify (re_update (set_snap snap)) ;;*
  mmodify (rebuild_filter snap).

(** [stop] *)
Definition stop_runner : M W unit :=
  mmodify (re_update (set_stop true)) ;;*
  let* n := mgets (r_notifier ∘ re_runner) in
  mcatch (re_drain n) (λ e, match e with
                            | OtherError "TimeoutError" _ => mret tt
                            | _ => mthrow e
                            end) ;;*
  mcatch re_disconnect (λ _, mret tt).

(** [_fetch_logs_with_degrade]; the fuel bounds the depth of the bisection. *)
Fixpoint fetch_logs_with_degrade (fuel : nat) (start end_ : Z) (log_filter : EvmLogFilterSet)
    : M W (gmap Z (list Log)) := λ s,
  match re_fetch_logs start end_ (fs_addresses log_filter) (topics_param log_filter) s with
  | (Ok logs, s') => (Ok (bucket_by_block logs), s')
  | (Err exc, s') =>
      if hinted DEGRADE_ERR_HINTS exc && (start <? end_) then
        match fuel with
        | O => (Err exc, s')
        | S fuel' =>
            (let mid := (start + end_) / 2 in
             let* lefts := fetch_logs_with_degrade fuel' start mid log_filter in
             let* rights := fetch_logs_with_degrade fuel' (mid + 1) end_ log_filter in
             mret (rights ∪ lefts)) s'
        end
      else (Err exc, s')
  end.

(** Enough for any range: every split leaves fewer blocks on each side. *)
Definition degrade_fuel (start end_ : Z) : nat := Z.to_nat (end_ - start).

(** ** One EVM block *)

(** A parser run over the shared registry; without a registry no parser uses one. *)
Definition run_gen {A} (g : gen AbiRegistry A) (w : W) : (list A * option exn) * W :=
  match re_registry w with
  | Some r => let '(res, r') := g r in (res, re_set_registry r' w)
  | None => let '(res, _) := g AbiRegistry_init in (res, w)
  end.

(** [list(self._evm_pipeline.run(block))] *)
Definition evm_events (block : Block) (w : W) : list Event * W :=
  let has_registry := bool_decide (is_Some (re_registry w)) in
  let '((evs, _), w') :=
    run_gen (pipeline_run (evm_parsers (chain_id chain) has_registry) block) w in (evs, w').

Definition solana_events (block : SolanaBlock) (w : W) : list Event * W :=
  let has_registry := bool_decide (is_Some (re_registry w)) in
  let '((evs, _), w') :=
    run_gen (pipeline_run (solana_parsers (chain_id chain) has_registry) block) w in (evs, w').

(** The dispatches of a list of events; returns the ids of the subscriptions hit. *)
Fixpoint dispatch_events (matcher : Matcher) (notifier : nat) (replay : bool)
    (events : list Event) (w : W) : gset string * W :=
  match events with
  | [] => (∅, w)
  | ev :: t =>
      match event_hits matcher ev with
      | [] => dispatch_events matcher notifier replay t w
      | hits =>
          let '(ids, w') := dispatch_events matcher notifier replay t
                              (re_dispatch notifier ev hits replay w) in
          (list_to_set (sub_id ∘ fst <$> hits) ∪ ids, w')
      end
  end.

(** The internal-call part of [_process_block_with_prefetched_logs] *)
Definition process_internal_calls (number : Z) (block : Block) (matcher : Matcher)
    (notifier : nat) : M W unit := λ w,
  if chain_trace_internal_calls chain && bool_decide (is_Some (re_registry w)) then
    match re_trace_block with
    | None => (Ok tt, w)
    | Some trace_fn =>
        (let* traces := trace_fn number in
         match traces with
         | [] => mret tt
         | _ => λ w,
             let '((events, exc), w1) := run_gen (internal_call_parse (chain_id chain) traces block) w in
             let '(_, w2) := dispatch_events matcher notifier false events w1 in
             match exc with
             | Some e => (Err e, w2)
             | None => (Ok tt, w2)
             end
         end) w
    end
  else (Ok tt, w).

(** What follows the dispatches of a block: the checkpoint, then the callback *)
Definition finish_block (number : Z) (hash : string) (matched : gset string) : M W unit :=
  re_cp_save (chain_id chain) number hash ;;*
  mmodify (λ w, if decide (matched = ∅) then w else re_on_block matched number w).

(** [_process_block_with_prefetched_logs].  The dispatch tasks run concurrently and
    are isolated from each other; they are started before the traces are awaited. *)
Definition process_block (number : Z) (block : Block) (prefetched_logs : list Log)
    (matcher : Matcher) (notifier : nat) : M W unit := λ w,
  let block := with_logs block prefetched_logs in
  let '(events, w1) := evm_events block w in
  let '(matched, w2) := dispatch_events matcher notifier false events w1 in
  (process_internal_calls number block matcher notifier ;;*
   finish_block (hdr_number (blk_header block)) (hdr_hash (blk_header block)) matched) w2.

(** [_process_confirmed_block]; [asyncio.gather] starts both requests. *)
Definition process_confirmed_block (number : Z) (matcher : Matcher) (notifier : nat) : M W unit := λ w,
  let log_filter := r_filter (re_runner w) in
  let '(rb, w1) := re_fetch_block number w in
  let '(rl, w2) := if fs_skip_logs log_filter then (Ok [], w1)
                   else re_fetch_logs number number (fs_addresses log_filter)
                          (topics_param log_filter) w1 in
  match rb, rl with
  | Ok block, Ok logs => process_block number block logs matcher notifier w2
  | Err e, _ | _, Err e => (Err e, w2)
  end.

(** ** Catch-up *)

(** The blocks to resume from: the checkpoint and the start blocks of the chain's
    enabled subscriptions. *)
Definition catchup_candidates (r : runner) : list Z :=
  option_list (fst <$> r_resume r) ++
  omap (λ x, if bool_decide (sub_chain_id x = chain_id chain) && sub_enabled x
             then sub_start_block x else None) (snap_subscriptions (r_snap r)).

(** The first and the last block to catch up: lines 341-364 with [margin] the
    confirmations, and lines 432-453 with no margin. *)
Definition catchup_range (margin : Z) : W → option (Z * Z) * W := λ w,
  match min_list (catchup_candidates (re_runner w)) with
  | None => (None, w)
  | Some last_block =>
      match re_latest w with
      | (Err _, w') => (None, w')
      | (Ok tip, w') =>
          let safe_tip := tip - margin in
          let gap := safe_tip - last_block in
          if gap <=? 0 then (None, w')
          else
            let last_block := if MAX_CATCHUP_BLOCKS <? gap then safe_tip - MAX_CATCHUP_BLOCKS
                              else last_block in
            (Some (last_block + 1, safe_tip), w')
      end
  end.

(** The inner loop over [count] blocks from [n]; [true] when the stop flag was seen. *)
Fixpoint catchup_blocks (count : nat) (n : Z) (logs_by_block : gmap Z (list Log))
    (matcher : Matcher) (notifier : nat) : M W bool := λ w,
  match count with
  | O => (Ok false, w)
  | S count' =>
      if r_stop (re_runner w) then (Ok true, w)
      else
        (let* block := re_fetch_block n in
         process_block n block (default [] (logs_by_block !! n)) matcher notifier ;;*
         catchup_blocks count' (n + 1) logs_by_block matcher notifier) w
  end.

(** One window: [Ok true] when stopped *)
Definition catchup_window (start_n end_n : Z) (log_filter : EvmLogFilterSet)
    (matcher : Matcher) (notifier : nat) : M W bool :=
  let* logs_by_block :=
    (if fs_skip_logs log_filter then mret ∅
     else fetch_logs_with_degrade (degrade_fuel start_n end_n) start_n end_n log_filter) in
  catchup_blocks (Z.to_nat (end_n - start_n + 1)) start_n logs_by_block matcher notifier.

(** The window loop; the fuel bounds the number of windows, which is at most the
    number of blocks when a window has at least one. *)
Fixpoint catchup_windows (fuel : nat) (start_n safe_tip : Z) (w : W) : W :=
  match fuel with
  | O => w
  | S fuel' =>
      if safe_tip <? start_n then w
      else
        let r := re_runner w in
        let end_n := Z.min (start_n + chain_log_query_range_blocks chain - 1) safe_tip in
        match catchup_window start_n end_n (r_filter r) (r_matcher r) (r_notifier r) w with
        | (Ok false, w') => catchup_windows fuel' (end_n + 1) safe_tip w'
        | (Ok true, w') => w'                 (* stop: return *)
        | (Err _, w') => w'                   (* catchup_window_failed: break *)
        end
  end.

(** [_catchup_evm] *)
Definition catchup_evm (w : W) : W :=
  match catchup_range (chain_confirmations chain) w with
  | (None, w') => w'
  | (Some (first, safe_tip), w') => catchup_windows (Z.to_nat (safe_tip - first + 1)) first safe_tip w'
  end.

(** ** Live heads *)

(** [_prefetch_ancestors_for]: the loop over [count] heights down from [n] *)
Fixpoint prefetch_from (count : nat) (n : Z) (out : gmap string BlockHeader) (w : W)
    : gmap string BlockHeader * W :=
  match count with
  | O => (out, w)
  | S count' =>
      if n <? 0 then (out, w)
      else match re_fetch_block n w with
           | (Err _, w') => (out, w')
           | (Ok blk, w') =>
               prefetch_from count' (n - 1) (<[hdr_hash (blk_header blk) := blk_header blk]> out) w'
           end
  end.

Definition prefetch_ancestors_for (header : BlockHeader) (w : W) : gmap string BlockHeader * W :=
  let depth := Z.max 1 (chain_confirmations chain + 1) in
  prefetch_from (Z.to_nat depth) (hdr_number header - 1) ∅ w.

(** [_buffer] and [_buffer_tip_hash], which only the head loop uses *)
Record live_state := mkLive {
  lv_buffer : ConfirmationBuffer;
  lv_tip_hash : option string;
}.

Definition resolve_from (cache : gmap string BlockHeader) (n : Z) (h : string)
    : result BlockHeader :=
  match cache !! h with
  | Some b => Ok b
  | None => Err (KeyError ("ancestor " +:+ h +:+ " at height " +:+ py_str n +:+
                           " not in prefetch cache"))
  end.

Definition ancestors_for (lv : live_state) (header : BlockHeader) (w : W)
    : gmap string BlockHeader * W :=
  match lv_tip_hash lv with
  | Some h => if String.eqb h (hdr_parent_hash header) then (∅, w)
              else prefetch_ancestors_for header w
  | None => (∅, w)
  end.

(** [_handle_evm_head] *)
Definition handle_evm_head (header : BlockHeader) : M (live_state * W) unit := λ '(lv, w),
  match re_publish_tip (chain_id chain) (hdr_number header) w with
  | (Err e, w0) => (Err e, (lv, w0))
  | (Ok _, w0) =>
      let matcher := r_matcher (re_runner w0) in
      let notifier := r_notifier (re_runner w0) in
      let '(cache, w1) := ancestors_for lv header w0 in
      match handle_new_head (lv_buffer lv) header (resolve_from cache) with
      | (Err e, buf) => (Err e, (mkLive buf (lv_tip_hash lv), w1))
      | (Ok result, buf) =>
          let '(res, w2) := mfor (confirmed_of result) (λ h,
            process_confirmed_block (hdr_number h) matcher notifier) w1 in
          (res, (mkLive buf (Some (hdr_hash header)), w2))
      end
  end.

(** The [async for] of [_run_evm] over the heads the subscription yields; an exception
    of the subscription itself ends the run after them. *)
Fixpoint live_loop (heads : list BlockHeader) : M (live_state * W) unit := λ st,
  match heads with
  | [] => (Ok tt, st)
  | h :: t => if r_stop (re_runner st.2) then (Ok tt, st)
              else (handle_evm_head h ;;* live_loop t) st
  end.

(** [_run_evm] *)
Definition run_evm (heads : list BlockHeader) : M (live_state * W) unit := λ st,
  live_loop heads (st.1, catchup_evm st.2).

(** ** Solana *)

(** [_process_solana_slot] *)
Definition process_solana_slot (slot : Z) : M W unit := λ w,
  let matcher := r_matcher (re_runner w) in
  let notifier := r_notifier (re_runner w) in
  match re_fetch_slot slot w with
  | (Err e, w') => (Err e, w')
  | (Ok None, w') => (Ok tt, w')
  | (Ok (Some b), w') =>
      let '(events, w1) := solana_events b w' in
      let '(matched, w2) := dispatch_events matcher notifier false events w1 in
      finish_block (sb_slot b) (sb_block_hash b) matched w2
  end.

(** [_get_blocks_classified] *)
Definition get_blocks_classified (start end_ : Z) : M W (list Z) :=
  mcatch (re_get_blocks start end_) (λ exc,
    if hinted SOL_RANGE_TOO_LARGE_HINTS exc then mthrow exc
    else mret (seqZ start (end_ - start + 1))).

(** The slots of one window; a slot that fails is skipped. [true]: stopped *)
Fixpoint catchup_slots (slots : list Z) (w : W) : bool * W :=
  match slots with
  | [] => (false, w)
  | x :: t => if r_stop (re_runner w) then (true, w)
              else catchup_slots t (process_solana_slot x w).2
  end.

Fixpoint catchup_slot_windows (fuel : nat) (start_s tip : Z) : M W unit := λ w,
  match fuel with
  | O => (Ok tt, w)
  | S fuel' =>
      if tip <? start_s then (Ok tt, w)
      else
        let end_s := Z.min (start_s + chain_slot_query_range_blocks chain - 1) tip in
        match get_blocks_classified start_s end_s w with
        | (Err e, w') => (Err e, w')
        | (Ok valid, w') =>
            let '(stopped, w'') := catchup_slots valid w' in
            if stopped then (Ok tt, w'') else catchup_slot_windows fuel' (end_s + 1) tip w''
        end
  end.

(** [_catchup_solana] *)
Definition catchup_solana : M W unit := λ w,
  match catchup_range 0 w with
  | (None, w') => (Ok tt, w')
  | (Some (first, tip), w') => catchup_slot_windows (Z.to_nat (tip - first + 1)) first tip w'
  end.

(** The [async for] of [_run_solana] over the slots the subscription yields *)
Fixpoint solana_loop (slots : list Z) : M W unit := λ w,
  match slots with
  | [] => (Ok tt, w)
  | x :: t => if r_stop (re_runner w) then (Ok tt, w)
              else (re_publish_tip (chain_id chain) x ;;* process_solana_slot x ;;* solana_loop t) w
  end.

(** [_run_solana] *)
Definition run_solana (slots : list Z) : M W unit := catchup_solana ;;* solana_loop slots.

(** [run]: what ends the loop of the chain's kind is logged and raised again. *)
Definition run (heads : list BlockHeader) (slots : list Z) : M (live_state * W) unit := λ st,
  if is_solana then let '(r, w) := run_solana slots st.2 in (r, (st.1, w)) else run_evm heads st.

(** ** Replay *)

(** The loop of [_replay_evm] over [count] blocks from [n] *)
Fixpoint replay_evm_blocks (count : nat) (n : Z) (log_filter : EvmLogFilterSet)
    (matcher : Matcher) (notifier : nat) : M W unit := λ w,
  match count with
  | O => (Ok tt, w)
  | S count' =>
      if r_stop (re_runner w) then (Ok tt, w)
      else
        (let* block := re_fetch_block n in
         let* logs := (if fs_skip_logs log_filter then mret []
                       else re_fetch_logs n n (fs_addresses log_filter)
                              (topics_param log_filter)) in
         mmodify (λ w, let '(events, w1) := evm_events (with_logs block logs) w in
                       (dispatch_events matcher notifier true events w1).2) ;;*
         replay_evm_blocks count' (n + 1) log_filter matcher notifier) w
  end.

(** [_replay_evm] *)
Definition replay_evm (sub : SnapshotSubscription) (from_block to_block : Z)
    (matcher : Matcher) (notifier : nat) : M W unit :=
  let* reg := mgets re_registry in
  let log_filter := build_evm_log_filter (mkSnapshot (-1) [sub] [] [] []) (chain_id chain) reg in
  let* tip := re_latest in
  let to_block := Z.min to_block (tip - chain_confirmations chain) in
  if to_block <? from_block then mret tt
  else replay_evm_blocks (Z.to_nat (to_block - from_block + 1)) from_block log_filter matcher notifier.

(** The loop of [_replay_solana] *)
Fixpoint replay_solana_slots (count : nat) (slot : Z) (matcher : Matcher) (notifier : nat)
    : M W unit := λ w,
  match count with
  | O => (Ok tt, w)
  | S count' =>
      if r_stop (re_runner w) then (Ok tt, w)
      else
        (let* block := re_fetch_slot slot in
         mmodify (λ w, match block with
                       | None => w
                       | Some b => let '(events, w1) := solana_events b w in
                                   (dispatch_events matcher notifier true events w1).2
                       end) ;;*
         replay_solana_slots count' (slot + 1) matcher notifier) w
  end.

(** [_replay_solana] *)
Definition replay_solana (from_slot to_slot : Z) (matcher : Matcher) (notifier : nat) : M W unit :=
  let* tip := re_latest in
  let to_slot := Z.min to_slot tip in
  if to_slot <? from_slot then mret tt
  else replay_solana_slots (Z.to_nat (to_slot - from_slot + 1)) from_slot matcher notifier.

(** [replay], of a message already parsed into a subscription and its channels *)
Definition replay (sub : SnapshotSubscription) (channels : list SnapshotChannel)
    (from_block to_block : Z) : M W unit :=
  let matcher := Matcher_init (mkSnapshot (-1) [sub] channels [] []) in
  let* notifier := new_notifier in
  re_notifier_start notifier channels ;;*
  mcatch (if is_solana then replay_solana from_block to_block matcher notifier
          else replay_evm sub from_block to_block matcher notifier)
    (λ _, mret tt) ;;*
  re_notifier_stop notifier.
End runner.

(** ** Buckets *)

Lemma bucket_snoc logs lg :
  bucket_by_block (logs ++ [lg]) =
  <[log_block_number lg := default [] (bucket_by_block logs !! log_block_number lg) ++ [lg]]>
    (bucket_by_block logs).
Proof. unfold bucket_by_block. by rewrite foldl_app. Qed.

(** A bucket holds the logs of its block in the order they were returned; a block
    without logs has no bucket. *)
Lemma bucket_lookup logs n :
  bucket_by_block logs !! n =
  match filter (λ lg, log_block_number lg = n) logs with [] => None | l => Some l end.
Proof.
  induction logs as [|lg logs IH] using rev_ind; [done|].
  rewrite bucket_snoc, filter_app, filter_cons, filter_nil.
  destruct (decide (log_block_number lg = n)) as [<-|Hne].
  - rewrite lookup_insert_eq, IH. by destruct (filter _ logs).
  - rewrite lookup_insert_ne, app_nil_r by done. exact IH.
Qed.

(** ** Observations that processing a block leaves alone *)
Section quiet.
Context {L : AbiLib} {W : Type} {env : RunnerEnv W} (chain : SnapshotChain).
Context {X : Type} (obs : W → X).

Record quiet : Prop := {
  q_registry : ∀ r w, obs (re_set_registry r w) = obs w;
  q_dispatch : ∀ k ev hits rp w, obs (re_dispatch k ev hits rp w) = obs w;
  q_trace : ∀ f n w, re_trace_block = Some f → obs (f n w).2 = obs w;
  q_on_block : ∀ ids n w, obs (re_on_block ids n w) = obs w;
}.

Context (Hq : quiet).

Lemma run_gen_quiet {A} (g : gen AbiRegistry A) w : obs (run_gen g w).2 = obs w.
Proof.
  unfold run_gen. destruct (re_registry w) as [r|].
  - destruct (g r) as [res r']. apply (q_registry Hq).
  - by destruct (g _).
Qed.

Lemma evm_events_quiet block w : obs (evm_events chain block w).2 = obs w.
Proof.
  unfold evm_events. set (g := pipeline_run _ _). pose proof (run_gen_quiet g w) as H.
  by destruct (run_gen g w) as [[evs e] w'].
Qed.

Lemma dispatch_events_quiet m k rp evs w : obs (dispatch_events m k rp evs w).2 = obs w.
Proof.
  revert w. induction evs as [|ev evs IH]; intros w; cbn [dispatch_events]; [done|].
  destruct (event_hits m ev) as [|h hs]; [apply IH|].
  pose proof (IH (re_dispatch k ev (h :: hs) rp w)) as H.
  destruct (dispatch_events _ _ _ _ _) as [ids w']. etrans; [exact H|apply (q_dispatch Hq)].
Qed.

Lemma internal_calls_quiet n b m k w : obs (process_internal_calls chain n b m k w).2 = obs w.
Proof.
  unfold process_internal_calls. destruct (_ && _); [|done].
  destruct re_trace_block as [f|] eqn:Hf; [|done]. unfold mbind.
  pose proof (q_trace Hq f n w Hf) as H1. destruct (f n w) as [[traces|e] w1]; [|done].
  cbn [snd] in H1. destruct traces as [|t ts]; [done|].
  pose proof (run_gen_quiet (internal_call_parse (chain_id chain) (t :: ts) b) w1) as H2.
  destruct (run_gen _ w1) as [[evs exc] w2]. cbn [snd] in H2.
  pose proof (dispatch_events_quiet m k false evs w2) as H3.
  destruct (dispatch_events _ _ _ _ _) as [ids w3]. cbn [snd] in H3.
  destruct exc; cbn; congruence.
Qed.

(** All of a block but its last step, the checkpoint *)
Lemma process_block_split n b logs m k w : ∃ w1, obs w1 = obs w ∧
  ((∃ e, process_block chain n b logs m k w = (Err e, w1)) ∨
   ∃ ids, process_block chain n b logs m k w =
          finish_block chain (hdr_number (blk_header b)) (hdr_hash (blk_header b)) ids w1).
Proof.
  unfold process_block. pose proof (evm_events_quiet (with_logs b logs) w) as H1.
  destruct (evm_events _ _ w) as [evs w1]. cbn [snd] in H1.
  pose proof (dispatch_events_quiet m k false evs w1) as H2.
  destruct (dispatch_events _ _ _ _ _) as [ids w2]. cbn [snd] in H2. unfold mbind.
  pose proof (internal_calls_quiet n (with_logs b logs) m k w2) as H3.
  destruct (process_internal_calls _ _ _ _ _ w2) as [[[]|e] w3]; cbn [snd] in *;
    exists w3; (split; [congruence|]); [right|left]; eauto.
Qed.
End quiet.

(** ** Size errors and the endpoint pool *)

Definition endpoints_failed (n : nat) : string :=
  "all " +:+ py_str (Z.of_nat n) +:+ " endpoints failed".

Definition foreign_chars : list ascii := ["r"; "q"; "m"; "b"; "x"]%char.

Lemma endpoints_failed_lacks c n :
  c ∈ foreign_chars → str_has c (lower (endpoints_failed n)) = false.
Proof.
  intros Hc. unfold endpoints_failed. rewrite !lower_app, lower_py_str, !str_has_app.
  rewrite py_str_has; [each_elem Hc|]. intros d Hd. unfold foreign_chars in Hc.
  repeat (apply elem_of_cons in Hc as [->|Hc]; [small_cases d Hd|]). by apply not_elem_of_nil in Hc.
Qed.

(** A message without hints: each hint has a character the message lacks *)
Lemma hinted_lacks hints e :
  Forall (λ h, ∃ c, str_has c h = true ∧ str_has c (lower (exn_str e)) = false) hints →
  hinted hints e = false.
Proof.
  unfold hinted. induction 1 as [|h hints (c&Hh&He) _ IH]; [done|]. cbn.
  by rewrite (str_contains_has c) by done.
Qed.

Lemma hints_foreign :
  Forall (λ h, ∃ c, c ∈ foreign_chars ∧ str_has c h = true)
    (DEGRADE_ERR_HINTS ++ SOL_RANGE_TOO_LARGE_HINTS).
Proof.
  repeat constructor;
    first [ by exists "r"%char; split; [apply (bool_decide_unpack _); vm_compute|vm_compute]
          | by exists "q"%char; split; [apply (bool_decide_unpack _); vm_compute|vm_compute]
          | by exists "m"%char; split; [apply (bool_decide_unpack _); vm_compute|vm_compute]
          | by exists "b"%char; split; [apply (bool_decide_unpack _); vm_compute|vm_compute]
          | by exists "x"%char; split; [apply (bool_decide_unpack _); vm_compute|vm_compute] ].
Qed.

Section pool_errors.
Context {H W T : Type} (monotonic : W → Z) (attempt : H → M (EndpointPool H * W) T).

Lemma call_loop_error n cands last s e s' :
  call_loop monotonic attempt n cands last s = (Err e, s') →
  exn_str e = endpoints_failed n ∨ exn_str e = "".
Proof.
  revert last s. induction cands as [|i cands IH]; intros last s; cbn [call_loop].
  { intros [= <- <-]. by left. }
  destruct (pool_eps s.1 !! i) as [ep|]; [|intros [= <- <-]; by right].
  destruct (attempt (ep_handle ep) s) as [[r|exc] [p w]]; [done|]. apply IH.
Qed.

(** The size hints never reach the runner.  Adapters make their requests through
    the endpoint pool, which replaces the endpoints' exceptions by its own; the
    message of that carries none of the hints, so an error raised by the pool is
    never recognised as a range that is too large: the EVM log query is not bisected
    and the Solana one not classified. *)
Lemma pool_errors_hide_hints s e s' :
  call monotonic attempt s = (Err e, s') →
  hinted DEGRADE_ERR_HINTS e = false ∧ hinted SOL_RANGE_TOO_LARGE_HINTS e = false.
Proof.
  intros Hc%call_loop_error. pose proof hints_foreign as Hf. apply Forall_app in Hf as [H1 H2].
  split; apply hinted_lacks; (eapply Forall_impl; [eassumption|]);
    intros h (c&Hin&Hh); exists c; (split; [done|]);
    (destruct Hc as [->| ->]; [by apply endpoints_failed_lacks|done]).
Qed.
End pool_errors.

(** What the endpoint pool can raise *)
Definition pool_raises (e : exn) : Prop :=
  ∃ (H W T : Type) (monotonic : W → Z) (attempt : H → M (EndpointPool H * W) T) s s',
    call monotonic attempt s = (Err e, s').

Lemma pool_raises_no_hint e : pool_raises e → hinted DEGRADE_ERR_HINTS e = false.
Proof. intros (H&W&T&mono&att&s&s'&Hc). by eapply pool_errors_hide_hints. Qed.

(** ** Catch-up against a node that answers log queries for bounded ranges

    [node_matching addresses topics n] are the logs of block [n] the node selects.
    The node refuses the ranges [too_large] selects, never a single block; [too_large_exn] is what the
    adapter raises then, the node's own size error or the message of the endpoint pool that hides it.
    Requests leave the world as it is; no snapshot is applied meanwhile ([steady]), but [stop] may be called. *)
Section bounded_node.
Context {L : AbiLib} {W : Type} {env : RunnerEnv W} (chain : SnapshotChain).
Context (node_block : Z → result Block)
  (node_matching : option (list string) → option (list (list string)) → Z → list Log)
  (too_large : Z → Z → bool) (too_large_exn : exn).

Definition config (w : W) : Matcher * nat * EvmLogFilterSet :=
  (r_matcher (re_runner w), r_notifier (re_runner w), r_filter (re_runner w)).

Record bounded_node : Prop := {
  bn_block : ∀ n w, re_fetch_block n w = (node_block n, w);
  bn_logs : ∀ a b ad tp w, re_fetch_logs a b ad tp w =
    (if too_large a b then Err too_large_exn
     else Ok (seqZ a (b - a + 1) ≫= node_matching ad tp), w);
  bn_logs_number : ∀ ad tp n lg, lg ∈ node_matching ad tp n → log_block_number lg = n;
  bn_single : ∀ n, too_large n n = false;
}.

(** The blocks of the windows from [start] on, up to the first window whose query is refused *)
Fixpoint blocks_answered (fuel : nat) (f : EvmLogFilterSet) (start safe_tip : Z) : nat :=
  match fuel with
  | O => 0
  | S fuel' =>
      if safe_tip <? start then 0
      else
        let end_n := Z.min (start + chain_log_query_range_blocks chain - 1) safe_tip in
        if negb (fs_skip_logs f) && too_large start end_n then 0
        else Z.to_nat (end_n - start + 1) + blocks_answered fuel' f (end_n + 1) safe_tip
  end.

(** The blocks that a catch-up gets logs for: all when the runner recognises the size error *)
Definition blocks_reached (f : EvmLogFilterSet) (first safe_tip : Z) : nat :=
  if hinted DEGRADE_ERR_HINTS too_large_exn then Z.to_nat (safe_tip - first + 1)
  else blocks_answered (Z.to_nat (safe_tip - first + 1)) f first safe_tip.

Record steady : Prop := {
  st_quiet : quiet config;
  st_save : ∀ c n h w, config (re_cp_save c n h w).2 = config w;
}.

Context (Hnode : bounded_node) (Hsteady : steady).

(** *** The bisection *)

Lemma matching_filter ad tp a k n :
  filter (λ lg, log_block_number lg = n) (seqZ a k ≫= node_matching ad tp) =
  if decide (a <= n < a + k) then node_matching ad tp n else [].
Proof.
  destruct (decide (0 <= k)) as [Hk|Hk].
  2: { rewrite seqZ_nil by lia. rewrite decide_False by lia. done. }
  revert a. pattern k. apply natlike_ind; [|clear k Hk; intros k Hk IH a|done].
  { intros a. rewrite seqZ_nil by lia. by rewrite decide_False by lia. }
  rewrite seqZ_cons by lia. rewrite bind_cons, filter_app.
  rewrite Z.pred_succ, IH.
  assert (filter (λ lg, log_block_number lg = n) (node_matching ad tp a) =
          if decide (a = n) then node_matching ad tp n else []) as ->.
  { destruct (decide (a = n)) as [<-|Hne].
    - apply filter_all. apply Forall_forall. intros x. apply (bn_logs_number Hnode).
    - apply filter_none. apply Forall_forall. intros x Hx%(bn_logs_number Hnode). lia. }
  destruct (decide (a = n)) as [->|].
  - rewrite (decide_True (P:=n <= n < _)), decide_False by lia. by rewrite app_nil_r.
  - destruct (decide (a <= n < _)); [rewrite decide_True by lia|rewrite decide_False by lia]; done.
Qed.

(** A block without logs has no bucket. *)
Definition bucket_of (l : list Log) : option (list Log) :=
  match l with [] => None | _ => Some l end.

(** The buckets of the blocks [start .. end_], whatever ranges had to be split *)
Definition covers (f : EvmLogFilterSet) (start end_ : Z) (m : gmap Z (list Log)) : Prop :=
  ∀ n, m !! n = if decide (start <= n <= end_)
                then bucket_of (node_matching (fs_addresses f) (topics_param f) n) else None.

Lemma bucket_covers f a b :
  covers f a b (bucket_by_block
    (seqZ a (b - a + 1) ≫= node_matching (fs_addresses f) (topics_param f))).
Proof.
  intros n. rewrite bucket_lookup, matching_filter.
  destruct (decide (a <= n <= b)); [rewrite decide_True by lia|rewrite decide_False by lia];
    [by destruct (node_matching _ _ n)|done].
Qed.

Lemma covers_union f a mid b m1 m2 :
  a <= mid < b → covers f a mid m1 → covers f (mid + 1) b m2 → covers f a b (m2 ∪ m1).
Proof.
  intros Hmid H1 H2 n. rewrite lookup_union, H1, H2.
  repeat case_decide; try lia; try done; by destruct (bucket_of (node_matching _ _ n)).
Qed.

Lemma degrade_covers fuel a b f w :
  (Z.to_nat (b - a) <= fuel)%nat → a <= b →
  hinted DEGRADE_ERR_HINTS too_large_exn = true ∨ too_large a b = false →
  ∃ m, fetch_logs_with_degrade fuel a b f w = (Ok m, w) ∧ covers f a b m.
Proof.
  revert a b. induction fuel as [|fuel IH]; intros a b Hf Hab Hh;
    cbn [fetch_logs_with_degrade]; rewrite (bn_logs Hnode).
  - assert (b = a) as -> by lia. rewrite (bn_single Hnode). eauto using bucket_covers.
  - destruct (too_large a b) eqn:Ht; [|by eauto using bucket_covers].
    assert (a < b) as Hlt.
    { destruct (decide (a = b)) as [->|]; [|lia]. by rewrite (bn_single Hnode) in Ht. }
    destruct Hh as [Hh|Hh]; [|congruence]. rewrite Hh, (proj2 (Z.ltb_lt a b) Hlt). cbn [andb]. cbv zeta.
    pose proof (Z.div_mod (a + b) 2 ltac:(lia)). pose proof (Z.mod_pos_bound (a + b) 2 ltac:(lia)).
    set (mid := (a + b) / 2) in *.
    destruct (IH a mid) as (m1&E1&H1); [lia..|by left|]. destruct (IH (mid + 1) b) as (m2&E2&H2); [lia..|by left|].
    unfold mbind. rewrite E1, E2. exists (m2 ∪ m1). split; [done|].
    apply (covers_union f a mid); [lia|done..].
Qed.

(** *** Blocks and windows *)

(** The reference: every block on its own, as the live path processes it *)
Fixpoint process_each (count : nat) (n : Z) (w : W) : W :=
  match count with
  | O => w
  | S count' =>
      if r_stop (re_runner w) then w
      else match process_confirmed_block chain n (r_matcher (re_runner w))
                   (r_notifier (re_runner w)) w with
           | (Ok _, w') => process_each count' (n + 1) w'
           | (Err _, w') => w'
           end
  end.

Lemma process_block_config n b logs m k w :
  config (process_block chain n b logs m k w).2 = config w.
Proof.
  destruct (process_block_split chain config (st_quiet Hsteady) n b logs m k w)
    as (w1&<-&[[e ->]|[ids ->]]); [done|].
  unfold finish_block, mbind. pose proof (st_save Hsteady (chain_id chain)
    (hdr_number (blk_header b)) (hdr_hash (blk_header b)) w1) as H1.
  destruct (re_cp_save _ _ _ w1) as [[[]|e] w2]; cbn [snd] in H1; [|done]. cbn.
  case_decide; [done|]. by rewrite (q_on_block _ (st_quiet Hsteady)).
Qed.

(** Processing a block with logs fetched for its window is processing it on its own. *)
Lemma confirmed_with_logs n w logs :
  default [] logs =
    (if fs_skip_logs (r_filter (re_runner w)) then []
     else node_matching (fs_addresses (r_filter (re_runner w)))
            (topics_param (r_filter (re_runner w))) n) →
  process_confirmed_block chain n (r_matcher (re_runner w)) (r_notifier (re_runner w)) w =
  (let* block := re_fetch_block n in
   process_block chain n block (default [] logs) (r_matcher (re_runner w))
     (r_notifier (re_runner w))) w.
Proof.
  intros Hlogs. unfold process_confirmed_block, mbind. rewrite (bn_block Hnode), Hlogs.
  destruct (fs_skip_logs _); [by destruct (node_block n)|].
  rewrite (bn_logs Hnode), (bn_single Hnode), Z.sub_diag, seqZ_cons, seqZ_nil by lia.
  rewrite bind_cons. cbn. rewrite app_nil_r. by destruct (node_block n).
Qed.
(** The logs a window fetched for block [n], as the block's own query returns them *)
Definition logs_agree (f : EvmLogFilterSet) (n : Z) (logs : gmap Z (list Log)) : Prop :=
  default [] (logs !! n) =
  if fs_skip_logs f then [] else node_matching (fs_addresses f) (topics_param f) n.

Lemma catchup_blocks_each count n logs w m k f :
  m = r_matcher (re_runner w) → k = r_notifier (re_runner w) → f = r_filter (re_runner w) →
  (∀ i, n <= i < n + Z.of_nat count → logs_agree f i logs) →
  match catchup_blocks chain count n logs m k w with
  | (Ok false, w') => config w' = config w ∧
      ∀ c, process_each (count + c) n w = process_each c (n + Z.of_nat count) w'
  | (_, w') => ∀ c, process_each (count + c) n w = w'
  end.
Proof.
  revert n w. induction count as [|count IH]; intros n w -> -> -> Hlogs; cbn [catchup_blocks].
  { split; [done|]. intros c. by rewrite Z.add_0_r. }
  cbn [process_each Nat.add]. destruct (r_stop (re_runner w)); [done|].
  assert (logs_agree (r_filter (re_runner w)) n logs) as Hn by (apply Hlogs; lia).
  rewrite (confirmed_with_logs n w _ Hn). unfold mbind. rewrite (bn_block Hnode).
  destruct (node_block n) as [block|e]; [|done].
  pose proof (process_block_config n block (default [] (logs !! n))
    (r_matcher (re_runner w)) (r_notifier (re_runner w)) w) as Hs.
  destruct (process_block _ _ _ _ _ _ w) as [[[]|e] w1]; [|done]. cbn [snd] in Hs.
  pose proof Hs as Hc. unfold config in Hc. injection Hc as Hm Hk Hf.
  specialize (IH (n + 1) w1 (eq_sym Hm) (eq_sym Hk) (eq_sym Hf) ltac:(intros i Hi; apply Hlogs; lia)).
  destruct (catchup_blocks _ _ _ _ _ _ w1) as [[[]|e] w2]; [done| |done].
  destruct IH as [Hs2 IH]. split; [congruence|]. intros c. rewrite IH. f_equal. lia.
Qed.

(** The logs of a window: refused, or those that every block's own query returns *)
Lemma window_logs a b f w :
  a <= b →
  if negb (hinted DEGRADE_ERR_HINTS too_large_exn) && (negb (fs_skip_logs f) && too_large a b) then
    fetch_logs_with_degrade (degrade_fuel a b) a b f w = (Err too_large_exn, w) ∧ fs_skip_logs f = false
  else
    ∃ m, (if fs_skip_logs f then mret ∅ else fetch_logs_with_degrade (degrade_fuel a b) a b f) w = (Ok m, w) ∧
      ∀ i, a <= i <= b → logs_agree f i m.
Proof.
  intros Hab. unfold logs_agree. destruct (fs_skip_logs f) eqn:Es; cbn [negb andb].
  { rewrite andb_false_r. exists ∅. split; [done|]. intros i _. by rewrite lookup_empty. }
  destruct (hinted DEGRADE_ERR_HINTS too_large_exn) eqn:Eh, (too_large a b) eqn:Et; cbn [negb andb].
  3: { split; [|done]. unfold degrade_fuel.
       destruct (Z.to_nat (b - a)); cbn [fetch_logs_with_degrade]; by rewrite (bn_logs Hnode), Et, Eh. }
  all: destruct (degrade_covers (degrade_fuel a b) a b f w) as (m&Em&Hc); [done|done|by auto|];
    exists m; (split; [exact Em|]); intros i Hi; rewrite Hc, decide_True by lia; by destruct (node_matching _ _ i).
Qed.

Lemma catchup_windows_each fuel start_n safe_tip w :
  1 <= chain_log_query_range_blocks chain →
  (Z.to_nat (safe_tip - start_n + 1) <= fuel)%nat →
  catchup_windows chain fuel start_n safe_tip w =
  process_each (if hinted DEGRADE_ERR_HINTS too_large_exn then Z.to_nat (safe_tip - start_n + 1)
                else blocks_answered fuel (r_filter (re_runner w)) start_n safe_tip) start_n w.
Proof.
  intros Hr. revert start_n w. induction fuel as [|fuel IH]; intros start_n w Hf.
  { rewrite (proj1 (Nat.le_0_r _) Hf). by destruct (hinted _ _). }
  cbn [catchup_windows blocks_answered]. destruct (Z.ltb_spec safe_tip start_n) as [Hlt|Hge].
  { replace (Z.to_nat (safe_tip - start_n + 1)) with O by lia. by destruct (hinted _ _). }
  cbv zeta. set (end_n := Z.min _ _). assert (start_n <= end_n <= safe_tip) as Hend by lia.
  set (r := re_runner w). pose proof (window_logs start_n end_n (r_filter r) w (proj1 Hend)) as Hw.
  unfold catchup_window, mbind.
  destruct (negb (hinted DEGRADE_ERR_HINTS too_large_exn) && _) eqn:Erefused.
  { apply andb_prop in Erefused as [Eh Et]. apply negb_true_iff in Eh. rewrite Eh, Et.
    destruct Hw as [Hw Es]. by rewrite Es, Hw. }
  destruct Hw as (m&Em&Hm). rewrite Em.
  pose proof (catchup_blocks_each (Z.to_nat (end_n - start_n + 1)) start_n m w _ _ _
    eq_refl eq_refl eq_refl ltac:(intros i Hi; apply Hm; lia)) as Hb. fold r in Hb.
  destruct (catchup_blocks _ _ _ _ _ _ w) as [[[]|e] w1]; cycle 1.
  - destruct Hb as [Hc Hb]. rewrite IH by lia. injection Hc as _ _ ->. fold r.
    destruct (hinted DEGRADE_ERR_HINTS too_large_exn); cbn [negb andb] in Erefused.
    + replace (Z.to_nat (safe_tip - start_n + 1)) with
        (Z.to_nat (end_n - start_n + 1) + Z.to_nat (safe_tip - (end_n + 1) + 1))%nat by lia.
      rewrite Hb. f_equal. lia.
    + rewrite Erefused, Hb. f_equal. lia.
  - destruct (hinted DEGRADE_ERR_HINTS too_large_exn); cbn [negb andb] in Erefused.
    + replace (Z.to_nat (safe_tip - start_n + 1)) with
        (Z.to_nat (end_n - start_n + 1) + Z.to_nat (safe_tip - (end_n + 1) + 1))%nat by lia. by rewrite Hb.
    + by rewrite Erefused, Hb.
  - destruct (hinted DEGRADE_ERR_HINTS too_large_exn); cbn [negb andb] in Erefused.
    + replace (Z.to_nat (safe_tip - start_n + 1)) with
        (Z.to_nat (end_n - start_n + 1) + Z.to_nat (safe_tip - (end_n + 1) + 1))%nat by lia. by rewrite Hb.
    + by rewrite Erefused, Hb.
Qed.

Lemma catchup_evm_each w :
  1 <= chain_log_query_range_blocks chain →
  catchup_evm chain w =
  match catchup_range chain (chain_confirmations chain) w with
  | (None, w') => w'
  | (Some (first, safe_tip), w') =>
      process_each (blocks_reached (r_filter (re_runner w')) first safe_tip) first w'
  end.
Proof.
  intros Hr. unfold catchup_evm. destruct (catchup_range _ _ w) as [[[first safe_tip]|] w']; [|done].
  by apply catchup_windows_each.
Qed.

(** A node that answers every window of the configured size lets the catch-up through. *)
Lemma blocks_answered_all fuel f first safe_tip :
  1 <= chain_log_query_range_blocks chain →
  (∀ a b, first <= a → b <= safe_tip → b - a < chain_log_query_range_blocks chain → too_large a b = false) →
  (Z.to_nat (safe_tip - first + 1) <= fuel)%nat →
  blocks_answered fuel f first safe_tip = Z.to_nat (safe_tip - first + 1).
Proof.
  intros Hr Hok. revert first Hok. induction fuel as [|fuel IH]; intros first Hok Hf; cbn [blocks_answered]; [lia|].
  destruct (Z.ltb_spec safe_tip first) as [Hlt|Hge]; [lia|]. cbv zeta. set (end_n := Z.min _ _).
  rewrite (Hok first end_n) by lia. rewrite andb_false_r, IH; [lia| |lia].
  intros a b Ha Hb Hab. apply Hok; lia.
Qed.

Lemma blocks_answered_le fuel f first safe_tip :
  1 <= chain_log_query_range_blocks chain →
  (blocks_answered fuel f first safe_tip <= Z.to_nat (safe_tip - first + 1))%nat.
Proof.
  intros Hr. revert first. induction fuel as [|fuel IH]; intros first; cbn [blocks_answered]; [lia|].
  destruct (Z.ltb_spec safe_tip first); [lia|]. cbv zeta. set (end_n := Z.min _ _).
  destruct (_ && _); [lia|]. specialize (IH (end_n + 1)). lia.
Qed.

Lemma blocks_reached_all f first safe_tip :
  1 <= chain_log_query_range_blocks chain →
  hinted DEGRADE_ERR_HINTS too_large_exn = true ∨
  (∀ a b, first <= a → b <= safe_tip → b - a < chain_log_query_range_blocks chain → too_large a b = false) →
  blocks_reached f first safe_tip = Z.to_nat (safe_tip - first + 1).
Proof.
  intros Hr Hok. unfold blocks_reached. destruct (hinted _ _); [done|].
  destruct Hok as [|Hok]; [done|]. by apply blocks_answered_all.
Qed.

Lemma blocks_reached_le f first safe_tip :
  1 <= chain_log_query_range_blocks chain →
  (blocks_reached f first safe_tip <= Z.to_nat (safe_tip - first + 1))%nat.
Proof. intros Hr. unfold blocks_reached. destruct (hinted _ _); [done|]. by apply blocks_answered_le. Qed.

End bounded_node.

(** ** Checkpoints

    The checkpoints of the chain, as the sequence of block numbers saved.  Nothing is
    assumed of the node but that it returns the block it was asked for; requests may
    fail, and other tasks may replace the configuration at any time. *)
Section checkpoints.
Context {L : AbiLib} {W : Type} {env : RunnerEnv W} (chain : SnapshotChain).
Context (saved : W → list Z).

Record checkpoint_log : Prop := {
  cl_save : ∀ n h w, saved (re_cp_save (chain_id chain) n h w).2 =
    saved w ++ (if is_ok (re_cp_save (chain_id chain) n h w).1 then [n] else []);
  cl_block_number : ∀ n w b w', re_fetch_block n w = (Ok b, w') → hdr_number (blk_header b) = n;
  cl_block : ∀ n w, saved (re_fetch_block n w).2 = saved w;
  cl_logs : ∀ a b ad tp w, saved (re_fetch_logs a b ad tp w).2 = saved w;
  cl_latest : ∀ w, saved (re_latest w).2 = saved w;
  cl_quiet : quiet saved;
  cl_publish : ∀ c n w, saved (re_publish_tip c n w).2 = saved w;
}.

Context (Hlog : checkpoint_log).

(** A block that is processed is checkpointed; a block that fails is not. *)
Lemma process_block_saved n b logs m k w :
  saved (process_block chain n b logs m k w).2 =
  saved w ++ (if is_ok (process_block chain n b logs m k w).1
              then [hdr_number (blk_header b)] else []).
Proof.
  destruct (process_block_split chain saved (cl_quiet Hlog) n b logs m k w)
    as (w1&<-&[[e ->]|[ids ->]]); [by rewrite app_nil_r|].
  unfold finish_block, mbind. pose proof (cl_save Hlog (hdr_number (blk_header b))
    (hdr_hash (blk_header b)) w1) as H1.
  destruct (re_cp_save _ _ _ w1) as [[[]|e] w2]; cbn in *; [|done].
  case_decide; [done|]. by rewrite (q_on_block _ (cl_quiet Hlog)).
Qed.

Lemma confirmed_block_saved n m k w :
  saved (process_confirmed_block chain n m k w).2 =
  saved w ++ (if is_ok (process_confirmed_block chain n m k w).1 then [n] else []).
Proof.
  unfold process_confirmed_block. pose proof (cl_block Hlog n w) as H1.
  destruct (re_fetch_block n w) as [rb w1] eqn:Eb. cbn [snd] in H1.
  set (q := if fs_skip_logs _ then _ else _).
  assert (saved q.2 = saved w1) as H2.
  { unfold q. destruct (fs_skip_logs _); [done|apply (cl_logs Hlog)]. }
  destruct q as [rl w2]. cbn [snd] in H2.
  destruct rb as [b|e]; [destruct rl as [logs|e]|]; cbn [fst snd is_ok];
    [|rewrite app_nil_r; congruence..].
  rewrite process_block_saved, (cl_block_number Hlog _ _ _ _ Eb). congruence.
Qed.

(** *** Catch-up *)

Definition saved_prefix (w : W) (first : Z) (count : nat) (w' : W) : Prop :=
  ∃ k : nat, (k <= count)%nat ∧ saved w' = saved w ++ seqZ first (Z.of_nat k).

Lemma saved_prefix_none w first count w' : saved w' = saved w → saved_prefix w first count w'.
Proof. intros Hs. exists O. split; [lia|]. by rewrite seqZ_nil, app_nil_r by lia. Qed.

Lemma degrade_saved fuel a b f w : saved (fetch_logs_with_degrade fuel a b f w).2 = saved w.
Proof.
  revert a b w. induction fuel as [|fuel IH]; intros a b w; cbn [fetch_logs_with_degrade];
    pose proof (cl_logs Hlog a b (fs_addresses f) (topics_param f) w) as H1;
    destruct (re_fetch_logs _ _ _ _ w) as [[logs|e] w1]; cbn [snd] in H1; try done;
    destruct (_ && _); try done.
  unfold mbind. pose proof (IH a ((a + b) / 2) w1) as H2.
  destruct (fetch_logs_with_degrade _ _ _ _ w1) as [[ls|e1] w2]; cbn [snd] in *; [|congruence].
  pose proof (IH ((a + b) / 2 + 1) b w2) as H3.
  destruct (fetch_logs_with_degrade _ _ _ _ w2) as [[rs|e2] w3]; cbn [snd mret] in *; congruence.
Qed.

Lemma catchup_blocks_saved count n logs m k w :
  match catchup_blocks chain count n logs m k w with
  | (Ok false, w') => saved w' = saved w ++ seqZ n (Z.of_nat count)
  | (_, w') => saved_prefix w n count w'
  end.
Proof.
  revert n w. induction count as [|count IH]; intros n w; cbn [catchup_blocks].
  { by rewrite seqZ_nil, app_nil_r by lia. }
  destruct (r_stop (re_runner w)); [by apply saved_prefix_none|]. unfold mbind.
  pose proof (cl_block Hlog n w) as H1.
  destruct (re_fetch_block n w) as [[b|e] w1] eqn:Eb; cbn [snd] in H1; [|by apply saved_prefix_none].
  pose proof (process_block_saved n b (default [] (logs !! n)) m k w1) as H2.
  destruct (process_block _ _ _ _ _ _ w1) as [[[]|e] w2]; cbn [fst snd is_ok] in H2.
  2: { apply saved_prefix_none. by rewrite H2, app_nil_r. }
  rewrite (cl_block_number Hlog _ _ _ _ Eb), H1 in H2. specialize (IH (n + 1) w2).
  assert (∀ j : nat, (saved w ++ [n]) ++ seqZ (n + 1) (Z.of_nat j) =
                     saved w ++ seqZ n (Z.of_nat (S j))) as Hj.
  { intros j. rewrite (seqZ_cons n) by lia. rewrite <- app_assoc. do 3 f_equal; lia. }
  destruct (catchup_blocks _ _ _ _ _ _ w2) as [[[]|e] w3].
  - destruct IH as (j&Hle&IH). exists (S j). split; [lia|]. by rewrite IH, H2, Hj.
  - by rewrite IH, H2, Hj.
  - destruct IH as (j&Hle&IH). exists (S j). split; [lia|]. by rewrite IH, H2, Hj.
Qed.
Lemma saved_prefix_weaken w first c1 c2 w' :
  (c1 <= c2)%nat → saved_prefix w first c1 w' → saved_prefix w first c2 w'.
Proof. intros Hle (k&Hk&Hs). exists k. split; [lia|done]. Qed.

Lemma catchup_windows_saved fuel start_n safe_tip w :
  1 <= chain_log_query_range_blocks chain →
  saved_prefix w start_n (Z.to_nat (safe_tip - start_n + 1))
    (catchup_windows chain fuel start_n safe_tip w).
Proof.
  intros Hr. revert start_n w. induction fuel as [|fuel IH]; intros start_n w;
    cbn [catchup_windows]; [by apply saved_prefix_none|].
  destruct (Z.ltb_spec safe_tip start_n) as [Hlt|Hge]; [by apply saved_prefix_none|].
  set (end_n := Z.min _ _). assert (start_n <= end_n <= safe_tip) as Hend by lia.
  unfold catchup_window. set (f := r_filter (re_runner w)). unfold mbind.
  set (q := (if fs_skip_logs f then mret ∅ else _) w).
  assert (saved q.2 = saved w) as H1.
  { unfold q. destruct (fs_skip_logs f); [done|apply degrade_saved]. }
  destruct q as [[logs|e] w1]; cbn [snd] in H1; [|by apply saved_prefix_none].
  pose proof (catchup_blocks_saved (Z.to_nat (end_n - start_n + 1)) start_n logs
    (r_matcher (re_runner w)) (r_notifier (re_runner w)) w1) as Hb.
  unfold saved_prefix in Hb. rewrite H1 in Hb.
  destruct (catchup_blocks _ _ _ _ _ _ w1) as [[[]|e] w2].
  - eapply saved_prefix_weaken; [|exact Hb]. lia.
  - destruct (IH (end_n + 1) w2) as (j&Hj&E).
    exists (Z.to_nat (end_n - start_n + 1) + j)%nat. split; [lia|].
    rewrite E, Hb, Nat2Z.inj_add, seqZ_app, app_assoc by lia.
    by replace (start_n + Z.of_nat (Z.to_nat (end_n - start_n + 1))) with (end_n + 1) by lia.
  - eapply saved_prefix_weaken; [|exact Hb]. lia.
Qed.

Lemma catchup_range_saved margin w : saved (catchup_range chain margin w).2 = saved w.
Proof.
  unfold catchup_range. destruct (min_list _) as [last_block|]; [|done].
  pose proof (cl_latest Hlog w) as H. destruct (re_latest w) as [[tip|e] w']; [|done].
  by destruct (_ <=? 0).
Qed.

Lemma catchup_saved w first safe_tip w0 :
  1 <= chain_log_query_range_blocks chain →
  catchup_range chain (chain_confirmations chain) w = (Some (first, safe_tip), w0) →
  saved_prefix w first (Z.to_nat (safe_tip - first + 1)) (catchup_evm chain w).
Proof.
  intros Hr Hp. unfold catchup_evm. pose proof (catchup_range_saved (chain_confirmations chain) w) as H.
  rewrite Hp in *. cbn [snd] in H. pose proof (catchup_windows_saved
    (Z.to_nat (safe_tip - first + 1)) first safe_tip w0 Hr) as Hs.
  unfold saved_prefix in *. by rewrite H in Hs.
Qed.

Lemma min_list_least l x : x ∈ l → (∀ y, y ∈ l → x <= y) → min_list l = Some x.
Proof.
  assert (∀ t a, (foldl Z.min a t = a ∨ foldl Z.min a t ∈ t) ∧ foldl Z.min a t <= a ∧
    ∀ y, y ∈ t → foldl Z.min a t <= y) as Hfold.
  { clear. induction t as [|b t IH]; intros a; cbn [foldl]; [split; [by left|]; split; [lia|]; by intros y ?%elem_of_nil|].
    destruct (IH (Z.min a b)) as (H1 & H2 & H3). split_and!; [|lia|].
    - destruct H1 as [->|H1]; [|right; by right]. destruct (Z.min_spec a b) as [[_ ->]|[_ ->]]; [by left|right; by left].
    - intros y [->|Hy]%elem_of_cons; [lia|by apply H3]. }
  intros Hx Hmin. destruct l as [|a t]; [by apply elem_of_nil in Hx|]. cbn. f_equal.
  destruct (Hfold t a) as (H1 & H2 & H3).
  assert (foldl Z.min a t ∈ a :: t) as Hin by (destruct H1 as [->|]; [left|by right]).
  specialize (Hmin _ Hin). apply elem_of_cons in Hx as [->|Hx]; [lia|]. specialize (H3 x Hx). lia.
Qed.

(** C18 The checkpoints of a catch-up.  Let [last] be the least of the checkpoint and the start blocks of the
    enabled subscriptions, and the safe tip the node's tip less the confirmations.  Whatever requests fail and whatever
    other tasks do meanwhile, the checkpoints [_catchup_evm] saves are consecutive blocks, each saved once and
    in order, not beyond the safe tip.  They start with the block after [last], except when more than
    MAX_CATCHUP_BLOCKS blocks are missing: then with the first of the MAX_CATCHUP_BLOCKS blocks below the safe tip, and
    the missing blocks before it are skipped. *)
Theorem catchup_checkpoints_contiguous w last tip w0 :
  1 <= chain_log_query_range_blocks chain →
  last ∈ catchup_candidates chain (re_runner w) →
  (∀ c, c ∈ catchup_candidates chain (re_runner w) → last <= c) →
  re_latest w = (Ok tip, w0) →
  let safe_tip := tip - chain_confirmations chain in
  let first := Z.max (last + 1) (safe_tip - MAX_CATCHUP_BLOCKS + 1) in
  ∃ k : nat, (k <= Z.to_nat (safe_tip - first + 1))%nat ∧
    saved (catchup_evm chain w) = saved w ++ seqZ first (Z.of_nat k).
Proof.
  intros Hr Hin Hmin Hl safe_tip first.
  destruct (Z.leb_spec (safe_tip - last) 0) as [Hgap|Hgap].
  - exists 0%nat. split; [lia|]. rewrite seqZ_nil, app_nil_r by lia. unfold catchup_evm.
    pose proof (catchup_range_saved (chain_confirmations chain) w) as H. unfold catchup_range in *.
    rewrite (min_list_least _ _ Hin Hmin), Hl, (proj2 (Z.leb_le _ _)) in * by done. exact H.
  - apply (catchup_saved w first safe_tip w0 Hr). unfold catchup_range.
    rewrite (min_list_least _ _ Hin Hmin), Hl. cbv zeta. fold safe_tip. rewrite (proj2 (Z.leb_gt _ _)) by done.
    do 3 f_equal. unfold first, MAX_CATCHUP_BLOCKS in *. destruct (Z.ltb_spec 10000 (safe_tip - last)); lia.
Qed.

(** *** Live heads *)

Lemma prefetch_saved count n out w : saved (prefetch_from count n out w).2 = saved w.
Proof.
  revert n out w. induction count as [|count IH]; intros n out w; cbn [prefetch_from]; [done|].
  destruct (n <? 0); [done|]. pose proof (cl_block Hlog n w) as H.
  destruct (re_fetch_block n w) as [[b|e] w1]; [|done]. by rewrite IH.
Qed.

Lemma ancestors_saved lv header w : saved (ancestors_for chain lv header w).2 = saved w.
Proof.
  unfold ancestors_for. destruct (lv_tip_hash lv) as [h|]; [|done].
  destruct (String.eqb _ _); [done|]. apply prefetch_saved.
Qed.

(** The blocks processed for a head are a prefix of the headers it confirmed. *)
Lemma confirmed_saved hs m k w :
  ∃ done_hs rest, hs = done_hs ++ rest ∧
    let r := mfor hs (λ h, process_confirmed_block chain (hdr_number h) m k) w in
    saved r.2 = saved w ++ (hdr_number <$> done_hs) ∧ (is_ok r.1 = true → rest = []).
Proof.
  revert w. induction hs as [|h hs IH]; intros w.
  { exists [], []. cbn. by rewrite app_nil_r. }
  cbn [mfor]. unfold mbind. pose proof (confirmed_block_saved (hdr_number h) m k w) as H1.
  destruct (process_confirmed_block _ _ _ _ w) as [[[]|e] w1]; cbn [fst snd is_ok] in H1.
  - destruct (IH w1) as (d&r&->&E&Hr). exists (h :: d), r. split; [done|]. cbv zeta in *.
    split; [|done]. rewrite E, H1. by rewrite <- app_assoc.
  - exists [], (h :: hs). split; [done|]. cbn. by rewrite H1.
Qed.
(** A head that links to the buffer is appended, and confirms a prefix of the result. *)
Lemma handle_linked_head b header t res :
  linked (cb_buf b ++ header :: t) →
  ∃ c b', handle_new_head b header res = (Ok (Clean c), b') ∧
          cb_buf b ++ [header] = c ++ cb_buf b'.
Proof.
  intros Hl. unfold handle_new_head, append.
  destruct (drain_confirmed (mkBuffer (cb_confirmations b) (cb_buf b ++ [header]))) as [c b'] eqn:Ed.
  pose proof Ed as (Hcb&_)%(drain_confirmed_spec _ _ header); [|by rewrite last_snoc].
  exists c, b'. split; [|exact Hcb]. unfold tip.
  destruct (cb_buf b) as [|x l _] eqn:Eb using rev_ind; [done|].
  rewrite last_snoc. rewrite <- app_assoc in Hl. apply linked_app_r in Hl.
  cbn in Hl. rewrite !decide_True by naive_solver. done.
Qed.

Lemma linear_head_saved lv header t w :
  linked (cb_buf (lv_buffer lv) ++ header :: t) →
  ∃ done_hs c, (∃ rest, cb_buf (lv_buffer lv) ++ [header] = done_hs ++ rest) ∧
    let r := handle_evm_head chain header (lv, w) in
    saved r.2.2 = saved w ++ (hdr_number <$> done_hs) ∧
    (is_ok r.1 = true → cb_buf (lv_buffer lv) ++ [header] = c ++ cb_buf (lv_buffer r.2.1)).
Proof.
  intros Hl. unfold handle_evm_head. pose proof (cl_publish Hlog (chain_id chain) (hdr_number header) w) as H1.
  destruct (re_publish_tip _ _ w) as [[[]|e] w0]; cbn [snd] in H1.
  2: { exists [], []. split; [by eexists|]. cbn. by rewrite H1, app_nil_r. }
  pose proof (ancestors_saved lv header w0) as H2.
  destruct (ancestors_for _ _ _ w0) as [cache w1]. cbn [snd] in H2.
  destruct (handle_linked_head _ _ _ (resolve_from cache) Hl) as (c&b'&->&Hcb). cbn [confirmed_of].
  destruct (confirmed_saved c (r_matcher (re_runner w0)) (r_notifier (re_runner w0)) w1)
    as (d&rest&Hc&Hs&_). cbv zeta in Hs.
  destruct (mfor c _ w1) as [res w2]. cbn [snd] in Hs. exists d, c. cbn.
  split; [|split; [congruence|done]]. exists (rest ++ cb_buf b'). by rewrite Hcb, Hc, <- app_assoc.
Qed.

(** Heads that follow each other: only blocks that were heads are processed. *)
Lemma live_loop_saved heads lv w n :
  linked (cb_buf (lv_buffer lv) ++ heads) → n ∈ saved (live_loop chain heads (lv, w)).2.2 →
  n ∈ saved w ∨ n ∈ hdr_number <$> (cb_buf (lv_buffer lv) ++ heads).
Proof.
  revert lv w. induction heads as [|h heads IH]; intros lv w Hl; cbn [live_loop snd]; [by left|].
  destruct (r_stop (re_runner w)); [by left|]. unfold mbind.
  destruct (linear_head_saved lv h heads w Hl) as (d&c&[rest Hd]&Hs&Hbuf). cbv zeta in Hs, Hbuf.
  assert (∀ x, x ∈ hdr_number <$> d → x ∈ hdr_number <$> (cb_buf (lv_buffer lv) ++ h :: heads)) as Hsub.
  { intros x Hx. replace (cb_buf (lv_buffer lv) ++ h :: heads)
      with ((cb_buf (lv_buffer lv) ++ [h]) ++ heads) by (by rewrite <- app_assoc).
    rewrite Hd, !fmap_app. set_solver. }
  destruct (handle_evm_head chain h (lv, w)) as [[[]|e] [lv1 w1]]; cbn [fst snd is_ok] in *.
  2: { rewrite Hs, elem_of_app. naive_solver. }
  specialize (Hbuf eq_refl). rewrite (app_assoc _ [h] heads), Hbuf, <- app_assoc in Hl.
  intros [Hw|Hin]%(IH lv1 w1 (linked_app_r _ _ Hl)).
  - rewrite Hs, elem_of_app in Hw. naive_solver.
  - right. rewrite (app_assoc _ [h] heads), Hbuf, <- app_assoc, fmap_app. set_solver.
Qed.

(** C38 What a restart skips.  [_run_evm] catches up to [tip - confirmations] and the
    buffer starts empty with the first live head: when every head of the run extends the one before
    it ([linked]: consecutive numbers, parent hashes that fit, so no reorganisation), no block
    above the safe tip and below the first head is checkpointed by the run. *)
Theorem restart_skips_unconfirmed_blocks heads h0 conf w first safe_tip w0 n :
  1 <= chain_log_query_range_blocks chain →
  catchup_range chain (chain_confirmations chain) w = (Some (first, safe_tip), w0) →
  linked (h0 :: heads) → safe_tip < n < hdr_number h0 → n ∉ saved w →
  n ∉ saved (run_evm chain (h0 :: heads) (mkLive (mkBuffer conf []) None, w)).2.2.
Proof.
  intros Hr Hp Hl Hn Hw Hin. unfold run_evm in Hin. cbn [fst snd] in Hin.
  apply live_loop_saved in Hin as [Hin|Hin]; [| |done].
  - destruct (catchup_saved _ _ _ _ Hr Hp) as (k&Hk&Hs).
    rewrite Hs, elem_of_app, elem_of_seqZ in Hin. destruct Hin as [|]; [done|lia].
  - cbn [lv_buffer cb_buf app] in Hin. rewrite linked_numbers, elem_of_seqZ in Hin by done. lia.
Qed.
End checkpoints.

(** ** The ancestors a reorganisation needs

    [canon] is the node's chain at the time of a head. *)
Section prefetch.
Context {W : Type} {env : RunnerEnv W} (chain : SnapshotChain).
Context (canon : Z → BlockHeader) (valid : BlockHeader → Prop).

Record canonical_node (top : Z) : Prop := {
  cn_number : ∀ n, hdr_number (canon n) = n;
  cn_parent : ∀ n, hdr_parent_hash (canon n) = hdr_hash (canon (n - 1));
  cn_hash : ∀ i j, hdr_hash (canon i) = hdr_hash (canon j) → i = j;
  cn_block : ∀ n w, 0 <= n < top →
    ∃ b w', re_fetch_block n w = (Ok b, w') ∧ blk_header b = canon n;
}.

Context (top : Z) (Hnode : canonical_node top).

Lemma prefetch_has count n out w i :
  n < top → Z.of_nat count <= n + 1 →
  n - Z.of_nat count < i <= n ∨ out !! hdr_hash (canon i) = Some (canon i) →
  (prefetch_from count n out w).1 !! hdr_hash (canon i) = Some (canon i).
Proof.
  revert n out w. induction count as [|count IH]; intros n out w Htop Hc Hi; cbn [prefetch_from].
  { destruct Hi; [lia|done]. }
  destruct (Z.ltb_spec n 0); [lia|].
  destruct (cn_block _ Hnode n w) as (b&w'&->&->); [lia|]. apply IH; [lia..|].
  destruct (decide (i = n)) as [->|Hne]; [right; apply lookup_insert_eq|].
  destruct Hi; [left; lia|right]. rewrite lookup_insert_ne; [done|].
  intros Heq%(cn_hash _ Hnode). lia.
Qed.

(** A walk along the canonical chain does not raise as far as its ancestors are cached. *)
Lemma walk_resolves cache known k branch j :
  (∀ i, j - Z.of_nat k <= i < j → cache !! hdr_hash (canon i) = Some (canon i)) →
  is_ok (walk_back (resolve_from cache) known k branch (canon j)) = true.
Proof.
  revert branch j. induction k as [|k IH]; intros branch j Hc; cbn [walk_back]; [done|].
  destruct (known !! _); [done|]. unfold resolve_from at 1.
  rewrite (cn_parent _ Hnode), Hc by lia. apply IH. intros i Hi. apply Hc. lia.
Qed.

Lemma wf_length b : cb_wf valid b → (length (cb_buf b) <= Z.to_nat (cb_confirmations b))%nat.
Proof.
  intros (Hc&Hl&_&Hd). destruct (cb_buf b) as [|h r] eqn:Eb; [simpl; lia|].
  destruct (last (h :: r)) as [t|] eqn:Ht; [|by apply last_None in Ht].
  specialize (Hd h r t eq_refl eq_refl). apply linked_numbers in Hl.
  rewrite last_lookup in Ht. apply (f_equal (.!! pred (length (h :: r)))) in Hl.
  rewrite list_lookup_fmap, Ht in Hl. symmetry in Hl. apply lookup_seqZ in Hl. cbn in *. lia.
Qed.

(** The runner's record of the tip: what [_buffer_tip_hash] says of the buffer *)
Definition tip_recorded (lv : live_state) : Prop :=
  match lv_tip_hash lv with
  | None => cb_buf (lv_buffer lv) = []
  | Some h => ∀ t, tip (lv_buffer lv) = Some t → hdr_hash t = h
  end.
(** A reorganisation within reach of the buffer never breaks the runner.  When the
    node serves the chain of a new head, the ancestors [_prefetch_ancestors_for]
    fetches are enough for the walk of [handle_new_head], however long the common
    ancestor is searched for: [resolve_parent] finds every header it is asked for, so
    the head is handled and becomes the recorded tip. *)
Lemma prefetch_suffices lv w cache w1 :
  cb_wf valid (lv_buffer lv) → tip_recorded lv →
  cb_confirmations (lv_buffer lv) = chain_confirmations chain →
  chain_confirmations chain + 1 <= top →
  ancestors_for chain lv (canon top) w = (cache, w1) →
  ∃ r b, handle_new_head (lv_buffer lv) (canon top) (resolve_from cache) = (Ok r, b).
Proof.
  intros Hwf Htip Hconf Htop Hc. pose proof (wf_length _ Hwf) as Hlen. destruct Hwf as (Hnn&_).
  unfold handle_new_head, append. destruct (tip (lv_buffer lv)) as [t|] eqn:Et.
  2: { destruct (drain_confirmed _). eauto. }
  destruct (decide (hdr_hash t = _)) as [|Hne]; [destruct (drain_confirmed _); eauto|].
  unfold tip_recorded in Htip. unfold ancestors_for in Hc.
  destruct (lv_tip_hash lv) as [h|]; [|by unfold tip in Et; rewrite Htip in Et].
  rewrite (Htip t Et) in Hne. rewrite (proj2 (String.eqb_neq _ _) Hne) in Hc.
  assert (is_ok (walk_back (resolve_from cache) (by_hash (cb_buf (lv_buffer lv)))
    (length (cb_buf (lv_buffer lv)) + 1) [canon top] (canon top)) = true) as Hok.
  { apply walk_resolves. intros i Hi. replace cache with (prefetch_ancestors_for chain (canon top) w).1
      by (by rewrite Hc). unfold prefetch_ancestors_for. rewrite (cn_number _ Hnode).
    apply prefetch_has; [lia..|left; lia]. }
  destruct (walk_back _ _ _ _ _) as [[[a br]|]|e]; [| |done].
  - destruct (pop_divergent _ _), (drain_confirmed _). eauto.
  - destruct (drain_confirmed _). eauto.
Qed.
End prefetch.

(** ** Witnesses: a node with a range limit and a restart from a checkpoint *)
Module RunnerSample.
Definition canon (n : Z) : BlockHeader := mkHeader n (pretty n) (pretty (n - 1)) (1000 + n).

Definition node_block (n : Z) : result Block :=
  if 0 <=? n then Ok (mkBlock (canon n) [] []) else Err (OtherError "BlockNotFound" "").

(** A token transfer in every even block *)
Definition node_matching (_ : option (list string)) (_ : option (list (list string))) (n : Z)
    : list Log :=
  if Z.even n then
    [erc20_transfer_log (pretty n) "0xc0ffee" ERC20_TRANSFER_TOPIC0 0 n (replicate 12 x00)
       (replicate 20 xaa) (replicate 20 xbb) 5 ""]
  else [].

(** The node refuses ranges of more than two blocks. *)
Definition too_large (a b : Z) : bool := 2 <? b - a + 1.
Definition too_large_exn : exn := OtherError "Web3RPCError" "Query returned more than 10000 results".

Record world := mkWorld {
  w_runner : runner;
  w_tip : Z;
  w_saved : list Z;
  w_sent : list (nat * string * list string);   (** notifier, transaction, subscriptions *)
}.

Definition env_raising (exc : exn) : RunnerEnv world := {|
  re_runner := w_runner;
  re_update f w := mkWorld (f (w_runner w)) (w_tip w) (w_saved w) (w_sent w);
  re_registry _ := None;
  re_set_registry _ w := w;
  re_connect := mret tt;
  re_disconnect := mret tt;
  re_latest w := (Ok (w_tip w), w);
  re_fetch_block n w := (node_block n, w);
  re_fetch_logs a b ad tp w :=
    (if too_large a b then Err exc
     else Ok (seqZ a (b - a + 1) ≫= node_matching ad tp), w);
  re_trace_block := None;
  re_fetch_slot _ := mret None;
  re_get_blocks _ _ := mret [];
  re_notifier_new w := (1%nat, w);
  re_notifier_start _ _ := mret tt;
  re_notifier_stop _ := mret tt;
  re_drain _ := mret tt;
  re_dispatch k ev hits _ w := mkWorld (w_runner w) (w_tip w) (w_saved w)
    (w_sent w ++ [(k, ev_tx_hash ev, sub_id ∘ fst <$> hits)]);
  re_cp_get _ := mret None;
  re_cp_save _ n _ w := (Ok tt, mkWorld (w_runner w) (w_tip w) (w_saved w ++ [n]) (w_sent w));
  re_on_block _ _ w := w;
  re_publish_tip _ _ := mret tt;
|}.

#[export] Instance env : RunnerEnv world := env_raising too_large_exn.

Definition chain : SnapshotChain :=
  mkChain "eth" "evm" "http://rpc" None 3 1000 None false 4 100 [] 10000.
Definition sub : SnapshotSubscription :=
  mkSub "s1" "transfers" "eth" None None "token_transfer" None [] true ["c1"] None None.
Definition snap : ConfigSnapshot :=
  mkSnapshot 1 [sub] [mkChannel "c1" "hook" "http" []] [] [].

(** Restarted from a checkpoint at block 10, with the tip at 20 *)
Definition w0 : world :=
  mkWorld (mkRunner (Matcher_init snap) 0 (build_evm_log_filter snap "eth" None) snap false
             (Some (10, "10"))) 20 [] [].

Lemma node_ok exc : bounded_node (env:=env_raising exc) node_block node_matching too_large exc.
Proof.
  constructor; try done.
  - intros ad tp n lg. unfold node_matching. destruct (Z.even n); [|by intros ?%elem_of_nil].
    by intros ->%list_elem_of_singleton.
  - intros n. unfold too_large. by rewrite Z.sub_diag.
Qed.

Lemma steady_ok exc : steady (env:=env_raising exc).
Proof. split; [by constructor|done]. Qed.

Lemma log_ok : checkpoint_log chain w_saved.
Proof.
  constructor; try done.
  intros n w b w' [= Hb _]. revert Hb. unfold node_block.
  destruct (0 <=? n); [by intros [= <-]|done].
Qed.

Lemma canon_ok top : canonical_node canon top.
Proof.
  constructor; try done.
  - intros i j Hh. by apply (inj pretty).
  - intros n w Hn. eexists _, w. cbn. unfold node_block. by rewrite (proj2 (Z.leb_le 0 n)) by lia.
Qed.
End RunnerSample.

Import RunnerSample.


Lemma catchup_checkpoints_contiguous_witness :
  ∃ k : nat, (k <= 7)%nat ∧
    w_saved (catchup_evm (L:=ToyLib.lib) chain w0) = [] ++ seqZ 11 (Z.of_nat k).
Proof.
  apply (catchup_checkpoints_contiguous (L:=ToyLib.lib) chain w_saved log_ok w0 10 20 w0);
    [cbn; lia|left|by intros c ->%list_elem_of_singleton|reflexivity].
Defined.

Lemma restart_skips_unconfirmed_blocks_witness :
  w_saved (run_evm (L:=ToyLib.lib) chain (canon <$> seqZ 20 8) (mkLive (mkBuffer 3 []) None, w0)).2.2
    = [11; 12; 13; 14; 15; 16; 17; 20; 21; 22; 23; 24] ∧
  19 ∉ w_saved (run_evm (L:=ToyLib.lib) chain (canon 20 :: (canon <$> seqZ 21 7))
                  (mkLive (mkBuffer 3 []) None, w0)).2.2.
Proof.
  split; [vm_compute; reflexivity|].
  apply (restart_skips_unconfirmed_blocks (L:=ToyLib.lib) chain w_saved log_ok _ _ _ _ 11 17 w0);
    [cbn; lia|reflexivity| |split; reflexivity|apply not_elem_of_nil].
  repeat split.
Defined.

(** The buffer holds the tip of a fork; the node has moved to another branch. *)
Lemma prefetch_suffices_witness :
  let stale := mkHeader 20 "20'" "19" 1020 in
  let lv := mkLive (mkBuffer 3 [canon 19; stale]) (Some "20'") in
  ∃ r b, handle_new_head (lv_buffer lv) (canon 21)
           (resolve_from (ancestors_for chain lv (canon 21) w0).1) = (Ok r, b) ∧
         cb_buf b = [canon 19; canon 20; canon 21].
Proof.
  intros stale lv.
  destruct (prefetch_suffices chain canon (λ _, True) 21 (canon_ok 21) lv w0
    (ancestors_for chain lv (canon 21) w0).1 (ancestors_for chain lv (canon 21) w0).2)
    as (r&b&E).
  - unfold cb_wf, lv. cbn. split; [lia|]. split; [by repeat split|]. split; [by repeat constructor|].
    by intros h l t [= <- <-] [= <-].
  - by intros t [= <-].
  - reflexivity.
  - cbn. lia.
  - by destruct (ancestors_for chain lv (canon 21) w0).
  - exists r, b. split; [exact E|].
    etrans; [symmetry; exact (f_equal (λ x, cb_buf x.2) E)|]. vm_compute. reflexivity.
Defined.
