(* ===== verification/EndToEnd.v ===== *)
(** * From a block to its notifications

    The runner asks the node for the logs its filter selects only ([FilterSet]), parses the block
    ([EvmParsers]) and dispatches the events that some subscription wants ([Matcher]).  Put
    together: what is dispatched is what would be dispatched from all the logs of the block. *)
From S2P Require Import Prelude PyStr PyVal Types Filters Snapshot Matcher Decoder AbiLookup.
From S2P Require Import Registry Pipeline EvmParsers FilterSet ChainRunner.

Section end_to_end.
Context {L : AbiLib} {LL : AbiLibLaws}.

(** The events of a block *)
Definition block_events (cid : string) (has_registry : bool) (block : Block) (r : AbiRegistry)
    : list Event :=
  (pipeline_run (evm_parsers cid has_registry) block r).1.1.

(** Some subscription with channels wants the event. *)
Definition notified (s : ConfigSnapshot) (ev : Event) : Prop := event_hits (Matcher_init s) ev ≠ [].
#[export] Instance notified_dec s ev : Decision (notified s ev).
Proof. unfold notified. apply _. Defined.

(** The logs of a block that a filter selects *)
Definition selected (f : EvmLogFilterSet) (logs : list Log) : list Log :=
  filter (λ l, selects f l = true) logs.

Lemma notified_wants s ev : notified s ev → ∃ sub, sub ∈ snap_subscriptions s ∧ wants sub ev.
Proof.
  unfold notified. intros Hn. destruct (event_hits (Matcher_init s) ev) as [|[sub chans] t] eqn:E; [done|].
  assert ((sub, chans) ∈ event_hits (Matcher_init s) ev) as Hin by (rewrite E; left).
  apply elem_of_event_hits in Hin as (? & ? & _). by exists sub.
Qed.

(** An event of a log the filter leaves out notifies nobody. *)
Lemma unselected_not_notified s cid reg h tx_idx l ev :
  (∀ r, reg = Some r → coherent r ∧ names_unique r) →
  log_yields cid h tx_idx reg l ev → selects (build_evm_log_filter s cid reg) l = false →
  ¬ notified s ev.
Proof.
  intros Hreg Hy Hsel (sub & Hin & Hw)%notified_wants.
  pose proof (log_filter_complete s cid reg h tx_idx l ev sub Hreg Hy Hsel Hin Hw). done.
Qed.

Lemma filter_bind_selected {A} (P : A → Prop) `{∀ x, Decision (P x)} (sel : Log → bool)
    (f : Log → list A) logs :
  (∀ l e, l ∈ logs → sel l = false → e ∈ f l → ¬ P e) →
  filter P (filter (λ l, sel l = true) logs ≫= f) = filter P (logs ≫= f).
Proof.
  induction logs as [|l logs IH]; intros Hf; [done|]. rewrite filter_cons, bind_cons, filter_app.
  rewrite <- IH by (intros l' e Hl'; apply Hf; by right).
  destruct (sel l) eqn:E.
  - by rewrite decide_True, bind_cons, filter_app.
  - rewrite decide_False by done. rewrite (filter_none P (f l)); [done|].
    apply Forall_forall. intros e He. eapply Hf; [left|done|done].
Qed.

Lemma omap_bind {A B} (f : A → option B) l : omap f l = l ≫= λ x, option_list (f x).
Proof. induction l as [|x l IH]; [done|]. csimpl. rewrite IH. by destruct (f x). Qed.

(** What the four parsers yield when no log makes a decoder fail otherwise than with [DecodeFailed] *)
Lemma block_events_logs cid b logs r :
  coherent r → Forall (decode_total r) logs →
  block_events cid true (with_logs b logs) r =
  omap (native_transfer cid (blk_header b)) (blk_txs b) ++
  omap (erc20_try_decode cid (blk_header b) (tx_index_by_hash b)) logs ++
  (logs ≫= λ l, (gyield_opt (abi_handle_log cid (blk_header b) l) r).1.1) ++
  (abi_call_parse cid b r).1.1.
Proof.
  intros Hr Hdec. unfold block_events.
  rewrite (pipeline_run_events al_inv) by (done || (intros p Hp; by eapply stable_evm_parsers)).
  cbn [fst]. unfold evm_parsers. cbn [app]. rewrite !bind_cons. cbn [mbind list_bind]. rewrite app_nil_r. do 3 f_equal.
  unfold abi_event_parse. rewrite (gfor_events al_inv); [done|done| |].
  - intros l. apply stable_gyield_opt, stable_abi_handle_log.
  - intros l Hl. rewrite Forall_forall in Hdec. by apply gyield_log, Hdec.
Qed.

Lemma selected_same_notified s cid b logs r :
  coherent r → names_unique r → Forall (decode_total r) logs →
  filter (notified s)
    (block_events cid true (with_logs b (selected (build_evm_log_filter s cid (Some r)) logs)) r) =
  filter (notified s) (block_events cid true (with_logs b logs) r).
Proof.
  intros Hr Hn Hdec. unfold selected. set (f := build_evm_log_filter s cid (Some r)).
  rewrite !block_events_logs; [|done|done|done|].
  2: { apply Forall_forall. intros l [_ Hl]%list_elem_of_filter. rewrite Forall_forall in Hdec. auto. }
  assert (∀ r', Some r = Some r' → coherent r' ∧ names_unique r') as Hreg by by intros r' [= <-].
  rewrite !filter_app. f_equal. f_equal; [|f_equal].
  - rewrite !omap_bind. apply filter_bind_selected. intros l ev _ Hsel Hev.
    eapply (unselected_not_notified s cid (Some r)); [done| |exact Hsel].
    apply (yields_erc20 _ (blk_header b) (tx_index_by_hash b)). destruct (erc20_try_decode _ _ _ l) as [e|]; [|set_solver].
    apply list_elem_of_singleton in Hev. by subst.
  - apply filter_bind_selected. intros l ev _ Hsel Hev.
    eapply (unselected_not_notified s cid (Some r)); [done| |exact Hsel].
    apply (yields_abi _ (blk_header b) ∅ _ _ r); [done|]. unfold gyield_opt in Hev.
    destruct (abi_handle_log cid (blk_header b) l r) as [[[e|]|e] r']; cbn in *; [|set_solver|set_solver].
    apply list_elem_of_singleton in Hev. by subst.
Qed.
(** C15 Server-side filtering loses no notification: from the logs that the runner's filter selects,
    the parsers yield exactly the events some subscription is notified of that they yield from all the logs of the
    block, each once and in the same order.  Names in the registry's event index must be unique and
    decoders must fail with [DecodeFailed] only. *)
Theorem server_filter_invisible s cid b logs r :
  coherent r → names_unique r → Forall (decode_total r) logs →
  filter (notified s)
    (block_events cid true (with_logs b (selected (build_evm_log_filter s cid (Some r)) logs)) r) =
  filter (notified s) (block_events cid true (with_logs b logs) r).
Proof. apply selected_same_notified. Qed.
End end_to_end.

(** Only events somebody is notified of reach the notifier. *)
Lemma dispatch_events_notified {W} `{!RunnerEnv W} s notifier replay events (w : W) :
  dispatch_events (Matcher_init s) notifier replay (filter (notified s) events) w =
  dispatch_events (Matcher_init s) notifier replay events w.
Proof.
  revert w. induction events as [|ev t IH]; intros w; [done|]. rewrite filter_cons. cbn [dispatch_events].
  destruct (decide (notified s ev)) as [Hn|Hn]; unfold notified in Hn.
  - cbn [dispatch_events]. destruct (event_hits (Matcher_init s) ev); [done|]. by rewrite IH.
  - destruct (event_hits (Matcher_init s) ev); [apply IH|]. by destruct Hn.
Qed.

(** ** Witness: of a token transfer and a payment, the payment is notified *)
Module EndToEndSample.
#[local] Existing Instance ToyLib.lib.
#[local] Existing Instance ToyLib.laws.

Definition snapshot : ConfigSnapshot :=
  mkSnapshot 1 [FilterSample.sub] [mkChannel "c1" "hook" "http" []] []
    [mkAbi "token" "Token" "evm_abi" FilterSample.plain].
Definition registry : AbiRegistry :=
  (refresh snapshot AbiRegistry_init).2.

Definition payment : Log := mkLog "0xcc" 2 "0xC" ToyLib.paid_topics ("0x" +:+ ToyLib.word 9) 5.
Definition block : Block := mkBlock FilterSample.header [] [].
Definition logs : list Log := [FilterSample.transfer; payment].

Lemma registry_coherent : coherent registry.
Proof.
  apply (refresh_coherent snapshot AbiRegistry_init tt); [apply coherent_init|].
  vm_compute. reflexivity.
Qed.

Lemma names : names_unique registry.
Proof.
  intros t0 t0' aid aid' n H1%dget_elem_of H2%dget_elem_of. vm_compute in H1, H2.
  apply list_elem_of_In in H1, H2. simpl in H1, H2. naive_solver.
Qed.

Definition decodes (l : Log) : bool :=
  match log_topics l with
  | [] => true
  | t0 :: _ => match (al_event t0 registry).1 with
               | Ok (Some (_, dec)) => is_ok (dec (log_topics l) (log_data l))
               | Ok None => true
               | Err _ => false
               end
  end.

Lemma decodes_total l : decodes l = true → decode_total registry l.
Proof.
  unfold decodes, decode_total. intros Hl t0 ts Ht. rewrite Ht in Hl.
  destruct (al_event t0 registry).1 as [o|]; [|discriminate Hl]. exists o. split; [done|].
  intros n dec e -> He. rewrite Ht in He. rewrite He in Hl. discriminate Hl.
Qed.

Lemma decodable : Forall (decode_total registry) logs.
Proof.
  eapply Forall_impl; [|exact decodes_total].
  repeat (apply Forall_cons; split; [vm_compute; reflexivity|]). constructor.
Qed.
End EndToEndSample.

Lemma server_filter_invisible_witness :
  let s := EndToEndSample.snapshot in
  let r := EndToEndSample.registry in
  let f := build_evm_log_filter s "eth" (Some r) in
  length (selected f EndToEndSample.logs) = 1%nat ∧
  (ev_name <$> filter (notified s)
    (block_events (L:=ToyLib.lib) "eth" true
      (with_logs EndToEndSample.block (selected f EndToEndSample.logs)) r)) = [Some "Paid"] ∧
  (ev_name <$> filter (notified s)
    (block_events (L:=ToyLib.lib) "eth" true (with_logs EndToEndSample.block EndToEndSample.logs) r)) =
    [Some "Paid"].
Proof.
  intros s r f. split; [vm_compute; reflexivity|].
  pose proof (server_filter_invisible (L:=ToyLib.lib) (LL:=ToyLib.laws) s "eth" EndToEndSample.block
    EndToEndSample.logs r EndToEndSample.registry_coherent EndToEndSample.names EndToEndSample.decodable) as H.
  split; [|rewrite <- H]; vm_compute; reflexivity.
Defined.
