(* ===== verification/DryRun.v ===== *)
(** * The dry-run endpoints (apps/web/routers/test.py)

    [parse_block] parses one block outside any runner and reports which events which subscriptions
    match; [test_subscription] also delivers those of one subscription.  Both read the database
    and never write it.  An adapter is named by the row it is built from; its operations are the
    class [DryEnv]. *)
From S2P Require Import Prelude PyStr PyVal Types Filters Snapshot Matcher Decoder AbiLookup.
From S2P Require Import Registry Pipeline EvmParsers SolanaParsers FilterSet Repositories Retry.
From S2P Require Import HttpChannel Notifier Channels Schemas WebApi ChainRunner EndToEnd.

Class DryEnv (W : Type) := {
  dry_connect : string * ChainRow → M W unit;
  dry_disconnect : string * ChainRow → M W unit;
  dry_fetch_block : string * ChainRow → Z → M W Block;
  dry_fetch_logs : string * ChainRow → Z → Z → M W (list Log);
  dry_fetch_slot : string * ChainRow → Z → M W (option SolanaBlock);
}.

(** ** Reports *)

(** [_safe_dict] *)
Fixpoint safe_dict (obj : pyval) : pyval :=
  match obj with
  | PBytes l => PStr ("0x" +:+ bytes_hex l)
  | PDict d => PDict ((λ kv, (kv.1, safe_dict kv.2)) <$> d)
  | PList l | PTuple l => PList (safe_dict <$> l)
  | PInt _ | PBool _ | PStr _ | PNone => obj
  end.

(** [asdict] of an event *)
Definition asdict (ev : Event) : list (string * pyval) :=
  [("chain_id", PStr (ev_chain_id ev)); ("block_number", PInt (ev_block_number ev));
   ("block_hash", PStr (ev_block_hash ev)); ("block_timestamp", PInt (ev_block_timestamp ev));
   ("tx_hash", PStr (ev_tx_hash ev)); ("tx_index", opt_int (ev_tx_index ev));
   ("log_index", opt_int (ev_log_index ev)); ("kind", PStr (ev_kind ev));
   ("contract", opt_str (ev_contract ev)); ("name", opt_str (ev_name ev));
   ("args", PDict (ev_args ev)); ("raw", PDict (ev_raw ev))].

Definition safe_event (ev : Event) : list (string * pyval) :=
  (λ kv, (kv.1, safe_dict kv.2)) <$> asdict ev.

(** [_match_event] *)
Definition match_json (m : Matcher) (ev : Event) : list pyval :=
  (λ '(sub, channels),
    PDict [("subscription_id", PStr (sub_id sub)); ("subscription_name", PStr (sub_name sub));
           ("match_kind", PStr (sub_match_kind sub)); ("match_name", opt_str (sub_match_name sub));
           ("channels", PList ((λ ch, PDict [("id", PStr (ch_id ch)); ("name", PStr (ch_name ch));
                                             ("type", PStr (ch_type ch))]) <$> channels))])
  <$> match_event m ev.

(** [_enrich_events] *)
Definition enrich (m : Matcher) (ev : Event) : list (string * pyval) :=
  let hits := match_json m ev in
  safe_event ev ++ [("matched_subscriptions", PList hits);
                    ("matched", PBool (bool_decide (hits ≠ [])))].

Definition matched (e : list (string * pyval)) : bool :=
  match dget "matched" e with Some (PBool b) => b | _ => false end.

(** The report; [rp_tx_count] and [rp_log_count] are absent where the source leaves them out. *)
Record report := mkReport {
  rp_chain_id : string;
  rp_kind : string;
  rp_block_number : Z;
  rp_tx_count : option nat;
  rp_log_count : option nat;
  rp_event_count : nat;
  rp_matched_count : nat;
  rp_events : list (list (string * pyval));
  rp_error : option string;
}.

Inductive dry_response (A : Type) :=
  | DryOk (content : A)
  | DryFailed (detail : string).     (** status 500 *)
Arguments DryOk {A}. Arguments DryFailed {A}.

Section dry_run.
Context {L : AbiLib} {Q : Sql} {W : Type} `{!WebEnv W, !DryEnv W}.

(** [try: m; finally: await adapter.disconnect()] *)
Definition then_disconnect {A} (c : string * ChainRow) (m : M W A) : M W A := λ w,
  let '(r, w1) := m w in
  match dry_disconnect c w1 with
  | (Ok _, w2) => (r, w2)
  | (Err e, w2) => (Err e, w2)
  end.

Definition connect_or_502 (c : string * ChainRow) : M W unit :=
  mcatch (dry_connect c)
    (λ exc, mthrow (HTTPException 502 ("RPC 连接失败: " +:+ web_repr exc))).

(** The registry that the handler builds *)
Definition fresh_registry (snap : ConfigSnapshot) : M W AbiRegistry :=
  let '(r, reg) := refresh snap AbiRegistry_init in mlift (rmap (λ _, reg) r).

Definition evm_dry_events (c : string * ChainRow) (n : Z) (reg : AbiRegistry)
    : M W (Block * list Event) :=
  connect_or_502 c ;;*
  then_disconnect c
    (let* block := dry_fetch_block c n in
     let* logs := dry_fetch_logs c n n in
     let block := with_logs block logs in
     mret (block, block_events c.1 true block reg)).

Definition solana_dry_events (c : string * ChainRow) (n : Z) (reg : AbiRegistry)
    : M W (option (SolanaBlock * list Event)) :=
  connect_or_502 c ;;*
  then_disconnect c
    (let* block := dry_fetch_slot c n in
     mret ((λ b, (b, (pipeline_run (solana_parsers c.1 true) b reg).1.1)) <$> block)).

Definition commitment_asserted (row : ChainRow) : M W unit :=
  match c_commitment row with
  | Some _ => mret tt
  | None => mthrow (OtherError "AssertionError" "")
  end.

Definition count_matched (events : list (list (string * pyval))) : nat :=
  length (filter (λ e, matched e = true) events).

(** [_do_parse_block] *)
Definition do_parse_block (d : Db) (cid : string) (n : Z) : M W report :=
  match chain_get cid d with
  | None => mthrow (HTTPException 404 "chain not found")
  | Some row =>
      let snap := load_snapshot d in
      let* reg := fresh_registry snap in
      let matcher := Matcher_init snap in
      let kind := ChainKind_value (c_kind row) in
      if String.eqb kind "evm" then
        let* be := evm_dry_events (cid, row) n reg in
        let enriched := enrich matcher <$> be.2 in
        mret (mkReport cid kind n (Some (length (blk_txs be.1))) (Some (length (blk_logs be.1)))
                (length enriched) (count_matched enriched) enriched None)
      else if String.eqb kind "solana" then
        commitment_asserted row ;;*
        let* be := solana_dry_events (cid, row) n reg in
        match be with
        | None => mret (mkReport cid kind n None None 0 0 [] (Some "slot not found or skipped"))
        | Some (b, events) =>
            let enriched := enrich matcher <$> events in
            mret (mkReport cid kind n (Some (length (sb_transactions b))) None
                    (length enriched) (count_matched enriched) enriched None)
        end
      else mthrow (HTTPException 400 ("unsupported chain kind: " +:+ kind))
  end.

(** [parse_block]: HTTP errors pass, anything else is reported with status 500. *)
Definition or_failed {A} (prefix : string) (m : M W A) : M W (dry_response A) :=
  mcatch (let* x := m in mret (DryOk x))
    (λ exc, match exc with
            | HTTPException _ _ => mthrow exc
            | _ => mret (DryFailed (prefix +:+ web_repr exc))
            end).

Definition parse_block (d : Db) (cid : string) (n : Z) : M W (dry_response report) :=
  or_failed "解析失败: " (do_parse_block d cid n).

(** ** Delivering one subscription's events *)
Section test_subscription.
Context {D : Type} {J : JsonSchema} `{!Arith D, !Brokers W, !HttpLib W}.
Variables (one four : D) (sleep : D → W → W) (operand : pyval → D).

(** Build a driver, start it, send, stop it: was the payload sent, and what was raised? *)
Definition push_test (cls : channel_class) (config payload : list (string * pyval))
    : M W (bool * option exn) := λ w,
  match construct operand cls config with
  | Err x => (Ok (false, Some x), w)
  | Ok ch =>
      match driver_start (ch, w) with
      | (Err x, (_, w1)) => (Ok (false, Some x), w1)
      | (Ok _, s1) =>
          let '(r, s2) := (let* d := self in in_env (driver_send one four sleep d payload)) s1 in
          let '(r', (_, w3)) := driver_stop s2 in
          (Ok (is_ok r, match r', r with
                        | Err x, _ | Ok _, Err x => Some x
                        | Ok _, Ok _ => None
                        end), w3)
      end
  end.

(** The loop over the channels of one matched event; its dictionary and the count so far *)
Fixpoint test_channels (ev : Event) (sub : SnapshotSubscription) (chans : list SnapshotChannel)
    (entry : list (string * pyval)) (delivered : nat) (w : W)
    : list (string * pyval) * nat * W :=
  match chans with
  | [] => (entry, delivered, w)
  | c :: t =>
      match CHANNEL_REGISTRY !! ch_type c with
      | None => test_channels ev sub t entry delivered w
      | Some cls =>
          let '(uid, w1) := web_uuid w in
          let payload := build_payload (web_now w1) uid ev sub false in
          match push_test cls (ch_config c) payload w1 with
          | (Ok (sent, error), w2) =>
              let entry := match error with
                           | Some x => dset "delivery_error" (PStr (web_repr x)) entry
                           | None => entry
                           end in
              test_channels ev sub t entry (if sent : bool then S delivered else delivered) w2
          | (Err _, w2) => test_channels ev sub t entry delivered w2
          end
      end
  end.

(** [[m[cid] for cid in ids if cid in m]], or else the channels resolved before *)
Definition test_targets (snap : ConfigSnapshot) (sub : SnapshotSubscription)
    (channels_for_sub : list SnapshotChannel) : list SnapshotChannel :=
  match resolve_channels (channels_by_id (snap_channels snap)) (sub_channel_ids sub) with
  | [] => channels_for_sub
  | l => l
  end.

(** The loops over events and matches *)
Fixpoint test_matches (snap : ConfigSnapshot) (sub_id_ : string)
    (channels_for_sub : list SnapshotChannel) (ev : Event)
    (hits : list (SnapshotSubscription * list SnapshotChannel))
    (acc : list (list (string * pyval)) * nat) (w : W)
    : list (list (string * pyval)) * nat * W :=
  match hits with
  | [] => (acc, w)
  | (sub, _) :: t =>
      if negb (String.eqb (sub_id sub) sub_id_)
      then test_matches snap sub_id_ channels_for_sub ev t acc w
      else
        let '(entry, delivered, w1) :=
          test_channels ev sub (test_targets snap sub channels_for_sub) (safe_event ev) acc.2 w in
        test_matches snap sub_id_ channels_for_sub ev t (acc.1 ++ [entry], delivered) w1
  end.

Fixpoint test_events (snap : ConfigSnapshot) (sub_id_ : string)
    (channels_for_sub : list SnapshotChannel) (events : list Event)
    (acc : list (list (string * pyval)) * nat) (w : W)
    : list (list (string * pyval)) * nat * W :=
  match events with
  | [] => (acc, w)
  | ev :: t =>
      let '(acc', w1) := test_matches snap sub_id_ channels_for_sub ev
                           (match_event (Matcher_init snap) ev) acc w in
      test_events snap sub_id_ channels_for_sub t acc' w1
  end.

Record test_report := mkTestReport {
  tr_subscription_name : string;
  tr_total_events : nat;
  tr_matched : nat;
  tr_delivered : nat;
  tr_channels : list SnapshotChannel;
  tr_events : list (list (string * pyval));
}.

(** The channels of the subscription: those of the snapshot, else those of the database *)
Definition test_channels_for (d : Db) (snap : ConfigSnapshot) (sub : SnapshotSubscription)
    : list SnapshotChannel :=
  match filter (λ c, ch_id c ∈ sub_channel_ids sub) (snap_channels snap) with
  | [] => omap (λ cid, (λ row, snapshot_channel (cid, row)) <$> channel_get cid d) (sub_channel_ids sub)
  | l => l
  end.

(** The events of the block; [None] when there is no such slot *)
Definition test_block_events (c : string * ChainRow) (n : Z) (reg : AbiRegistry)
    : M W (option (list Event)) :=
  let kind := ChainKind_value (c_kind c.2) in
  if String.eqb kind "evm" then
    let* be := evm_dry_events c n reg in mret (Some be.2)
  else if String.eqb kind "solana" then
    commitment_asserted c.2 ;;*
    let* be := solana_dry_events c n reg in mret (snd <$> be)
  else mthrow (HTTPException 400 ("unsupported kind: " +:+ kind)).

(** [test_subscription] inside its [try]; [None]: "slot not found" *)
Definition do_test_subscription (d : Db) (sid : string) (n : Z) : M W (option test_report) :=
  match subscription_get sid d with
  | None => mthrow (HTTPException 404 "subscription not found")
  | Some sub_row =>
      match chain_get (s_chain_id sub_row) d with
      | None => mthrow (HTTPException 404 "chain not found")
      | Some chain_row =>
          let snap := load_snapshot d in
          let* reg := fresh_registry snap in
          match List.find (λ s, String.eqb (sub_id s) sid) (snap_subscriptions snap) with
          | None => mthrow (HTTPException 404 "subscription not in snapshot (disabled?)")
          | Some snap_sub =>
              let channels_for_sub := test_channels_for d snap snap_sub in
              let* events := test_block_events (s_chain_id sub_row, chain_row) n reg in
              match events with
              | None => mret None
              | Some events => λ w,
                  let '(acc, w1) := test_events snap sid channels_for_sub events ([], 0%nat) w in
                  (Ok (Some (mkTestReport (s_name sub_row) (length events) (length acc.1) acc.2
                               channels_for_sub (take 50 acc.1))), w1)
              end
          end
      end
  end.

Definition test_subscription (d : Db) (sid : string) (n : Z)
    : M W (dry_response (option test_report)) :=
  or_failed "测试失败: " (do_test_subscription d sid n).
End test_subscription.

(** ** What a dry run tells *)

Lemma filter_enrich (m : Matcher) (events : list Event) :
  filter (λ e, matched e = true) (enrich m <$> events) =
  enrich m <$> filter (λ ev, match_event m ev ≠ []) events.
Proof.
  assert (∀ ev, matched (enrich m ev) = bool_decide (match_event m ev ≠ [])) as Hm.
  { intros ev. unfold matched, enrich, safe_event, asdict. cbn.
    apply bool_decide_ext. unfold match_json. by destruct (match_event m ev). }
  induction events as [|ev t IH]; [done|]. rewrite fmap_cons, !filter_cons, Hm, IH.
  destruct (decide (match_event m ev ≠ [])) as [Hd|Hd].
  - by rewrite decide_True by (by apply bool_decide_eq_true).
  - by rewrite decide_False by (by rewrite bool_decide_eq_true).
Qed.

(** In a loaded snapshot whatever matches has channels. *)
Lemma loaded_match_notified {QL : SqlLaws} d ev :
  match_event (Matcher_init (load_snapshot d)) ev ≠ [] ↔ notified (load_snapshot d) ev.
Proof.
  unfold notified, event_hits. split.
  - intros Hne. destruct (match_event (Matcher_init (load_snapshot d)) ev) as [|[x chans] t] eqn:E; [done|].
    assert ((x, chans) ∈ match_event (Matcher_init (load_snapshot d)) ev) as Hin by (rewrite E; left).
    apply elem_of_match_event in Hin as (Hx & _ & ->).
    apply loaded_subscriptions in Hx as (id & r & Hr & He & Hch & ->).
    rewrite filter_cons, loaded_resolves by done. rewrite decide_True; [done|].
    intros Hnil%fmap_nil_inv. by apply Hch.
  - intros Hne E. by rewrite E in Hne.
Qed.

(** What a worker's registry yields for a block depends on its answers only. *)
Lemma block_events_equiv {LL : AbiLibLaws} cid has block reg reg' :
  coherent reg → coherent reg' → lookup_equiv reg reg' →
  block_events cid has block reg' = block_events cid has block reg.
Proof.
  intros Hr Hr' Heq. pose proof (lookup_equiv_same_answers reg reg' Hr Hr' Heq) as Hans.
  unfold block_events.
  rewrite !(pipeline_run_events al_inv) by (done || (intros p Hp; by eapply stable_evm_parsers)).
  cbn [fst].
  assert (∀ p, p ∈ evm_parsers cid has → (p block reg').1 = (p block reg).1) as Hp.
  { intros p Hp. assert (stable_gen al_inv (p block)) as Hst by by eapply stable_evm_parsers.
    destruct (Hst reg Hr) as (_ & _ & Hd). by apply Hd. }
  induction (evm_parsers cid has) as [|p ps IH]; [done|]. rewrite !bind_cons.
  rewrite Hp by left. f_equal. apply IH. intros q Hq. apply Hp. by right.
Qed.

Lemma filter_of_equiv s cid reg reg' :
  lookup_equiv reg reg' →
  build_evm_log_filter s cid (Some reg') = build_evm_log_filter s cid (Some reg).
Proof.
  intros Heq. unfold build_evm_log_filter. destruct (relevant_subs s cid) as [|x l]; [done|].
  f_equal. f_equal. generalize (x :: l). intros subs. generalize (∅ : gset string).
  induction subs as [|y subs IH]; intros out; [done|]. cbn [collect_topic0s].
  unfold event_topic0_for. rewrite (eq_topic0_index _ _ Heq).
  repeat case_match; try done; apply IH.
Qed.

Lemma evm_events_block {V} {RE : RunnerEnv V} chain block (v : V) r :
  re_registry v = Some r →
  (evm_events chain block v).1 = block_events (chain_id chain) true block r.
Proof.
  intros Hv. unfold evm_events, run_gen, block_events. rewrite Hv, bool_decide_eq_true_2 by done.
  by destruct (pipeline_run _ block r) as [[evs exc] r'].
Qed.

(** A worker's processing of an EVM block on a chain without internal calls: its events that
    somebody is to be notified of are dispatched, then the block is finished. *)
Lemma process_block_dispatches {V} {RE : RunnerEnv V} chain s n block logs k (v : V) :
  chain_trace_internal_calls chain = false →
  process_block chain n block logs (Matcher_init s) k v =
    let '(events, v1) := evm_events chain (with_logs block logs) v in
    let '(ids, v2) := dispatch_events (Matcher_init s) k false (filter (notified s) events) v1 in
    finish_block chain (hdr_number (blk_header block)) (hdr_hash (blk_header block)) ids v2.
Proof.
  intros Ht. unfold process_block. destruct (evm_events chain _ v) as [events v1].
  rewrite dispatch_events_notified. destruct (dispatch_events _ k false events v1) as [ids v2].
  unfold process_internal_calls, mbind. by rewrite Ht.
Qed.

(** C20 A dry run predicts the runner.  For a stored EVM chain: when [parse_block] answers with a
    report, the entries it marks as matched are, in order, the events that a worker on the same
    configuration has to notify somebody of when it processes this block, although the worker asks
    the node for fewer logs and its registry has caches; [matched_count] is their number; and
    exactly those events are dispatched, before the checkpoint, when the chain does not trace
    internal calls (with tracing their events come on top).  Hypotheses: the same block and logs on
    both sides, no two events of one name in the registry's index ([names_unique]), and every log
    decoded or refused with [DecodeFailed] ([decode_total]). *)
Theorem dry_run_predicts_runner {LL : AbiLibLaws} {QL : SqlLaws} d cid row n w rep w' :
  chain_get cid d = Some row → c_kind row = ChainKind_evm →
  parse_block d cid n w = (Ok (DryOk rep), w') →
  let snap := load_snapshot d in
  ∃ reg block logs w1 w2 w3,
    refresh snap AbiRegistry_init = (Ok tt, reg) ∧
    dry_fetch_block (cid, row) n w1 = (Ok block, w2) ∧
    dry_fetch_logs (cid, row) n n w2 = (Ok logs, w3) ∧
    (names_unique reg → Forall (decode_total reg) logs →
     ∀ V (RE : RunnerEnv V) chain k (v : V) worker_reg,
       chain_id chain = cid → re_registry v = Some worker_reg →
       coherent worker_reg → lookup_equiv reg worker_reg →
       let fetched := selected (build_evm_log_filter snap cid (Some worker_reg)) logs in
       let '(events, v1) := evm_events chain (with_logs block fetched) v in
       let dispatched := filter (notified snap) events in
       filter (λ e, matched e = true) (rp_events rep) = enrich (Matcher_init snap) <$> dispatched ∧
       rp_matched_count rep = length dispatched ∧
       (chain_trace_internal_calls chain = false →
        process_block chain n block fetched (Matcher_init snap) k v =
          let '(ids, v2) := dispatch_events (Matcher_init snap) k false dispatched v1 in
          finish_block chain (hdr_number (blk_header block)) (hdr_hash (blk_header block)) ids v2)).
Proof.
  intros Hrow Hkind. unfold parse_block, or_failed, mcatch, mbind. cbn zeta.
  destruct (do_parse_block d cid n w) as [r w0] eqn:E. destruct r as [rep'|x].
  2: { destruct x; intros Hx; discriminate Hx. }
  intros Heq. unfold mret in Heq. injection Heq as <- <-. revert E.
  unfold do_parse_block. rewrite Hrow, Hkind. cbn [ChainKind_value]. rewrite String.eqb_refl.
  unfold mbind, fresh_registry, mlift.
  destruct (refresh (load_snapshot d) AbiRegistry_init) as [[[]|x] reg] eqn:Er; cbn [rmap]; [|done].
  unfold evm_dry_events, connect_or_502, mbind, mcatch.
  destruct (dry_connect (cid, row) w) as [[u|x] w1] eqn:Ec; [|done].
  unfold then_disconnect, mbind.
  destruct (dry_fetch_block (cid, row) n w1) as [[block|x] w2] eqn:Eb.
  2: { destruct (dry_disconnect (cid, row) w2) as [[] ?]; done. }
  destruct (dry_fetch_logs (cid, row) n n w2) as [[logs|x] w3] eqn:El.
  2: { destruct (dry_disconnect (cid, row) w3) as [[] ?]; done. }
  unfold mret. destruct (dry_disconnect (cid, row) w3) as [[] w4]; [|done].
  cbn [fst snd]. intros Heq. injection Heq as <- <-.
  exists reg, block, logs, w1, w2, w3. split; [done|]. split; [done|]. split; [done|].
  intros Hn Hdec V RE chain k v wreg <- Hv Hw Hq. cbn [rp_events rp_matched_count]. cbv zeta.
  rewrite !(filter_of_equiv _ _ reg wreg Hq).
  assert (coherent reg) as Hr by (eapply refresh_coherent; [apply coherent_init|exact Er]).
  pose proof (process_block_dispatches chain (load_snapshot d) n block
    (selected (build_evm_log_filter (load_snapshot d) (chain_id chain) (Some reg)) logs) k v) as Hp.
  pose proof (evm_events_block chain (with_logs block
    (selected (build_evm_log_filter (load_snapshot d) (chain_id chain) (Some reg)) logs)) v wreg Hv) as He.
  destruct (evm_events chain _ v) as [events v1]. cbn [fst] in He. subst events.
  rewrite (block_events_equiv _ _ _ reg wreg Hr Hw Hq) in *.
  rewrite selected_same_notified by done.
  assert (∀ evs : list Event, filter (λ ev, match_event (Matcher_init (load_snapshot d)) ev ≠ []) evs =
    filter (notified (load_snapshot d)) evs) as Hfil.
  { intros evs. apply list_filter_iff. apply loaded_match_notified. }
  unfold count_matched. rewrite filter_enrich, Hfil.
  split; [done|]. split; [by rewrite length_fmap|]. intros Ht.
  rewrite Hp by done. by rewrite selected_same_notified.
Qed.

(** *** What a test delivery reports *)
Section test_report.
Context {D : Type} {J : JsonSchema} `{!Arith D, !Brokers W, !HttpLib W}.
Variables (one four : D) (sleep : D → W → W) (operand : pyval → D).

Lemma test_channels_count ev sub chans entry k w :
  let '(_, k', _) := test_channels one four sleep operand ev sub chans entry k w in
  (k ≤ k' ≤ k + length chans)%nat.
Proof.
  revert entry k w. induction chans as [|c t IH]; intros entry k w; cbn [test_channels length]; [lia|].
  destruct (CHANNEL_REGISTRY !! ch_type c) as [cls|].
  - destruct (web_uuid w) as [uid w1].
    destruct (push_test _ _ _ _ _ _ _ w1) as [[[sent error]|e] w2].
    + set (entry' := match error with Some _ => _ | None => _ end).
      specialize (IH entry' (if sent : bool then S k else k) w2).
      destruct (test_channels _ _ _ _ ev sub t _ _ w2) as [[e' k'] w3]. destruct sent; lia.
    + specialize (IH entry k w2). destruct (test_channels _ _ _ _ ev sub t _ _ w2) as [[e' k'] w3]. lia.
  - specialize (IH entry k w). destruct (test_channels _ _ _ _ ev sub t _ _ w) as [[e' k'] w3]. lia.
Qed.

(** The matches of the subscription [sid] among [hits] *)
Definition own_hits (sid : string) (hits : list (SnapshotSubscription * list SnapshotChannel)) : nat :=
  length (filter (λ h, sub_id h.1 = sid) hits).

Lemma test_matches_count snap sid chans ev hits acc w bound :
  (∀ h, h ∈ hits → sub_id h.1 = sid → (length (test_targets snap h.1 chans) ≤ bound)%nat) →
  let '(acc', _) := test_matches one four sleep operand snap sid chans ev hits acc w in
  length acc'.1 = (length acc.1 + own_hits sid hits)%nat ∧
  (acc.2 ≤ acc'.2 ≤ acc.2 + own_hits sid hits * bound)%nat.
Proof.
  unfold own_hits. revert acc w. induction hits as [|[sub cs] t IH]; intros acc w Hb; cbn [test_matches].
  { cbn. lia. }
  rewrite filter_cons. cbn [fst].
  assert (∀ h, h ∈ t → sub_id h.1 = sid → (length (test_targets snap h.1 chans) ≤ bound)%nat) as Hb'.
  { intros h Hh. apply Hb. by right. }
  destruct (String.eqb_spec (sub_id sub) sid) as [Heq|Hne]; cbn [negb].
  - rewrite decide_True by done.
    assert (length (test_targets snap sub chans) ≤ bound)%nat as Hs by (apply (Hb (sub, cs)); [left|done]).
    pose proof (test_channels_count ev sub (test_targets snap sub chans) (safe_event ev) acc.2 w) as Hc.
    destruct (test_channels _ _ _ _ _ _ _ _ _ w) as [[entry k] w1].
    specialize (IH (acc.1 ++ [entry], k) w1 Hb').
    destruct (test_matches _ _ _ _ _ _ _ _ t _ w1) as [acc' w2]. cbn [fst snd] in IH.
    rewrite length_app in IH. cbn [length] in *. lia.
  - rewrite decide_False by done. by apply IH.
Qed.

Lemma test_events_count snap sid chans events acc w bound :
  (∀ sub, sub ∈ snap_subscriptions snap → sub_id sub = sid →
     (length (test_targets snap sub chans) ≤ bound)%nat) →
  let '(acc', _) := test_events one four sleep operand snap sid chans events acc w in
  let total := sum_list_with (λ ev, own_hits sid (match_event (Matcher_init snap) ev)) events in
  length acc'.1 = (length acc.1 + total)%nat ∧ (acc.2 ≤ acc'.2 ≤ acc.2 + total * bound)%nat.
Proof.
  intros Hb. revert acc w. induction events as [|ev t IH]; intros acc w; cbn [test_events sum_list_with].
  { cbn. lia. }
  pose proof (test_matches_count snap sid chans ev (match_event (Matcher_init snap) ev) acc w bound) as Hm.
  destruct (test_matches _ _ _ _ _ _ _ _ _ acc w) as [acc1 w1].
  specialize (IH acc1 w1). destruct (test_events _ _ _ _ _ _ _ t acc1 w1) as [acc2 w2].
  destruct Hm as [H1 H2]; [|cbn zeta in *; nia].
  intros [x cs] (Hx & _)%elem_of_match_event. by apply Hb.
Qed.

#[local] Instance wants_dec sub ev : Decision (wants sub ev).
Proof.
  refine (cast_if (decide ((sub_enabled sub = true ∧ sub_chain_id sub = ev_chain_id ev ∧
    sub_match_kind sub = ev_kind ev) ∧
    (if sub_matches sub ev is Ok true then true else false) = true)));
    rewrite wants_unfold; destruct (sub_matches sub ev) as [[]|]; naive_solver.
Defined.

(** With unique ids, an event has one match of the subscription when it is wanted, and none
    otherwise. *)
Lemma own_hits_unique snap sub ev :
  NoDup (sub_id <$> snap_subscriptions snap) → sub ∈ snap_subscriptions snap →
  own_hits (sub_id sub) (match_event (Matcher_init snap) ev) =
  if decide (wants sub ev) then 1%nat else 0%nat.
Proof.
  intros Hnd Hin. rewrite match_event_is_scan. unfold scan_match, own_hits.
  set (f := λ x, _ : option (SnapshotSubscription * list SnapshotChannel)).
  assert (∀ x, f x = if decide (wants x ev) then Some (x, channels_for_subscription snap x) else None) as Hf.
  { intros x. unfold f. destruct (decide (wants x ev)) as [[Hc Hm]%wants_unfold|Hn].
    - by rewrite decide_True, Hm.
    - case_decide as Hc; [|done]. rewrite wants_unfold in Hn.
      destruct (sub_matches x ev) as [[]|] eqn:E; [|done|done]. by destruct Hn. }
  clearbody f. revert Hnd Hin. generalize (snap_subscriptions snap). intros subs.
  assert (∀ l, sub_id sub ∉ sub_id <$> l → filter (λ h, sub_id h.1 = sub_id sub) (omap f l) = []) as Hnone.
  { intros l Hl. apply filter_none, Forall_forall. intros [y cs] (x & Hx & Hfx)%list_elem_of_omap.
    rewrite Hf in Hfx. case_decide; [|done]. injection Hfx as <- <-. cbn. intros Heq. apply Hl.
    rewrite <- Heq. by apply list_elem_of_fmap_2. }
  induction subs as [|x l IH]; intros Hnd Hin; [by apply not_elem_of_nil in Hin|].
  rewrite fmap_cons in Hnd. apply NoDup_cons in Hnd as [Hx Hnd]. cbn [omap list_omap].
  apply elem_of_cons in Hin as [<-|Hin].
  - rewrite Hf. destruct (decide (wants sub ev)).
    + rewrite filter_cons, decide_True by done. by rewrite Hnone.
    + by rewrite Hnone.
  - assert (sub_id x ≠ sub_id sub) as Hne.
    { intros Heq. apply Hx. rewrite Heq. by apply list_elem_of_fmap_2. }
    rewrite <- (IH Hnd Hin). rewrite Hf. destruct (decide (wants x ev)); [|done].
    by rewrite filter_cons, decide_False.
Qed.

Lemma loaded_ids_unique {QL : SqlLaws} d : NoDup (sub_id <$> snap_subscriptions (load_snapshot d)).
Proof.
  unfold load_snapshot. rewrite build_snapshot_eq. cbn [snap_subscriptions].
  rewrite <- list_fmap_compose.
  apply (sublist_NoDup _ ((λ sb, sb.1.1) <$> list_enabled_with_channels d)).
  - unfold list_enabled_with_channels. rewrite <- list_fmap_compose.
    exact (NoDup_table_filter d (λ s, s_enabled s.2 = true) (db_subscriptions d)).
  - apply fmap_sublist, sublist_filter.
Qed.

(** What a test delivery reports: of the block's events it counts as matched exactly those the
    enabled subscription wants, shows at most the first fifty of them, and no more sends are counted as
    delivered than one per matched event and bound channel. *)
Lemma test_delivery_counts {QL : SqlLaws} d sid n w rep w' :
  test_subscription one four sleep operand d sid n w = (Ok (DryOk (Some rep)), w') →
  ∃ row events, subscription_get sid d = Some row ∧ s_enabled row = true ∧
    let sub := snapshot_subscription (sid, row) (channels_of sid d) in
    tr_total_events rep = length events ∧
    tr_matched rep = length (filter (λ ev, wants sub ev) events) ∧
    length (tr_events rep) = Nat.min 50 (tr_matched rep) ∧
    (tr_delivered rep ≤ tr_matched rep * length (channels_of sid d))%nat.
Proof.
  unfold test_subscription, or_failed, mcatch, mbind.
  destruct (do_test_subscription one four sleep operand d sid n w) as [r w0] eqn:E.
  destruct r as [o|x]; [|by destruct x]. intros Heq. unfold mret in Heq. injection Heq as -> <-.
  revert E. unfold do_test_subscription.
  destruct (subscription_get sid d) as [row|] eqn:Es; [|done].
  destruct (chain_get (s_chain_id row) d) as [crow|]; [|done]. unfold mbind.
  destruct (fresh_registry (load_snapshot d) w) as [[reg|] w1]; [|done].
  destruct (List.find _ _) as [sub|] eqn:Ef; [|done].
  apply List.find_some in Ef as [Hin Hid%String.eqb_eq]. apply list_elem_of_In in Hin.
  destruct (test_block_events _ n reg w1) as [[[events|]|] w2]; [|done|done].
  pose proof Hin as (id & r & Hr & He & Hne & ->)%loaded_subscriptions.
  cbn [snapshot_subscription sub_id fst] in Hid. subst id.
  unfold subscription_get in Es. rewrite Hr in Es. injection Es as <-.
  pose proof (test_events_count (load_snapshot d) sid
    (test_channels_for d (load_snapshot d) (snapshot_subscription (sid, r) (channels_of sid d)))
    events ([], 0%nat) w2 (length (channels_of sid d))) as Hcount.
  destruct (test_events _ _ _ _ _ _ _ events _ w2) as [acc w3]. intros Heq. injection Heq as <- <-.
  destruct Hcount as [H1 H2].
  { intros x Hx Hxid. apply loaded_subscriptions in Hx as (id & r' & Hr' & He' & Hne' & ->).
    cbn [snapshot_subscription sub_id fst] in Hxid. subst id. rewrite Hr in Hr'. injection Hr' as <-.
    unfold test_targets. change (resolve_channels _ _) with
      (channels_for_subscription (load_snapshot d) (snapshot_subscription (sid, r) (channels_of sid d))).
    rewrite loaded_resolves by done. destruct (channels_of sid d) as [|c l]; [done|].
    rewrite fmap_cons. cbn [length]. by rewrite length_fmap. }
  assert (sum_list_with (λ ev, own_hits sid (match_event (Matcher_init (load_snapshot d)) ev)) events =
    length (filter (λ ev, wants (snapshot_subscription (sid, r) (channels_of sid d)) ev) events)) as Hsum.
  { clear -Hin QL. induction events as [|ev t IH]; [done|]. cbn [sum_list_with].
    pose proof (own_hits_unique (load_snapshot d) (snapshot_subscription (sid, r) (channels_of sid d)) ev
      (loaded_ids_unique d) Hin : own_hits sid _ = _) as ->.
    rewrite filter_cons, IH. by case_decide. }
  rewrite Hsum in H1, H2. cbn [fst snd length] in H1, H2.
  exists r, events. split; [done|]. split; [done|]. cbn [tr_total_events tr_matched tr_events tr_delivered].
  split; [done|]. split; [lia|]. split; [apply length_take|]. lia.
Qed.
End test_report.
End dry_run.

(** ** Witnesses: the block of [EndToEndSample], and a channel that delivers *)
Module DrySample.
#[export] Instance node : DryEnv ScriptBroker.world := {|
  dry_connect _ := mret tt;
  dry_disconnect _ := mret tt;
  dry_fetch_block _ _ := mret EndToEndSample.block;
  dry_fetch_logs _ _ _ := mret EndToEndSample.logs;
  dry_fetch_slot _ _ := mret None;
|}.

Definition sub_row : SubscriptionRow :=
  mkSubscriptionRow "payments" "eth" None (Some "token") MatchKind_event (Some "Paid") [] true None None None.
Definition db : Db :=
  set_bindings {[("s1", "c")]}
    (set_subscriptions {["s1" := sub_row]}
      (set_abis {["token" := mkAbiRow "Token" AbiKind_evm_abi FilterSample.plain]}
        (set_channels {["c" := toy_channel_row]} (set_chains {["eth" := toy_chain_row]} empty_db)))).

Definition parse (w : ScriptBroker.world) : result (dry_response report) * ScriptBroker.world :=
  parse_block (L:=ToyLib.lib) (Q:=ToySql) (WebEnv0:=ApiSample.env) db "eth" 5 w.

Lemma registry_of_db :
  refresh (L:=ToyLib.lib) (load_snapshot (L:=ToySql) db) AbiRegistry_init =
  (Ok tt, EndToEndSample.registry).
Proof.
  assert (new_abis (load_snapshot (L:=ToySql) db) = new_abis EndToEndSample.snapshot) as Ha
    by (vm_compute; reflexivity).
  unfold EndToEndSample.registry.
  assert (refresh (L:=ToyLib.lib) (load_snapshot (L:=ToySql) db) = refresh (L:=ToyLib.lib) EndToEndSample.snapshot)
    as -> by (unfold refresh; by rewrite Ha).
  apply injective_projections; [vm_compute; reflexivity|reflexivity].
Qed.

(** A worker that writes down what it dispatches and its checkpoints *)
Record worker := mkWorker { w_registry : AbiRegistry; w_dispatched : list Event; w_saved : list Z }.

Definition recording : RunnerEnv worker := {|
  re_runner _ := mkRunner (Matcher_init (load_snapshot (L:=ToySql) db)) 0
    (build_evm_log_filter (load_snapshot (L:=ToySql) db) "eth" (Some EndToEndSample.registry))
    (load_snapshot (L:=ToySql) db) false None;
  re_update _ w := w;
  re_registry w := Some (w_registry w);
  re_set_registry r w := mkWorker r (w_dispatched w) (w_saved w);
  re_connect := mret tt;
  re_disconnect := mret tt;
  re_latest := mret 9;
  re_fetch_block _ := mret EndToEndSample.block;
  re_fetch_logs _ _ _ _ := mret EndToEndSample.logs;
  re_trace_block := None;
  re_fetch_slot _ := mret None;
  re_get_blocks _ _ := mret [];
  re_notifier_new w := (0%nat, w);
  re_notifier_start _ _ := mret tt;
  re_notifier_stop _ := mret tt;
  re_drain _ := mret tt;
  re_dispatch _ ev _ _ w := mkWorker (w_registry w) (ev :: w_dispatched w) (w_saved w);
  re_cp_get _ := mret None;
  re_cp_save _ n _ := λ w, (Ok tt, mkWorker (w_registry w) (w_dispatched w) (n :: w_saved w));
  re_on_block _ _ w := w;
  re_publish_tip _ _ := mret tt;
|}.

Definition chain : SnapshotChain :=
  mkChain "eth" "evm" "http://rpc" None 2 1000 None false 4 100 [] 10000.
End DrySample.

(** Three events are reported, the one that matches is what the worker dispatches. *)
Lemma dry_run_predicts_runner_witness :
  ∃ rep w', DrySample.parse ([], []) = (Ok (DryOk rep), w') ∧ rp_matched_count rep = 1%nat ∧
    length (rp_events rep) = 3%nat.
Proof.
  destruct (DrySample.parse ([], [])) as [r w'] eqn:E.
  assert (match r with Ok (DryOk rep) => length (rp_events rep) | _ => 0%nat end = 3%nat) as Hok.
  { change r with (r, w').1. rewrite <- E. vm_compute. reflexivity. }
  destruct r as [[rep|]|]; [|discriminate Hok|discriminate Hok].
  exists rep, w'. split; [reflexivity|]. split; [|exact Hok].
  destruct (dry_run_predicts_runner (L:=ToyLib.lib) (LL:=ToyLib.laws) (Q:=ToySql) (QL:=ToySql_laws)
    (WebEnv0:=ApiSample.env) (DryEnv0:=DrySample.node) DrySample.db "eth" toy_chain_row 5 ([], []) rep w')
    as (reg & block & logs & v1 & v2 & v3 & H1 & H2 & H3 & H4).
  - vm_compute. reflexivity.
  - reflexivity.
  - exact E.
  - rewrite DrySample.registry_of_db in H1. injection H1 as <-. injection H2 as <- <-.
    injection H3 as <- <-.
    pose proof (H4 EndToEndSample.names EndToEndSample.decodable DrySample.worker
      DrySample.recording DrySample.chain 0%nat
      (DrySample.mkWorker EndToEndSample.registry [] []) EndToEndSample.registry eq_refl eq_refl
      EndToEndSample.registry_coherent ltac:(reflexivity)) as H5.
    cbv zeta in H5.
    match type of H5 with let '(_, _) := ?x in _ => destruct x as [events v1'] eqn:Ev end.
    destruct H5 as (_ & Hc & _). rewrite Hc.
    change events with (events, v1').1. rewrite <- Ev. vm_compute. reflexivity.
Defined.

Definition sample_test (w : ScriptBroker.world)
    : result (dry_response (option test_report)) * ScriptBroker.world :=
  test_subscription (L:=ToyLib.lib) (Q:=ToySql) (WebEnv0:=ApiSample.env) (DryEnv0:=DrySample.node)
    (Arith0:=py_ints) (Brokers0:=ScriptBroker.brokers ApiSample.ser)
    (HttpLib0:=ScriptBroker.http ApiSample.ser) (PInt 1) (PInt 4) (λ _ w, w) id
    DrySample.db "s1" 5 w.

Lemma test_delivery_counts_witness :
  ∃ rep w', sample_test ([], []) = (Ok (DryOk (Some rep)), w') ∧
    tr_matched rep = 1%nat ∧ (tr_delivered rep ≤ 1)%nat ∧ length (tr_events rep) = 1%nat.
Proof.
  destruct (sample_test ([], [])) as [r w'] eqn:E.
  assert (match r with Ok (DryOk (Some rep)) => (tr_total_events rep, tr_matched rep) | _ => (0, 0)%nat end
    = (3, 1)%nat) as Hok.
  { change r with (r, w').1. rewrite <- E. vm_compute. reflexivity. }
  destruct r as [[[rep|]|]|]; [|discriminate Hok|discriminate Hok|discriminate Hok].
  injection Hok as Ht Hm. exists rep, w'. split; [reflexivity|]. split; [exact Hm|].
  destruct (test_delivery_counts (L:=ToyLib.lib) (Q:=ToySql) (QL:=ToySql_laws)
    (WebEnv0:=ApiSample.env) (DryEnv0:=DrySample.node)
    (Arith0:=py_ints) (Brokers0:=ScriptBroker.brokers ApiSample.ser)
    (HttpLib0:=ScriptBroker.http ApiSample.ser) (PInt 1) (PInt 4) (λ _ w, w) id
    DrySample.db "s1" 5 ([], []) rep w' E) as (row & events & _ & _ & _ & _ & H5 & H6).
  assert (length (channels_of (L:=ToySql) "s1" DrySample.db) = 1%nat) as Hc by (vm_compute; reflexivity).
  rewrite Hm in H5, H6. rewrite Hc in H6. split; [exact H6|exact H5].
Defined.
