(* ===== verification/WsFanout.v ===== *)
(** * The websocket fan-out (apps/web/routers/ws.py)

    A session connects a subscription of the bus ([Watchers.subscribe]) to one websocket client: the
    producer task puts each message into a queue of 256, or drops it with a warning at most once a
    minute; the consumer task sends the queued texts.  The interleaving of the two tasks, the clock and
    the client's failures are the events of a step function.  Times are in milliseconds. *)
From stdpp Require Import list.
From S2P Require Import Prelude PyStr PyVal Types Snapshot Repositories Watchers Retry HttpChannel Channels.

Definition QUEUE_SIZE : nat := 256.
Definition WARN_WINDOW : Z := 60000.

(** [_resolve_fanout_channel]; [PNone] is None *)
Definition resolve_fanout_channel (channel_id : string) (d : Db) : pyval :=
  match channel_get channel_id d with
  | None => PNone
  | Some row =>
      if bool_decide (h_type row = ChannelType_ws) then default PNone (dget "ws_fanout_channel" (h_config row))
      else PNone
  end.

(** The producer is reading [stream]; the consumer is in [queue.get] ([sending = None]) or in
    [send_text].  [warned], newest first, are the times of the warnings.  [received] and [dropped]
    are history: the texts of all messages, and those that met a full queue. *)
Record WsSession := mkSession {
  clock : Z;
  stream : list (result pyval);
  queue : list string;
  sending : option string;
  sent : list string;
  last_warn_at : Z;
  warned : list Z;
  closed : bool;
  received : list string;
  dropped : list (Z * string);
}.

Inductive ws_event :=
  | Tick (dt : N)       (** time passes *)
  | Produce             (** the producer's next message, or the end of its subscription *)
  | Get                 (** the consumer takes a text *)
  | Sent                (** [send_text] returns *)
  | SendFails.          (** [send_text] raises: the client is gone *)

Lemma sublist_full {A} (l k : list A) : l `sublist_of` k → (length k <= length l)%nat → l = k.
Proof.
  induction 1 as [|x l k H IH|x l k H IH]; cbn; intros Hle; [done| |].
  - f_equal. apply IH. lia.
  - apply sublist_length in H. lia.
Qed.

Section session.
Variable dumps : pyval → string.   (** json.dumps(msg, separators=(",", ":")) *)

Definition put_or_drop (body : string) (s : WsSession) : WsSession :=
  let '(mkSession now st q sg sn lw wd c rc dr) := s in
  if bool_decide (length q < QUEUE_SIZE)%nat then
    mkSession now st (q ++ [body]) sg sn lw wd c (rc ++ [body]) dr
  else if bool_decide (WARN_WINDOW <= now - lw) then
    mkSession now st q sg sn now (now :: wd) c (rc ++ [body]) (dr ++ [(now, body)])
  else mkSession now st q sg sn lw wd c (rc ++ [body]) (dr ++ [(now, body)]).

(** The first task to end cancels the other, and the websocket is closed. *)
Definition close_session (s : WsSession) : WsSession :=
  let '(mkSession now st q sg sn lw wd _ rc dr) := s in mkSession now st q sg sn lw wd true rc dr.

Definition session_step (e : ws_event) (s : WsSession) : option WsSession :=
  let '(mkSession now st q sg sn lw wd c rc dr) := s in
  if c then None else
  match e with
  | Tick dt => Some (mkSession (now + Z.of_N dt) st q sg sn lw wd c rc dr)
  | Produce =>
      match st with
      | Ok msg :: st' => Some (put_or_drop (dumps msg) (mkSession now st' q sg sn lw wd c rc dr))
      | [] | Err _ :: _ => Some (close_session s)
      end
  | Get =>
      match sg, q with
      | None, body :: q' => Some (mkSession now st q' (Some body) sn lw wd c rc dr)
      | _, _ => None
      end
  | Sent =>
      match sg with
      | Some body => Some (mkSession now st q None (sn ++ [body]) lw wd c rc dr)
      | None => None
      end
  | SendFails => match sg with Some _ => Some (close_session s) | None => None end
  end.

Fixpoint session_run (es : list ws_event) (s : WsSession) : option WsSession :=
  match es with
  | [] => Some s
  | e :: es' => session_step e s ≫= session_run es'
  end.

(** [ws_endpoint]: closed with code 1008 ([inl]), or a session on the fan-out channel, whose messages
    the bus supplies. *)
Definition WS_1008_POLICY_VIOLATION : Z := 1008.
Definition ws_endpoint (bus : pyval → list pubsub_item) (t0 : Z) (channel_id : string) (d : Db)
    : Z + WsSession :=
  match resolve_fanout_channel channel_id d with
  | PNone => inl WS_1008_POLICY_VIOLATION
  | fanout => inr (mkSession t0 (subscribe (bus fanout)) [] None [] 0 [] false [] [])
  end.

(** ** Frames *)

(** What reaches the client, or will *)
Definition kept (s : WsSession) : list string := sent s ++ option_list (sending s) ++ queue s.

Definition frames_ok (all : list string) (s : WsSession) : Prop :=
  (length (queue s) <= QUEUE_SIZE)%nat ∧
  kept s `sublist_of` received s ∧
  length (received s) = (length (kept s) + length (dropped s))%nat ∧
  (received s ++ (dumps <$> omap (λ r, match r with Ok v => Some v | Err _ => None end) (stream s))
     = all).

(** Warnings a minute apart; a drop is in the minute of a warning, or in the clock's first minute. *)
Definition warnings_ok (s : WsSession) : Prop :=
  last_warn_at s = default 0 (head (warned s)) ∧
  StronglySorted (λ a b, b + WARN_WINDOW <= a) (warned s ++ [0]) ∧
  0 <= last_warn_at s <= clock s ∧
  Forall (λ '(t, _), ∃ w, w ∈ warned s ++ [0] ∧ w <= t < w + WARN_WINDOW) (dropped s).

Lemma frames_step all e s s' :
  session_step e s = Some s' → frames_ok all s → frames_ok all s'.
Proof.
  destruct s as [now st q sg sn lw wd c rc dr]. unfold session_step, frames_ok, kept.
  destruct c; [done|]. intros H (Hq & Hsub & Hlen & Hall). cbn [queue sent sending received dropped stream] in *.
  destruct e as [dt| | | |].
  - by simplify_eq.
  - destruct st as [|[msg|err] st]; cbn [close_session] in H; [by simplify_eq| |by simplify_eq].
    cbn [omap list_omap fmap list_fmap] in Hall. unfold put_or_drop in H.
    assert (∀ x, (rc ++ [dumps msg]) ++ x = rc ++ dumps msg :: x) as Hassoc by (intros; by rewrite <- app_assoc).
    case_bool_decide as Hfull; [|case_bool_decide]; simplify_eq; cbn [queue sent sending received dropped stream];
      (split; [rewrite ?length_app; cbn; lia|]); (split; [|split; [|apply Hassoc]]).
    + rewrite !app_assoc. rewrite <- (app_assoc sn). by apply sublist_app.
    + rewrite !length_app in *. cbn. lia.
    + by apply sublist_inserts_r.
    + rewrite !length_app in *. cbn. lia.
    + by apply sublist_inserts_r.
    + rewrite !length_app in *. cbn. lia.
  - destruct sg; [done|]. destruct q as [|b q]; [done|]. simplify_eq. cbn in *. split_and!; [lia|done..].
  - destruct sg as [b|]; [|done]. simplify_eq. cbn in *. rewrite <- app_assoc. by split_and!.
  - destruct sg; by simplify_eq.
Qed.

Lemma warnings_step e s s' :
  session_step e s = Some s' → warnings_ok s → warnings_ok s'.
Proof.
  destruct s as [now st q sg sn lw wd c rc dr]. unfold session_step, warnings_ok.
  destruct c; [done|]. intros H (Hlw & Hsp & Hle & Hdr). cbn [warned last_warn_at clock dropped] in *.
  destruct e as [dt| | | |].
  - simplify_eq. cbn. split_and!; [done..|lia|lia|done].
  - destruct st as [|[msg|err] st]; cbn [close_session] in H; [by simplify_eq| |by simplify_eq].
    unfold put_or_drop in H.
    case_bool_decide as Hfull; [by simplify_eq|]. 
    assert (lw ∈ wd ++ [0]) as Hin.
    { subst lw. destruct wd; cbn; set_solver. }
    case_bool_decide as Hw; simplify_eq; cbn [warned last_warn_at clock dropped].
    + split; [done|]. split; [|split; [lia|]].
      * rewrite <- app_comm_cons. constructor; [done|].
        destruct wd as [|w wd]; cbn in *; [constructor; [lia|done]|].
        inversion Hsp as [|? ? Hs Hf]; subst. constructor; [lia|].
        eapply Forall_impl; [done|]. cbn. unfold WARN_WINDOW in *. lia.
      * apply Forall_app; split.
        -- eapply Forall_impl; [done|]. intros [t b] (w & Hin' & Hwt). exists w. set_solver.
        -- constructor; [|done]. exists now. split; [set_solver|unfold WARN_WINDOW; lia].
    + split; [done|]. split; [done|]. split; [done|]. apply Forall_app. split; [done|].
      constructor; [|done]. exists (default 0 (head wd)). split; [done|lia].
  - destruct sg; [done|]. destruct q as [|b q]; [done|]. by simplify_eq.
  - destruct sg as [b|]; [|done]. by simplify_eq.
  - destruct sg; by simplify_eq.
Qed.

Lemma session_run_preserves (P : WsSession → Prop) es s s' :
  (∀ e s s', session_step e s = Some s' → P s → P s') → session_run es s = Some s' → P s → P s'.
Proof.
  intros Hstep. revert s. induction es as [|e es IH]; intros s H HP; cbn in H; [by simplify_eq|].
  destruct (session_step e s) as [s1|] eqn:E; [|done]. eapply IH; [done|]. by eapply Hstep.
Qed.

Lemma subscribe_messages items :
  omap (λ r, match r with Ok v => Some v | Err _ => None end) (subscribe items) = messages items.
Proof. induction items as [|[[v|e]|] items IH]; cbn; [done|by f_equal|done|done]. Qed.

(** A websocket session delivers in order and without duplicates: whatever the interleaving, what the
    client was sent, followed by what it will be, is a subsequence of the messages published on
    the fan-out channel; exactly those that met a queue of 256 waiting texts are missing; warnings about
    them are a minute apart, and every loss lies within a minute after a warning or the clock's start. *)
Lemma ws_session_faithful bus t0 channel_id d es s s' :
  ws_endpoint bus t0 channel_id d = inr s → 0 <= t0 → session_run es s = Some s' →
  kept s' `sublist_of` received s' ∧
  received s' `prefix_of` (dumps <$> messages (bus (resolve_fanout_channel channel_id d))) ∧
  length (received s') = (length (kept s') + length (dropped s'))%nat ∧
  (dropped s' = [] → kept s' = received s') ∧
  (length (queue s') <= QUEUE_SIZE)%nat ∧
  warnings_ok s'.
Proof.
  unfold ws_endpoint. intros H Ht Hrun. set (fanout := resolve_fanout_channel channel_id d) in *.
  assert (s = mkSession t0 (subscribe (bus fanout)) [] None [] 0 [] false [] []) as ->.
  { destruct fanout; by simplify_eq. }
  assert (frames_ok (dumps <$> messages (bus fanout)) s') as (Hq & Hsub & Hlen & Hall).
  { eapply session_run_preserves; [apply frames_step|done|]. unfold frames_ok. cbn.
    rewrite subscribe_messages. split_and!; [unfold QUEUE_SIZE; lia|done|done|done]. }
  split; [done|]. split; [by eexists|]. split; [done|]. split.
  - intros Hd. rewrite Hd in Hlen. cbn in Hlen. apply sublist_full; [done|lia].
  - split; [done|]. eapply session_run_preserves; [apply warnings_step|done|].
    unfold warnings_ok. cbn. split_and!; [done|by repeat constructor|lia|lia|done].
Qed.

(** The consumer's steps for what is kept now *)
Definition consume (s : WsSession) : list ws_event :=
  match sending s with Some _ => [Sent] | None => [] end ++ concat (replicate (length (queue s)) [Get; Sent]).

Lemma consume_queue s :
  closed s = false → sending s = None →
  session_run (concat (replicate (length (queue s)) [Get; Sent])) s =
  let '(mkSession now st q sg sn lw wd c rc dr) := s in
  Some (mkSession now st [] None (sn ++ q) lw wd c rc dr).
Proof.
  destruct s as [now st q sg sn lw wd c rc dr]. cbn. intros -> ->.
  revert sn. induction q as [|b q IH]; intros sn; cbn; [by rewrite app_nil_r|].
  rewrite IH. by rewrite <- app_assoc.
Qed.

(** A client that keeps reading catches up: from any state of an open session, whatever the producer
    did, the consumer's own steps never block and bring the client everything kept, after which the
    queue is empty. *)
Lemma ws_client_catches_up s :
  closed s = false →
  ∃ s', session_run (consume s) s = Some s' ∧ sent s' = kept s ∧ queue s' = [] ∧ sending s' = None ∧
    closed s' = false ∧ stream s' = stream s.
Proof.
  destruct s as [now st q sg sn lw wd c rc dr]. unfold consume, kept. cbn. intros ->.
  destruct sg as [b|]; cbn.
  - pose proof (consume_queue (mkSession now st q None (sn ++ [b]) lw wd false rc dr) eq_refl eq_refl) as E.
    cbn in E. rewrite E. eexists. split; [done|]. cbn. by rewrite <- app_assoc.
  - pose proof (consume_queue (mkSession now st q None sn lw wd false rc dr) eq_refl eq_refl) as E.
    cbn in E. rewrite E. by eexists.
Qed.
End session.

(** The endpoint listens where the channel's driver publishes, and refuses every other type. *)
Lemma endpoint_hears_driver {D} (operand : pyval → D) id row d c :
  channel_get id d = Some row → channel_factory operand (snapshot_channel (id, row)) = Ok c →
  match c with
  | DWs c => resolve_fanout_channel id d = ws_fanout_channel c
  | _ => resolve_fanout_channel id d = PNone
  end.
Proof.
  intros Hrow H. unfold channel_factory, snapshot_channel in H. cbn [ch_type ch_config fst snd] in H.
  rewrite registry_classes in H. unfold resolve_fanout_channel. rewrite Hrow.
  destruct (h_type row); unfold construct in H; cbn [cls_id streams_class http_class ws_class kafka_class
    rabbitmq_class] in H;
    match type of H with rmap _ ?r = _ => destruct r as [x|] eqn:E end; cbn in H; simplify_eq; cbn; try done.
  unfold ws_init, config_item in E. cbn in E.
  by destruct (dget "ws_fanout_channel" (h_config row)); cbn in E; simplify_eq.
Qed.

(** Two messages, the second received while the first is being sent. *)
Module WsSample.
Definition db : Db := set_channels {[ "ws1" := mkChannelRow "n" ChannelType_ws [("ws_fanout_channel", PStr "f")] ]} empty_db.
Definition bus (c : pyval) : list pubsub_item := [Message (Ok (PInt 1)); Other; Message (Ok (PInt 2))].
Definition dumps (v : pyval) : string := match v with PInt 1 => "1" | _ => "2" end.
Definition started : WsSession := mkSession 70000 [Ok (PInt 1); Ok (PInt 2)] [] None [] 0 [] false [] [].
Definition events : list ws_event := [Produce; Get; Tick 5; Produce].
End WsSample.

Lemma ws_session_faithful_witness :
  ∃ s', session_run WsSample.dumps WsSample.events WsSample.started = Some s' ∧
    kept s' = ["1"; "2"] ∧ kept s' `sublist_of` received s'.
Proof.
  eexists. split; [vm_compute; reflexivity|]. split; [vm_compute; reflexivity|].
  exact (proj1 (ws_session_faithful WsSample.dumps WsSample.bus 70000 "ws1" WsSample.db WsSample.events
    WsSample.started _ eq_refl ltac:(lia) eq_refl)).
Defined.

Lemma ws_client_catches_up_witness :
  ∃ s', session_run WsSample.dumps [Sent; Get; Sent]
      (mkSession 70005 [] ["2"] (Some "1") [] 0 [] false ["1"; "2"] []) = Some s' ∧ sent s' = ["1"; "2"].
Proof.
  destruct (ws_client_catches_up WsSample.dumps
    (mkSession 70005 [] ["2"] (Some "1") [] 0 [] false ["1"; "2"] []) eq_refl) as (s' & H & Hs & _).
  exists s'. split; [exact H|exact Hs].
Defined.
