(* ===== verification/WebFront.v ===== *)
(** * The web application around the routers (apps/web/main.py, apps/web/deps.py)

    The lifespan, the health check and what [create_app] wraps around the routers: the metrics middleware
    and, outermost, the fallback to the single-page application.  The routers themselves are those of
    [WebApi], [DryRun] and [WsFanout]; here a router is any handler together with the template of the
    route it matched. *)
From S2P Require Import Prelude PyStr PyVal Hoare RpcPool Lifecycle.

Section front.
Context {W : Type} `{!Platform W}.

(** ** [lifespan] *)

(** [serve] is what runs while the context manager is suspended in its [yield]: it finds the two objects
    in [app.state] ([get_db], [get_bus]). *)
Definition lifespan (db_url redis_url : string) (serve : Database → RedisBus → M W unit) : M W unit := λ w,
  match db_connect (Database_init db_url, w) with
  | (Err e, (_, w1)) => (Err e, w1)
  | (Ok _, (db, w1)) =>
      match bus_connect (RedisBus_init redis_url, w1) with
      | (Err e, (_, w2)) =>
          let '(r, (_, w3)) := db_disconnect (db, w2) in
          (match r with Ok _ => Err e | Err e' => Err e' end, w3)
      | (Ok _, (bus, w2)) =>
          let '(r, w3) := serve db bus w2 in
          match bus_disconnect (bus, w3) with
          | (Err e, (_, w4)) => (Err e, w4)
          | (Ok _, (_, w4)) =>
              let '(r', (_, w5)) := db_disconnect (db, w4) in
              (match r' with Ok _ => r | Err e => Err e end, w5)
          end
      end
  end.

(** ** [healthz] *)
Definition health_word (b : bool) : string := if b then "ok" else "fail".

Definition db_alive : M (Database * W) bool :=
  mcatch (let* h := db_engine in lift_world (pf_select_1 h) ;;* mret true) (λ _, mret false).

Definition healthz (db : Database) (bus : RedisBus) : M W (Z * list (string * string)) := λ w,
  match db_alive (db, w) with
  | (Err e, (_, w1)) => (Err e, w1)
  | (Ok db_ok, (_, w1)) =>
      match bus_ping (bus, w1) with
      | (Err e, (_, w2)) => (Err e, w2)
      | (Ok redis_ok, (_, w2)) =>
          (Ok (if db_ok && redis_ok then 200 else 503,
               [("db", health_word db_ok); ("redis", health_word redis_ok)]), w2)
      end
  end.

(** Neither check raises. *)
Lemma db_alive_run db w :
  ∃ b w', db_alive (db, w) = (Ok b, (db, w')) ∧
    b = match dt_engine db with Some h => is_ok (pf_select_1 h w).1 | None => false end.
Proof.
  destruct db as [u [h|]]; unfold db_alive, db_engine, lift_world, mcatch, mbind, mgets, mzoom, mret, mthrow; cbn.
  - destruct (pf_select_1 h w) as [[[]|e] w1]; [exists true|exists false]; by exists w1.
  - by exists false, w.
Qed.

Lemma bus_ping_run bus w :
  ∃ b w', bus_ping (bus, w) = (Ok b, (bus, w')) ∧
    b = match rb_client bus with
        | Some c => match (pf_ping c w).1 with Ok b => b | Err _ => false end
        | None => false
        end.
Proof.
  destruct bus as [u [c|]]; unfold bus_ping, lift_world, mcatch, mbind, mgets, mzoom, mret; cbn.
  - destruct (pf_ping c w) as [[b|e] w1]; [exists b|exists false]; by exists w1.
  - by exists false, w.
Qed.

(** The health check always answers: 200 exactly when a statement runs in a session of a connected
    database and Redis, asked next, says yes to a ping; 503 otherwise, whatever the two raise and also before
    anything is connected; the body names each. *)
Lemma healthz_answers db bus w :
  ∃ db_ok redis_ok w1 w2,
    healthz db bus w = (Ok (if db_ok && redis_ok then 200 else 503,
                            [("db", health_word db_ok); ("redis", health_word redis_ok)]), w2) ∧
    w1 = (db_alive (db, w)).2.2 ∧
    (db_ok = true ↔ ∃ h, dt_engine db = Some h ∧ (pf_select_1 h w).1 = Ok tt) ∧
    (redis_ok = true ↔ ∃ c, rb_client bus = Some c ∧ (pf_ping c w1).1 = Ok true).
Proof.
  destruct (db_alive_run db w) as (b & w1 & Hd & Hb). destruct (bus_ping_run bus w1) as (r & w2 & Hp & Hr).
  exists b, r, w1, w2. unfold healthz. rewrite Hd, Hp. split; [done|]. split; [done|]. split.
  - subst b. destruct (dt_engine db) as [h|]; [|naive_solver].
    assert (∀ r : result unit, is_ok r = true ↔ r = Ok tt) as -> by (intros [[]|]; naive_solver). naive_solver.
  - subst r. destruct (rb_client bus) as [c|]; [|naive_solver].
    assert (∀ r, match r with Ok b => b | Err _ => false end = true ↔ r = Ok true) as -> by (intros [[]|]; naive_solver).
    naive_solver.
Qed.

(** What the web process leaves open.  When disposing of the engine succeeds, the lifespan closes all
    it opened, whatever the application it serves returns or raises, and ends as the application did, with two
    exceptions: when Redis does not answer the first ping its client is never closed, and when closing the
    client raises the engine is never disposed of either. *)
Lemma lifespan_resources opened tasks (laws : platform_laws opened tasks) db_url redis_url serve w :
  (∀ h w, is_ok (pf_dispose h w).1 = true) → (∀ db bus w, opened (serve db bus w).2 = opened w) →
  let '(r, w') := lifespan db_url redis_url serve w in
  (opened w' = opened w ∧ ∃ db bus w1, r = (serve db bus w1).1) ∨
  (∃ c w1, is_ok r = false ∧ is_ok (pf_ping c w1).1 = false ∧ (c ∉ opened w) ∧ opened w' = {[c]} ∪ opened w) ∨
  (∃ h c w1, is_ok r = false ∧ is_ok (pf_aclose c w1).1 = false ∧ (h ∉ opened w) ∧ (c ∉ {[h]} ∪ opened w) ∧
     opened w' = {[c]} ∪ ({[h]} ∪ opened w)).
Proof.
  intros Hdisp Hserve. unfold lifespan.
  destruct (db_connect_opens opened tasks laws db_url w) as (h & w1 & -> & Hh & Ho1 & _).
  destruct (bus_connect_opens opened tasks laws redis_url w1) as (r & c & w2 & -> & Hc & Ho2 & _ & wp & Hping).
  assert (∀ u w, ∃ w', db_disconnect (mkDatabase u (Some h), w) = (Ok tt, (mkDatabase u None, w')) ∧
                       opened w' = opened w ∖ {[h]}) as Hdb.
  { intros u w0. destruct (db_disconnect_closes opened tasks laws u h w0) as (rd & w' & Hd & Ho & _).
    unfold db_disconnect, mbind, mgets, lift_world, put_object, mmodify, mzoom in *. cbn in *.
    pose proof (Hdisp h w0) as Hok. destruct (pf_dispose h w0) as [[[]|e] wd]; [|done]. cbn in *.
    simplify_eq. by eexists. }
  destruct r as [[]|e]; cbn [is_ok] in Hping.
  - pose proof (Hserve (mkDatabase db_url (Some h)) (mkBus redis_url (Some c)) w2) as Hs.
    destruct (serve _ _ w2) as [rs w3] eqn:Es. cbn [snd] in Hs.
    destruct (bus_disconnect_closes opened tasks laws redis_url c w3) as (rb & w4 & Hb & Ho4 & _).
    rewrite Hb. destruct rb as [[]|e]; cbn [is_ok] in *.
    + destruct (Hdb db_url w4) as (w5 & -> & Ho5). left. split; [|eexists _, _, w2; by rewrite Es].
      rewrite Ho5, Ho4, Hs, Ho2, Ho1. rewrite Ho1 in Hc. revert Hh Hc. clear. intros Hh Hc.
      apply set_eq. intros x. set_unfold. split; [tauto|]. intros Hx. split_and!; [tauto|..]; intros ->; tauto.
    + do 2 right. exists h, c. rewrite Ho4, Hs, Ho2, Ho1. rewrite Ho1 in Hc.
      unfold bus_disconnect, mbind, mgets, lift_world, mzoom in Hb. cbn in Hb.
      exists w3. destruct (pf_aclose c w3) as [[[]|e'] w']; [done|]. by split_and!.
  - destruct (Hdb db_url w2) as (w3 & -> & Ho3). right. left. exists c, wp. rewrite Ho3, Ho2, Ho1.
    rewrite Ho1 in Hc. split_and!; [done|done|set_solver|]. revert Hh Hc. clear. intros Hh Hc.
    apply set_eq. intros x. set_unfold. destruct (decide (x = c)); naive_solver.
Qed.
End front.

(** ** The middlewares of [create_app] *)
Record Request := mkRequest { rq_method : string; rq_path : string }.
(** [rs_file] is the file a [FileResponse] sends *)
Record Response := mkResponse { rs_status : Z; rs_content : string; rs_file : option string }.

(** API_REQUEST_SECONDS and API_REQUESTS_TOTAL by their labels *)
Record ApiMetrics := mkApiMetrics {
  am_seconds : gmap (string * string) (list Z);
  am_total : gmap (string * string * string) Z;
}.

Section middleware.
Context {W : Type}.
Variable perf_counter : W → Z.
(** The routers: the response, and the template of the route in [request.scope], if one matched *)
Variable handle : Request → M W (Response * option string).

Definition observe (labels : string * string) (seconds : Z) (m : ApiMetrics) : ApiMetrics :=
  mkApiMetrics (<[labels := default [] (am_seconds m !! labels) ++ [seconds]]> (am_seconds m)) (am_total m).
Definition inc (labels : string * string * string) (m : ApiMetrics) : ApiMetrics :=
  mkApiMetrics (am_seconds m) (<[labels := default 0 (am_total m !! labels) + 1]> (am_total m)).

(** [track_api_metrics] *)
Definition track_api_metrics (request : Request) : M (ApiMetrics * W) Response := λ '(m, w),
  if String.eqb (rq_path request) "/metrics" then
    let '(r, w') := handle request w in
    (match r with Ok (response, _) => Ok response | Err e => Err e end, (m, w'))
  else
  let t0 := perf_counter w in
  match handle request w with
  | (Err e, w') => (Err e, (m, w'))
  | (Ok (response, route), w') =>
      let elapsed := perf_counter w' - t0 in
      let path := default (rq_path request) route in
      (Ok response,
       (inc (rq_method request, path, py_str (rs_status response))
          (observe (rq_method request, path) elapsed m), w'))
  end.

Definition index_html : string := "web/dist/index.html".
Definition not_spa : list string := ["/api"; "/ws"; "/healthz"; "/assets"].
Definition spa_path (request : Request) : bool :=
  String.eqb (rq_method request) "GET" && negb (existsb (startswith (rq_path request)) not_spa).

(** [_SPAFallbackMiddleware.dispatch]; [is_file] is [index_html.is_file()] *)
Definition spa_fallback (is_file : W → bool) (call_next : Request → M (ApiMetrics * W) Response) (request : Request)
    : M (ApiMetrics * W) Response :=
  let* response := call_next request in
  let* s := mget in
  if (rs_status response =? 404) && spa_path request && is_file s.2
  then mret (mkResponse 200 "" (Some index_html))
  else mret response.

(** The application of [create_app]; [spa_dir] is [spa_dir.is_dir()] when it is called *)
Definition app (spa_dir : bool) (is_file : W → bool) (request : Request) : M (ApiMetrics * W) Response :=
  if spa_dir then spa_fallback is_file track_api_metrics request else track_api_metrics request.

(** Requests answered one after the other; one that raises is answered by the server *)
Fixpoint traffic (spa_dir : bool) (is_file : W → bool) (l : list Request) (s : ApiMetrics * W)
    : list (result Response) * (ApiMetrics * W) :=
  match l with
  | [] => ([], s)
  | r :: l => let '(a, s') := app spa_dir is_file r s in
              let '(t, s'') := traffic spa_dir is_file l s' in (a :: t, s'')
  end.

(** The labels under which the request is counted from world [w], none or one *)
Definition labels_of (r : Request) (w : W) : list (string * string * string) :=
  match (handle r w).1 with
  | Ok (response, route) =>
      if String.eqb (rq_path r) "/metrics" then []
      else [(rq_method r, default (rq_path r) route, py_str (rs_status response))]
  | Err _ => []
  end.

Fixpoint counted (l : list Request) (w : W) : list (string * string * string) :=
  match l with
  | [] => []
  | r :: l => labels_of r w ++ counted l (handle r w).2
  end.

Definition occurrences {A} `{EqDecision A} (x : A) (l : list A) : Z := Z.of_nat (length (filter (x =.) l)).

Lemma app_metrics spa_dir is_file r m w :
  (app spa_dir is_file r (m, w)).2 = (track_api_metrics r (m, w)).2.
Proof.
  unfold app. destruct spa_dir; [|done]. unfold spa_fallback, mbind, mget, mret.
  destruct (track_api_metrics r (m, w)) as [[a|e] s']; [|done]. by destruct (_ && _).
Qed.

Lemma track_metrics r m w :
  let '(m', w') := (track_api_metrics r (m, w)).2 in
  w' = (handle r w).2 ∧
  (∀ x, default 0 (am_total m' !! x) = default 0 (am_total m !! x) + occurrences x (labels_of r w)) ∧
  (∀ x, length (default [] (am_seconds m' !! x)) =
        (length (default [] (am_seconds m !! x)) + length (filter (x =.) (fst <$> labels_of r w)))%nat).
Proof.
  unfold track_api_metrics, labels_of, occurrences.
  destruct (handle r w) as [[[resp route]|e] w'], (String.eqb (rq_path r) "/metrics"); cbn [fst snd fmap list_fmap];
    try (split_and!; [done|intros x; rewrite filter_nil; cbn; lia..]).
  split; [done|]. set (lab := (rq_method r, default (rq_path r) route, py_str (rs_status resp))).
  change (rq_method r, default (rq_path r) route) with lab.1. split; intros x; rewrite ?fmap_cons, filter_cons, filter_nil.
  - destruct (decide (x = lab)) as [->|Hne]; cbn [am_total inc].
    + by rewrite lookup_insert_eq.
    + rewrite lookup_insert_ne by done. cbn. lia.
  - destruct (decide (x = lab.1)) as [->|Hne]; cbn [am_seconds inc observe].
    + by rewrite lookup_insert_eq; simpl; rewrite length_app.
    + rewrite lookup_insert_ne by done. cbn. lia.
Qed.

(** The metrics account for the traffic.  Over any sequence of requests, each counter grows by the number of
    requests that were answered under its method, path and status, and each latency series by one observation
    for each of them; requests for /metrics and requests whose handler raises are in neither.  What is
    counted is the routers' answer: replacing a 404 by the single-page application does not change it. *)
Lemma traffic_metrics spa_dir is_file l m w :
  let '(_, (m', _)) := traffic spa_dir is_file l (m, w) in
  (∀ x, default 0 (am_total m' !! x) = default 0 (am_total m !! x) + occurrences x (counted l w)) ∧
  (∀ x, length (default [] (am_seconds m' !! x)) =
        (length (default [] (am_seconds m !! x)) + length (filter (x =.) (fst <$> counted l w)))%nat).
Proof.
  revert m w. induction l as [|r l IH]; intros m w; cbn [traffic counted].
  { split; intros x; [unfold occurrences|]; cbn; lia. }
  pose proof (app_metrics spa_dir is_file r m w) as Ha. pose proof (track_metrics r m w) as Ht.
  destruct (app spa_dir is_file r (m, w)) as [a [m1 w1]]. cbn [snd] in Ha. rewrite <-Ha in Ht.
  destruct Ht as (-> & H1 & H2). specialize (IH m1 (handle r w).2).
  destruct (traffic _ _ _ _) as [t [m2 w2]]. destruct IH as [H3 H4]. split; intros x.
  - rewrite H3, H1. unfold occurrences. rewrite filter_app, length_app. lia.
  - rewrite H4, H2. rewrite fmap_app, filter_app, length_app. lia.
Qed.

Lemma track_answer r m w :
  ∃ m', track_api_metrics r (m, w) =
    (match (handle r w).1 with Ok (response, _) => Ok response | Err e => Err e end, (m', (handle r w).2)).
Proof.
  unfold track_api_metrics. destruct (handle r w) as [[[resp route]|e] w'], (String.eqb _ _); by eexists.
Qed.

(** What a client sees.  The answer is the router's, with one exception: a 404 to a GET outside /api, /ws,
    /healthz and /assets is replaced by the single-page application, if it has been built.  So every
    answer of the API, its 404s included, reaches the client. *)
Lemma app_answers spa_dir is_file r m w :
  let answer := match (handle r w).1 with Ok (response, _) => Ok response | Err e => Err e end in
  (app spa_dir is_file r (m, w)).1 =
    match answer with
    | Ok response =>
        if spa_dir && ((rs_status response =? 404) && spa_path r && is_file (handle r w).2)
        then Ok (mkResponse 200 "" (Some index_html)) else answer
    | Err _ => answer
    end ∧
  (startswith (rq_path r) "/api" = true → (app spa_dir is_file r (m, w)).1 = answer).
Proof.
  cbn zeta. assert (startswith (rq_path r) "/api" = true → spa_path r = false) as Hapi.
  { intros H. unfold spa_path, not_spa. cbn [existsb]. by rewrite H, andb_false_r. }
  destruct (track_answer r m w) as [m' Ht]. unfold app, spa_fallback, mbind, mget, mret.
  destruct spa_dir; rewrite Ht; destruct (handle r w) as [[[resp route]|e] w']; cbn [fst snd andb]; try done.
  split; [by destruct (_ && _)|]. intros H. rewrite (Hapi H). by destruct (rs_status resp =? 404).
Qed.
End middleware.

(** Every unknown address is a series of its own: it matches no route, so the raw path is its label; and
    a scrape of /metrics/, where the exporter is mounted, is counted like any other request. *)
Example unknown_paths_counted :
  let handle (r : Request) : M unit (Response * option string) := mret (mkResponse 404 "" None, None) in
  let s := traffic (λ _, 0) handle false (λ _, false) [mkRequest "GET" "/a1"; mkRequest "GET" "/a2"; mkRequest "GET" "/metrics/"]
             (mkApiMetrics ∅ ∅, tt) in
  size (am_total s.2.1) = 3%nat.
Proof. vm_compute. reflexivity. Qed.

Lemma lifespan_resources_witness :
  let run ping aclose := lifespan (Platform0 := PlatformSample.platform ping aclose PlatformSample.ends)
    "sqlite://" "redis://" (λ _ _, mret tt) (∅, ∅) in
  (run true true).2.1 = ∅ ∧
  ∃ c, (run false true).1 = Err PlatformSample.down ∧ (run false true).2.1 = {[c]} ∪ ∅.
Proof.
  intros run. split; [vm_compute; reflexivity|].
  pose proof (lifespan_resources (Platform0 := PlatformSample.platform false true PlatformSample.ends) fst snd
    (PlatformSample.platform_ok false true PlatformSample.ends) "sqlite://" "redis://" (λ _ _, mret tt) (∅, ∅)
    (λ _ _, eq_refl) (λ _ _ _, eq_refl)) as H.
  assert ((run false true).1 = Err PlatformSample.down) as Hr by (vm_compute; reflexivity).
  destruct (run false true) as [r w'] eqn:E. unfold run in E. rewrite E in H. cbn in Hr. subst r.
  destruct H as [[_ (db & bus & w1 & He)]|[(c & w1 & _ & _ & _ & Hc)|(h & c & w1 & _ & Hc & _)]].
  - discriminate He.
  - exists c. split; [done|exact Hc].
  - discriminate Hc.
Defined.
