(* ===== verification/LogBuffer.v ===== *)
(** * The log buffer (core/logging.py, apps/web/routers/logs.py)

    Every log line of the worker is pushed onto a Redis list by a task of its own, which then trims the list;
    the API reads it.  The list commands are the class [RedisList], [redis_list_laws] what their
    documentation says.  The tasks interleave arbitrarily: what reaches Redis is any sequence of LPUSH and LTRIM. *)
From S2P Require Import Prelude PyStr PyVal.

Class RedisList (W : Type) := {
  rl_lpush : string → W → result unit * W;          (** LPUSH _LOG_KEY line *)
  rl_ltrim : Z → Z → W → result unit * W;           (** LTRIM _LOG_KEY start stop *)
  rl_lrange : Z → Z → M W (list string);            (** LRANGE _LOG_KEY start stop *)
  rl_delete : M W unit;                             (** DEL _LOG_KEY *)
}.

(** The elements from [start] to [stop] inclusive, negative indexes counted from the end *)
Definition redis_range (start stop : Z) (l : list string) : list string :=
  let n := Z.of_nat (length l) in
  let index i := if i <? 0 then Z.max 0 (n + i) else i in
  if stop + (if stop <? 0 then n else 0) <? index start then []
  else take (Z.to_nat (index stop + 1 - index start)) (drop (Z.to_nat (index start)) l).

(** A command that raises may or may not have been applied. *)
Record redis_list_laws (W : Type) `{!RedisList W} (items : W → list string) : Prop := {
  ll_lpush x w : items (rl_lpush x w).2 = x :: items w ∨
                 (is_ok (rl_lpush x w).1 = false ∧ items (rl_lpush x w).2 = items w);
  ll_ltrim i j w : items (rl_ltrim i j w).2 = redis_range i j (items w) ∨
                   (is_ok (rl_ltrim i j w).1 = false ∧ items (rl_ltrim i j w).2 = items w);
  ll_lrange i j w : is_ok (rl_lrange i j w).1 = true → (rl_lrange i j w).1 = Ok (redis_range i j (items w));
  ll_delete w : is_ok (rl_delete w).1 = true → items (rl_delete w).2 = [];
}.

Definition MAX_LOGS : Z := 500.

Section logs.
Context {W : Type} `{!RedisList W}.

(** The two commands of [_push], each of which ends the task when it raises *)
Inductive command := Push (line : string) | Trim.
Definition send (c : command) (w : W) : W :=
  match c with Push line => (rl_lpush line w).2 | Trim => (rl_ltrim 0 (MAX_LOGS - 1) w).2 end.

(** [_push] when no other task runs meanwhile *)
Definition push (line : string) (w : W) : W :=
  match rl_lpush line w with
  | (Ok _, w') => (rl_ltrim 0 (MAX_LOGS - 1) w').2
  | (Err _, w') => w'
  end.

(** [get_logs]; [loads] is [json.loads] *)
Definition get_logs (loads : string → result pyval) (limit : Z) : M W (list pyval) :=
  let* raw := rl_lrange 0 (limit - 1) in
  mret ((λ item, match loads item with Ok v => v | Err _ => PDict [("message", PStr item)] end) <$> raw).

Definition clear_logs : M W unit := rl_delete.

(** The lines whose LPUSH takes effect, newest first *)
Fixpoint delivered (items : W → list string) (cs : list command) (w : W) (acc : list string) : list string :=
  match cs with
  | [] => acc
  | c :: cs =>
      delivered items cs (send c w)
        (match c with
         | Push line => if decide (items (send c w) = line :: items w) then line :: acc else acc
         | Trim => acc
         end)
  end.

Lemma redis_range_take n l : (0 <= n)%Z → redis_range 0 (n - 1) l = take (Z.to_nat n) l ∨ n = 0.
Proof.
  intros Hn. destruct (decide (n = 0)) as [|Hne]; [by right|left]. unfold redis_range.
  rewrite (proj2 (Z.ltb_ge (n - 1) 0)) by lia. change (0 <? 0) with false. cbn iota zeta.
  rewrite (proj2 (Z.ltb_ge _ 0)) by lia. rewrite drop_0. f_equal. lia.
Qed.

(** Redis holds the newest lines: a prefix of what was delivered that only a trim can have shortened. *)
Definition holds_newest (l all : list string) : Prop := ∃ n, l = take n all ∧ (Z.to_nat MAX_LOGS <= n)%nat.

Lemma send_newest items (laws : redis_list_laws W items) c w acc :
  holds_newest (items w) acc →
  holds_newest (items (send c w))
    (match c with
     | Push line => if decide (items (send c w) = line :: items w) then line :: acc else acc
     | Trim => acc
     end).
Proof.
  intros (n & Hn & Hle). destruct c as [line|]; cbn [send].
  - case_decide as Hd.
    + exists (S n). rewrite Hd, Hn. split; [done|lia].
    + destruct (ll_lpush _ _ laws line w) as [H|[_ H]]; [done|]. exists n. by rewrite H, Hn.
  - destruct (ll_ltrim _ _ laws 0 (MAX_LOGS - 1) w) as [H|[_ H]]; rewrite H; [|by exists n].
    destruct (redis_range_take MAX_LOGS (items w)) as [->|]; [done| |done].
    exists (Z.to_nat MAX_LOGS). split; [|done]. rewrite Hn, take_take. f_equal. lia.
Qed.

Lemma run_newest items (laws : redis_list_laws W items) cs w acc :
  holds_newest (items w) acc →
  holds_newest (items (foldl (flip send) w cs)) (delivered items cs w acc).
Proof.
  revert w acc. induction cs as [|c cs IH]; intros w acc H; [done|]. cbn [foldl delivered flip].
  by apply IH, send_newest.
Qed.

(** Reading the log gives the newest lines.  However the pushing tasks interleave, and whichever of their
    commands raise (applied or not), a request for 1 to 500 lines that Redis answers returns exactly the
    newest ones that were delivered since the list was empty, newest first, as many as asked for as
    far as there are that many; one that is not JSON is wrapped. *)
Lemma get_logs_newest items (laws : redis_list_laws W items) loads limit cs w0 :
  items w0 = [] → 1 <= limit <= MAX_LOGS →
  let w := foldl (flip send) w0 cs in
  is_ok (rl_lrange 0 (limit - 1) w).1 = true →
  (get_logs loads limit w).1 =
    Ok ((λ item, match loads item with Ok v => v | Err _ => PDict [("message", PStr item)] end) <$>
        take (Z.to_nat limit) (delivered items cs w0 [])).
Proof.
  intros H0 Hl w Hok. unfold get_logs, mbind, mret. pose proof (ll_lrange _ _ laws 0 (limit - 1) w Hok) as Hr.
  destruct (rl_lrange 0 (limit - 1) w) as [r w']. cbn in Hr |- *. subst r. cbn. do 2 f_equal.
  destruct (run_newest items laws cs w0 []) as (n & Hn & Hle).
  { rewrite H0. by exists (Z.to_nat MAX_LOGS). }
  destruct (redis_range_take limit (items w)) as [->|]; [lia| |lia]. subst w. rewrite Hn, take_take. f_equal. lia.
Qed.

(** Right after a trim that Redis has applied there are at most 500 lines. *)
Lemma trim_bounds items (laws : redis_list_laws W items) w :
  is_ok (rl_ltrim 0 (MAX_LOGS - 1) w).1 = true → (length (items (send Trim w)) <= 500)%nat.
Proof.
  intros Hok. cbn [send]. destruct (ll_ltrim _ _ laws 0 (MAX_LOGS - 1) w) as [->|[H _]]; [|by rewrite H in Hok].
  destruct (redis_range_take MAX_LOGS (items w)) as [->|]; [done| |done]. rewrite length_take. change (Z.to_nat MAX_LOGS) with 500%nat. lia.
Qed.

(** Asked for no lines at all, the API returns every line: LRANGE 0 -1 is the whole list. *)
Lemma limit_zero_returns_all items (laws : redis_list_laws W items) loads w :
  is_ok (rl_lrange 0 (-1) w).1 = true →
  ∃ l, (get_logs loads 0 w).1 = Ok l ∧ length l = length (items w).
Proof.
  intros Hok. unfold get_logs, mbind, mret. pose proof (ll_lrange _ _ laws 0 (-1) w Hok) as Hr.
  change (0 - 1) with (-1). destruct (rl_lrange 0 (-1) w) as [r w']. cbn in Hr |- *. subst r. eexists. split; [done|].
  rewrite length_fmap. unfold redis_range. change (-1 <? 0) with true. change (0 <? 0) with false. cbn iota zeta.
  destruct (items w) as [|x l]; [done|]. set (n := length (x :: l)). assert (0 < n)%nat as Hn by (cbn; lia).
  rewrite (proj2 (Z.ltb_ge _ 0)) by lia. rewrite drop_0, length_take. fold n. lia.
Qed.
End logs.

(** ** A list that is only a list *)
Module LogSample.
#[export] Instance redis : RedisList (list string) := {|
  rl_lpush x l := (Ok tt, x :: l);
  rl_ltrim i j l := (Ok tt, redis_range i j l);
  rl_lrange i j := λ l, (Ok (redis_range i j l), l);
  rl_delete := λ _, (Ok tt, []);
|}.

Lemma log_sample_laws : redis_list_laws (list string) id.
Proof. split; intros; cbn; auto. Qed.
End LogSample.

#[local] Existing Instance LogSample.redis.

Lemma get_logs_newest_witness :
  (get_logs (W := list string) (λ s, Ok (PStr s)) 2
     (foldl (flip send) [] [Push "a"; Push "b"; Trim; Push "c"; Trim; Trim])).1 = Ok [PStr "c"; PStr "b"].
Proof.
  rewrite (get_logs_newest id LogSample.log_sample_laws (λ s, Ok (PStr s)) 2
    [Push "a"; Push "b"; Trim; Push "c"; Trim; Trim] []); [vm_compute; reflexivity|reflexivity|unfold MAX_LOGS; lia|reflexivity].
Defined.
