(* ===== verification/Audits.v ===== *)
(** * Read-only checks: channel_health of apps/web/routers/channels.py and
    scripts/validate_arg_filters.py

    The health check builds, starts, probes and stops a driver of its own.  The script lists the stored
    subscriptions whose filters the request schema would refuse. *)
From S2P Require Import Prelude PyStr PyVal Filters Snapshot Retry HttpChannel Channels.
From S2P Require Import Repositories Schemas WebApi.

(** ** channel_health *)
Class HealthEnv (W : Type) := {
  head_request : string → M W Z;    (** _client.request("HEAD", url, timeout=5.0), the status *)
  bus_ping : M W unit;              (** bus.client.ping() *)
}.

Record Health := mkHealth { he_status : string; he_detail : string }.

Section health.
Context {D W : Type} `{!Arith D, !Brokers W, !HttpLib W, !WebEnv W, !HealthEnv W}.
Variable operand : pyval → D.

(** The drivers with [_client] and [_url], those with [_bus], and the others *)
Definition probe (ch : driver D) : M W string :=
  match ch with
  | DHttp c => let* code := head_request (hc_url c) in mret ("HTTP " +:+ pretty code)
  | DStreams _ | DWs _ => bus_ping ;;* mret "redis ping ok"
  | DKafka _ | DRabbit _ => mret "connected"
  end.

(** The body of the [try] for a constructed driver *)
Definition check_driver : M (driver D * W) Health :=
  driver_start ;;*
  let* ch := self in
  let* out := mcatch (let* detail := in_env (probe ch) in mret (mkHealth "ok" detail))
                (λ exc, mret (mkHealth "error" (web_repr exc))) in
  driver_stop ;;* mret out.

Definition channel_health (d : Db) (cid : string) : M W Health :=
  match channel_get cid d with
  | None => mthrow (HTTPException 404 "channel not found")
  | Some row =>
      match CHANNEL_REGISTRY !! ChannelType_value (h_type row) with
      | None => mret (mkHealth "error" ("unknown type: " +:+ ChannelType_value (h_type row)))
      | Some cls =>
          mcatch
            (let* ch := mlift (construct operand cls (h_config row)) in
             λ w, let '(r, (_, w')) := check_driver (ch, w) in (r, w'))
            (λ exc, mret (mkHealth "error" (web_repr exc)))
      end
  end.

(** A stored channel is always reported on, whatever its driver raises. *)
Lemma channel_health_reports d cid w :
  match channel_get cid d with
  | None => channel_health d cid w = (Err (HTTPException 404 "channel not found"), w)
  | Some _ => ∃ h w', channel_health d cid w = (Ok h, w') ∧
                (he_status h = "ok" ∨ he_status h = "error")
  end.
Proof.
  unfold channel_health. destruct (channel_get cid d) as [row|]; [|done].
  rewrite registry_classes. unfold mcatch, mbind, mlift.
  destruct (construct _ _ _) as [ch|x]; [|by eexists _, _; split; [done|right]].
  destruct (check_driver (ch, w)) as [[h|x] [ch' w']] eqn:E; [|by eexists _, _; split; [done|right]].
  exists h, w'. split; [done|]. revert E. unfold check_driver, mbind, mcatch, mret.
  destruct (driver_start _) as [[[]|x] s1]; [|done]. unfold self, mgets.
  destruct (in_env _ s1) as [[detail|x] s2]; destruct (driver_stop s2) as [[[]|y] s3]; intros Heq;
    try discriminate; injection Heq as <- _; cbn; tauto.
Qed.

(** The Redis server of a stream with its own [redis_url] is not looked at: the report says that
    the bus answers a ping, whatever the own client would do. *)
Lemma own_redis_not_probed d cid row c w w1 w2 w3 client :
  channel_get cid d = Some row →
  construct operand (default ws_class (CHANNEL_REGISTRY !! ChannelType_value (h_type row)))
    (h_config row) = Ok (DStreams c) →
  py_truth (rs_redis_url c) = true →
  redis_from_url (rs_redis_url c) w = (Ok client, w1) → bus_ping w1 = (Ok tt, w2) →
  redis_aclose client w2 = (Ok tt, w3) →
  channel_health d cid w = (Ok (mkHealth "ok" "redis ping ok"), w3).
Proof.
  intros Hrow Hc Hurl Hfrom Hping Hclose. unfold channel_health. rewrite Hrow.
  rewrite registry_classes in Hc |- *. cbn [default from_option] in Hc. unfold id in Hc.
  unfold mcatch, mbind, mlift. rewrite Hc. unfold check_driver, driver_start, driver_stop, self, mgets,
    mbind, mcatch, mret, on_driver, in_env, set_self, mmodify. cbn [fst].
  unfold streams_start, streams_stop, self, mgets, mbind, in_env, set_self, mmodify, mret. cbn [fst].
  rewrite Hurl, Hfrom. cbn. unfold mbind, mret. rewrite Hping. cbn. by rewrite Hclose.
Qed.
End health.

(** ** validate_arg_filters *)
Record Offender := mkOffender { of_subscription_id : string; of_name : string; of_reason : string }.

Section scan.
Context {L : Sql}.
Variable shape_message : list (string * pyval) → string.   (** exc.errors()[0]["msg"] *)

(** The body of the loop *)
Definition offence (row : SubscriptionRow) : option string :=
  if negb (forallb (λ kv, is_filter_value kv.2) (s_arg_filters row))
  then Some ("value shape: " +:+ shape_message (s_arg_filters row))
  else match validate (s_arg_filters row).*1 with
       | Ok _ => None
       | Err exc => Some ("operator grammar: " +:+ exn_str exc)
       end.

(** [scan_database] *)
Definition scan_database (d : Db) : list Offender :=
  omap (λ '(id, row), mkOffender id (s_name row) <$> offence row) (subscription_list_all d).

Lemma offence_none row :
  offence row = None ↔
  validate (s_arg_filters row).*1 = Ok tt ∧ Forall (λ kv, is_filter_value kv.2 = true) (s_arg_filters row).
Proof.
  unfold offence. destruct (forallb _ _) eqn:E; cbn [negb].
  - rewrite forallb_forall in E.
    destruct (validate _) as [[]|]; (split; [intros H|intros [H _]]; try done).
    split; [done|]. apply Forall_forall. intros kv Hin. apply E. by apply list_elem_of_In.
  - split; [done|]. intros [_ HF]. assert (forallb (λ kv : string * pyval, is_filter_value kv.2)
      (s_arg_filters row) = true) as Hc; [|congruence].
    apply forallb_forall. intros kv Hin. rewrite Forall_forall in HF. apply HF. by apply list_elem_of_In.
Qed.

(** The script lists exactly the subscriptions whose stored filters a request could not have, each
    once. *)
Lemma scan_lists_offenders {SL : SqlLaws} d id :
  (∃ o, o ∈ scan_database d ∧ of_subscription_id o = id) ↔
  ∃ row, db_subscriptions d !! id = Some row ∧ is_Some (offence row).
Proof.
  unfold scan_database, subscription_list_all. split.
  - intros (o & Ho & <-). apply list_elem_of_omap in Ho as ([i row] & Hin & Heq).
    rewrite sql_scan_perm in Hin. apply elem_of_map_to_list in Hin.
    destruct (offence row) eqn:E; [|done]. cbn in Heq. injection Heq as <-. exists row. by rewrite E.
  - intros (row & Hrow & [s Hs]). exists (mkOffender id (s_name row) s). split; [|done].
    apply list_elem_of_omap. exists (id, row). rewrite sql_scan_perm, elem_of_map_to_list, Hs. done.
Qed.
End scan.

(** A database that only the API has written has no offenders. *)
Section clean.
Context {L : Sql} {J : JsonSchema} {D W : Type} `{!Arith D, !Brokers W, !HttpLib W, !WebEnv W}.
Variables (one four : D) (sleep : D → W → W) (operand : pyval → D).
Variables (max_replay : Z) (shape_message : list (string * pyval) → string).

Lemma served_database_scans_clean {SL : SqlLaws} (w w' : Web W) :
  rows_ok (w_db w) → rtc (request_step one four sleep operand max_replay) w w' →
  scan_database shape_message (w_db w') = [].
Proof.
  intros Hok Hsteps.
  assert (rows_ok (w_db w')) as [_ Hs].
  { induction Hsteps as [|x y z Hxy _ IH]; [done|]. apply IH.
    by apply (request_step_keeps_rows one four sleep operand max_replay x). }
  destruct (scan_database shape_message (w_db w')) as [|o l] eqn:E; [done|].
  destruct (proj1 (scan_lists_offenders shape_message (w_db w') (of_subscription_id o)))
    as (row & Hrow & [s Hoff]); [exists o; split; [rewrite E; left|done]|].
  destruct (Hs _ row Hrow) as [Hg Hv _].
  rewrite (proj2 (offence_none shape_message row)) in Hoff by done. done.
Qed.
End clean.
