(* ===== verification/Callbacks.v ===== *)
(** * What the worker hands to its runners (apps/worker/main.py)

    The adapter factory, the checkpoint adapter and the delivery, block and tip callbacks.  Each of
    the callbacks opens a session of its own on the database, and the dispatch of an event over
    notifiers that call them back fills the table of delivery records. *)
From S2P Require Import Prelude Hoare PyStr PyVal Types Snapshot Repositories Notifier.

(** ** Adapters *)

(** The keyword arguments that both adapters are given *)
Record pool_args := mkPoolArgs {
  pa_rpc_http_fallbacks : list string;
  pa_rpc_timeout_ms : Z;
  pa_failure_threshold : Z;
  pa_cooldown_s : Z;
}.

(** [EvmAdapter(...)] and [SolanaAdapter(...)] *)
Inductive adapter :=
  | EvmAdapter (chain_id rpc_http : string) (rpc_ws : option string)
      (confirmations poll_interval_ms : Z) (pool : pool_args)
  | SolanaAdapter (chain_id rpc_http commitment : string) (poll_interval_ms : Z)
      (rpc_ws : option string) (pool : pool_args).

(** [_make_adapter_factory]; [settings.rpc_pool] is captured. *)
Definition make_adapter_factory (failure_threshold cooldown_s : Z) (cfg : SnapshotChain)
    : result adapter :=
  let pool := mkPoolArgs (chain_rpc_http_fallbacks cfg) (chain_rpc_timeout_ms cfg) failure_threshold
                cooldown_s in
  if String.eqb (chain_kind cfg) "evm" then
    Ok (EvmAdapter (chain_id cfg) (chain_rpc_http cfg) (chain_rpc_ws cfg) (chain_confirmations cfg)
          (chain_poll_interval_ms cfg) pool)
  else if String.eqb (chain_kind cfg) "solana" then
    match chain_commitment cfg with
    | None => Err (OtherError "AssertionError" "Solana chain must have commitment set")
    | Some commitment =>
        Ok (SolanaAdapter (chain_id cfg) (chain_rpc_http cfg) commitment (chain_poll_interval_ms cfg)
              (chain_rpc_ws cfg) pool)
    end
  else Err (OtherError "NotImplementedError" ("chain kind " +:+ chain_kind cfg +:+ " not supported")).

(** [self._http_urls] of both constructors *)
Definition http_urls (a : adapter) : list string :=
  match a with
  | EvmAdapter _ rpc_http _ _ _ pool | SolanaAdapter _ rpc_http _ _ _ pool =>
      rpc_http :: pa_rpc_http_fallbacks pool
  end.

(** ** Sessions *)

(** The defaults of a new delivery record, the repr of an exception and Redis *)
Class CallbackEnv (E : Type) := {
  ce_uuid : E → string * E;
  ce_now : E → Z;
  ce_repr : exn → string;
  ce_redis_set : string → Z → Z → M E unit;
}.

Record Store (E : Type) := mkStore { st_db : Db; st_env : E }.
Arguments mkStore {E}. Arguments st_db {E}. Arguments st_env {E}.

Section callbacks.
Context {L : Sql} {E : Type} `{!CallbackEnv E}.

(** [async with db.session() as s: m; await s.commit()] *)
Definition transaction {A} (m : M Db A) : M (Store E) A := λ s,
  match m (st_db s) with
  | (Ok a, d) => (Ok a, mkStore d (st_env s))
  | (Err e, _) => (Err e, s)
  end.

Definition on_env {A} (m : M E A) : M (Store E) A :=
  mzoom st_env (λ e s, mkStore (st_db s) e) m.

(** [_CheckpointAdapter] *)
Definition checkpoint_adapter_get (chain_id : string) : M (Store E) (option (Z * string)) :=
  mgets (λ s, (λ row, (k_last_block row, k_last_block_hash row)) <$> checkpoint_get chain_id (st_db s)).

Definition checkpoint_adapter_save (chain_id : string) (last_block : Z) (last_block_hash : string)
    : M (Store E) unit :=
  transaction (checkpoint_upsert chain_id last_block last_block_hash).

(** [bool(payload.get("replay", False))] *)
Definition payload_replay (payload : list (string * pyval)) : bool :=
  py_truth (default (PBool false) (dget "replay" payload)).

(** The session of [_on_delivery_failure] and [_on_delivery_success], their exceptions caught *)
Definition save_delivery (subscription_id channel_id : string) (chain_id : pyval)
    (payload : list (string * pyval)) (error : option string) (attempts : Z) (status : string)
    : M (Store E) unit :=
  mcatch
    (let* c := mlift (py_as_str chain_id) in
     let* id := on_env (λ e, let '(i, e') := ce_uuid e in (Ok i, e')) in
     let* now := mgets (ce_now ∘ st_env) in
     transaction (delivery_create id now subscription_id channel_id c payload error attempts status
                    (payload_replay payload)) ;;*
     mret tt)
    (λ _, mret tt).

(** [_on_delivery_failure]; [_send_one] passes [repr(exc)]. *)
Definition on_delivery_failure : callback (Store E) :=
  Some (λ sid cid chain payload error attempts,
    save_delivery sid cid chain payload (ce_repr <$> error) attempts "failed").

(** [_on_delivery_success] *)
Definition on_delivery_success : callback (Store E) :=
  Some (λ sid cid chain payload _ _, save_delivery sid cid chain payload None 1 "success").

Definition with_last_block (n : Z) (r : SubscriptionRow) : SubscriptionRow :=
  mkSubscriptionRow (s_name r) (s_chain_id r) (s_address r) (s_abi_id r) (s_match_kind r)
    (s_match_name r) (s_arg_filters r) (s_enabled r) (s_start_block r) (Some n)
    (s_business_name r).

(** [_on_block_processed]; [sub_ids] is the set in the order it is iterated. *)
Definition on_block_processed (sub_ids : list string) (block_number : Z) : M (Store E) unit :=
  mcatch (transaction (mfor sub_ids (λ sid, subscription_update sid (with_last_block block_number))))
    (λ _, mret tt).

(** [_publish_tip] *)
Definition publish_tip (chain_id : string) (block_number : Z) : M (Store E) unit :=
  mcatch (on_env (ce_redis_set ("chain:" +:+ chain_id +:+ ":tip") block_number 60)) (λ _, mret tt).

(** One round of [_run_cleanup_loop] *)
Definition cleanup_round (max_success_rows cleanup_batch_size : nat) : M (Store E) unit :=
  mcatch
    (transaction (λ d, let '(n, d') := cleanup_success max_success_rows cleanup_batch_size d in
                       (Ok n, d')) ;;*
     mret tt)
    (λ _, mret tt).

(** ** Checkpoints and blocks *)

(** The checkpoint adapter is a map from chains to (block, hash): what was saved last is what is
    read back, by every runner and for that chain alone, nothing else of the database changes, and
    a save that raises (an unknown chain, a rejected row) leaves the database as it was. *)
Lemma checkpoint_save_get c n h s :
  match checkpoint_adapter_save c n h s with
  | (Ok _, s') =>
      checkpoint_adapter_get c s' = (Ok (Some (n, h)), s') ∧
      (∀ c', c' ≠ c → (checkpoint_adapter_get c' s').1 = (checkpoint_adapter_get c' s).1) ∧
      ∃ cps, st_db s' = set_checkpoints cps (st_db s)
  | (Err _, s') => s' = s
  end.
Proof.
  unfold checkpoint_adapter_save, transaction, checkpoint_upsert.
  assert (∀ cps s', cps = <[c := mkCheckpointRow n h]> (db_checkpoints (st_db s)) →
    s' = mkStore (set_checkpoints cps (st_db s)) (st_env s) →
    checkpoint_adapter_get c s' = (Ok (Some (n, h)), s') ∧
    (∀ c', c' ≠ c → (checkpoint_adapter_get c' s').1 = (checkpoint_adapter_get c' s).1) ∧
    ∃ cps, st_db s' = set_checkpoints cps (st_db s)) as Hset.
  { intros cps s' -> ->. unfold checkpoint_adapter_get, checkpoint_get, mgets. cbn.
    split; [by rewrite lookup_insert_eq|]. split; [|by eexists].
    intros c' Hc. by rewrite lookup_insert_ne. }
  destruct (check_row _); [|done].
  destruct (checkpoint_get c (st_db s)); [by eapply Hset|].
  destruct (check_fk _); [by eapply Hset|done].
Qed.

(** The rows of [sids] with their last block set *)
Definition touched (sids : list string) (n : Z) (m : gmap string SubscriptionRow)
    : gmap string SubscriptionRow :=
  map_imap (λ sid r, Some (if decide (sid ∈ sids) then with_last_block n r else r)) m.

Lemma touched_lookup sids n m sid :
  touched sids n m !! sid =
  (λ r, if decide (sid ∈ sids) then with_last_block n r else r) <$> m !! sid.
Proof. unfold touched. rewrite map_lookup_imap. by destruct (m !! sid). Qed.

Lemma touched_cons sid sids n m :
  touched (sid :: sids) n m =
  touched sids n (match m !! sid with Some r => <[sid := with_last_block n r]> m | None => m end).
Proof.
  apply map_eq. intros i. rewrite !touched_lookup. destruct (m !! sid) as [r|] eqn:Em.
  - destruct (decide (i = sid)) as [->|Hne].
    + rewrite lookup_insert_eq, Em. simpl. f_equal. repeat case_decide; set_solver.
    + rewrite lookup_insert_ne by done. destruct (m !! i); simpl; [|done].
      f_equal. repeat case_decide; set_solver.
  - destruct (m !! i) as [r|] eqn:Ei; simpl; [|done]. f_equal.
    assert (i ≠ sid) by congruence. repeat case_decide; set_solver.
Qed.

(** One processed block is recorded all or nothing: afterwards every matched subscription that still
    exists has the block as its last processed one and nothing else has changed, or, when any of
    the updates is refused, the database is exactly as before; the callback never raises. *)
Lemma block_recorded_atomically sids n s :
  ∃ s', on_block_processed sids n s = (Ok tt, s') ∧ st_env s' = st_env s ∧
  (st_db s' = set_subscriptions (touched sids n (db_subscriptions (st_db s))) (st_db s) ∨
   st_db s' = st_db s ∧
     ∃ sid d, sid ∈ sids ∧ is_ok (subscription_update sid (with_last_block n) d).1 = false).
Proof.
  unfold on_block_processed, mcatch, transaction.
  assert (∀ sids d d', mfor sids (λ sid, subscription_update sid (with_last_block n)) d = (Ok tt, d') →
    d' = set_subscriptions (touched sids n (db_subscriptions d)) d) as Hfor.
  { clear. intros sids. induction sids as [|sid sids IH]; intros d d' Hd.
    - simpl in Hd. injection Hd as <-. destruct d. unfold set_subscriptions. cbn. f_equal.
      apply map_eq. intros i. rewrite touched_lookup. by destruct (_ !! i).
    - simpl in Hd. unfold mbind, subscription_update at 1 in Hd. rewrite touched_cons.
      destruct (db_subscriptions d !! sid) as [row|]; [|by apply IH].
      destruct (check_row _); [|done]. destruct (check_fk _); [|done]. apply IH in Hd as ->. done. }
  assert (∀ sids d e d', mfor sids (λ sid, subscription_update sid (with_last_block n)) d = (Err e, d') →
    ∃ sid d, sid ∈ sids ∧ is_ok (subscription_update sid (with_last_block n) d).1 = false) as Herr.
  { clear. intros sids. induction sids as [|sid sids IH]; intros d e d' Hd; [done|].
    simpl in Hd. unfold mbind in Hd.
    destruct (subscription_update sid (with_last_block n) d) as [[[]|x] d1] eqn:Eu.
    - destruct (IH _ _ _ Hd) as (sid' & d2 & Hin & H2). exists sid', d2. split; [by right|done].
    - exists sid, d. split; [by left|]. by rewrite Eu. }
  destruct (mfor _ _ (st_db s)) as [[[]|e] d'] eqn:Ed; eexists; (split; [done|]); cbn;
    (split; [done|]).
  - left. by apply Hfor.
  - right. split; [done|]. by eapply Herr.
Qed.
End callbacks.

(** ** Dispatching into the table of delivery records *)
Section ledger.
Context {L : Sql} {E Ch : Type} `{!CallbackEnv E, !ChannelEnv Ch E}.

(** The notifiers of a worker: their channels live in [E], their callbacks write the store. *)
#[local] Instance stored : ChannelEnv Ch (Store E) := {|
  ch_factory cfg := on_env (ch_factory cfg);
  ch_start ch := on_env (ch_start ch);
  ch_stop ch := on_env (ch_stop ch);
  ch_send ch p := on_env (ch_send ch p);
  env_now s := env_now (st_env s);
  env_uuid s := let '(i, e) := env_uuid (st_env s) in (i, mkStore (st_db s) e);
|}.

(** The ids: a new record's id is none of the [used] ones and stays used. *)
Record ledger_laws (used : E → gset string) : Prop := {
  ll_uuid e : ((ce_uuid e).1 ∉ used e) ∧ ({[(ce_uuid e).1]} ∪ used e) ⊆ used (ce_uuid e).2;
  ll_payload_uuid e : used e ⊆ used (env_uuid e).2;
  ll_send ch p e : used e ⊆ used (ch_send ch p e).2;
}.

(** The table refuses no record. *)
Definition accepts_records : Prop := ∀ id r, check_row (RDelivery id r) = Ok tt.

Context (used : E → gset string).

(** How a record tells the answer [out] of a send *)
Definition tells (out : result unit) (r : DeliveryRecordRow) : Prop :=
  match out with
  | Ok _ => d_status r = Delivery_success ∧ d_error r = None ∧ d_attempts r = 1
  | Err x => d_status r = Delivery_failed ∧ d_error r = Some (ce_repr x) ∧
             d_attempts r = exn_attempts x
  end.

(** The record of a send that was answered [out] *)
Definition row_for (out : result unit) (j : job (Ch:=Ch)) (r : DeliveryRecordRow) : Prop :=
  d_subscription_id r = job_subscription_id j ∧ d_channel_id r = job_channel_id j ∧
  dget "chain_id" (job_payload j) = Some (PStr (d_chain_id r)) ∧
  d_event_payload r = job_payload j ∧ d_is_replay r = payload_replay (job_payload j) ∧
  d_resolved_at r = None ∧ tells out r.

(** The same, for the answer that the channel gave in some state of the world *)
Definition row_of (j : job (Ch:=Ch)) (r : DeliveryRecordRow) : Prop :=
  ∃ e : E, row_for (ch_send (job_ch j) (job_payload j) e).1 j r.

Definition ids_used (s : Store E) : Prop := dom (db_deliveries (st_db s)) ⊆ used (st_env s).

(** The state of one more record *)
Definition recorded (id : string) (r : DeliveryRecordRow) (s s' : Store E) : Prop :=
  db_deliveries (st_db s) !! id = None ∧
  st_db s' = set_deliveries (<[id := r]> (db_deliveries (st_db s))) (st_db s).

(** A record is written, or refused; with fresh ids and a table that accepts it, it is written. *)
Definition saved (id : string) (r : DeliveryRecordRow) (s s' : Store E) : Prop :=
  (recorded id r s s' ∨ st_db s' = st_db s) ∧
  (ledger_laws used → ids_used s → ids_used s' ∧ (accepts_records → recorded id r s s')).

Lemma save_delivery_saved sid cid c payload error attempts status st s :
  DeliveryStatus_of status = Ok st →
  let r := mkDeliveryRecordRow sid cid c payload error attempts st (ce_now (ce_uuid (st_env s)).2)
             None (payload_replay payload) in
  saved (ce_uuid (st_env s)).1 r s (save_delivery sid cid (PStr c) payload error attempts status s).2.
Proof.
  intros Hst r. pose proof (λ Hl, ll_uuid used Hl (st_env s)) as Hu. destruct s as [db e0].
  unfold save_delivery, mcatch, mbind, mlift, on_env, mzoom, mgets, compose, transaction.
  cbn [py_as_str fst snd st_env st_db] in *. destruct (ce_uuid e0) as [id e]. cbn [fst snd st_env st_db] in *.
  unfold delivery_create. rewrite Hst. unfold has. fold r. unfold saved, recorded, ids_used. cbn [st_db st_env].
  case_bool_decide as Hhas; cbn [snd st_db st_env].
  { split; [by right|]. intros Hl Hs. destruct (Hu Hl) as [Hfresh Hsub]. exfalso.
    apply Hfresh, Hs, elem_of_dom, Hhas. }
  assert (db_deliveries db !! id = None) as Hnone by by apply eq_None_not_Some.
  destruct (check_row _) as [[]|x] eqn:Erow; cbn [snd st_db st_env].
  - split; [left; by split|]. intros Hl Hs. destruct (Hu Hl) as [_ Hsub]. split; [|by split].
    cbn. rewrite dom_insert_L. set_solver.
  - split; [by right|]. intros Hl Hs. destruct (Hu Hl) as [_ Hsub]. split; [set_solver|].
    intros Ha. by rewrite Ha in Erow.
Qed.

(** The callback after an answer writes the record of the send. *)
Lemma callback_saved j c out s :
  dget "chain_id" (job_payload j) = Some (PStr c) →
  ∃ id r, row_for out j r ∧
    saved id r s (match out with
                  | Ok _ => run_callback on_delivery_success j None 1 s
                  | Err exc => run_callback on_delivery_failure j (Some exc) (exn_attempts exc) s
                  end).
Proof.
  intros Hc. unfold row_for. rewrite Hc. destruct out as [u|x]; unfold run_callback, on_delivery_success,
    on_delivery_failure; rewrite Hc; cbn [default from_option];
    (eexists _, _; split; [|by eapply save_delivery_saved]); by cbn.
Qed.

Lemma send_one_saved j c s :
  dget "chain_id" (job_payload j) = Some (PStr c) →
  ∃ id r, row_of j r ∧ saved id r s (send_one on_delivery_failure on_delivery_success j s).
Proof.
  intros Hc. unfold send_one, row_of. cbn [ch_send stored]. unfold on_env at 1, mzoom.
  pose proof (λ Hl, ll_send used Hl (job_ch j) (job_payload j) (st_env s)) as Hsub.
  destruct (ch_send (job_ch j) (job_payload j) (st_env s)) as [out e] eqn:Es. cbn [fst snd] in *.
  destruct (callback_saved j c out (mkStore (st_db s) e) Hc) as (id & r & Hr & Hrec & Hok).
  exists id, r. split; [exists (st_env s); by rewrite Es|].
  assert (∀ s', saved id r (mkStore (st_db s) e) s' → saved id r s s') as Hsame.
  { intros s' [H1 H2]. split; [exact H1|]. intros Hl Hs. apply (H2 Hl). exact (transitivity Hs (Hsub Hl)). }
  destruct out; apply Hsame; by split.
Qed.

(** [added] are records of the sends [js], except that the table may have refused some of them. *)
Definition files {A} (ok : A → DeliveryRecordRow → Prop) (js : list A) (added : list (string * DeliveryRecordRow))
    (s s' : Store E) : Prop :=
  ∃ kept, sublist kept js ∧ Forall2 (λ j a, ok j a.2) kept added ∧ NoDup added.*1 ∧
    (∀ id, id ∈ added.*1 → db_deliveries (st_db s) !! id = None) ∧
    st_db s' = set_deliveries (list_to_map added ∪ db_deliveries (st_db s)) (st_db s) ∧
    (ledger_laws used → ids_used s → ids_used s' ∧ (accepts_records → kept = js)).

Lemma files_cons {A} (ok : A → DeliveryRecordRow → Prop) j js id r added s s1 s2 :
  ok j r → saved id r s s1 → files ok js added s1 s2 → ∃ added', files ok (j :: js) added' s s2.
Proof.
  intros Hok [Hrec Hl1] (kept & F1 & F2 & F3 & F4 & F5 & F6). destruct Hrec as [[Hn Hdb]|Hdb].
  - exists ((id, r) :: added), (j :: kept). rewrite F5, Hdb in *. cbn in *.
    assert (id ∉ added.*1) as Hid.
    { intros Hin%F4. by rewrite lookup_insert_eq in Hin. }
    split_and!; [by apply sublist_skip|by constructor|by constructor| | |].
    + intros i [->|Hin]%elem_of_cons; [done|]. by apply F4 in Hin as [? ?]%lookup_insert_None.
    + assert (list_to_map added !! id = None) as Hm by by apply not_elem_of_list_to_map_1.
      rewrite <- (insert_union_r _ _ _ _ Hm), insert_union_l. done.
    + intros Hl Hs. destruct (Hl1 Hl Hs) as [Hs1 _], (F6 Hl Hs1) as [Hs2 Hk]. split; [done|].
      intros Ha. by rewrite Hk.
  - exists added, kept. rewrite Hdb in *. split_and!; [by apply sublist_cons|done..|].
    intros Hl Hs. destruct (Hl1 Hl Hs) as [Hs1 Hnow], (F6 Hl Hs1) as [Hs2 _]. split; [done|].
    intros Ha. destruct (Hnow Ha) as [Hn Hdb']. rewrite Hdb in Hdb'. exfalso.
    assert (db_deliveries (st_db s) !! id = Some r) as Hr; [|congruence].
    apply (f_equal db_deliveries) in Hdb'. cbn in Hdb'. rewrite Hdb'. apply lookup_insert_eq.
Qed.

Lemma send_all_files js c s :
  Forall (λ j, dget "chain_id" (job_payload j) = Some (PStr c)) js →
  ∃ added, files row_of js added s
    (foldl (λ s j, send_one on_delivery_failure on_delivery_success j s) s js).
Proof.
  intros Hjs. revert s. induction Hjs as [|j js Hj Hjs IH]; intros s.
  - exists [], []. cbn. split_and!; try by constructor.
    + set_solver.
    + rewrite (left_id_L ∅ (∪)). by destruct (st_db s).
  - destruct (send_one_saved j c s Hj) as (id & r & Hr & Hs). cbn [foldl].
    destruct (IH (send_one on_delivery_failure on_delivery_success j s)) as [added Hf].
    by eapply files_cons.
Qed.

Lemma dispatch_jobs_stored chs event hits replay s :
  let '(js, s') := dispatch_jobs chs event hits replay s in
  (λ j, (job_subscription_id j, job_channel_id j)) <$> js = Ledger.recipients chs hits ∧
  Forall (λ j, dget (job_channel_id j) chs = Some (job_ch j) ∧
    dget "chain_id" (job_payload j) = Some (PStr (ev_chain_id event)) ∧
    payload_replay (job_payload j) = replay) js ∧
  st_db s' = st_db s ∧ (ledger_laws used → used (st_env s) ⊆ used (st_env s')).
Proof.
  revert s. induction hits as [|[sub chans] t IH]; intros s; [by split_and!|]. cbn [dispatch_jobs].
  cbn [env_uuid env_now stored]. pose proof (λ Hl, ll_payload_uuid used Hl (st_env s)) as Hu.
  destruct (env_uuid (st_env s)) as [uid e]. cbn [snd] in Hu.
  specialize (IH (mkStore (st_db s) e)). destruct (dispatch_jobs chs event t replay _) as [js s'].
  destruct IH as (H1 & H2 & H3 & H4). cbn in H3, H4. split; [|split; [|split; [done|]]].
  - by rewrite fmap_app, Ledger.hit_jobs_ids, H1.
  - apply Forall_app. split; [|done]. apply Forall_forall. intros j.
    unfold hit_jobs. rewrite list_elem_of_omap. intros (ch & _ & (drv & Hd & ->)%fmap_Some). cbn.
    split; [done|]. unfold build_payload, payload_replay. by destruct (str_truthy _), replay.
  - intros Hl. exact (transitivity (Hu Hl) (H4 Hl)).
Qed.

(** [added] for the recipients [ts]: at most one record for each, and exactly one when the ids are
    fresh and the table accepts every record *)
Definition records_for (ts : list (string * string)) (rows : list DeliveryRecordRow) : Prop :=
  (λ r, (d_subscription_id r, d_channel_id r)) <$> rows ⊆+ ts ∧
  (accepts_records → (λ r, (d_subscription_id r, d_channel_id r)) <$> rows ≡ₚ ts).

(** The ledger of deliveries is exact.  Dispatching an event through channels whose sends succeed
    or fail adds to the table of delivery records, whatever the order in which the concurrent sends
    complete, at most one new record per started channel of each hit, exactly one when the table
    refuses none, and touches nothing else in the database; a record carries the event's chain and
    replay flag, and tells an answer of its channel for its payload. *)
Lemma dispatch_records schedule event hits replay chs s :
  ledger_laws used → (∀ js, schedule js ≡ₚ js) → ids_used s →
  ∃ added s', dispatch on_delivery_failure on_delivery_success schedule event hits replay (chs, s) =
      (chs, s') ∧ ids_used s' ∧
    st_db s' = set_deliveries (list_to_map added ∪ db_deliveries (st_db s)) (st_db s) ∧
    NoDup added.*1 ∧ (∀ id, id ∈ added.*1 → db_deliveries (st_db s) !! id = None) ∧
    records_for (Ledger.recipients chs hits) added.*2 ∧
    Forall (λ r, d_chain_id r = ev_chain_id event ∧ d_is_replay r = replay ∧
      ∃ ch (e : E), dget (d_channel_id r) chs = Some ch ∧ tells (ch_send ch (d_event_payload r) e).1 r) added.*2.
Proof.
  intros Hlaws Hsch Hs. unfold dispatch. cbn [fst snd].
  pose proof (dispatch_jobs_stored chs event hits replay s) as Hj.
  destruct (dispatch_jobs chs event hits replay s) as [js s1]. destruct Hj as (H1 & H2 & H3 & H4).
  assert (ids_used s1) as Hs1.
  { unfold ids_used in *. rewrite H3. exact (transitivity Hs (H4 Hlaws)). }
  rewrite <- (Hsch js) in H2.
  destruct (send_all_files (schedule js) (ev_chain_id event) s1) as (added & kept & F1 & F2 & F3 & F4 & F5 & F6);
    [by eapply Forall_impl; [exact H2|]; intros j (_ & ? & _)|].
  destruct (F6 Hlaws Hs1) as [Hs2 Hkept].
  rewrite H3 in F4, F5. exists added. eexists. do 5 (split; [done|]). split.
  - assert ((λ r, (d_subscription_id r, d_channel_id r)) <$> added.*2 =
      (λ j, (job_subscription_id j, job_channel_id j)) <$> kept) as Hids.
    { clear -F2. induction F2 as [|j a l added (e & E1 & E2 & _) _ IH]; csimpl; [done|]. by rewrite E1, E2, IH. }
    unfold records_for. rewrite Hids, <- H1, <- (Hsch js). split.
    + by apply fmap_submseteq, sublist_submseteq.
    + intros Ha. by rewrite (Hkept Ha).
  - apply sublist_submseteq, submseteq_Permutation in F1 as [rest F1].
    rewrite F1 in H2. apply Forall_app in H2 as [H2 _]. clear -F2 H2.
    induction F2 as [|j a l added (e & E1 & E2 & E3 & E4 & E5 & _ & E6) F IH]; csimpl; [constructor|].
    apply Forall_cons in H2 as [(G1 & G2 & G3) H2]. constructor; [|by apply IH].
    split; [congruence|]. split; [congruence|]. exists (job_ch j), e. by rewrite E2, E4.
Qed.

End ledger.

(** ** Witness: a channel that works and one that fails *)
Module LedgerSample.
(** The ids drawn so far: the next one is longer than all of them. *)
Fixpoint tally (n : nat) : string := match n with O => "" | S k => String "i" (tally k) end.

#[export] Instance env : CallbackEnv nat := {|
  ce_uuid n := (tally n, S n);
  ce_now n := 7;
  ce_repr := exn_str;
  ce_redis_set _ _ _ := mret tt;
|}.

(** A channel is the result of its sends. *)
#[export] Instance channels : ChannelEnv (result unit) nat := {|
  ch_factory _ := mret (Ok tt);
  ch_start _ := mret tt;
  ch_stop _ := mret tt;
  ch_send ch _ := mlift ch;
  env_now _ := 7;
  env_uuid n := ("delivery", n);
|}.

Definition used (n : nat) : gset string := list_to_set (tally <$> seq 0 n).

Lemma tally_inj m n : tally m = tally n → m = n.
Proof. revert n. induction m as [|m IH]; intros [|n]; simpl; try done. intros [= ?%IH]. lia. Qed.

Lemma sample_laws : ledger_laws used.
Proof.
  split; try done. intros n. split.
  - unfold used. cbn. rewrite elem_of_list_to_set, list_elem_of_fmap. intros (k & ->%tally_inj & Hk).
    apply elem_of_seq in Hk. lia.
  - unfold used. cbn [ce_uuid env fst snd]. rewrite seq_S, fmap_app, list_to_set_app_L. set_solver.
Qed.

Definition error : exn := RetryExhausted "" 3 None.
Definition drivers : list (string * result unit) := [("a", Ok tt); ("b", Err error)].
Definition hits : list (SnapshotSubscription * list SnapshotChannel) :=
  [(sample_sub "s1", [sample_chan "a"; sample_chan "b"; sample_chan "z"])].
End LedgerSample.
