(* ===== verification/System.v ===== *)
(** * A chain's indexer as one system

    The runner of [ChainRunner] over the notifiers of [Notifier], whose callbacks and checkpoints are
    those of [Callbacks] over the tables of [Repositories]: an instance of [RunnerEnv] in which only
    the node (web3 or the Solana RPC) and the channel drivers are left open.  What a processed block, and
    a whole catch-up, leaves in the database is stated of this system. *)
From S2P Require Import Prelude Hoare PyStr PyVal Types Snapshot Repositories Matcher Decoder AbiLookup.
From S2P Require Import Registry Pipeline EvmParsers SolanaParsers EventTypes FilterSet Notifier ChainRunner.
From S2P Require Import EndToEnd Callbacks.

(** The adapter, and how many channels a notifier has stopped when the drain timeout strikes *)
Class NodeEnv (E : Type) := {
  ne_connect : M E unit;
  ne_disconnect : M E unit;
  ne_latest : M E Z;
  ne_fetch_block : Z → M E Block;
  ne_fetch_logs : Z → Z → option (list string) → option (list (list string)) → M E (list Log);
  ne_trace_block : option (Z → M E (list InternalCall));
  ne_fetch_slot : Z → M E (option SolanaBlock);
  ne_get_blocks : Z → Z → M E (list Z);
  ne_drain_cut : E → option nat;
}.

(** The runner, the shared registry, the [_channels] of every notifier made so far, the database and
    the world *)
Record Sys (Ch E : Type) := mkSys {
  sy_runner : runner;
  sy_registry : option AbiRegistry;
  sy_notifiers : list (list (string * Ch));
  sy_store : Store E;
}.
Arguments mkSys {Ch E}. Arguments sy_runner {Ch E}. Arguments sy_registry {Ch E}.
Arguments sy_notifiers {Ch E}. Arguments sy_store {Ch E}.

Section system.
Context {L : Sql} {Ch E : Type} `{!CallbackEnv E, !ChannelEnv Ch E, !NodeEnv E}.
(** The order in which concurrent sends complete, and in which a set is iterated *)
Variables (schedule : list (job (Ch:=Ch)) → list (job (Ch:=Ch))) (iter : gset string → list string).

Definition sy_db (s : Sys Ch E) : Db := st_db (sy_store s).

Definition on_store {A} (m : M (Store E) A) : M (Sys Ch E) A :=
  mzoom sy_store (λ st s, mkSys (sy_runner s) (sy_registry s) (sy_notifiers s) st) m.
Definition on_node {A} (m : M E A) : M (Sys Ch E) A := on_store (on_env m).

(** A method of the notifier with handle [k] *)
Definition on_notifier (k : nat) (m : M (list (string * Ch) * Store E) unit) : M (Sys Ch E) unit := λ s,
  match sy_notifiers s !! k with
  | None => (Err (RuntimeError "dangling handle"), s)
  | Some chs =>
      let '(r, (chs', st)) := m (chs, sy_store s) in
      (r, mkSys (sy_runner s) (sy_registry s) (<[k := chs']> (sy_notifiers s)) st)
  end.

(** [asyncio.wait_for(notifier.stop(), 30.0)]; a timeout cancels the stops not yet done. *)
Definition drain : M (list (string * Ch) * Store E) unit := λ st,
  match ne_drain_cut (st_env st.2) with
  | None => notifier_stop (ChannelEnv0:=stored) st
  | Some n =>
      (mfor (take n st.1) (λ kv,
         mcatch (in_world (ch_stop (ChannelEnv:=stored) kv.2)) (λ _, mret tt)) ;;*
       mthrow (OtherError "TimeoutError" "")) st
  end.

Definition system : RunnerEnv (Sys Ch E) := {|
  re_runner := sy_runner;
  re_update f s := mkSys (f (sy_runner s)) (sy_registry s) (sy_notifiers s) (sy_store s);
  re_registry := sy_registry;
  re_set_registry r s := mkSys (sy_runner s) (Some r) (sy_notifiers s) (sy_store s);
  re_connect := on_node ne_connect;
  re_disconnect := on_node ne_disconnect;
  re_latest := on_node ne_latest;
  re_fetch_block n := on_node (ne_fetch_block n);
  re_fetch_logs a b addresses topics := on_node (ne_fetch_logs a b addresses topics);
  re_trace_block := (λ f n, on_node (f n)) <$> ne_trace_block;
  re_fetch_slot n := on_node (ne_fetch_slot n);
  re_get_blocks a b := on_node (ne_get_blocks a b);
  re_notifier_new s := (length (sy_notifiers s),
    mkSys (sy_runner s) (sy_registry s) (sy_notifiers s ++ [[]]) (sy_store s));
  re_notifier_start k channels := on_notifier k (notifier_start (ChannelEnv0:=stored) channels);
  re_notifier_stop k := on_notifier k (notifier_stop (ChannelEnv0:=stored));
  re_drain k := on_notifier k drain;
  re_dispatch k event hits replay s :=
    (on_notifier k (λ st, (Ok tt, dispatch (ChannelEnv0:=stored) on_delivery_failure on_delivery_success
                                    schedule event hits replay st)) s).2;
  re_cp_get chain := on_store (checkpoint_adapter_get chain);
  re_cp_save chain n h := on_store (checkpoint_adapter_save chain n h);
  re_on_block ids n s := (on_store (on_block_processed (iter ids) n) s).2;
  re_publish_tip chain n := on_store (publish_tip chain n);
|}.
End system.

(** ** What a dispatch adds to the table of delivery records *)

(** [added] are new records for [targets], each satisfying [ok]: at most one for each target, exactly one
    when the table refuses no record. *)
Section delivers.
Context {L : Sql}.

Definition delivers (ok : DeliveryRecordRow → Prop) (targets : list (string * string))
    (m m' : gmap string DeliveryRecordRow) : Prop :=
  ∃ added, m' = list_to_map added ∪ m ∧ NoDup added.*1 ∧
    (∀ id, id ∈ added.*1 → m !! id = None) ∧ records_for targets added.*2 ∧ Forall ok added.*2.

Lemma delivers_nothing ok m : delivers ok [] m m.
Proof.
  exists []. cbn. rewrite (left_id_L ∅ (∪)). split_and!; try done; [constructor|set_solver].
Qed.

Lemma delivers_app ok t1 t2 m m1 m2 :
  delivers ok t1 m m1 → delivers ok t2 m1 m2 → delivers ok (t1 ++ t2) m m2.
Proof.
  intros (a1 & -> & Hn1 & Hf1 & [Hs1 Hp1] & Ho1) (a2 & -> & Hn2 & Hf2 & [Hs2 Hp2] & Ho2).
  exists (a1 ++ a2).
  assert (∀ id, id ∈ a2.*1 → (id ∉ a1.*1) ∧ m !! id = None) as Hdis.
  { intros id [H1 H2]%Hf2%lookup_union_None. split; [by apply not_elem_of_list_to_map|done]. }
  assert (list_to_map (M:=gmap string DeliveryRecordRow) a1 ##ₘ list_to_map a2) as Hd.
  { apply map_disjoint_spec. intros id r1 r2 H1 H2.
    apply elem_of_list_to_map_2, (list_elem_of_fmap_2 fst) in H1, H2. cbn in H1, H2.
    by destruct (Hdis id H2) as [? _]. }
  split_and!.
  - rewrite list_to_map_app, (map_union_comm (list_to_map a1) (list_to_map a2)) by done.
    by rewrite (assoc_L (∪)).
  - rewrite fmap_app. apply NoDup_app. split_and!; [done| |done]. intros id H1 H2%Hdis. by destruct H2.
  - intros id. rewrite fmap_app, elem_of_app. intros [H|H]; [by apply Hf1|by apply Hdis].
  - split; [rewrite !fmap_app; by apply submseteq_app|]. intros Ha. by rewrite !fmap_app, Hp1, Hp2.
  - rewrite fmap_app. by apply Forall_app.
Qed.
End delivers.

(** ** From a confirmed block to the database *)

(** The documented meaning of the address and topic arguments of eth_getLogs *)
Definition query_selects (addresses : option (list string)) (topics : option (list (list string)))
    (l : Log) : bool :=
  match addresses with
  | None => true
  | Some a => bool_decide (lower (log_address l) ∈ lower <$> a)
  end &&
  match topics with
  | Some (t0s :: _) =>
      match log_topics l with
      | [] => false
      | t0 :: _ => bool_decide (lower t0 ∈ lower <$> t0s)
      end
  | _ => true
  end.

Lemma selects_query f l :
  selects f l = negb (fs_skip_logs f) && query_selects (fs_addresses f) (topics_param f) l.
Proof. unfold selects, query_selects. by rewrite <- andb_assoc. Qed.

Section blocks.
Context {L : AbiLib} {LL : AbiLibLaws} {Q : Sql} {Ch E : Type}.
Context `{!CallbackEnv E, !ChannelEnv Ch E, !NodeEnv E}.
Context (schedule : list (job (Ch:=Ch)) → list (job (Ch:=Ch))) (iter : gset string → list string).
Context (used : E → gset string) (Hlaws : ledger_laws used).
Context (Hschedule : ∀ js, schedule js ≡ₚ js).
#[local] Instance here : RunnerEnv (Sys Ch E) := system schedule iter.

Context (chain : SnapshotChain) (snap : ConfigSnapshot) (k : nat) (chs : list (string * Ch)).
Let cid := chain_id chain.
Let m := Matcher_init snap.

(** The record of a delivery through one of the started channels: it tells an answer of the channel for its payload. *)
Definition filed (r : DeliveryRecordRow) : Prop :=
  d_chain_id r = cid ∧ d_is_replay r = false ∧
  ∃ ch (e : E), dget (d_channel_id r) chs = Some ch ∧ tells (ch_send ch (d_event_payload r) e).1 r.

(** Who is to be notified of events *)
Definition targets (events : list Event) : list (string * string) :=
  events ≫= λ ev, Ledger.recipients chs (event_hits m ev).

Lemma targets_notified events : targets (filter (notified snap) events) = targets events.
Proof.
  unfold targets. induction events as [|ev t IH]; [done|]. rewrite filter_cons, !bind_cons.
  destruct (decide (notified snap ev)) as [Hn|Hn]; [rewrite bind_cons; by f_equal|].
  unfold notified in Hn. unfold m at 2. destruct (event_hits (Matcher_init snap) ev); [|by destruct Hn].
  exact IH.
Qed.

(** The system between two steps: [r0] answers what the registry answered when the filter was
    built. *)
Record ready (r0 : AbiRegistry) (s : Sys Ch E) : Prop := {
  rd_registry : ∃ r, sy_registry s = Some r ∧ coherent r ∧ same_answers r0 r;
  rd_notifier : sy_notifiers s !! k = Some chs;
  rd_used : ids_used used (sy_store s);
}.

(** A step that only delivers *)
Record delivering (ts : list (string * string)) (s s' : Sys Ch E) : Prop := {
  dv_runner : sy_runner s' = sy_runner s;
  dv_notifier : sy_notifiers s' = sy_notifiers s;
  dv_used : ids_used used (sy_store s) → ids_used used (sy_store s');
  dv_records : delivers filed ts (db_deliveries (sy_db s)) (db_deliveries (sy_db s'));
  dv_db : sy_db s' = set_deliveries (db_deliveries (sy_db s')) (sy_db s);
}.

Lemma delivering_refl s : delivering [] s s.
Proof. split; try done; [apply delivers_nothing|]. by destruct (sy_db s). Qed.

Lemma delivering_app t1 t2 s s1 s2 :
  delivering t1 s s1 → delivering t2 s1 s2 → delivering (t1 ++ t2) s s2.
Proof.
  intros [A1 A2 A3 A4 A5] [B1 B2 B3 B4 B5]. split; [congruence..|auto|by eapply delivers_app|].
  rewrite B5, A5. done.
Qed.

Lemma dispatch_delivers r0 ev s :
  ev_chain_id ev = cid → ready r0 s →
  let s' := re_dispatch k ev (event_hits m ev) false s in
  delivering (Ledger.recipients chs (event_hits m ev)) s s' ∧ sy_registry s' = sy_registry s.
Proof.
  intros Hcid [_ Hk Hu]. cbn [re_dispatch here system]. unfold on_notifier. rewrite Hk.
  destruct (dispatch_records used schedule ev (event_hits m ev) false chs (sy_store s)
    Hlaws Hschedule Hu) as (added & st & -> & Hu' & Hdb & Hn & Hf & Hp & Ho).
  cbn. split; [|done]. split; cbn; [done|by apply list_insert_id|done| |].
  - unfold sy_db. cbn. exists added. rewrite Hdb. cbn. split_and!; try done.
    eapply Forall_impl; [exact Ho|]. intros r (H1 & H2 & H3). split; [congruence|by split].
  - unfold sy_db. cbn. by rewrite Hdb.
Qed.

Lemma ready_delivering r0 ts s s' :
  delivering ts s s' → sy_registry s' = sy_registry s → ready r0 s → ready r0 s'.
Proof.
  intros Hd Hr [H1 H2 H3]. split; [by rewrite Hr|by rewrite (dv_notifier _ _ _ Hd)|].
  by apply (dv_used _ _ _ Hd).
Qed.

Lemma dispatch_all r0 events s :
  Forall (λ ev, ev_chain_id ev = cid) events → ready r0 s →
  let s' := (dispatch_events m k false events s).2 in
  delivering (targets events) s s' ∧ sy_registry s' = sy_registry s.
Proof.
  intros Hev. revert s. induction Hev as [|ev events Hc Hev IH]; intros s Hs; cbn [dispatch_events].
  { split; [apply delivering_refl|done]. }
  unfold targets. rewrite bind_cons. fold (targets events).
  pose proof (dispatch_delivers r0 ev s Hc Hs) as [H1 H2]. cbv zeta in H1, H2.
  destruct (event_hits m ev) as [|h hs] eqn:Eh; [by apply IH|].
  specialize (IH _ (ready_delivering _ _ _ _ H1 H2 Hs)) as [H3 H4].
  destruct (dispatch_events m k false events _) as [ids s2]. cbn [snd] in *.
  split; [by eapply delivering_app|congruence].
Qed.

(** Parsing changes the registry's caches only, and yields what the registry would have yielded
    when the filter was built. *)
Lemma evm_events_ready r0 b s :
  coherent r0 → ready r0 s →
  let '(events, s') := evm_events chain b s in
  events = block_events cid true b r0 ∧ ready r0 s' ∧ delivering [] s s'.
Proof.
  intros H0 [(r & Hr & Hco & Hsame) Hk Hu]. unfold evm_events, run_gen, block_events.
  cbn [re_registry re_set_registry here system]. rewrite Hr, (bool_decide_eq_true_2 _ (mk_is_Some _ _ eq_refl)).
  assert (stable_gen al_inv (pipeline_run (R:=AbiRegistry) (evm_parsers cid true) b)) as Hst.
  { apply stable_pipeline. intros p Hp. by eapply stable_evm_parsers. }
  fold cid.
  destruct (Hst r Hco) as (H1 & H2 & _). destruct (Hst r0 H0) as (_ & _ & H3).
  specialize (H3 r Hco Hsame). destruct (pipeline_run _ b r) as [[evs e] r'] eqn:E1. cbn [fst snd] in *.
  rewrite <- H3. split; [done|]. split.
  - split; [|done..]. exists r'. split; [done|]. split; [done|]. by etrans.
  - split; try done; [apply delivers_nothing|]. unfold sy_db. cbn. by destruct (st_db (sy_store s)).
Qed.

(** What a block number [n] with hash [h] leaves, processed with result [res] *)
Record block_filed (n : Z) (h : string) (ts : list (string * string)) (res : result unit)
    (s s' : Sys Ch E) : Prop := {
  bf_runner : sy_runner s' = sy_runner s;
  bf_records : delivers filed ts (db_deliveries (sy_db s)) (db_deliveries (sy_db s'));
  bf_checkpoint : db_checkpoints (sy_db s') =
    match res with
    | Ok _ => <[cid := mkCheckpointRow n h]> (db_checkpoints (sy_db s))
    | Err _ => db_checkpoints (sy_db s)
    end;
  bf_chains : db_chains (sy_db s') = db_chains (sy_db s);
}.

(** The database takes every checkpoint of the chain. *)
Definition takes_checkpoints (d : Db) : Prop :=
  is_Some (db_chains d !! cid) ∧ ∀ r, check_row (RCheckpoint cid r) = Ok tt.

Lemma save_checkpoint n h s :
  let '(res, s') := re_cp_save cid n h s in
  sy_runner s' = sy_runner s ∧ sy_registry s' = sy_registry s ∧ sy_notifiers s' = sy_notifiers s ∧
  st_env (sy_store s') = st_env (sy_store s) ∧
  sy_db s' = match res with
             | Ok _ => set_checkpoints (<[cid := mkCheckpointRow n h]> (db_checkpoints (sy_db s))) (sy_db s)
             | Err _ => sy_db s
             end ∧
  (takes_checkpoints (sy_db s) → is_ok res = true).
Proof.
  cbn [re_cp_save here system]. unfold on_store, mzoom, checkpoint_adapter_save, transaction,
    checkpoint_upsert, checkpoint_get, check_fk, sy_db, has, takes_checkpoints.
  destruct (check_row _) as [[]|x] eqn:Erow; cbn.
  - destruct (db_checkpoints (st_db (sy_store s)) !! cid); cbn; [by split_and!|].
    destruct (sql_fk && _) eqn:Efk; cbn; split_and!; try done.
    intros [Hc _]. rewrite bool_decide_eq_true_2, andb_false_r in Efk by done. done.
  - split_and!; try done. intros [_ Ha]. by rewrite Ha in Erow.
Qed.

Lemma block_recorded ids n s :
  let s' := re_on_block ids n s in
  sy_runner s' = sy_runner s ∧ sy_registry s' = sy_registry s ∧ sy_notifiers s' = sy_notifiers s ∧
  st_env (sy_store s') = st_env (sy_store s) ∧ ∃ subs, sy_db s' = set_subscriptions subs (sy_db s).
Proof.
  cbn [re_on_block here system]. unfold on_store, mzoom, sy_db.
  destruct (block_recorded_atomically (iter ids) n (sy_store s)) as (st & -> & He & Hdb).
  cbn. split_and!; try done. destruct Hdb as [->|[-> _]]; [by eexists|].
  exists (db_subscriptions (st_db (sy_store s))). by destruct (st_db (sy_store s)).
Qed.

Lemma process_block_files r0 n b logs s :
  coherent r0 → chain_trace_internal_calls chain = false → ready r0 s →
  let '(res, s') := process_block chain n b logs m k s in
  ready r0 s' ∧
  block_filed (hdr_number (blk_header b)) (hdr_hash (blk_header b))
    (targets (block_events cid true (with_logs b logs) r0)) res s s' ∧
  (takes_checkpoints (sy_db s) → is_ok res = true).
Proof.
  intros H0 Htrace Hs. unfold process_block. pose proof (evm_events_ready r0 (with_logs b logs) s H0 Hs) as H1.
  destruct (evm_events chain (with_logs b logs) s) as [evs s1]. destruct H1 as (-> & Hs1 & D1).
  set (evs := block_events cid true (with_logs b logs) r0).
  pose proof (evm_events_chain cid (with_logs b logs) true r0 : Forall (λ ev, ev_chain_id ev = cid) evs) as Hc.
  pose proof (dispatch_all r0 evs s1 Hc Hs1) as [D2 Hr2]. cbv zeta in D2, Hr2.
  destruct (dispatch_events m k false evs s1) as [ids s2]. cbn [snd] in *.
  pose proof (ready_delivering _ _ _ _ D2 Hr2 Hs1) as Hs2.
  pose proof (delivering_app _ _ _ _ _ D1 D2) as [E1 E2 E3 E4 E5]. cbn [app] in E4.
  unfold process_internal_calls, mbind at 1. rewrite Htrace. cbn [andb].
  unfold finish_block, mbind. fold cid.
  pose proof (save_checkpoint (hdr_number (blk_header b)) (hdr_hash (blk_header b)) s2) as Hsave.
  destruct (re_cp_save cid _ _ s2) as [[[]|x] s3];
    destruct Hsave as (S1 & S2 & S3 & S4 & S5 & S6); unfold mmodify.
  - match goal with |- context [if ?d then s3 else ?t] => set (s4 := if d then s3 else t) end.
    assert (∃ subs, sy_runner s4 = sy_runner s3 ∧ sy_registry s4 = sy_registry s3 ∧
      sy_notifiers s4 = sy_notifiers s3 ∧ st_env (sy_store s4) = st_env (sy_store s3) ∧
      sy_db s4 = set_subscriptions subs (sy_db s3)) as (subs & F1 & F2 & F3 & F4 & F5).
    { unfold s4. case_decide.
      - exists (db_subscriptions (sy_db s3)). split_and!; try done. by destruct (sy_db s3).
      - pose proof (block_recorded ids (hdr_number (blk_header b)) s3) as (? & ? & ? & ? & subs & ?).
        by exists subs. }
    clearbody s4.
    rewrite S5 in F5. split; [|split; [|done]].
    + destruct Hs2 as [R1 R2 R3]. split; [by rewrite F2, S2|by rewrite F3, S3|].
      unfold ids_used in *. change (st_db (sy_store s4)) with (sy_db s4). rewrite F4, S4, F5. exact R3.
    + split; [congruence|by rewrite F5|by rewrite F5, E5|by rewrite F5, E5].
  - split; [|split].
    + destruct Hs2 as [R1 R2 R3]. split; [by rewrite S2|by rewrite S3|].
      unfold ids_used in *. change (st_db (sy_store s3)) with (sy_db s3). by rewrite S4, S5.
    + split; [congruence|by rewrite S5|by rewrite S5, E5|by rewrite S5, E5].
    + intros Ht. apply S6. unfold takes_checkpoints in *. by rewrite E5.
Qed.

(** ** From a catch-up to the database *)

(** A node with one canonical chain: block [n] has header and transactions [blocks n] and logs [logs n].
    It answers queries as documented, and refuses some ranges; [size_error] is what the adapter raises then. *)
Record node_laws (blocks : Z → Block) (logs : Z → list Log) (too_large : Z → Z → bool)
    (size_error : exn) : Prop := {
  nl_block n e : ne_fetch_block n e = (Ok (blocks n), e);
  nl_logs a b ad tp e : ne_fetch_logs a b ad tp e =
    (if too_large a b then Err size_error
     else Ok (seqZ a (b - a + 1) ≫= λ n, filter (λ l, query_selects ad tp l = true) (logs n)), e);
  nl_header n : hdr_number (blk_header (blocks n)) = n;
  nl_numbers n l : l ∈ logs n → log_block_number l = n;
  nl_single n : too_large n n = false;
  nl_latest e : used e ⊆ used (ne_latest e).2;
}.

Context (blocks : Z → Block) (logs : Z → list Log) (too_large : Z → Z → bool) (size_error : exn).
Context (Hnode : node_laws blocks logs too_large size_error).

Lemma system_bounded : bounded_node (env:=here) (λ n, Ok (blocks n))
  (λ ad tp n, filter (λ l, query_selects ad tp l = true) (logs n)) too_large size_error.
Proof.
  split.
  - intros n [rn rg nt [db e]]. cbn. unfold on_node, on_store, on_env, mzoom. cbn.
    by rewrite (nl_block _ _ _ _ Hnode).
  - intros a b ad tp [rn rg nt [db e]]. cbn. unfold on_node, on_store, on_env, mzoom. cbn.
    by rewrite (nl_logs _ _ _ _ Hnode).
  - intros ad tp n l [_ Hl]%list_elem_of_filter. by apply (nl_numbers _ _ _ _ Hnode).
  - apply (nl_single _ _ _ _ Hnode).
Qed.

Lemma on_store_runner {A} (op : M (Store E) A) (s : Sys Ch E) : sy_runner (on_store op s).2 = sy_runner s.
Proof. unfold on_store, mzoom. by destruct (op (sy_store s)). Qed.

Lemma on_notifier_runner j op (s : Sys Ch E) : sy_runner (on_notifier j op s).2 = sy_runner s.
Proof.
  unfold on_notifier. destruct (sy_notifiers s !! j) as [c|]; [|done].
  by destruct (op (c, sy_store s)) as [r [c' st]].
Qed.

Lemma system_steady : steady (env:=here).
Proof.
  assert (∀ s s' : Sys Ch E, sy_runner s' = sy_runner s → config s' = config s) as Hc.
  { intros s s' H. unfold config. cbn. by rewrite H. }
  split; [split|]; intros; apply Hc; try done.
  - apply on_notifier_runner.
  - cbn in H. destruct ne_trace_block as [g|]; [|done]. injection H as <-. apply on_store_runner.
  - apply on_store_runner.
  - apply on_store_runner.
Qed.

Context (r0 : AbiRegistry) (Hcoherent : coherent r0) (Hnames : names_unique r0).
Context (Htrace : chain_trace_internal_calls chain = false).

(** The runner at work on [snap], not stopped *)
Record at_work (s : Sys Ch E) : Prop := {
  aw_ready : ready r0 s;
  aw_matcher : r_matcher (sy_runner s) = m;
  aw_handle : r_notifier (sy_runner s) = k;
  aw_filter : r_filter (sy_runner s) = build_evm_log_filter snap cid (Some r0);
  aw_running : r_stop (sy_runner s) = false;
  aw_checkpoints : takes_checkpoints (sy_db s);
}.

(** What block [n] with all its logs gives rise to *)
Definition block_targets (n : Z) : list (string * string) :=
  targets (block_events cid true (with_logs (blocks n) (logs n)) r0).

Lemma confirmed_files n s :
  Forall (decode_total r0) (logs n) → at_work s →
  ∃ s', process_confirmed_block chain n m k s = (Ok tt, s') ∧ at_work s' ∧
    block_filed n (hdr_hash (blk_header (blocks n))) (block_targets n) (Ok tt) s s'.
Proof.
  intros Hdec [Hr Hm Hk Hf Hst Hcp].
  assert (process_confirmed_block chain n m k s =
    process_block chain n (blocks n) (selected (build_evm_log_filter snap cid (Some r0)) (logs n)) m k s) as ->.
  { set (f := build_evm_log_filter snap cid (Some r0)) in *.
    assert (selected f (logs n) = if fs_skip_logs f then []
      else filter (λ l, query_selects (fs_addresses f) (topics_param f) l = true) (logs n)) as Hsel.
    { unfold selected. destruct (fs_skip_logs f) eqn:Es.
      - apply filter_none, Forall_forall. intros l _. by rewrite selects_query, Es.
      - apply list_filter_iff. intros l. by rewrite selects_query, Es. }
    unfold process_confirmed_block. cbn [re_runner here system]. rewrite Hf.
    change (on_node (ne_fetch_block n)) with (re_fetch_block (W:=Sys Ch E) n).
    pose proof (bn_block _ _ _ _ system_bounded n s) as Hb. cbn [re_fetch_block here system] in Hb |- *.
    rewrite Hb, Hsel. destruct (fs_skip_logs f); [done|].
    pose proof (bn_logs _ _ _ _ system_bounded n n (fs_addresses f) (topics_param f) s) as Hl.
    cbn [re_fetch_logs here system] in Hl |- *. rewrite Hl, (nl_single _ _ _ _ Hnode).
    rewrite Z.sub_diag, seqZ_cons, seqZ_nil by lia. rewrite bind_cons. cbn [mbind list_bind].
    by rewrite app_nil_r. }
  pose proof (process_block_files r0 n (blocks n)
    (selected (build_evm_log_filter snap cid (Some r0)) (logs n)) s Hcoherent Htrace Hr) as H.
  destruct (process_block _ _ _ _ _ _ s) as [[[]|x] s']; destruct H as (H1 & H2 & H3); [|by specialize (H3 Hcp)].
  exists s'. split; [done|]. rewrite (nl_header _ _ _ _ Hnode) in H2. split.
  - destruct H2 as [B1 _ _ B4]. split; rewrite ?B1; try done.
    unfold takes_checkpoints in *. by rewrite B4.
  - destruct H2 as [B1 B2 B3 B4]. split; [done| |done..]. unfold block_targets.
    rewrite <- targets_notified, <- selected_same_notified, targets_notified; done.
Qed.

Lemma each_files count n s :
  (∀ i, n <= i < n + Z.of_nat count → Forall (decode_total r0) (logs i)) → at_work s →
  let s' := process_each chain count n s in
  at_work s' ∧
  delivers filed (seqZ n (Z.of_nat count) ≫= block_targets) (db_deliveries (sy_db s))
    (db_deliveries (sy_db s')) ∧
  db_checkpoints (sy_db s') =
    match count with
    | O => db_checkpoints (sy_db s)
    | _ => let tip := n + Z.of_nat count - 1 in
           <[cid := mkCheckpointRow tip (hdr_hash (blk_header (blocks tip)))]> (db_checkpoints (sy_db s))
    end.
Proof.
  revert n s. induction count as [|count IH]; intros n s Hdec Hs; cbn [process_each].
  { split; [done|]. split; [apply delivers_nothing|done]. }
  cbn [re_runner here system].
  rewrite (aw_running _ Hs), (aw_matcher _ Hs), (aw_handle _ Hs).
  destruct (confirmed_files n s) as (s1 & -> & Hs1 & [_ B2 B3 _]); [apply Hdec; lia|done|].
  destruct (IH (n + 1) s1) as (I1 & I2 & I3); [intros i Hi; apply Hdec; lia|done|].
  split; [done|]. split.
  - rewrite seqZ_cons by lia. rewrite bind_cons. eapply delivers_app; [exact B2|].
    by replace (Z.pred (Z.of_nat (S count))) with (Z.of_nat count) by lia.
  - cbv zeta. rewrite I3, B3. destruct count as [|count].
    + by replace (n + Z.of_nat 1 - 1) with n by lia.
    + rewrite insert_insert_eq.
      by replace (n + 1 + Z.of_nat (S count) - 1) with (n + Z.of_nat (S (S count)) - 1) by lia.
Qed.

Lemma range_at_work margin s first tip s1 :
  at_work s → catchup_range chain margin s = (Some (first, tip), s1) →
  at_work s1 ∧ sy_db s1 = sy_db s ∧ first <= tip.
Proof.
  intros Hs. unfold catchup_range. destruct (min_list _) as [last|]; [|done].
  cbn [re_latest here system]. destruct s as [rn rg nt [db e]]. unfold on_node, on_store, on_env, mzoom.
  cbn. pose proof (nl_latest _ _ _ _ Hnode e) as Hu. destruct (ne_latest e) as [[t|x] e']; [|done].
  cbn [snd] in Hu. destruct (Z.leb_spec (t - margin - last) 0) as [|Hgap]; [done|].
  intros Heq. injection Heq as <- <- <-. split; [|split; [done|]].
  - destruct Hs as [[A1 A2 A3] A4 A5 A6 A7 A8]. split; try done. split; try done.
    unfold ids_used in *. cbn in *. set_solver.
  - destruct (Z.ltb_spec MAX_CATCHUP_BLOCKS (t - margin - last)); unfold MAX_CATCHUP_BLOCKS in *; lia.
Qed.

(** *** Starting *)

(** What connecting and the drivers' start do to the world: ids stay used. *)
Record start_laws : Prop := {
  sl_connect e : used e ⊆ used (ne_connect e).2;
  sl_factory cfg e : used e ⊆ used (ch_factory cfg e).2;
  sl_start ch e : used e ⊆ used (ch_start ch e).2;
}.

(** The system before [start] *)
Record idle (s : Sys Ch E) : Prop := {
  id_registry : sy_registry s = Some r0;
  id_used : ids_used used (sy_store s);
  id_running : r_stop (sy_runner s) = false;
  id_checkpoints : takes_checkpoints (sy_db s);
}.

(** Operations of the environment leave the runner, and the system idle. *)
Definition env_op {A} (op : M (Sys Ch E) A) : Prop :=
  keeps idle op ∧ ∀ s, sy_runner (op s).2 = sy_runner s ∧
    length (sy_notifiers (op s).2) = length (sy_notifiers s).

Lemma env_op_wp {A} (op : M (Sys Ch E) A) (Post : A → Sys Ch E → Prop) s :
  env_op op → idle s →
  (∀ a s', idle s' → sy_runner s' = sy_runner s → length (sy_notifiers s') = length (sy_notifiers s) →
     Post a s') →
  wp op Post (λ _ _, True) s.
Proof.
  intros [Hk Hop] Hs HPost. specialize (Hk s Hs). specialize (Hop s). unfold wp in *.
  destruct (op s) as [[a|e] s']; [|done]. destruct Hop. by apply HPost.
Qed.

Lemma env_op_node {A} (op : M E A) : (∀ e, used e ⊆ used (op e).2) → env_op (on_node op).
Proof using Type.
  intros Hu. unfold on_node, on_store, on_env, mzoom. split.
  - intros [rn rg nt [db e]] [H1 H2 H3 H4]. unfold wp. cbn. specialize (Hu e).
    assert (∀ e', used e ⊆ used e' → idle (mkSys rn rg nt (mkStore db e'))) as Hi.
    { intros e' He. split; cbn; [done|exact (transitivity H2 He)|done..]. }
    cbn in Hu.
    destruct (op e) as [[a|x] e']; by apply Hi.
  - intros [rn rg nt [db e]]. cbn. by destruct (op e) as [[a|x] e'].
Qed.

Lemma env_op_notifier j (op : M (list (string * Ch) * Store E) unit) :
  (∀ st, st_db (op st).2.2 = st_db st.2 ∧ used (st_env st.2) ⊆ used (st_env (op st).2.2)) →
  env_op (on_notifier j op).
Proof using Type.
  intros Hop. unfold on_notifier. split.
  - intros s [H1 H2 H3 H4]. unfold wp. destruct (sy_notifiers s !! j) as [c|]; [|done].
    specialize (Hop (c, sy_store s)). destruct (op (c, sy_store s)) as [r [c' st]]. cbn [fst snd] in Hop.
    destruct Hop as [Hdb Hu].
    assert (idle (mkSys (sy_runner s) (sy_registry s) (<[j := c']> (sy_notifiers s)) st)) as Hi.
    { split; cbn; [done| |done|].
      - unfold ids_used. rewrite Hdb. exact (transitivity H2 Hu).
      - unfold takes_checkpoints, sy_db. cbn. by rewrite Hdb. }
    by destruct r.
  - intros s. destruct (sy_notifiers s !! j) as [c|]; [|done].
    destruct (op (c, sy_store s)) as [r [c' st]]. cbn. by rewrite length_insert.
Qed.

Lemma notifier_start_keeps (Hsl : start_laws) channels st :
  let st' := (notifier_start (ChannelEnv0:=stored) channels st).2 in
  st_db st'.2 = st_db st.2 ∧ used (st_env st.2) ⊆ used (st_env st'.2).
Proof using Type.
  set (I := λ st' : list (string * Ch) * Store E,
    st_db st'.2 = st_db st.2 ∧ used (st_env st.2) ⊆ used (st_env st'.2)).
  enough (wp (notifier_start (ChannelEnv0:=stored) channels) (λ _, I) (λ _, I) st) as Hw by by apply wp_state in Hw.
  apply wp_mfor_inv; [by split|]. intros cfg [c [db e]] _ [H1 H2]. cbn in H1, H2.
  unfold wp, mbind, in_world. cbn [ch_factory stored]. unfold on_env, mzoom. cbn [st_env st_db].
  pose proof (sl_factory Hsl cfg e) as Hf.
  destruct (ch_factory cfg e) as [[inst|x] e1]; cbn [snd] in Hf; [|unfold I; cbn; split; [done|by etrans]].
  cbn [ch_start stored]. unfold on_env, mzoom. cbn [st_env st_db]. pose proof (sl_start Hsl inst e1) as Hs.
  destruct (ch_start inst e1) as [[[]|x] e2]; cbn [snd] in Hs; unfold mmodify, I; cbn; (split; [done|by do 2 (etrans; [eassumption|])]).
Qed.

(** A runner that [start] has started without an exception is at work on the configuration. *)
Lemma started_at_work (Hsl : start_laws) s s' :
  is_solana chain = false → idle s → k = length (sy_notifiers s) →
  start chain snap s = (Ok tt, s') → sy_notifiers s' !! k = Some chs → at_work s'.
Proof.
  intros Hsol Hidle Hk Hstart Hchs.
  assert (wp (start chain snap) (λ _ s', idle s' ∧ r_matcher (sy_runner s') = m ∧
    r_notifier (sy_runner s') = k ∧
    r_filter (sy_runner s') = build_evm_log_filter snap cid (Some r0)) (λ _ _, True) s) as Hw.
  { unfold start.
    apply wp_bind, env_op_wp; [by apply env_op_node, (sl_connect Hsl)|done|].
    intros [] t1 I1 R1 N1. apply wp_bind. unfold wp at 1. cbn [re_cp_get here system].
    unfold on_store, mzoom, checkpoint_adapter_get, mgets. cbn.
    apply wp_bind, wp_modify, wp_bind, wp_modify, wp_bind. unfold wp at 1, new_notifier. cbn.
    apply wp_bind, wp_modify, wp_bind. cbn.
    apply env_op_wp; [by apply env_op_notifier, notifier_start_keeps| |].
    { destruct I1. by split. }
    intros [] t2 I2 R2 N2. apply wp_bind, wp_modify, wp_modify. unfold rebuild_filter. rewrite Hsol. cbn.
    rewrite (id_registry _ I2). cbn. split; [destruct I2; by split|].
    rewrite R2. cbn. split; [done|]. split; [by rewrite N1, Hk|done]. }
  apply (wp_run _ _ _ _ _ _ Hstart) in Hw as ([H1 H2 H3 H4] & M1 & M2 & M3).
  split; try done. split; [exists r0; by split_and!|done..].
Qed.

End blocks.

(** ** Witness: blocks 5 and 6 of a chain on which block 5 has a payment *)
Module SystemSample.
#[local] Existing Instance ToyLib.lib.
#[local] Existing Instance ToyLib.laws.
Import EndToEndSample.

Definition blocks (n : Z) : Block := mkBlock (mkHeader n (pretty n) (pretty (n - 1)) 1000) [] [].
Definition logs (n : Z) : list Log := if n =? 5 then [payment] else [].
Definition too_large (a b : Z) : bool := a <? b.
Definition size_error : exn := OtherError "Web3RPCError" "block range too large".

#[export] Instance node : NodeEnv nat := {|
  ne_connect := mret tt;
  ne_disconnect := mret tt;
  ne_latest := mret 8;
  ne_fetch_block n := mret (blocks n);
  ne_fetch_logs a b ad tp := λ e,
    (if too_large a b then Err size_error
     else Ok (seqZ a (b - a + 1) ≫= λ n, filter (λ l, query_selects ad tp l = true) (logs n)), e);
  ne_trace_block := None;
  ne_fetch_slot _ := mret None;
  ne_get_blocks _ _ := mret [];
  ne_drain_cut _ := None;
|}.

Definition chain : SnapshotChain :=
  mkChain "eth" "evm" "http://rpc" None 2 1000 None false 4 100 [] 10000.
Definition drivers : list (string * result unit) := [("c1", Ok tt)].

(** Restarted from the checkpoint at block 4, with the head at 8 and two confirmations *)
Definition start : Sys (result unit) nat :=
  mkSys (mkRunner (Matcher_init snapshot) 0 (build_evm_log_filter snapshot "eth" (Some registry)) snapshot
           false (Some (4, "4")))
    (Some registry) [drivers] (mkStore toy_db1 0%nat).

Lemma sample_node_ok : node_laws LedgerSample.used blocks logs too_large size_error.
Proof.
  split; try done.
  - intros n l. unfold logs. destruct (Z.eqb_spec n 5) as [->|]; [|by intros ?%elem_of_nil].
    by intros ->%list_elem_of_singleton.
  - intros n. unfold too_large. apply Z.ltb_irrefl.
Qed.

Lemma start_at_work :
  at_work (Q:=ToySql) LedgerSample.used chain snapshot 0 drivers registry start.
Proof.
  split; try reflexivity.
  - split; [|reflexivity|].
    + exists registry. split; [reflexivity|]. split; [exact registry_coherent|reflexivity].
    + unfold ids_used. replace (db_deliveries (st_db (sy_store start))) with (∅ : gmap string DeliveryRecordRow)
        by (vm_compute; reflexivity). rewrite dom_empty_L. apply empty_subseteq.
  - split; [by eexists|]. intros r. reflexivity.
Qed.
End SystemSample.

