(* ===== verification/Worker.v ===== *)
(** * The worker (apps/worker/main.py)

    [_Worker] owns the ABI registry, a runner and its task per chain and a lock per chain, and
    reconciles them with every snapshot it dequeues.  [Worker] is its state; what it calls on
    runners, tasks, connections and the database is the interface [WorkerEnv] over a state [W];
    the chain locks are those of [ChainLock], over Redis.  The task of a runner and the runner are one
    handle. *)
From S2P Require Import Prelude Hoare PyStr PyVal Snapshot AbiLookup Decoder Registry.
From S2P Require Import Repositories Watchers ChainLock Channels Schemas WebApi.

Class WorkerEnv (W : Type) := {
  we_new_runner : SnapshotChain → W → nat * W;      (** ChainRunner(...) *)
  we_start : nat → ConfigSnapshot → M W unit;
  we_apply : nat → ConfigSnapshot → M W unit;       (** runner.apply_snapshot *)
  we_stop : nat → M W unit;                         (** runner.stop *)
  we_spawn : nat → W → W;                           (** create_task(runner.run()) *)
  we_join : nat → W → W;                            (** cancel, then await suppressed *)
  we_replay : nat → pyval → W → W;                  (** create_task(runner.replay(msg)) *)
  we_halt : M W unit;         (** cancel the cleanup task, stop the two watchers *)
  we_bus_disconnect : M W unit;
  we_db_disconnect : M W unit;
}.

(** What [start] calls, in the order of its calls *)
Class StartEnv (W : Type) := {
  se_db_connect : M W unit;
  se_bus_connect : M W unit;
  se_watcher_start : M W unit;        (** ConfigWatcher(...).start *)
  se_replay_start : M W unit;         (** ReplayWatcher(...).start *)
  se_metrics_server : M W unit;       (** start_http_server and the gauges *)
  se_spawn_cleanup : W → W;           (** create_task(_run_cleanup_loop()) *)
}.

Record Worker (W : Type) := mkWorker {
  wk_registry : AbiRegistry;
  wk_runners : list (string * nat);
  wk_locks : list (string * ChainLock);
  wk_stop : bool;
  wk_env : W;
}.
Arguments mkWorker {W}. Arguments wk_registry {W}. Arguments wk_runners {W}.
Arguments wk_locks {W}. Arguments wk_stop {W}. Arguments wk_env {W}.

(** [d.pop(k, None)] *)
Definition ddel {V} (k : string) (d : list (string * V)) : list (string * V) :=
  filter (λ kv, kv.1 ≠ k) d.

Section worker.
Context {L : AbiLib} {W : Type} `{!WorkerEnv W, !Redis W}.
Variable worker_id : string.

Definition set_registry (r : AbiRegistry) (s : Worker W) : Worker W :=
  mkWorker r (wk_runners s) (wk_locks s) (wk_stop s) (wk_env s).
Definition set_runners (f : list (string * nat) → list (string * nat)) : M (Worker W) unit :=
  mmodify (λ s, mkWorker (wk_registry s) (f (wk_runners s)) (wk_locks s) (wk_stop s) (wk_env s)).
Definition set_locks (f : list (string * ChainLock) → list (string * ChainLock))
    : M (Worker W) unit :=
  mmodify (λ s, mkWorker (wk_registry s) (wk_runners s) (f (wk_locks s)) (wk_stop s) (wk_env s)).
Definition env {A} (m : M W A) : M (Worker W) A :=
  mzoom wk_env (λ e s, mkWorker (wk_registry s) (wk_runners s) (wk_locks s) (wk_stop s) e) m.

(** A method of a lock object that is held here or by [_locks] *)
Definition on_lock {A} (l : ChainLock) (m : M (ChainLock * W) A) : M (Worker W) (A * ChainLock) :=
  env (λ e, let '(r, (l', e')) := m (l, e) in
            (match r with Ok a => Ok (a, l') | Err x => Err x end, e')).

(** [_stop_runner] *)
Definition stop_runner (chain_id : string) : M (Worker W) unit :=
  let* s := mget in
  match dget chain_id (wk_runners s) with
  | None => mthrow (KeyError chain_id)
  | Some h =>
      set_runners (ddel chain_id) ;;*
      env (we_stop h) ;;*
      env (λ e, (Ok tt, we_join h e))
  end.

(** [if chain_id in self._locks: await self._locks.pop(chain_id).release()] *)
Definition pop_and_release (chain_id : string) : M (Worker W) unit :=
  let* s := mget in
  match dget chain_id (wk_locks s) with
  | None => mret tt
  | Some l => set_locks (ddel chain_id) ;;* on_lock l release ;;* mret tt
  end.

(** [__init__]; [start] *)
Definition worker_init (e : W) : Worker W := mkWorker AbiRegistry_init [] [] false e.

Definition start `{!StartEnv W} (metrics_enabled : bool) : M (Worker W) unit :=
  env se_db_connect ;;*
  env se_bus_connect ;;*
  env se_watcher_start ;;*
  env se_replay_start ;;*
  (if metrics_enabled then env se_metrics_server else mret tt) ;;*
  env (λ e, (Ok tt, se_spawn_cleanup e)).

(** The body of the second loop of [_reconcile] for one chain *)
Definition reconcile_chain (snap : ConfigSnapshot) (cfg : SnapshotChain) : M (Worker W) unit :=
  let chain := chain_id cfg in
  let* s := mget in
  match dget chain (wk_runners s) with
  | Some h => env (we_apply h snap)
  | None =>
      let* acquired := on_lock (lock_init chain worker_id) acquire in
      if negb acquired.1 then mret tt else
      set_locks (dset chain acquired.2) ;;*
      let* h := env (λ e, let '(h, e') := we_new_runner cfg e in (Ok h, e')) in
      mcatch (env (we_start h snap) ;;*
              env (λ e, (Ok tt, we_spawn h e)) ;;*
              set_runners (dset chain h))
        (λ _, on_lock acquired.2 release ;;* set_locks (ddel chain))
  end.

(** [{c.id: c for c in snap.chains}], in insertion order *)
Definition enabled_chains (snap : ConfigSnapshot) : list (string * SnapshotChain) :=
  foldl (λ d c, dset (chain_id c) c d) [] (snap_chains snap).

(** [_reconcile] *)
Definition reconcile (snap : ConfigSnapshot) : M (Worker W) unit :=
  mzoom wk_registry set_registry (refresh snap) ;;*
  let enabled := enabled_chains snap in
  let* s := mget in
  mfor (wk_runners s).*1 (λ chain,
    if dmem chain enabled then mret tt else stop_runner chain ;;* pop_and_release chain) ;;*
  mfor enabled (λ kc, reconcile_chain snap kc.2).

(** [_dequeue_snapshot_or_stop] on the queue of snapshots; [None]: it waits.  The stop event wins over a snapshot
    that is there too, which is then lost. *)
Definition dequeue_snapshot_or_stop (queue : list ConfigSnapshot) (stopped : bool)
    : option (option ConfigSnapshot * list ConfigSnapshot) :=
  match stopped, queue with
  | true, _ => Some (None, tail queue)
  | false, x :: queue => Some (Some x, queue)
  | false, [] => None
  end.

(** What successive calls return while the stop event does not change *)
Fixpoint dequeues (calls : nat) (queue : list ConfigSnapshot) (stopped : bool) : list (option ConfigSnapshot) :=
  match calls with
  | O => []
  | S calls =>
      match dequeue_snapshot_or_stop queue stopped with
      | None => []
      | Some (None, _) => [None]
      | Some (o, queue) => o :: dequeues calls queue stopped
      end
  end.

(** [run]: what [_dequeue_snapshot_or_stop] returns each time; [None] is the stop event.  Whether
    the first reconcile has been done is the second component. *)
Fixpoint run (dequeued : list (option ConfigSnapshot)) : M (Worker W * bool) unit :=
  match dequeued with
  | [] => mret tt
  | o :: t => λ st,
      if wk_stop st.1 then (Ok tt, st) else
      match o with
      | None => (Ok tt, st)
      | Some snap =>
          let '(r, s') := reconcile snap st.1 in
          match r with
          | Ok _ => run t (s', true)
          | Err e => (Err e, (s', st.2))
          end
      end
  end.

(** [_on_replay_request] *)
Definition on_replay_request (msg : pyval) : M (Worker W) unit :=
  let* chain := mlift (py_get msg "chain_id" PNone) in
  let* s := mget in
  match chain with
  | PStr c => match dget c (wk_runners s) with
              | Some h => env (λ e, (Ok tt, we_replay h msg e))
              | None => mret tt
              end
  | _ => mret tt
  end.

(** The stops that [shutdown] gathers, in the order they end.  The exception raised is the first;
    the state is the one once every stop has ended, which those still under way then do on their
    own. *)
Fixpoint stop_all (chains : list string) : M (Worker W) unit :=
  match chains with
  | [] => mret tt
  | c :: t => λ s,
      let '(r, s1) := stop_runner c s in
      let '(r', s2) := stop_all t s1 in
      (match r with Ok _ => r' | Err e => Err e end, s2)
  end.

Definition release_all (locks : list (string * ChainLock)) : M (Worker W) unit :=
  mfor locks (λ kl, mcatch (on_lock kl.2 release ;;* mret tt) (λ _, mret tt)).

(** [shutdown]; the order in which the concurrent stops end is [schedule] *)
Definition shutdown (schedule : list string → list string) : M (Worker W) unit := λ s,
  if wk_stop s then (Ok tt, s) else
  (mmodify (λ s, mkWorker (wk_registry s) (wk_runners s) (wk_locks s) true (wk_env s)) ;;*
   env we_halt ;;*
   stop_all (schedule (wk_runners s).*1) ;;*
   release_all (wk_locks s) ;;*
   set_locks (λ _, []) ;;*
   env we_bus_disconnect ;;*
   env we_db_disconnect) s.

(** Unless it is stopped the main loop sees every snapshot, in order. *)
Lemma dequeues_all queue : dequeues (length queue) queue false = Some <$> queue.
Proof. induction queue as [|x queue IH]; [done|]. csimpl. by rewrite IH. Qed.

(** ** Runners and locks *)

Lemma ddel_keys {V} k (d : list (string * V)) c : c ∈ (ddel k d).*1 ↔ c ≠ k ∧ c ∈ d.*1.
Proof.
  unfold ddel. rewrite !list_elem_of_fmap. split.
  - intros ([c' v] & -> & [? ?]%list_elem_of_filter). split; [done|]. by exists (c', v).
  - intros (Hne & [c' v] & -> & Hin). exists (c', v). split; [done|]. by apply list_elem_of_filter.
Qed.

Lemma ddel_NoDup {V} k (d : list (string * V)) : NoDup d.*1 → NoDup (ddel k d).*1.
Proof. intros H. eapply sublist_NoDup; [exact H|]. apply fmap_sublist, sublist_filter. Qed.

Lemma dset_key_in {V} k (v : V) d c : c ∈ (dset k v d).*1 ↔ c = k ∨ c ∈ d.*1.
Proof.
  rewrite dset_keys. case_decide; [set_solver|]. rewrite elem_of_app, list_elem_of_singleton. tauto.
Qed.

Lemma dset_elem {V} k (v : V) d x : x ∈ dset k v d → x = (k, v) ∨ x ∈ d.
Proof.
  induction d as [|[k' v'] d IH]; cbn; [set_solver|]. case_decide; [set_solver|].
  intros [->|Hx%IH]%elem_of_cons; [right; left|]. destruct Hx; [by left|right; by right].
Qed.

Lemma dget_key {V} k (d : list (string * V)) : is_Some (dget k d) ↔ k ∈ d.*1.
Proof.
  destruct (dget k d) as [v|] eqn:E.
  - split; [|by eexists]. intros _. apply dget_elem_of in E. apply list_elem_of_fmap. by exists (k, v).
  - split; [by intros []|]. apply dget_None in E. by intros ?.
Qed.

Lemma dget_ddel_ne {V} k k' (d : list (string * V)) : k ≠ k' → dget k (ddel k' d) = dget k d.
Proof.
  intros Hne. unfold ddel. induction d as [|[c v] d IH]; [done|]. rewrite filter_cons. simpl.
  destruct (decide (c = k)) as [->|]; case_decide; simpl; try done;
    repeat case_decide; done.
Qed.

Lemma dget_ddel_eq {V} k (d : list (string * V)) : dget k (ddel k d) = None.
Proof. apply dget_None. rewrite ddel_keys. tauto. Qed.

(** Every runner has its lock *)
Record worker_inv (s : Worker W) : Prop := {
  wi_runners : NoDup (wk_runners s).*1;
  wi_locks : NoDup (wk_locks s).*1;
  wi_locked : (wk_runners s).*1 ⊆ (wk_locks s).*1;
}.

(** The tables of [s]: what it runs and what it has locked *)
Definition tables (s : Worker W) := (wk_runners s, wk_locks s).

Lemma tables_inv s s' : tables s' = tables s → worker_inv s → worker_inv s'.
Proof. unfold tables. intros [= H1 H2] []. split; by rewrite ?H1, ?H2. Qed.

(** [m] raises from some state *)
Definition raises {S A} (m : M S A) : Prop := ∃ s, is_ok (m s).1 = false.

Lemma wp_env {A} (m : M W A) s :
  wp (env m) (λ a s', (∃ e, (m e).1 = Ok a) ∧ tables s' = tables s ∧ wk_stop s' = wk_stop s)
    (λ _ s', raises m ∧ tables s' = tables s ∧ wk_stop s' = wk_stop s) s.
Proof.
  unfold env. apply wp_zoom. unfold wp, raises.
  destruct (m (wk_env s)) as [[a|x] e] eqn:E; (split; [|done]); exists (wk_env s); by rewrite E.
Qed.

Lemma wp_env_pure {A} (f : W → A * W) s :
  wp (env (λ e, let '(a, e') := f e in (Ok a, e')))
    (λ a s', (∃ e, (f e).1 = a) ∧ tables s' = tables s ∧ wk_stop s' = wk_stop s) (λ _ _, False) s.
Proof.
  unfold env. apply wp_zoom. unfold wp. destruct (f (wk_env s)) as [a e] eqn:E.
  split; [|done]. exists (wk_env s). by rewrite E.
Qed.

Lemma wp_on_lock {A} l (m : M (ChainLock * W) A) s :
  wp (on_lock l m) (λ r s', (∃ e, (m (l, e)).1 = Ok r.1) ∧ tables s' = tables s)
    (λ _ s', raises m ∧ tables s' = tables s) s.
Proof.
  unfold on_lock. eapply wp_mono; [apply wp_env| |].
  - intros [a l'] s' ((e & He) & HT & _). split; [|done]. exists e.
    destruct (m (l, e)) as [[b|x] [l'' e'']]; [|done]. simpl in *. by injection He as ->.
  - intros x s' ((e & He) & HT & _). split; [|done]. exists (l, e).
    by destruct (m (l, e)) as [[b|y] [l'' e'']].
Qed.

(** What can raise in a reconcile *)
Inductive fault (snap : ConfigSnapshot) : Prop :=
  | fault_refresh r : is_ok (refresh snap r).1 = false → fault snap
  | fault_stop h : raises (we_stop h) → fault snap
  | fault_apply h : raises (we_apply h snap) → fault snap
  | fault_acquire : raises (acquire (W:=W)) → fault snap
  | fault_release : raises (release (W:=W)) → fault snap.

(** The lock of a chain is refused, its runner fails to start, or its runner is started *)
Definition refused (c : string) : Prop := ∃ e, (acquire (lock_init c worker_id, e)).1 = Ok false.
Definition start_raised (snap : ConfigSnapshot) (h : nat) : Prop := raises (we_start h snap).
Definition runner_for (cfg : SnapshotChain) (h : nat) : Prop := ∃ e, (we_new_runner cfg e).1 = h.

Lemma stop_runner_wp snap c h s :
  dget c (wk_runners s) = Some h →
  wp (stop_runner c) (λ _ s', tables s' = (ddel c (wk_runners s), wk_locks s))
    (λ _ s', fault snap ∧ tables s' = (ddel c (wk_runners s), wk_locks s)) s.
Proof.
  intros Hc. unfold stop_runner, set_runners. wp_steps. rewrite Hc. wp_steps.
  eapply wp_mono; [apply wp_env| |].
  - intros [] s1 (_ & HT & _). eapply wp_mono; [apply (wp_env (λ e, (Ok tt, we_join h e)))| |].
    + intros [] s2 (_ & HT2 & _). by rewrite HT2, HT.
    + intros x s2 ((e & He) & _). done.
  - intros x s1 (Hr & HT & _). split; [by eapply fault_stop|]. by rewrite HT.
Qed.

Lemma pop_and_release_wp snap c s :
  wp (pop_and_release c) (λ _ s', tables s' = (wk_runners s, ddel c (wk_locks s)))
    (λ _ s', fault snap ∧ tables s' = (wk_runners s, ddel c (wk_locks s))) s.
Proof.
  unfold pop_and_release, set_locks. wp_steps. destruct (dget c (wk_locks s)) as [l|] eqn:El; wp_steps.
  - eapply wp_mono; [apply wp_on_lock| |].
    + intros [[] l'] s1 (_ & HT). wp_steps. by rewrite HT.
    + intros x s1 (Hr & HT). split; [by apply fault_release|]. by rewrite HT.
  - unfold tables. f_equal. unfold ddel. symmetry. apply filter_all, Forall_forall.
    intros [c' l'] Hin Heq. simpl in Heq. subst c'. apply dget_None in El. apply El, list_elem_of_fmap. by exists (c, l').
Qed.

(** One chain of the second loop, by cases: it runs already; its lock is refused; its runner
    fails to start; it is started. *)
Lemma reconcile_chain_wp snap cfg s :
  wp (reconcile_chain snap cfg)
    (λ _ s',
      (dget (chain_id cfg) (wk_runners s) ≠ None ∧ tables s' = tables s) ∨
      (dget (chain_id cfg) (wk_runners s) = None ∧
        (refused (chain_id cfg) ∧ tables s' = tables s ∨
         (∃ l h, runner_for cfg h ∧ start_raised snap h ∧
            tables s' = (wk_runners s, ddel (chain_id cfg) (dset (chain_id cfg) l (wk_locks s)))) ∨
         (∃ l h, runner_for cfg h ∧
            tables s' = (dset (chain_id cfg) h (wk_runners s), dset (chain_id cfg) l (wk_locks s))))))
    (λ _ s', fault snap ∧ (tables s' = tables s ∨
       ∃ l, tables s' = (wk_runners s, dset (chain_id cfg) l (wk_locks s)))) s.
Proof.
  unfold reconcile_chain. wp_steps. destruct (dget (chain_id cfg) (wk_runners s)) as [h|] eqn:Ec.
  { eapply wp_mono; [apply wp_env| |].
    - intros [] s1 (_ & HT & _). by left.
    - intros x s1 (Hr & HT & _). split; [by eapply fault_apply|by left]. }
  wp_steps. eapply wp_mono; [apply wp_on_lock| |].
  2: { intros x s1 (Hr & HT). split; [by apply fault_acquire|by left]. }
  intros [[] l'] s1 (Ha & HT); cbn [negb fst snd] in *; wp_steps.
  2: { right. split; [done|]. left. split; [exact Ha|done]. }
  unfold set_locks at 1. wp_steps. eapply wp_mono; [apply wp_env_pure| |done].
  intros h s2 (Hh & HT2 & _). cbn beta in *. wp_steps.
  injection HT as HTr HTl. unfold tables in HT2. cbn in HT2. rewrite HTr, HTl in HT2.
  eapply wp_mono; [apply wp_env| |].
  - intros [] s3 (_ & HT3 & _). cbn beta. wp_steps.
    eapply wp_mono; [apply (wp_env (λ e, (Ok tt, we_spawn h e)))| |].
    + intros [] s4 (_ & HT4 & _). unfold set_runners. wp_steps. right. split; [done|].
      right. right. exists l', h. split; [done|]. rewrite HT3 in HT4.
      injection HT2 as E1 E2. injection HT4 as F1 F2. unfold tables. cbn. by rewrite F1, F2, E1, E2.
    + intros x s4 ((e & He) & _). done.
  - intros x s3 (Hs & HT3 & _). cbn beta. wp_steps. eapply wp_mono; [apply wp_on_lock| |].
    + intros [[] l2] s4 (_ & HT4). unfold set_locks. wp_steps. right. split; [done|].
      right. left. exists l', h. split; [done|]. split; [done|].
      rewrite HT3 in HT4. injection HT2 as E1 E2. injection HT4 as F1 F2.
      unfold tables. cbn. by rewrite F1, F2, E1, E2.
    + intros y s4 (Hr & HT4). split; [by apply fault_release|]. right. exists l'.
      rewrite HT4, HT3. exact HT2.
Qed.

(** ** The loops of [reconcile] *)

Lemma enabled_chains_spec snap :
  NoDup (enabled_chains snap).*1 ∧
  (∀ kc, kc ∈ enabled_chains snap → kc.1 = chain_id kc.2 ∧ kc.2 ∈ snap_chains snap) ∧
  (∀ c, c ∈ snap_chains snap → chain_id c ∈ (enabled_chains snap).*1).
Proof.
  unfold enabled_chains. induction (snap_chains snap) as [|c l (IH1 & IH2 & IH3)] using rev_ind.
  { split; [constructor|]. split; [by intros ? ?%not_elem_of_nil|by intros ? ?%not_elem_of_nil]. }
  rewrite foldl_app. simpl. split; [by apply dset_NoDup|]. split.
  - intros [k c'] Hin. pose proof (elem_of_dget k c' _ (dset_NoDup _ _ _ IH1) Hin) as Hg.
    destruct (decide (k = chain_id c)) as [->|Hne].
    + rewrite dget_dset_eq in Hg. injection Hg as ->. split; [done|set_solver].
    + rewrite dget_dset_ne in Hg by done. apply dget_elem_of, IH2 in Hg as [? ?].
      split; [done|]. set_solver.
  - intros c' [Hin%IH3| ->%list_elem_of_singleton]%elem_of_app; apply dset_key_in; auto.
Qed.

Lemma dmem_key {V} k (d : list (string * V)) : dmem k d = true ↔ k ∈ d.*1.
Proof.
  rewrite <- dget_key. unfold dmem. destruct (dget k d); [by split; eauto|].
  split; [done|by intros []].
Qed.

(** [d'] is [d] without the keys of [done] that are not enabled. *)
Definition dropped {V} (done enabled : list string) (d d' : list (string * V)) : Prop :=
  NoDup d'.*1 ∧ ∀ c, dget c d' = if decide (c ∈ done ∧ c ∉ enabled) then None else dget c d.

Lemma dropped_keep {V} done enabled c (d d' : list (string * V)) :
  c ∈ enabled → dropped done enabled d d' → dropped (done ++ [c]) enabled d d'.
Proof.
  intros Hc [H1 H2]. split; [done|]. intros k. rewrite H2. repeat case_decide; set_solver.
Qed.

Lemma dropped_drop {V} done enabled c (d d' : list (string * V)) :
  c ∉ enabled → dropped done enabled d d' → dropped (done ++ [c]) enabled d (ddel c d').
Proof.
  intros Hc [H1 H2]. split; [by apply ddel_NoDup|]. intros k. destruct (decide (k = c)) as [->|Hne].
  - rewrite dget_ddel_eq. case_decide; set_solver.
  - rewrite dget_ddel_ne by done. rewrite H2. repeat case_decide; set_solver.
Qed.

Lemma dropped_keys {V} done enabled c (d d' : list (string * V)) :
  dropped done enabled d d' → c ∈ d'.*1 ↔ c ∈ d.*1 ∧ (c ∈ done → c ∈ enabled).
Proof.
  intros [_ H]. rewrite <- !dget_key, H. case_decide as Hd.
  - split; [by intros []|]. intros [_ Hc]. by destruct Hd as [?%Hc ?].
  - split; [|tauto]. intros Hs. split; [done|]. intros Hin.
    destruct (decide (c ∈ enabled)) as [|Hne]; [done|]. by destruct Hd.
Qed.

Lemma stop_loop_wp snap s :
  worker_inv s →
  wp (mfor (wk_runners s).*1 (λ chain, if dmem chain (enabled_chains snap) then mret tt
        else stop_runner chain ;;* pop_and_release chain))
    (λ _ s', let enabled := (enabled_chains snap).*1 in
       dropped (wk_runners s).*1 enabled (wk_runners s) (wk_runners s') ∧
       dropped (wk_runners s).*1 enabled (wk_locks s) (wk_locks s'))
    (λ _ s', fault snap ∧ worker_inv s') s.
Proof.
  intros [Hr Hl Hsub].
  apply (wp_mfor (λ done s', dropped done (enabled_chains snap).*1 (wk_runners s) (wk_runners s') ∧
                   dropped done (enabled_chains snap).*1 (wk_locks s) (wk_locks s'))).
  { split; (split; [done|]); intros c; case_decide; set_solver. }
  intros dn c todo s1 Hsplit [D1 D2].
  destruct (dmem c (enabled_chains snap)) eqn:Ec.
  { apply dmem_key in Ec. wp_steps. split; by apply dropped_keep. }
  assert (c ∉ (enabled_chains snap).*1) as Hc by (rewrite <- dmem_key; congruence).
  assert (c ∈ (wk_runners s1).*1) as Hin.
  { apply (dropped_keys dn _ c _ _ D1). rewrite Hsplit in Hr |- *. split; [set_solver|].
    intros Hdn. apply NoDup_app in Hr as (_ & Hdis & _). exfalso. apply (Hdis c Hdn). set_solver. }
  apply dget_key in Hin as [h Hh].
  assert (worker_inv s1) as Hs1.
  { split; [apply D1|apply D2|]. intros k Hk. apply (dropped_keys dn _ k _ _ D2).
    apply (dropped_keys dn _ k _ _ D1) in Hk as [? ?]. split; [by apply Hsub|done]. }
  wp_steps. eapply wp_mono; [by apply (stop_runner_wp snap c h)| |].
  - intros [] s2 HT. injection HT as HTr HTl. eapply wp_mono; [apply (pop_and_release_wp snap)| |].
    + intros [] s3 HT3. injection HT3 as -> ->. rewrite HTr, HTl.
      split; by apply dropped_drop.
    + intros x s3 [Hf HT3]. split; [done|]. injection HT3 as E1 E2. destruct Hs1 as [I1 I2 I3].
      split; rewrite ?E1, ?E2, ?HTr, ?HTl; [by apply ddel_NoDup|by apply ddel_NoDup|].
      intros k. rewrite !ddel_keys. intros [? ?]. split; [done|]. by apply I3.
  - intros x s2 [Hf HT]. split; [done|]. injection HT as E1 E2. destruct Hs1 as [I1 I2 I3].
    split; rewrite ?E1, ?E2; [by apply ddel_NoDup|done|].
    intros k. rewrite !ddel_keys. intros [? ?]. by apply I3.
Qed.

(** The locks held are those of the chains run. *)
Definition synced (s : Worker W) : Prop := ∀ c, c ∈ (wk_locks s).*1 ↔ c ∈ (wk_runners s).*1.

(** What became of an enabled chain that was not running *)
Definition settled (snap : ConfigSnapshot) (cfg : SnapshotChain) (s : Worker W) : Prop :=
  (∃ h, dget (chain_id cfg) (wk_runners s) = Some h ∧ runner_for cfg h) ∨
  refused (chain_id cfg) ∨ (∃ h, runner_for cfg h ∧ start_raised snap h).

(** The second loop from the runners [R], the chains [done] having been dealt with *)
Record starting (snap : ConfigSnapshot) (s0 : Worker W) (done : list (string * SnapshotChain))
    (s : Worker W) : Prop := {
  st_inv : worker_inv s;
  st_kept : ∀ c h, dget c (wk_runners s0) = Some h → dget c (wk_runners s) = Some h;
  st_keys : ∀ c, c ∈ (wk_runners s).*1 → c ∈ (wk_runners s0).*1 ∨ c ∈ done.*1;
  st_settled : ∀ kc, kc ∈ done → dget (chain_id kc.2) (wk_runners s0) = None → settled snap kc.2 s;
  st_synced : synced s0 → synced s;
}.

Lemma inv_same_runners s s' :
  worker_inv s → wk_runners s' = wk_runners s → NoDup (wk_locks s').*1 →
  (∀ c, c ∈ (wk_runners s).*1 → c ∈ (wk_locks s).*1 → c ∈ (wk_locks s').*1) → worker_inv s'.
Proof. intros [I1 I2 I3] E Hl Hsub. split; rewrite ?E; [done|done|]. intros c Hc. auto. Qed.

(** A round that leaves the runners as they are *)
Lemma starting_idle snap s0 done kc s s' :
  starting snap s0 done s → wk_runners s' = wk_runners s → worker_inv s' →
  (synced s → synced s') →
  (dget (chain_id kc.2) (wk_runners s0) = None → settled snap kc.2 s) →
  starting snap s0 (done ++ [kc]) s'.
Proof.
  intros [J1 J2 J3 J4 J5] E Hinv Hsync Hset. split; [done| | | |auto].
  - rewrite E. apply J2.
  - intros c Hc. rewrite E in Hc. rewrite fmap_app. destruct (J3 c Hc); set_solver.
  - intros kc' Hin Hn. assert (settled snap kc'.2 s) as Hs.
    { apply elem_of_app in Hin as [Hin| ->%list_elem_of_singleton]; auto. }
    unfold settled in *. by rewrite E.
Qed.

(** A round that starts a runner *)
Lemma starting_run snap s0 done k cfg s s' h l :
  starting snap s0 done s → k = chain_id cfg → dget k (wk_runners s) = None → runner_for cfg h →
  tables s' = (dset k h (wk_runners s), dset k l (wk_locks s)) →
  starting snap s0 (done ++ [(k, cfg)]) s'.
Proof.
  intros [[I1 I2 I3] J2 J3 J4 J5] -> Hn Hr HT. injection HT as E1 E2. split.
  - split; rewrite ?E1, ?E2; [by apply dset_NoDup|by apply dset_NoDup|].
    intros c. rewrite !dset_key_in. intros [->|Hc]; auto.
  - intros c h' Hc. rewrite E1. rewrite dget_dset_ne; [by apply J2|]. intros ->. apply J2 in Hc.
    congruence.
  - intros c. rewrite E1, fmap_app, dset_key_in. intros [->|Hc]; [set_solver|].
    destruct (J3 c Hc); set_solver.
  - intros kc [Hin| ->%list_elem_of_singleton]%elem_of_app Hn0.
    + destruct (J4 kc Hin Hn0) as [(h' & Hg & Hr')|Hs]; [|by right]. left. exists h'. split; [|done].
      rewrite E1, dget_dset_ne; [done|]. intros Heq. rewrite Heq in Hg. congruence.
    + left. exists h. split; [|done]. rewrite E1. apply dget_dset_eq.
  - intros H0 c. rewrite E1, E2, !dset_key_in. specialize (J5 H0 c). tauto.
Qed.

Lemma start_loop_wp snap s0 s :
  starting snap s0 [] s →
  wp (mfor (enabled_chains snap) (λ kc, reconcile_chain snap kc.2))
    (λ _, starting snap s0 (enabled_chains snap)) (λ _ s', fault snap ∧ worker_inv s') s.
Proof.
  intros H0. apply (wp_mfor (starting snap s0)); [done|].
  intros dn [k cfg] todo s1 Hsplit J. cbn [snd].
  assert (k = chain_id cfg) as Hk.
  { apply (proj1 (proj2 (enabled_chains_spec snap)) (k, cfg)). rewrite Hsplit. set_solver. }
  eapply wp_mono; [apply reconcile_chain_wp| |].
  - intros [] s2 Hcases. rewrite <- Hk in Hcases.
    destruct Hcases as [[Hrun HT]|[Hn [[Href HT]|[(l & h & Hr & Hs & HT)|(l & h & Hr & HT)]]]].
    + injection HT as E1 E2. eapply starting_idle; [exact J|done| | |].
      * eapply tables_inv; [|apply J]. unfold tables. by rewrite E1, E2.
      * unfold synced. by rewrite E1, E2.
      * cbn [snd]. rewrite <- Hk. intros Hn. exfalso. apply Hrun. destruct (dget k (wk_runners s1))
          as [h|] eqn:Eg; [|done]. exfalso.
        assert (k ∈ (wk_runners s1).*1) as [Hin|Hin]%(st_keys _ _ _ _ J) by (apply dget_key; eauto).
        { apply dget_key in Hin as [? ?]. congruence. }
        pose proof (proj1 (enabled_chains_spec snap)) as Hnd. rewrite Hsplit, fmap_app in Hnd.
        apply NoDup_app in Hnd as (_ & Hdis & _). apply (Hdis k Hin). set_solver.
    + injection HT as E1 E2. eapply starting_idle; [exact J|done| | |].
      * eapply tables_inv; [|apply J]. unfold tables. by rewrite E1, E2.
      * unfold synced. by rewrite E1, E2.
      * intros _. right. left. cbn [snd]. by rewrite <- Hk.
    + injection HT as E1 E2. assert (k ∉ (wk_runners s1).*1) as Hk1 by by apply dget_None.
      eapply starting_idle; [exact J|done| | |].
      * eapply (inv_same_runners s1); [apply J|done| |].
        { rewrite E2. apply ddel_NoDup, dset_NoDup, J. }
        intros c Hc Hc'. rewrite E2, ddel_keys, dset_key_in. split; [by intros ->|by right].
      * unfold synced. intros Hsy c. rewrite E1, E2, ddel_keys, dset_key_in. specialize (Hsy c).
        split; [tauto|]. intros Hc. split; [by intros ->|tauto].
      * intros _. right. right. by exists h.
    + by eapply starting_run.
  - intros x s2 [Hf HT]. split; [done|]. rewrite <- Hk in HT.
    destruct HT as [HT|[l HT]]; [by eapply tables_inv; [|apply J]|].
    injection HT as E1 E2. eapply (inv_same_runners s1); [apply J|done| |].
    + rewrite E2. apply dset_NoDup, J.
    + intros c _ Hc. rewrite E2, dset_key_in. by right.
Qed.

Lemma reconcile_wp snap s :
  worker_inv s →
  wp (reconcile snap)
    (λ _ s', ∃ s0, dropped (wk_runners s).*1 (enabled_chains snap).*1 (wk_runners s) (wk_runners s0) ∧
       dropped (wk_runners s).*1 (enabled_chains snap).*1 (wk_locks s) (wk_locks s0) ∧
       starting snap s0 (enabled_chains snap) s')
    (λ _ s', fault snap ∧ worker_inv s') s.
Proof.
  intros Hs. unfold reconcile. wp_steps. apply wp_zoom. unfold wp at 1.
  destruct (refresh snap (wk_registry s)) as [[[]|x] r] eqn:Er.
  2: { split; [|by eapply tables_inv; [|exact Hs]]. apply (fault_refresh _ (wk_registry s)). by rewrite Er. }
  wp_steps. assert (worker_inv (set_registry r s)) as Hs1 by by eapply tables_inv; [|exact Hs].
  eapply wp_mono; [by apply stop_loop_wp| |done]. intros [] s0 [D1 D2]. cbn in D1, D2.
  eapply wp_mono; [apply (start_loop_wp snap s0)| |done].
  - split; [|done| |by intros ? ?%not_elem_of_nil|done].
    + split; [apply D1|apply D2|]. intros c Hc. apply (dropped_keys _ _ _ _ _ D2).
      apply (dropped_keys _ _ _ _ _ D1) in Hc as [? ?]. split; [by apply Hs|done].
    + by left.
  - intros [] s' J. by exists s0.
Qed.

(** C3 What one reconcile does, when it returns.  The chains that run afterwards are enabled in
    the snapshot; a chain that ran and is still enabled keeps the very runner it had, whatever
    the snapshot changed in its row; an enabled chain that did not run has a new runner built from
    its row of the snapshot, unless its lock was refused or its runner failed to start; and the
    locks held are again exactly those of the chains that run. *)
Theorem reconcile_outcome snap s s' :
  worker_inv s → synced s → reconcile snap s = (Ok tt, s') →
  worker_inv s' ∧ synced s' ∧
  (∀ c, c ∈ (wk_runners s').*1 → c ∈ (enabled_chains snap).*1) ∧
  (∀ c h, dget c (wk_runners s) = Some h → c ∈ (enabled_chains snap).*1 →
     dget c (wk_runners s') = Some h) ∧
  (∀ c cfg, dget c (enabled_chains snap) = Some cfg → dget c (wk_runners s) = None →
     settled snap cfg s').
Proof.
  intros Hs Hsy Hr. destruct (wp_run _ _ _ _ _ _ Hr (reconcile_wp snap s Hs)) as (s0 & D1 & D2 & J).
  split; [apply J|]. split; [|split; [|split]].
  - apply (st_synced _ _ _ _ J). intros c.
    rewrite (dropped_keys _ _ c _ _ D1), (dropped_keys _ _ c _ _ D2). specialize (Hsy c). tauto.
  - intros c [Hc|Hc]%(st_keys _ _ _ _ J); [|done].
    apply (dropped_keys _ _ _ _ _ D1) in Hc as [? Hc]. auto.
  - intros c h Hg Hc. apply (st_kept _ _ _ _ J). rewrite (proj2 D1 c). case_decide; [tauto|done].
  - intros c cfg Hc Hn. apply dget_elem_of in Hc.
    pose proof (proj1 (proj1 (proj2 (enabled_chains_spec snap)) _ Hc)) as Hk. cbn [fst snd] in Hk.
    apply (st_settled _ _ _ _ J (c, cfg) Hc). cbn [snd]. rewrite <- Hk, (proj2 D1 c).
    by case_decide.
Qed.

(** When nothing faults, no lock is refused and every runner starts, one reconcile reaches the
    configuration: it returns, and exactly the enabled chains run. *)
Lemma reconcile_converges snap s :
  worker_inv s → ¬ fault snap →
  (∀ c, ¬ refused c) → (∀ h, ¬ start_raised snap h) →
  ∃ s', reconcile snap s = (Ok tt, s') ∧ worker_inv s' ∧
    ∀ c, c ∈ (wk_runners s').*1 ↔ c ∈ (enabled_chains snap).*1.
Proof.
  intros Hs Hf Href Hst. pose proof (reconcile_wp snap s Hs) as Hw. unfold wp in Hw.
  destruct (reconcile snap s) as [[[]|x] s']; [|by destruct Hw]. exists s'. split; [done|].
  destruct Hw as (s0 & D1 & D2 & J). split; [apply J|]. intros c. split.
  - intros [Hc|Hc]%(st_keys _ _ _ _ J); [|done].
    apply (dropped_keys _ _ _ _ _ D1) in Hc as [? Hc]. auto.
  - intros Hc. apply list_elem_of_fmap in Hc as ([k cfg] & -> & Hin). cbn [fst].
    pose proof (proj1 (proj1 (proj2 (enabled_chains_spec snap)) _ Hin)) as Hk. cbn [fst snd] in Hk.
    apply dget_key. destruct (dget k (wk_runners s0)) as [h|] eqn:Eg.
    { exists h. by apply (st_kept _ _ _ _ J). }
    rewrite Hk in Eg. destruct (st_settled _ _ _ _ J _ Hin Eg) as [(h & Hg & _)|[H|(h & _ & H)]].
    + exists h. by rewrite Hk.
    + by apply Href in H.
    + by apply Hst in H.
Qed.

(** A runner whose [start] raises is dropped as it is: what it has opened until then (the sessions of its adapter, the
    channels already started) stays open.  Between the exception and the end of the turn nothing but the release
    of the lock happens, and afterwards no table refers to the runner. *)
Lemma failed_start_dropped snap cfg s l e1 h e2 x e3 l' e4 :
  dget (chain_id cfg) (wk_runners s) = None →
  acquire (lock_init (chain_id cfg) worker_id, wk_env s) = (Ok true, (l, e1)) →
  we_new_runner cfg e1 = (h, e2) → we_start h snap e2 = (Err x, e3) → release (l, e3) = (Ok tt, (l', e4)) →
  reconcile_chain snap cfg s =
    (Ok tt, mkWorker (wk_registry s) (wk_runners s) (ddel (chain_id cfg) (dset (chain_id cfg) l (wk_locks s)))
              (wk_stop s) e4).
Proof.
  intros Hr Ha Hn Hs Hl. unfold reconcile_chain, mbind at 1, mget. rewrite Hr.
  unfold on_lock, env, set_locks, mcatch, mbind, mzoom, mmodify. rewrite Ha.
  cbn -[release]. rewrite Hn. cbn -[release]. rewrite Hs. cbn -[release]. rewrite Hl. reflexivity.
Qed.

(** ** Shutdown and the main loop *)

(** Nothing but [shutdown] touches the stop event. *)
Definition stop_is (b : bool) (s : Worker W) : Prop := wk_stop s = b.

Lemma keeps_stop_env {A} b (m : M W A) : keeps (stop_is b) (env m).
Proof. by apply keeps_zoom. Qed.

Lemma keeps_stop_stop_runner b c : keeps (stop_is b) (stop_runner c).
Proof.
  apply keeps_bind; [apply keeps_get|]. intros s. destruct (dget c (wk_runners s)); [|apply keeps_throw].
  apply keeps_bind; [by apply keeps_modify|]. intros _.
  apply keeps_bind; intros; apply keeps_stop_env.
Qed.

Lemma keeps_stop_reconcile_chain b snap cfg : keeps (stop_is b) (reconcile_chain snap cfg).
Proof.
  apply keeps_bind; [apply keeps_get|]. intros s.
  destruct (dget (chain_id cfg) (wk_runners s)); [apply keeps_stop_env|].
  apply keeps_bind; [apply keeps_stop_env|]. intros [[] l]; cbn [negb fst]; [|apply keeps_ret].
  apply keeps_bind; [by apply keeps_modify|]. intros _. apply keeps_bind; [apply keeps_stop_env|].
  intros h. apply keeps_catch.
  - apply keeps_bind; [apply keeps_stop_env|]. intros _. apply keeps_bind; [apply keeps_stop_env|].
    intros _. by apply keeps_modify.
  - intros e. apply keeps_bind; [apply keeps_stop_env|]. intros _. by apply keeps_modify.
Qed.

Lemma keeps_stop_reconcile b snap : keeps (stop_is b) (reconcile snap).
Proof.
  apply keeps_bind; [by apply keeps_zoom|]. intros _. apply keeps_bind; [apply keeps_get|]. intros s.
  apply keeps_bind.
  - apply keeps_mfor. intros c. destruct (dmem c (enabled_chains snap)); [apply keeps_ret|].
    apply keeps_bind; [apply keeps_stop_stop_runner|]. intros _. apply keeps_bind; [apply keeps_get|].
    intros s'. destruct (dget c (wk_locks s')); [|apply keeps_ret].
    apply keeps_bind; [by apply keeps_modify|]. intros _.
    apply keeps_bind; [apply keeps_stop_env|]. intros _. apply keeps_ret.
  - intros _. apply keeps_mfor. intros kc. apply keeps_stop_reconcile_chain.
Qed.

(** ** No runner outlives the worker *)

Definition set_env (e : W) (s : Worker W) : Worker W :=
  mkWorker (wk_registry s) (wk_runners s) (wk_locks s) (wk_stop s) e.

Lemma env_iff {A} (m : M W A) Q E s :
  wp (env m) Q E s ↔ wp m (λ a e, Q a (set_env e s)) (λ x e, E x (set_env e s)) (wk_env s).
Proof. apply wp_zoom. Qed.

(** An environment whose live runner tasks are [alive]: only [we_spawn] starts one, [we_join]
    ends one, and neither stopping a runner nor what a shutdown calls raises. *)
Record orderly (alive : W → gset nat) : Prop := {
  od_new cfg e : alive (we_new_runner cfg e).2 ⊆ alive e;
  od_start h snap e : alive (we_start h snap e).2 ⊆ alive e;
  od_apply h snap e : alive (we_apply h snap e).2 ⊆ alive e;
  od_stop h e : (we_stop h e).1 = Ok tt ∧ alive (we_stop h e).2 ⊆ alive e;
  od_spawn h e : alive (we_spawn h e) ⊆ {[h]} ∪ alive e;
  od_join h e : alive (we_join h e) ⊆ alive e ∖ {[h]};
  od_acquire l e : alive (acquire (l, e)).2.2 ⊆ alive e;
  od_release l e : alive (release (l, e)).2.2 ⊆ alive e;
  od_halt e : (we_halt e).1 = Ok tt ∧ alive (we_halt e).2 ⊆ alive e;
  od_bus e : (we_bus_disconnect e).1 = Ok tt;
  od_db e : (we_db_disconnect e).1 = Ok tt;
}.

(** Nothing makes this worker the holder of one more key. *)
Definition no_more (held : W → string → option string) (e e' : W) : Prop :=
  ∀ k, held e' k = Some worker_id → held e k = Some worker_id.

(** Redis answers every command, and [held] are the values of its lock keys: a key is taken when it is free, its value is read,
    a deleted key is not held.  Nothing else gives this worker a key; other workers may take and free theirs, and any key
    may expire, at any time. *)
Record redis_keys (held : W → string → option string) : Prop := {
  rk_set k e : let '(r, e') := rd_set_nx_ex k worker_id LOCK_TTL_S e in
    r = Ok (bool_decide (held e k = None)) ∧
    ∀ k', held e' k' = Some worker_id → held e k' = Some worker_id ∨ (k' = k ∧ held e k = None);
  rk_get k e : (rd_get k e).1 = Ok (held e k) ∧ no_more held e (rd_get k e).2;
  rk_delete k e : (rd_delete k e).1 = Ok tt ∧ held (rd_delete k e).2 k ≠ Some worker_id ∧
    no_more held e (rd_delete k e).2;
  rk_new cfg e : no_more held e (we_new_runner cfg e).2;
  rk_start h snap e : no_more held e (we_start h snap e).2;
  rk_apply h snap e : no_more held e (we_apply h snap e).2;
  rk_stop h e : no_more held e (we_stop h e).2;
  rk_spawn h e : no_more held e (we_spawn h e);
  rk_join h e : no_more held e (we_join h e);
  rk_halt e : no_more held e (we_halt e).2;
  rk_bus e : no_more held e (we_bus_disconnect e).2;
  rk_db e : no_more held e (we_db_disconnect e).2;
}.

Section keys.
Context (held : W → string → option string) (Hkeys : redis_keys held).

Lemma acquire_keys c e :
  ∃ b l e', acquire (lock_init c worker_id, e) = (Ok b, (l, e')) ∧
    cl_key l = LOCK_PREFIX +:+ c ∧ cl_worker_id l = worker_id ∧
    (held e (LOCK_PREFIX +:+ c) = None → b = true) ∧
    ∀ k, held e' k = Some worker_id → held e k = Some worker_id ∨ (k = LOCK_PREFIX +:+ c ∧ b = true).
Proof.
  unfold acquire, command, mbind, lock_init. cbn [cl_key cl_worker_id].
  pose proof (rk_set _ Hkeys (LOCK_PREFIX +:+ c) e) as Hset.
  destruct (rd_set_nx_ex _ _ _ e) as [r e1]. destruct Hset as [-> Hset]. case_bool_decide as Hfree.
  - do 3 eexists. split; [reflexivity|]. cbn. split_and!; try done. intros k [|[-> _]]%Hset; [by left|by right].
  - destruct (rk_get _ Hkeys (LOCK_PREFIX +:+ c) e1) as [Hr Hmore].
    destruct (rd_get _ e1) as [r e2]. cbn in Hr, Hmore. subst r. cbn.
    case_decide; do 3 eexists; (split; [reflexivity|]); cbn; split_and!; try done;
      intros k Hk%Hmore%Hset; destruct Hk as [|[-> ?]]; by auto.
Qed.

Lemma release_keys l e :
  ∃ l' e', release (l, e) = (Ok tt, (l', e')) ∧ no_more held e e' ∧
    (cl_worker_id l = worker_id → held e' (cl_key l) ≠ Some worker_id).
Proof.
  unfold release, command, mbind, set_renewing, mmodify, mgets. cbn.
  destruct (rk_get _ Hkeys (cl_key l) e) as [Hr Hmore].
  destruct (rd_get _ e) as [r e1]. cbn in Hr, Hmore. subst r. cbn. case_decide as Hh; cbn.
  - destruct (rk_delete _ Hkeys (cl_key l) e1) as (Hr & Hd & Hmore').
    destruct (rd_delete _ e1) as [r e2]. cbn in *. subst r. do 2 eexists. split; [done|].
    split; [|done]. intros k Hk. by apply Hmore, Hmore'.
  - do 2 eexists. split; [done|]. split; [done|]. intros Hid Hk. apply Hh.
    rewrite Hid. by apply Hmore.
Qed.

(** Every lock in the table is this worker's, and every key it holds is that of a lock in the table. *)
Record keyed (s : Worker W) : Prop := {
  ky_named c l : (c, l) ∈ wk_locks s → cl_key l = LOCK_PREFIX +:+ c ∧ cl_worker_id l = worker_id;
  ky_held k : held (wk_env s) k = Some worker_id → ∃ c, c ∈ (wk_locks s).*1 ∧ k = LOCK_PREFIX +:+ c;
}.

Lemma keyed_less s s' :
  wk_locks s' = wk_locks s → no_more held (wk_env s) (wk_env s') → keyed s → keyed s'.
Proof. intros Hl He [H1 H2]. split; rewrite Hl; [done|]. intros k Hk. by apply H2, He. Qed.

Lemma keyed_same s s' : wk_locks s' = wk_locks s → wk_env s' = wk_env s → keyed s → keyed s'.
Proof. intros Hl He. apply keyed_less; [done|]. rewrite He. by intros k. Qed.

Lemma keeps_keyed_env {A} (m : M W A) : (∀ e, no_more held e (m e).2) → keeps keyed (env m).
Proof.
  intros Hm s Hs. apply env_iff. specialize (Hm (wk_env s)). unfold wp.
  destruct (m (wk_env s)) as [[a|x] e]; by apply (keyed_less s).
Qed.

Lemma keyed_dropped c l s e :
  keyed s → dget c (wk_locks s) = Some l → no_more held (wk_env s) e → held e (cl_key l) ≠ Some worker_id →
  keyed (mkWorker (wk_registry s) (wk_runners s) (ddel c (wk_locks s)) (wk_stop s) e).
Proof.
  intros [H1 H2] Hl Hmore Hfree. split; cbn.
  - intros c' l' [_ Hin]%list_elem_of_filter. by apply H1.
  - intros k Hk. destruct (H2 k (Hmore k Hk)) as (c' & Hc' & ->). exists c'. split; [|done].
    apply ddel_keys. split; [|done]. intros ->. apply Hfree.
    by rewrite (proj1 (H1 c l (dget_elem_of _ _ _ Hl))).
Qed.

Lemma lock_keys_run l s l' e :
  release (l, wk_env s) = (Ok tt, (l', e)) → on_lock l release s = (Ok (tt, l'), set_env e s).
Proof. intros H. unfold on_lock, env, mzoom. by rewrite H. Qed.

Lemma keeps_keyed_pop c : keeps keyed (pop_and_release c).
Proof.
  intros s Hs. unfold pop_and_release. wp_steps. destruct (dget c (wk_locks s)) as [l|] eqn:El; wp_steps; [|done].
  unfold set_locks. wp_steps. destruct (release_keys l (wk_env s)) as (l' & e & Hr & Hmore & Hfree).
  unfold wp. erewrite lock_keys_run by exact Hr. unfold set_env. cbn.
  apply (keyed_dropped c l); [done..|]. apply Hfree, (ky_named _ Hs c l), dget_elem_of, El.
Qed.

Lemma keeps_keyed_stop_runner c : keeps keyed (stop_runner c).
Proof.
  apply keeps_bind; [apply keeps_get|]. intros s. destruct (dget c (wk_runners s)) as [h|]; [|apply keeps_throw].
  apply keeps_bind; [unfold set_runners; apply keeps_modify; intros t Ht; by apply (keyed_same t)|]. intros _.
  apply keeps_bind; [apply keeps_keyed_env; intros e; apply (rk_stop _ Hkeys)|]. intros _.
  apply keeps_keyed_env. intros e. apply (rk_join _ Hkeys).
Qed.

Lemma keeps_keyed_chain snap cfg : keeps keyed (reconcile_chain snap cfg).
Proof.
  intros s Hs. unfold reconcile_chain. wp_steps. destruct (dget (chain_id cfg) (wk_runners s)) as [h|].
  { apply keeps_keyed_env; [apply (rk_apply _ Hkeys)|done]. }
  destruct (acquire_keys (chain_id cfg) (wk_env s)) as (b & l & e1 & Ha & Hk & Hid & _ & Hmore).
  wp_steps. unfold wp at 1, on_lock at 1, env at 1, mzoom. rewrite Ha. destruct b; cbn [negb fst snd].
  2: { apply (keyed_less s); [done| |done]. intros k Hh. destruct (Hmore k Hh) as [|[_ [=]]]; done. }
  unfold set_locks at 1. wp_steps. cbn [wk_env wk_locks wk_registry wk_runners wk_stop].
  set (s1 := mkWorker _ _ _ _ _). assert (keyed s1) as Hs1.
  { split; cbn.
    - intros c l' [[= -> ->]|Hin]%dset_elem; [done|]. by apply (ky_named _ Hs).
    - intros k Hh. destruct (Hmore k Hh) as [Hh'|[-> _]].
      + destruct (ky_held _ Hs k Hh') as (c & Hc & ->). exists c. split; [|done]. apply dset_key_in. by right.
      + exists (chain_id cfg). split; [|done]. apply dset_key_in. by left. }
  assert (dget (chain_id cfg) (wk_locks s1) = Some l) as Hl1 by apply dget_dset_eq.
  clearbody s1.
  pose (P := λ s, keyed s ∧ dget (chain_id cfg) (wk_locks s) = Some l).
  assert (∀ A (m : M W A), (∀ e, no_more held e (m e).2) → keeps P (env m)) as HP.
  { intros A m Hm t [Ht1 Ht2]. pose proof (keeps_keyed_env m Hm t Ht1) as Hw. revert Hw.
    unfold wp, env, mzoom. destruct (m (wk_env t)) as [[a|x] e]; by split. }
  assert (P s1) as HP1 by done. clear Hs1 Hl1.
  eapply wp_mono; [apply (HP nat); [|exact HP1]| |by intros ? ? []]; cbn beta.
  { intros e. pose proof (rk_new _ Hkeys cfg e). by destruct (we_new_runner cfg e). }
  intros h s2 HP2. wp_steps. eapply wp_mono; [apply HP; [apply (rk_start _ Hkeys)|exact HP2]| |]; cbn beta.
  - intros [] s3 HP3. wp_steps. eapply wp_mono; [apply (HP unit); [intros e; apply (rk_spawn _ Hkeys)|exact HP3]| |]; cbn beta.
    + intros [] s4 [H4 _]. unfold set_runners. wp_steps. by apply (keyed_same s4).
    + intros x s4 [H4 Hl4]. unfold wp. wp_steps.
      destruct (release_keys l (wk_env s4)) as (l' & e & Hr & Hm & Hfree).
      unfold mbind. erewrite lock_keys_run by exact Hr. unfold set_locks, mmodify, set_env. cbn.
      apply (keyed_dropped (chain_id cfg) l); [done..|]. by apply Hfree.
  - intros x s4 [H4 Hl4]. unfold wp.
    destruct (release_keys l (wk_env s4)) as (l' & e & Hr & Hm & Hfree).
    unfold mbind. erewrite lock_keys_run by exact Hr. unfold set_locks, mmodify, set_env. cbn.
    apply (keyed_dropped (chain_id cfg) l); [done..|]. by apply Hfree.
Qed.

Lemma keeps_keyed_reconcile snap : keeps keyed (reconcile snap).
Proof.
  unfold reconcile. apply keeps_bind; [apply keeps_zoom; intros r t Ht; by apply (keyed_same t)|]. intros _.
  apply keeps_bind; [apply keeps_get|]. intros s. apply keeps_bind.
  - apply keeps_mfor. intros c. destruct (dmem c (enabled_chains snap)); [apply keeps_ret|].
    apply keeps_bind; [apply keeps_keyed_stop_runner|]. intros _. apply keeps_keyed_pop.
  - intros _. apply keeps_mfor. intros kc. apply keeps_keyed_chain.
Qed.

Lemma stop_all_keyed chains s : keyed s → keyed (stop_all chains s).2.
Proof.
  revert s. induction chains as [|c t IH]; intros s Hs; [done|]. cbn [stop_all].
  pose proof (keeps_state _ _ _ (keeps_keyed_stop_runner c) Hs) as H1.
  destruct (stop_runner c s) as [r s1]. cbn [snd] in H1. specialize (IH s1 H1).
  by destruct (stop_all t s1).
Qed.

(** The loop that releases the locks [locks]: what is still held is that of a lock still to come. *)
Lemma release_all_frees locks s :
  (∀ c l, (c, l) ∈ locks → cl_key l = LOCK_PREFIX +:+ c ∧ cl_worker_id l = worker_id) →
  (∀ k, held (wk_env s) k = Some worker_id → ∃ c, c ∈ locks.*1 ∧ k = LOCK_PREFIX +:+ c) →
  ∀ k, held (wk_env (release_all locks s).2) k ≠ Some worker_id.
Proof.
  revert s. induction locks as [|[c l] locks IH]; intros s Hn Hh k.
  { cbn. intros Hk. by destruct (Hh k Hk) as (c & ?%not_elem_of_nil & _). }
  destruct (release_keys l (wk_env s)) as (l' & e & Hr & Hmore & Hfree). destruct (Hn c l) as [Hk Hid]; [left|].
  unfold release_all. cbn [mfor]. fold (release_all locks). unfold mbind at 1, mcatch, mbind. cbn [snd].
  erewrite lock_keys_run by exact Hr. cbn. apply IH.
  - intros c' l2 Hin. apply Hn. by right.
  - cbn. intros k' Hk'. destruct (Hh k' (Hmore k' Hk')) as (c' & [->|Hc']%elem_of_cons & ->); [|by exists c'].
    exfalso. apply Hfree; [done|]. by rewrite Hk.
Qed.
End keys.

Section alive.
Context (alive : W → gset nat) (Hord : orderly alive).
Context (held : W → string → option string) (Hkeys : redis_keys held).

Definition handles (d : list (string * nat)) : gset nat := list_to_set d.*2.

(** Every live task is that of a runner in the table. *)
Definition accounted (s : Worker W) : Prop := alive (wk_env s) ⊆ handles (wk_runners s).

Lemma elem_of_handles d h : h ∈ handles d ↔ ∃ c, (c, h) ∈ d.
Proof.
  unfold handles. rewrite elem_of_list_to_set, list_elem_of_fmap. split.
  - intros ([c h'] & -> & Hin). by exists c.
  - intros [c Hin]. by exists (c, h).
Qed.

Lemma accounted_shrinks s s' :
  tables s' = tables s → alive (wk_env s') ⊆ alive (wk_env s) → accounted s → accounted s'.
Proof. unfold accounted. intros [= -> _] H1 H2. set_solver. Qed.

Lemma keeps_accounted_env {A} (m : M W A) :
  (∀ e, alive (m e).2 ⊆ alive e) → keeps accounted (env m).
Proof.
  intros Hm s Hs. apply env_iff. specialize (Hm (wk_env s)). unfold wp.
  destruct (m (wk_env s)) as [[a|x] e]; (by apply (accounted_shrinks s)).
Qed.

Lemma keeps_accounted_lock {A} l (m : M (ChainLock * W) A) :
  (∀ e, alive (m (l, e)).2.2 ⊆ alive e) → keeps accounted (on_lock l m).
Proof.
  intros Hm. apply keeps_accounted_env. intros e. specialize (Hm e).
  by destruct (m (l, e)) as [r [l' e']].
Qed.

Lemma stop_runner_orderly c h s :
  dget c (wk_runners s) = Some h → NoDup (wk_runners s).*1 → accounted s →
  ∃ s', stop_runner c s = (Ok tt, s') ∧ wk_runners s' = ddel c (wk_runners s) ∧
    wk_locks s' = wk_locks s ∧ wk_stop s' = wk_stop s ∧ accounted s'.
Proof.
  intros Hc Hnd Hs. enough (wp (stop_runner c) (λ _ s', wk_runners s' = ddel c (wk_runners s) ∧
    wk_locks s' = wk_locks s ∧ wk_stop s' = wk_stop s ∧ accounted s') (λ _ _, False) s) as Hw.
  { apply wp_ok in Hw as ([] & s' & ? & ?). by exists s'. }
  unfold stop_runner, set_runners. wp_steps. rewrite Hc. wp_steps. apply env_iff. unfold wp. cbn [wk_env].
  destruct (od_stop _ Hord h (wk_env s)) as [Hok Hsub].
  destruct (we_stop h (wk_env s)) as [r e]. simpl in Hok, Hsub. subst r.
  split; [done|]. split; [done|]. split; [done|]. unfold accounted. cbn. intros h' Hh'.
  apply (od_join _ Hord h e) in Hh' as [Hin Hne]%elem_of_difference.
  apply Hsub, Hs, elem_of_handles in Hin as [c' Hin]. apply elem_of_handles. exists c'.
  apply list_elem_of_filter. split; [|done]. cbn. intros ->.
  apply (elem_of_dget _ _ _ Hnd) in Hin. set_solver.
Qed.

Lemma stop_all_orderly chains s :
  NoDup (wk_runners s).*1 → chains ≡ₚ (wk_runners s).*1 → accounted s →
  ∃ s', stop_all chains s = (Ok tt, s') ∧ wk_runners s' = [] ∧ wk_locks s' = wk_locks s ∧
    wk_stop s' = wk_stop s ∧ alive (wk_env s') = ∅.
Proof.
  revert s. induction chains as [|c t IH]; intros s Hnd Hp Hs; simpl.
  - apply Permutation_nil, fmap_nil_inv in Hp. exists s. split; [done|]. split; [done|].
    split; [done|]. split; [done|]. unfold accounted in Hs. rewrite Hp in Hs. set_solver.
  - assert (c ∈ (wk_runners s).*1) as [h Hh]%dget_key by (rewrite <- Hp; set_solver).
    destruct (stop_runner_orderly c h s Hh Hnd Hs) as (s1 & -> & E1 & E2 & E3 & Hs1).
    destruct (IH s1) as (s2 & -> & F1 & F2 & F3 & F4); [| |done|].
    + rewrite E1. by apply ddel_NoDup.
    + rewrite E1. rewrite <- Hp in Hnd. apply NoDup_cons in Hnd as [Hct Ht].
      apply NoDup_Permutation; [done|apply ddel_NoDup; rewrite <- Hp; by constructor|].
      intros k. rewrite ddel_keys, <- Hp. set_solver.
    + exists s2. split; [done|]. by rewrite F2, F3, E2, E3.
Qed.

Lemma release_loop_orderly locks s :
  alive (wk_env s) = ∅ →
  ∃ s', release_all locks s = (Ok tt, s') ∧
    wk_runners s' = wk_runners s ∧ wk_stop s' = wk_stop s ∧ alive (wk_env s') = ∅.
Proof.
  intros Hs.
  enough (wp (release_all locks)
    (λ _ s', wk_runners s' = wk_runners s ∧ wk_stop s' = wk_stop s ∧ alive (wk_env s') = ∅)
    (λ _ _, False) s) as Hw.
  { apply wp_ok in Hw as ([] & s' & ? & ?). by exists s'. }
  apply (wp_mfor_inv (λ s', wk_runners s' = wk_runners s ∧ wk_stop s' = wk_stop s ∧
    alive (wk_env s') = ∅)); [done|].
  intros kl s1 _ (H1 & H2 & H3). wp_steps. unfold on_lock. apply env_iff. unfold wp.
  pose proof (od_release _ Hord kl.2 (wk_env s1)) as Hsub. rewrite H3 in Hsub.
  destruct (release (kl.2, wk_env s1)) as [[a|x] [l' e']]; cbn in *; (split; [done|]);
    (split; [done|]); set_solver.
Qed.

Lemma shutdown_orderly schedule s :
  (∀ l, schedule l ≡ₚ l) → NoDup (wk_runners s).*1 → accounted s → keyed held s → wk_stop s = false →
  ∃ s' (e : W), shutdown schedule s = (Ok tt, s') ∧ wk_runners s' = [] ∧ wk_locks s' = [] ∧
    wk_stop s' = true ∧ alive e = ∅ ∧ (∀ k, held e k ≠ Some worker_id) ∧
    wk_env s' = (we_db_disconnect (we_bus_disconnect e).2).2.
Proof.
  intros Hsch Hnd Hs Hky Hstop. unfold shutdown. rewrite Hstop. unfold mbind, mmodify.
  set (s1 := mkWorker (wk_registry s) (wk_runners s) (wk_locks s) true (wk_env s)).
  destruct (od_halt _ Hord (wk_env s)) as [Hh1 Hh2]. pose proof (rk_halt _ Hkeys (wk_env s)) as Hh3.
  unfold env at 1, mzoom. cbn [wk_env s1].
  destruct (we_halt (wk_env s)) as [r e0]. simpl in Hh1, Hh2, Hh3. subst r.
  set (s2 := mkWorker _ _ _ _ e0).
  assert (accounted s2) as Hs2 by (unfold accounted in *; cbn; set_solver).
  assert (keyed held s2) as Hk2 by by apply (keyed_less held s).
  destruct (stop_all_orderly (schedule (wk_runners s).*1) s2 Hnd (Hsch _) Hs2)
    as (s3 & Es3 & E1 & E2 & E3 & E4).
  pose proof (stop_all_keyed held Hkeys (schedule (wk_runners s).*1) s2 Hk2) as Hk3. rewrite Es3 in *. cbn [snd] in Hk3.
  destruct (release_loop_orderly (wk_locks s) s3 E4) as (s4 & Es4 & F1 & F2 & F3).
  assert (∀ k, held (wk_env s4) k ≠ Some worker_id) as Hfree.
  { pose proof (release_all_frees held Hkeys (wk_locks s) s3) as Hf. rewrite Es4 in Hf. apply Hf.
    - apply (ky_named _ _ Hky).
    - intros k Hk. destruct (ky_held _ _ Hk3 k Hk) as (c & Hc & ->). exists c. by rewrite E2 in Hc. }
  rewrite Es4. unfold set_locks, mmodify, env, mzoom. cbn.
  pose proof (od_bus _ Hord (wk_env s4)) as Hb.
  destruct (we_bus_disconnect (wk_env s4)) as [r e5] eqn:Eb. simpl in Hb. subst r. cbn.
  pose proof (od_db _ Hord e5) as Hd. destruct (we_db_disconnect e5) as [r e6] eqn:Ed. simpl in Hd.
  subst r. eexists _, (wk_env s4). split; [done|]. cbn. rewrite F1, E1, F2, E3, Eb. cbn. by rewrite Ed.
Qed.

(** Between two operations of the worker *)
Definition steady (s : Worker W) : Prop := accounted s ∧ NoDup (wk_runners s).*1.

Lemma keeps_steady (m : M (Worker W) unit) :
  keeps accounted m → (∀ s, wk_runners (m s).2 = wk_runners s) → keeps steady m.
Proof.
  intros Hk Hr s [Hs Hnd]. apply wp_state. split; [by apply keeps_state|]. by rewrite Hr.
Qed.

Lemma steady_env {A} (m : M W A) s :
  (∀ e, alive (m e).2 ⊆ alive e) → accounted s →
  wp (env m) (λ _ s', accounted s' ∧ wk_runners s' = wk_runners s)
    (λ _ s', accounted s' ∧ wk_runners s' = wk_runners s) s.
Proof.
  intros Hm Hs. pose proof (keeps_accounted_env m Hm s Hs) as Hw. unfold wp in *.
  assert (wk_runners (env m s).2 = wk_runners s) as Hr.
  { unfold env, mzoom. by destruct (m (wk_env s)). }
  destruct (env m s) as [[a|x] s']; by split.
Qed.

Lemma accounted_start c h s e :
  accounted s → dget c (wk_runners s) = None → alive e ⊆ {[h]} ∪ alive (wk_env s) →
  alive e ⊆ handles (dset c h (wk_runners s)).
Proof.
  intros Hs Hc He h' [->%elem_of_singleton|Hin]%He%elem_of_union; apply elem_of_handles.
  - exists c. apply dget_elem_of, dget_dset_eq.
  - apply Hs, elem_of_handles in Hin as [c' Hin]. exists c'.
    revert Hin Hc. generalize (wk_runners s). intros d. induction d as [|[k v] d IH]; simpl; [set_solver|].
    case_decide; [done|]. intros [Heq|Hin]%elem_of_cons Hc; [rewrite Heq; left|right; by apply IH].
Qed.

Lemma keeps_steady_stop c : keeps steady (stop_runner c).
Proof.
  intros s [Hs Hnd]. destruct (dget c (wk_runners s)) as [h|] eqn:Ec.
  - destruct (stop_runner_orderly c h s Ec Hnd Hs) as (s' & E & E1 & _ & _ & Hs').
    unfold wp. rewrite E. split; [done|]. rewrite E1. by apply ddel_NoDup.
  - unfold wp, stop_runner, mbind, mget. by rewrite Ec.
Qed.

Lemma lock_alive {A} (l : ChainLock) (m : M (ChainLock * W) A) :
  (∀ e, alive (m (l, e)).2.2 ⊆ alive e) →
  ∀ e, alive ((λ e, let '(r, (l', e')) := m (l, e) in
    (match r with Ok a => Ok (a, l') | Err x => Err x end, e')) e).2 ⊆ alive e.
Proof.
  intros Hm e. specialize (Hm e). cbn beta. destruct (m (l, e)) as [r [l' e']]. exact Hm.
Qed.

Lemma keeps_steady_chain snap cfg : keeps steady (reconcile_chain snap cfg).
Proof.
  intros s [Hs Hnd]. unfold reconcile_chain, on_lock. wp_steps.
  destruct (dget (chain_id cfg) (wk_runners s)) as [h|] eqn:Ec.
  { eapply wp_mono; [apply steady_env; [apply (od_apply _ Hord)|done]| |]; cbn beta.
    - intros [] s1 [H1 E1]. split; [done|by rewrite E1].
    - intros x s1 [H1 E1]. split; [done|by rewrite E1]. }
  wp_steps.
  eapply wp_mono; [apply steady_env; [apply lock_alive, (od_acquire _ Hord)|done]| |]; cbn beta.
  2: { intros x s1 [H1 E1]. split; [done|by rewrite E1]. }
  intros [[] l] s1 [H1 E1]; cbn [negb fst snd]; wp_steps; [|by split; [|rewrite E1]].
  unfold set_locks at 1. wp_steps.
  set (s2 := mkWorker _ _ _ _ _). assert (accounted s2) as H2 by done.
  eapply wp_mono; [apply steady_env; [|exact H2]| |]; cbn beta.
  { intros e. pose proof (od_new _ Hord cfg e). by destruct (we_new_runner cfg e). }
  2: { intros x s3 [H3 E3]. split; [done|]. rewrite E3. cbn. by rewrite E1. }
  intros h s3 [H3 E3]. wp_steps. cbn in E3. rewrite E1 in E3.
  eapply wp_mono; [apply steady_env; [apply (od_start _ Hord)|done]| |]; cbn beta.
  - intros [] s4 [H4 E4]. wp_steps. apply env_iff. unfold wp at 1. unfold set_runners. wp_steps.
    split; cbn.
    + unfold accounted. cbn. apply (accounted_start (chain_id cfg) h s4); [done|by rewrite E4, E3|].
      apply (od_spawn _ Hord).
    + rewrite E4, E3. by apply dset_NoDup.
  - intros x s4 [H4 E4]. wp_steps.
    eapply wp_mono; [apply steady_env; [apply lock_alive, (od_release _ Hord)|done]| |]; cbn beta.
    + intros [] s5 [H5 E5]. unfold set_locks. wp_steps. split; cbn; [done|]. by rewrite E5, E4, E3.
    + intros y s5 [H5 E5]. split; [done|]. by rewrite E5, E4, E3.
Qed.

Lemma keeps_steady_reconcile snap : keeps steady (reconcile snap).
Proof.
  unfold reconcile. apply keeps_bind; [by apply keeps_zoom|]. intros _. apply keeps_bind; [apply keeps_get|].
  intros s. apply keeps_bind.
  - apply keeps_mfor. intros c. destruct (dmem c (enabled_chains snap)); [apply keeps_ret|].
    apply keeps_bind; [apply keeps_steady_stop|]. intros _. apply keeps_bind; [apply keeps_get|].
    intros s'. destruct (dget c (wk_locks s')) as [l|]; [|apply keeps_ret].
    apply keeps_bind; [by apply keeps_modify|]. intros _. apply keeps_bind; [|intros; apply keeps_ret].
    intros s1 [H1 Hnd]. eapply wp_mono;
      [apply steady_env; [apply lock_alive, (od_release _ Hord)|done]| |]; cbn beta.
    + intros a s2 [H2 E2]. split; [done|by rewrite E2].
    + intros x s2 [H2 E2]. split; [done|by rewrite E2].
  - intros _. apply keeps_mfor. intros kc. apply keeps_steady_chain.
Qed.

(** The worker between two turns of its main loop *)
Definition settled_down (s : Worker W) : Prop := steady s ∧ keyed held s ∧ wk_stop s = false.

Lemma run_settled_down dequeued s b : settled_down s → settled_down (run dequeued (s, b)).2.1.
Proof.
  revert s b. induction dequeued as [|o t IH]; intros s b Hs; simpl; [done|].
  pose proof Hs as (H1 & H2 & H3). rewrite H3. destruct o as [snap|]; [|done].
  pose proof (keeps_state _ _ _ (keeps_steady_reconcile snap) H1) as G1.
  pose proof (keeps_state _ _ _ (keeps_keyed_reconcile held Hkeys snap) H2) as G2.
  pose proof (keeps_state _ _ _ (keeps_stop_reconcile false snap) H3) as G3.
  destruct (reconcile snap s) as [[[]|x] s']; simpl in *; [apply IH|]; by split_and!.
Qed.

(** What [start] calls leaves no runner task behind and takes no lock. *)
Record start_orderly `{!StartEnv W} : Prop := {
  so_env e : alive (se_db_connect e).2 ⊆ alive e ∧ alive (se_bus_connect e).2 ⊆ alive e ∧
    alive (se_watcher_start e).2 ⊆ alive e ∧ alive (se_replay_start e).2 ⊆ alive e ∧
    alive (se_metrics_server e).2 ⊆ alive e ∧ alive (se_spawn_cleanup e) ⊆ alive e;
  so_keys e : no_more held e (se_db_connect e).2 ∧ no_more held e (se_bus_connect e).2 ∧
    no_more held e (se_watcher_start e).2 ∧ no_more held e (se_replay_start e).2 ∧
    no_more held e (se_metrics_server e).2 ∧ no_more held e (se_spawn_cleanup e);
}.

Lemma start_settled_down `{!StartEnv W} (Hstart : start_orderly) (metrics_enabled : bool) (e0 : W) :
  alive e0 = ∅ → (∀ k, held e0 k ≠ Some worker_id) → settled_down (start metrics_enabled (worker_init e0)).2.
Proof.
  intros H0 Hk0.
  assert (∀ P : Worker W → Prop, (∀ A (m : M W A), (∀ e, alive (m e).2 ⊆ alive e) →
    (∀ e, no_more held e (m e).2) → keeps P (env m)) → keeps P (start metrics_enabled)) as Hall.
  { intros P HP. unfold start. repeat (apply keeps_bind; [|intros _]);
      try destruct metrics_enabled; try apply keeps_ret; apply HP; intros e;
      destruct (so_env Hstart e) as (?&?&?&?&?&?), (so_keys Hstart e) as (?&?&?&?&?&?); done. }
  pose (idle := λ s : Worker W, tables s = ([], []) ∧ wk_stop s = false).
  assert (idle (start metrics_enabled (worker_init e0)).2) as [Ht Hf].
  { apply (keeps_state idle); [|done]. apply Hall. intros A m _ _. by apply keeps_zoom. }
  unfold tables in Ht. injection Ht as Hr Hl. split; [split|split; [|done]].
  - apply (keeps_state accounted); [apply Hall; intros A m Ha _; by apply keeps_accounted_env|].
    unfold accounted, worker_init. cbn. set_solver.
  - rewrite Hr. constructor.
  - apply (keeps_state (keyed held)); [apply Hall; intros A m _ Hm; by apply keeps_keyed_env|].
    split; cbn; [by intros c l ?%elem_of_nil|]. intros k Hk. by destruct (Hk0 k).
Qed.
End alive.

(** ** What stops the worker *)

Lemma rfold_raises {A B} (f : B → A → result B) l x acc :
  x ∈ l → (∀ b, ∃ e, f b x = Err e) → ∃ e, rfold f l acc = Err e.
Proof.
  intros Hin Hf. revert acc. induction l as [|y l IH]; intros acc; [by apply not_elem_of_nil in Hin|].
  simpl. apply elem_of_cons in Hin as [->|Hin].
  - destruct (Hf acc) as [e ->]. by exists e.
  - destruct (f acc y) as [b|e]; simpl; [by apply IH|by exists e].
Qed.

Lemma refresh_malformed snap aid a entry r :
  dget aid (new_abis snap) = Some a → entry ∈ body_entries (abi_body a) → is_dict entry = false →
  ∃ e, (refresh snap r).1 = Err e.
Proof.
  intros Ha Hin Hd. assert (∃ e, rebuild_topic0_index (new_abis snap) = Err e) as [e He].
  { apply (rfold_raises _ _ (aid, a)); [by apply dget_elem_of|]. intros idx.
    apply (rfold_raises _ _ entry); [done|]. intros idx'. unfold index_entry.
    destruct entry; try discriminate Hd; by eexists. }
  exists e. unfold refresh, mbind, mmodify, mlift. cbn beta iota. by rewrite He.
Qed.

(** One ABI whose body lists something other than an object ends the main loop of every worker that
    sees it: [run] raises on the snapshot, handles none that follow, and has neither stopped,
    started nor updated a runner.  The create endpoint accepts such a body. *)
Lemma malformed_abi_ends_run snap rest aid a entry b s :
  dget aid (new_abis snap) = Some a → entry ∈ body_entries (abi_body a) → is_dict entry = false →
  wk_stop s = false →
  ∃ e s', run (Some snap :: rest) (s, b) = (Err e, (s', b)) ∧ tables s' = tables s ∧
    wk_env s' = wk_env s.
Proof.
  intros Ha Hin Hd Hs. destruct (refresh_malformed snap aid a entry (wk_registry s) Ha Hin Hd) as [e He].
  exists e, (set_registry (refresh snap (wk_registry s)).2 s). split; [|done].
  simpl. rewrite Hs. unfold reconcile, mbind, mzoom.
  destruct (refresh snap (wk_registry s)) as [r reg]. simpl in He. by subst r.
Qed.

(** A watcher task that has died turns the graceful drain into none: [ReplayWatcher.stop] raises
    the exception its task ended with, [shutdown] passes it on with every runner still running,
    every lock held and both connections open, and a second call does nothing since the stop event
    is already set. *)
Lemma dead_watcher_blocks_drain schedule s x e :
  wk_stop s = false → we_halt (wk_env s) = (Err x, e) →
  ∃ s', shutdown schedule s = (Err x, s') ∧ tables s' = tables s ∧ wk_env s' = e ∧
    shutdown schedule s' = (Ok tt, s').
Proof.
  intros Hs Hh. unfold shutdown at 1. rewrite Hs. unfold mbind, mmodify, env at 1, mzoom. cbn [wk_env].
  rewrite Hh. by eexists.
Qed.
End worker.

(** ** A worker whose runners always start *)
Module WorkerSample.
(** The next handle, the live tasks and the keys of Redis *)
Record world := mkWorld { next : nat; live : gset nat; keys : gmap string string }.

(** [dead]: the task of the replay watcher has ended with an exception. *)
Definition workers (dead : bool) : WorkerEnv world := {|
  we_new_runner _ w := (next w, mkWorld (S (next w)) (live w) (keys w));
  we_start _ _ := mret tt;
  we_apply _ _ := mret tt;
  we_stop _ := mret tt;
  we_spawn h w := mkWorld (next w) ({[h]} ∪ live w) (keys w);
  we_join h w := mkWorld (next w) (live w ∖ {[h]}) (keys w);
  we_replay _ _ w := w;
  we_halt := if dead then mthrow (OtherError "ConnectionError" "") else mret tt;
  we_bus_disconnect := mret tt;
  we_db_disconnect := mret tt;
|}.

#[export] Instance redis : Redis world := {|
  rd_set_nx_ex k v _ w :=
    if decide (keys w !! k = None) then (Ok true, mkWorld (next w) (live w) (<[k := v]> (keys w))) else (Ok false, w);
  rd_get k w := (Ok (keys w !! k), w);
  rd_expire k _ w := (Ok (bool_decide (is_Some (keys w !! k))), w);
  rd_delete k w := (Ok tt, mkWorld (next w) (live w) (delete k (keys w)));
|}.

Definition held (w : world) (k : string) : option string := keys w !! k.

Definition empty : world := mkWorld 0 ∅ ∅.

(** Another worker holds the lock of the chain "sol". *)
Definition contended : world := mkWorld 0 ∅ {["chain_indexer:lock:sol" := "other"]}.

Definition chain (id : string) : SnapshotChain :=
  mkChain id "evm" "http://n" None 2 1000 None false 100 1000 [] 10000.
Definition snap (ids : list string) : ConfigSnapshot := mkSnapshot 1 [] [] (chain <$> ids) [].

#[export] Instance healthy : WorkerEnv world := workers false.

#[export] Instance starts : StartEnv world := {|
  se_db_connect := mret tt;
  se_bus_connect := mret tt;
  se_watcher_start := mret tt;
  se_replay_start := mret tt;
  se_metrics_server := mret tt;
  se_spawn_cleanup w := w;
|}.

Definition w0 : Worker world := worker_init empty.
Definition w1 : Worker world := (reconcile (L:=ToyLib.lib) "w" (snap ["eth"; "sol"]) (worker_init contended)).2.

Lemma orderly_ok : orderly live.
Proof.
  assert (∀ l e, live (acquire (l, e)).2.2 = live e ∧ live (release (l, e)).2.2 = live e) as Hl.
  { intros l e. unfold acquire, release, command, mbind, set_renewing, mmodify, mgets. cbn.
    repeat case_decide; cbn; repeat case_decide; done. }
  split; intros; try (split; [done|]); cbn [we_new_runner we_start we_apply we_stop we_spawn we_join we_halt];
    rewrite ?(proj1 (Hl _ _)), ?(proj2 (Hl _ _)); cbn; set_solver.
Qed.

Lemma keys_ok : redis_keys "w" held.
Proof.
  split; try (intros; by intros k').
  - intros k e. cbn. case_decide as Hk; unfold held; cbn.
    + rewrite bool_decide_eq_true_2 by done. split; [done|]. intros k' H.
      destruct (decide (k' = k)) as [->|Hne]; [by right|]. left. by rewrite lookup_insert_ne in H.
    + rewrite bool_decide_eq_false_2 by done. split; [done|]. auto.
  - intros k e. split; [done|]. by intros k'.
  - intros k e. unfold held. cbn. split; [done|]. rewrite lookup_delete_eq. split; [done|].
    unfold no_more. cbn. intros k' H. by apply lookup_delete_Some in H as [_ H].
Qed.

Lemma start_ok : start_orderly "w" live held.
Proof. split; intros e; split_and!; try done; by intros k. Qed.

Lemma w0_inv : worker_inv w0.
Proof. split; [constructor|constructor|done]. Qed.
End WorkerSample.

#[local] Existing Instances WorkerSample.healthy WorkerSample.redis.

Lemma reconcile_outcome_witness :
  let s := WorkerSample.w1 in
  let s' := (reconcile (L:=ToyLib.lib) "w" (WorkerSample.snap ["sol"; "bsc"]) s).2 in
  (wk_runners s).*1 = ["eth"] ∧ (wk_runners s').*1 = ["bsc"] ∧
  worker_inv s' ∧ synced s' ∧
  settled "w" (WorkerSample.snap ["sol"; "bsc"]) (WorkerSample.chain "sol") s'.
Proof.
  intros s s'. split; [vm_compute; reflexivity|]. split; [vm_compute; reflexivity|].
  assert (wk_runners s = [("eth", 0%nat)]) as Hr by (vm_compute; reflexivity).
  assert ((wk_locks s).*1 = ["eth"]) as Hl by (vm_compute; reflexivity).
  destruct (reconcile_outcome (L:=ToyLib.lib) "w"
    (WorkerSample.snap ["sol"; "bsc"]) s s') as (H1 & H2 & _ & _ & H5).
  - split; rewrite ?Hr, ?Hl; [apply NoDup_singleton|apply NoDup_singleton|done].
  - intros c. by rewrite Hl, Hr.
  - vm_compute. reflexivity.
  - split; [exact H1|]. split; [exact H2|].
    apply (H5 "sol" (WorkerSample.chain "sol")); vm_compute; reflexivity.
Defined.

Lemma malformed_abi_ends_run_witness :
  let create := CreateAbi (mkAbiCreate "Token" "evm_abi" (PList [PInt 1])) in
  let r := ApiSample.api create (ApiSample.start empty_db []) in
  is_ok r.1 = true ∧
  ∃ e s', run (L:=ToyLib.lib) "w" [Some (load_snapshot (L:=ToySql) (w_db r.2)); None]
            (WorkerSample.w0, false) = (Err e, (s', false)) ∧ tables s' = tables WorkerSample.w0.
Proof.
  intros create r. split; [vm_compute; reflexivity|].
  assert (∃ aid a, new_abis (load_snapshot (L:=ToySql) (w_db r.2)) = [(aid, a)] ∧ abi_body a = PList [PInt 1])
    as (aid & a & Ha & Hb).
  { eexists _, _. split; [vm_compute; reflexivity|reflexivity]. }
  destruct (malformed_abi_ends_run (L:=ToyLib.lib) "w" (load_snapshot (L:=ToySql) (w_db r.2)) [None] aid a (PInt 1) false
    WorkerSample.w0) as (e & s' & H1 & H2 & _).
  - rewrite Ha. cbn. by rewrite decide_True.
  - rewrite Hb. left.
  - reflexivity.
  - reflexivity.
  - exists e, s'. split; [exact H1|exact H2].
Defined.

Lemma dead_watcher_blocks_drain_witness :
  ∃ s', shutdown (WorkerEnv0:=WorkerSample.workers true) id WorkerSample.w0 = (Err (OtherError "ConnectionError" ""), s') ∧
    tables s' = tables WorkerSample.w0 ∧ shutdown (WorkerEnv0:=WorkerSample.workers true) id s' = (Ok tt, s').
Proof.
  destruct (dead_watcher_blocks_drain (WorkerEnv0:=WorkerSample.workers true) id WorkerSample.w0
    (OtherError "ConnectionError" "") (wk_env WorkerSample.w0)) as (s' & H1 & H2 & _ & H3);
    [reflexivity|reflexivity|]. by exists s'.
Defined.
