(* ===== verification/Interrupt.v ===== *)
(** * The life of a worker (apps/worker/main.py: run_worker)

    [run_worker] runs the main loop as a task and calls [shutdown] as soon as the stop event is set, whether or not
    the main loop is in the middle of [_reconcile].  Both are written here as coroutines over the state of [Worker], suspended
    where the source awaits; run without interruption they are the definitions of [Worker]. *)
From S2P Require Import Prelude Hoare Coroutine PyStr PyVal Snapshot AbiLookup Decoder Registry.
From S2P Require Import Repositories ChainLock Worker.


Section interrupt.
Context {L : AbiLib} {W : Type} `{!WorkerEnv W, !Redis W}.
Variable worker_id : string.

(** [_stop_runner]: the pop and [runner.stop()], then the cancelled task *)
Definition stop_runner_co (c : string) : co (Worker W) unit :=
  await
    (let* s := mget in
     match dget c (wk_runners s) with
     | None => mthrow (KeyError c)
     | Some h => set_runners (ddel c) ;;* env (we_stop h) ;;* mret h
     end) (λ h,
  awaited (env (λ e, (Ok tt, we_join h e)))).

Definition pop_and_release_co (c : string) : co (Worker W) unit :=
  now mget (λ s,
    match dget c (wk_locks s) with
    | None => return_ tt
    | Some l => awaited (set_locks (ddel c) ;;* on_lock l release ;;* mret tt)
    end).

(** The body of the second loop of [_reconcile] *)
Definition reconcile_chain_co (snap : ConfigSnapshot) (cfg : SnapshotChain) : co (Worker W) unit :=
  let chain := chain_id cfg in
  now mget (λ s,
    match dget chain (wk_runners s) with
    | Some h => awaited (env (we_apply h snap))
    | None =>
        await (on_lock (lock_init chain worker_id) acquire) (λ acquired,
        if negb acquired.1 then return_ tt else
        now (set_locks (dset chain acquired.2)) (λ _,
        now (env (λ e, let '(h, e') := we_new_runner cfg e in (Ok h, e'))) (λ h,
        co_catch
          (await (env (we_start h snap)) (λ _,
           now (env (λ e, (Ok tt, we_spawn h e)) ;;* set_runners (dset chain h)) return_))
          (λ _, await (on_lock acquired.2 release) (λ _, now (set_locks (ddel chain)) return_)))))
    end).

(** [_reconcile] *)
Definition reconcile_co (snap : ConfigSnapshot) : co (Worker W) unit :=
  now (mzoom wk_registry set_registry (refresh snap) ;;* mget) (λ s,
  let enabled := enabled_chains snap in
  co_bind
    (co_for (wk_runners s).*1 (λ chain,
       if dmem chain enabled then return_ tt
       else co_bind (stop_runner_co chain) (λ _, pop_and_release_co chain)))
    (λ _, co_for enabled (λ kc, reconcile_chain_co snap kc.2))).

(** The stops that [shutdown] gathers, one after the other; the first exception is raised once all
    have ended. *)
Fixpoint stop_all_co (chains : list string) : co (Worker W) unit :=
  match chains with
  | [] => return_ tt
  | c :: t =>
      co_bind (co_catch (co_bind (stop_runner_co c) (λ _, return_ None)) (λ e, return_ (Some e)))
        (λ failed, match failed with
                   | None => stop_all_co t
                   | Some e => co_bind (co_catch (stop_all_co t) (λ _, return_ tt)) (λ _, Ret (Err e))
                   end)
  end.

(** [shutdown]; [schedule] is the order of the stops *)
Definition shutdown_co (schedule : list string → list string) : co (Worker W) unit :=
  now mget (λ s,
    if wk_stop s then return_ tt else
    await (mmodify (λ s, mkWorker (wk_registry s) (wk_runners s) (wk_locks s) true (wk_env s)) ;;*
           env we_halt) (λ _,
    now mget (λ s,
    co_bind (stop_all_co (schedule (wk_runners s).*1)) (λ _,
    now mget (λ s,
    co_bind (co_for (wk_locks s) (λ kl,
               co_catch (await (on_lock kl.2 release) (λ _, return_ tt)) (λ _, return_ tt))) (λ _,
    now (set_locks (λ _, [])) (λ _,
    await (env we_bus_disconnect) (λ _,
    awaited (env we_db_disconnect))))))))).

(** ** Uninterrupted, they are the operations of [Worker] *)

(** Equal in every state *)
Lemma bind_ext {S A B} (m m' : M S A) (k k' : A → M S B) s :
  m s = m' s → (∀ a s', k a s' = k' a s') → mbind m k s = mbind m' k' s.
Proof. intros H1 H2. unfold mbind. rewrite H1. destruct (m' s) as [[a|e] s']; [apply H2|done]. Qed.

Lemma mbind_assoc {S A B C} (m : M S A) (k : A → M S B) (l : B → M S C) s :
  mbind (mbind m k) l s = mbind m (λ a, mbind (k a) l) s.
Proof. unfold mbind. by destruct (m s) as [[a|e] s']. Qed.

Lemma mbind_get {S A} (k : S → M S A) s : mbind mget k s = k s s.
Proof. done. Qed.

Lemma bind_modify {S A} (f : S → S) (k : unit → M S A) s : mbind (mmodify f) k s = k tt (f s).
Proof. done. Qed.

Lemma bind_run {S A B} (m : M S A) (k : A → M S B) s :
  mbind m k s = match m s with (Ok a, s') => k a s' | (Err e, s') => (Err e, s') end.
Proof. unfold mbind. by destruct (m s) as [[a|e] s']. Qed.

Lemma run_stop_runner c s : complete (stop_runner_co c) s = stop_runner c s.
Proof.
  unfold stop_runner_co, stop_runner. rewrite complete_await, mbind_assoc, !mbind_get.
  destruct (dget c (wk_runners s)) as [h|]; [|done]. rewrite mbind_assoc. apply bind_ext; [done|].
  intros [] s1. rewrite mbind_assoc. apply bind_ext; [done|]. intros [] s2. apply complete_awaited.
Qed.

Lemma run_pop_and_release c s : complete (pop_and_release_co c) s = pop_and_release c s.
Proof.
  unfold pop_and_release_co, pop_and_release. rewrite complete_now, !mbind_get.
  destruct (dget c (wk_locks s)) as [l|]; [apply complete_awaited|done].
Qed.

Lemma run_reconcile_chain snap cfg s :
  complete (reconcile_chain_co snap cfg) s = reconcile_chain worker_id snap cfg s.
Proof.
  unfold reconcile_chain_co, reconcile_chain. rewrite complete_now, !mbind_get.
  destruct (dget _ (wk_runners s)) as [h|]; [apply complete_awaited|].
  rewrite complete_await. apply bind_ext; [done|]. intros acquired s1. destruct (negb acquired.1); [done|].
  rewrite complete_now. apply bind_ext; [done|]. intros [] s2. rewrite complete_now. apply bind_ext; [done|].
  intros h s3. rewrite complete_catch. unfold mcatch. rewrite complete_await.
  assert (∀ s, (let* _ := env (we_start h snap) in
    complete (now (env (λ e, (Ok tt, we_spawn h e)) ;;* set_runners (dset (chain_id cfg) h)) return_)) s =
    (env (we_start h snap) ;;* env (λ e, (Ok tt, we_spawn h e)) ;;* set_runners (dset (chain_id cfg) h)) s)
    as ->.
  { intros s4. apply bind_ext; [done|]. intros [] s5. rewrite complete_now. unfold mbind.
    by destruct (env _ s5) as [[[]|e] s6]. }
  destruct ((_ ;;* _) s3) as [[[]|e] s4]; [done|]. rewrite complete_await. apply bind_ext; [done|].
  intros a s5. rewrite complete_now. unfold mbind. by destruct (set_locks _ s5) as [[[]|x] s6].
Qed.

Lemma run_reconcile snap s : complete (reconcile_co snap) s = reconcile worker_id snap s.
Proof.
  unfold reconcile_co, reconcile. rewrite complete_now, mbind_assoc. apply bind_ext; [done|]. intros [] s1.
  rewrite !mbind_get, complete_bind. unfold mbind at 1.
  rewrite (complete_for _ _ (λ chain, if dmem chain (enabled_chains snap) then mret tt
                                 else stop_runner chain ;;* pop_and_release chain)).
  2: { intros c s2 _. destruct (dmem _ _); [done|]. rewrite complete_bind. apply bind_ext; [apply run_stop_runner|].
       intros [] s3. apply run_pop_and_release. }
  unfold mbind at 2. destruct (mfor _ _ s1) as [[[]|e] s2]; [|done].
  apply complete_for. intros kc s3 _. apply run_reconcile_chain.
Qed.

Lemma run_stop_all chains s : complete (stop_all_co chains) s = stop_all chains s.
Proof.
  revert s. induction chains as [|c t IH]; intros s; [done|]. cbn [stop_all_co stop_all].
  rewrite complete_bind. unfold mbind at 1. rewrite complete_catch. unfold mcatch. rewrite complete_bind.
  unfold mbind at 1. rewrite run_stop_runner. destruct (stop_runner c s) as [[[]|e] s1]; cbn [complete return_].
  - rewrite IH. by destruct (stop_all t s1).
  - rewrite complete_bind. unfold mbind. rewrite complete_catch. unfold mcatch. rewrite IH.
    by destruct (stop_all t s1) as [[[]|e'] s2].
Qed.

Lemma run_release_all locks s :
  complete (co_for locks (λ kl, co_catch (await (on_lock kl.2 release) (λ _, return_ tt)) (λ _, return_ tt))) s =
  release_all locks s.
Proof.
  unfold release_all. apply complete_for. intros kl s1 _. rewrite complete_catch. unfold mcatch.
  rewrite complete_await. by destruct ((_ ;;* _) s1) as [[[]|e] s2].
Qed.

Lemma env_tables {A} (m : M W A) s : tables (env m s).2 = tables s.
Proof. unfold env, mzoom. by destruct (m (wk_env s)). Qed.

(** A stop leaves the locks alone. *)
Lemma stop_all_locks chains s : wk_locks (stop_all chains s).2 = wk_locks s.
Proof.
  revert s. induction chains as [|c t IH]; intros s; [done|]. cbn [stop_all].
  assert (wk_locks (stop_runner c s).2 = wk_locks s) as Hs.
  { unfold stop_runner, set_runners, env, mbind, mget, mmodify, mzoom, mthrow.
    destruct (dget c (wk_runners s)) as [h|]; [|done]. cbn.
    by destruct (we_stop h (wk_env s)) as [[[]|e] e1]. }
  specialize (IH (stop_runner c s).2). destruct (stop_runner c s) as [[[]|e] s1]; cbn [snd] in *;
    destruct (stop_all t s1) as [r s2]; cbn [snd] in *; congruence.
Qed.

Lemma run_shutdown schedule s : complete (shutdown_co schedule) s = shutdown schedule s.
Proof.
  unfold shutdown_co, shutdown. rewrite complete_now, mbind_get. destruct (wk_stop s); [done|].
  rewrite complete_await, mbind_assoc. rewrite !bind_modify. set (s1 := mkWorker _ _ _ _ _).
  pose proof (env_tables we_halt s1) as Ht. rewrite !bind_run.
  destruct (env we_halt s1) as [[[]|e] s2]; [|done]. cbn [snd] in Ht. injection Ht as Hr Hl.
  rewrite complete_now, mbind_get, complete_bind, Hr. subst s1. cbn [wk_runners wk_locks] in *.
  pose proof (stop_all_locks (schedule (wk_runners s).*1) s2) as Hl2. rewrite !bind_run, run_stop_all. destruct (stop_all _ s2) as [[[]|e] s3]; [|done]. cbn [snd] in Hl2.
  rewrite complete_now, mbind_get, complete_bind, Hl2, Hl. apply bind_ext; [apply run_release_all|].
  intros [] s4. rewrite complete_now. apply bind_ext; [done|]. intros [] s5. rewrite complete_await.
  apply bind_ext; [done|]. intros [] s6. apply complete_awaited.
Qed.
(** Suspending changes nothing by itself: when no other task runs at their awaits, the coroutines of
    [_reconcile] and [shutdown] return, raise and leave behind exactly what the operations of [Worker] do,
    in every state and environment. *)
Lemma uninterrupted_operations snap schedule s :
  complete (reconcile_co snap) s = reconcile worker_id snap s ∧
  complete (shutdown_co schedule) s = shutdown schedule s.
Proof. split; [apply run_reconcile|apply run_shutdown]. Qed.

(** ** [run_worker] *)

(** The stop event comes while the main loop, having reconciled [worked], waits or has ended with an exception, or in the
    middle of the reconcile of [interrupted]; [events] are the turns of the main task (those it takes before the stop
    first) and of [shutdown].  Then the main task is cancelled: suspended anywhere but at the await under
    [suppress(CancelledError, Exception)] in [_stop_runner] it ends there; there the cancellation is [swallowed] and it goes
    on to its end.  An exception of [shutdown] leaves the main task alone. *)
Definition run_worker `{!StartEnv W} (metrics_enabled : bool) (worked : list ConfigSnapshot)
    (interrupted : option ConfigSnapshot) (events : list bool) (swallowed : bool)
    (schedule : list string → list string) : M (Worker W) unit := λ s,
  match start metrics_enabled s with
  | (Err e, s1) =>
      let '(r, s2) := shutdown schedule s1 in
      (match r with Ok _ => Err e | Err e' => Err e' end, s2)
  | (Ok _, s1) =>
      let '(r, (s2, _)) := run worker_id (Some <$> worked) (s1, false) in
      let main := match r, interrupted with
                  | Ok _, Some snap => reconcile_co snap
                  | _, _ => Ret r
                  end in
      let '(main1, stop1, s3) := interleave events main (shutdown_co schedule) s2 in
      match complete stop1 s3 with
      | (Err e, s4) => (Err e, s4)
      | (Ok _, s4) =>
          match main1 with
          | Ret r1 => (r1, s4)
          | _ => if swallowed then complete main1 s4 else (Ok tt, s4)
          end
      end
  end.

(** A task that has ended does not disturb the other. *)
Lemma interleave_ended {A B} events (r : result A) (c : co (Worker W) B) s :
  let '(c1, c2, s') := interleave events (Ret r) c s in c1 = Ret r ∧ complete c2 s' = complete c s.
Proof.
  revert c s. induction events as [|[] events IH]; intros c s; cbn [interleave resume]; [done|apply IH|].
  pose proof (complete_resume c s) as Hc. destruct (resume c s) as [c' s']. specialize (IH c' s').
  destruct (interleave events (Ret r) c' s') as [[c1 c2] s2]. by rewrite Hc in IH.
Qed.

(** C9 The worker ends cleanly, unless it is stopped in the middle of a reconcile.  Whatever snapshots the main loop has
    worked off when the stop event is set, and also when [start] or a reconcile raises, [run_worker] stops every
    runner in whatever order the stops end, releases every lock, so that Redis holds no key of this worker, forgets
    them, and disconnects the bus, then the database, only from a state in which no runner task is alive; it
    raises what [start] or the main loop raised.  This is so in an environment where Redis answers, where stopping a
    runner, ending the cleanup task and the watchers and disconnecting do not raise, and where only the worker itself
    starts runner tasks and takes locks in its name. *)
Theorem run_worker_drains `{!StartEnv W} (alive : W → gset nat) (held : W → string → option string)
    (metrics_enabled : bool) worked events swallowed schedule (e0 : W) :
  orderly alive → redis_keys worker_id held → start_orderly worker_id alive held →
  (∀ l, schedule l ≡ₚ l) → alive e0 = ∅ → (∀ k, held e0 k ≠ Some worker_id) →
  ∃ r s' (e : W),
    run_worker metrics_enabled worked None events swallowed schedule (worker_init e0) = (r, s') ∧
    r = match start metrics_enabled (worker_init e0) with
        | (Err x, _) => Err x
        | (Ok _, s1) => (run worker_id (Some <$> worked) (s1, false)).1
        end ∧
    wk_runners s' = [] ∧ wk_locks s' = [] ∧ wk_stop s' = true ∧
    alive e = ∅ ∧ (∀ k, held e k ≠ Some worker_id) ∧
    wk_env s' = (we_db_disconnect (we_bus_disconnect e).2).2.
Proof.
  intros Hord Hkeys Hst Hsch H0 Hk0. unfold run_worker.
  pose proof (start_settled_down worker_id alive Hord held Hkeys Hst metrics_enabled e0 H0 Hk0) as Hs.
  destruct (start metrics_enabled (worker_init e0)) as [[[]|x] s1]; cbn [snd] in Hs.
  - pose proof (run_settled_down worker_id alive Hord held Hkeys (Some <$> worked) s1 false Hs) as Hr.
    destruct (run worker_id (Some <$> worked) (s1, false)) as [r [s2 b]]. cbn [fst snd] in *.
    destruct Hr as [[Ha Hnd] [Hk Hf]].
    destruct (shutdown_orderly worker_id alive Hord held Hkeys schedule s2 Hsch Hnd Ha Hk Hf)
      as (s3 & e & Hd & ? & ? & ? & ? & ? & ?).
    exists r, s3, e. split; [|by split_and!].
    replace (match r with Ok _ => _ | Err _ => Ret r end) with (Ret (S:=Worker W) r) by by destruct r.
    pose proof (interleave_ended events r (shutdown_co schedule) s2) as Hi.
    destruct (interleave events (Ret r) (shutdown_co schedule) s2) as [[c1 c2] s4]. destruct Hi as [-> ->].
    by rewrite run_shutdown, Hd.
  - destruct Hs as [[Ha Hnd] [Hk Hf]].
    destruct (shutdown_orderly worker_id alive Hord held Hkeys schedule s1 Hsch Hnd Ha Hk Hf)
      as (s3 & e & -> & ? & ? & ? & ? & ? & ?).
    exists (Err x), s3, e. by split_and!.
Qed.

(** ** Interrupted *)

(** An environment in which what the two tasks call does not raise, over a set of live runner tasks that disconnecting does
    not end *)
Record smooth (alive : W → gset nat) : Prop := {
  sm_start h snap e : ∃ e', we_start h snap e = (Ok tt, e');
  sm_stop h e : ∃ e', we_stop h e = (Ok tt, e');
  sm_halt e : ∃ e', we_halt e = (Ok tt, e');
  sm_bus e : ∃ e', we_bus_disconnect e = (Ok tt, e') ∧ alive e ⊆ alive e';
  sm_db e : ∃ e', we_db_disconnect e = (Ok tt, e') ∧ alive e ⊆ alive e';
  sm_spawn h e : h ∈ alive (we_spawn h e);
}.

Definition with_env (e : W) (s : Worker W) : Worker W :=
  mkWorker (wk_registry s) (wk_runners s) (wk_locks s) (wk_stop s) e.

Lemma env_run {A} (m : M W A) s a e : m (wk_env s) = (Ok a, e) → env m s = (Ok a, with_env e s).
Proof. intros H. unfold env, mzoom. by rewrite H. Qed.

Lemma lock_run {A} l (m : M (ChainLock * W) A) s a l' e :
  m (l, wk_env s) = (Ok a, (l', e)) → on_lock l m s = (Ok (a, l'), with_env e s).
Proof. intros H. apply env_run. by rewrite H. Qed.

Lemma refresh_run snap (s : Worker W) :
  (refresh snap (wk_registry s)).1 = Ok tt →
  (mzoom wk_registry set_registry (refresh snap) ;;* mget) s =
  (let s' := set_registry (refresh snap (wk_registry s)).2 s in (Ok s', s')).
Proof.
  intros H. unfold mbind, mzoom, mget. destruct (refresh snap (wk_registry s)) as [r reg].
  cbn in H. by subst r.
Qed.

(** Evaluate the tasks up to the next call of the environment, whose outcome is [H]. *)
Ltac evaluate := cbn -[acquire release lock_init refresh ddel].
Ltac tasks :=
  evaluate;
  unfold await, now, awaited, return_, on_lock, set_locks, set_runners, env, then_, mzoom, mmodify, mbind, mget, mret, mthrow;
  evaluate.
Ltac go_on H := rewrite H; evaluate.

(** [start] leaves the tables and the registry of a fresh worker alone. *)
Lemma start_fresh `{!StartEnv W} (metrics_enabled : bool) (e0 : W) :
  ∃ e, (start metrics_enabled (worker_init e0)).2 = worker_init e.
Proof.
  apply (keeps_state (λ s, ∃ e, s = worker_init e)); [|by exists e0].
  assert (∀ A (m : M W A), keeps (λ s, ∃ e, s = worker_init e) (env m)) as Henv.
  { intros A m. apply keeps_zoom. intros e s [e' ->]. by exists e. }
  unfold start. repeat (apply keeps_bind; [|intros _]);
    try destruct metrics_enabled; try apply keeps_ret; apply Henv.
Qed.

(** C40 A stop while the first chain starts leaves its runner behind.  The stop event is set while [_reconcile] is
    suspended in [runner.start] of a chain whose lock was free; [shutdown] sees no runner to stop and releases the
    chain's lock; the reconcile then creates the runner's task, and [shutdown] closes the bus and the database under it.
    [run_worker] ends normally, whether or not the cancellation of its main task is swallowed, with a live runner that
    nobody will stop, with no lock on its chain, although connections "must" be closed strictly after all runners have
    stopped.  Nothing goes wrong otherwise: Redis answers, nothing raises, and the registry takes the snapshot. *)
Theorem shutdown_orphans_runner `{!StartEnv W} (alive : W → gset nat) (held : W → string → option string)
    (metrics_enabled : bool) snap b cfg swallowed schedule e0 s1 :
  smooth alive → redis_keys worker_id held →
  start metrics_enabled (worker_init e0) = (Ok tt, s1) → held (wk_env s1) (LOCK_PREFIX +:+ b) = None →
  enabled_chains snap = [(b, cfg)] → chain_id cfg = b → schedule [] = [] →
  (refresh snap AbiRegistry_init).1 = Ok tt →
  ∃ h s' (e : W),
    run_worker metrics_enabled [] (Some snap) [true; true; false; false; true; false; false] swallowed schedule
      (worker_init e0) = (Ok tt, s') ∧
    wk_stop s' = true ∧ wk_runners s' = [(b, h)] ∧ wk_locks s' = [] ∧
    h ∈ alive e ∧ held e (LOCK_PREFIX +:+ b) ≠ Some worker_id ∧
    wk_env s' = (we_db_disconnect (we_bus_disconnect e).2).2 ∧ h ∈ alive (wk_env s').
Proof.
  intros Hsm Hkeys Hstart Hfree Hen Hb Hsch Href. subst.
  destruct (start_fresh metrics_enabled e0) as [e Hs1]. rewrite Hstart in Hs1. cbn [snd] in Hs1. subst s1.
  cbn [wk_env worker_init] in Hfree.
  destruct (acquire_keys worker_id held Hkeys (chain_id cfg) e) as (a & l & e1 & H1 & Hlk & Hlw & Ha & _).
  specialize (Ha Hfree). subst a.
  destruct (we_new_runner cfg e1) as [h e2] eqn:H2.
  destruct (sm_start _ Hsm h snap e2) as [e3 H3]. destruct (sm_halt _ Hsm e3) as [e4 H4].
  destruct (release_keys worker_id held Hkeys l e4) as (l5 & e5 & H5 & _ & Hout). specialize (Hout Hlw). rewrite Hlk in Hout.
  destruct (sm_bus _ Hsm (we_spawn h e5)) as (e6 & H6 & Ha6).
  destruct (sm_db _ Hsm e6) as (e7 & H7 & Ha7).
  exists h. eexists _, (we_spawn h e5). unfold run_worker. rewrite Hstart. cbn [run fmap list_fmap mret interleave].
  unfold reconcile_co at 1. erewrite resume_now by (apply refresh_run, Href). rewrite Hen. tasks.
  go_on H1. go_on H2. go_on H3. go_on H4. go_on Hsch. go_on H5. go_on H6. tasks. go_on H7.
  split; [reflexivity|]. cbn. split_and!; try done.
  - apply (sm_spawn _ Hsm).
  - intros Hk%(rk_spawn _ _ Hkeys). done.
  - apply Ha7, Ha6, (sm_spawn _ Hsm).
Qed.

(** A stop while a reconcile stops two chains ends it with a [KeyError].  It lists the runners
    before it waits for the first one to stop; meanwhile [shutdown] pops the second.  [shutdown] itself
    ends normally, everything stopped and released, but [run_worker] then awaits the main loop and raises
    what it ended with. *)
Lemma shutdown_breaks_reconcile (alive : W → gset nat) (held : W → string → option string) snap a b ha hb la lb schedule s :
  smooth alive → redis_keys worker_id held → enabled_chains snap = [] → a ≠ b →
  wk_runners s = [(a, ha); (b, hb)] → wk_locks s = [(a, la); (b, lb)] → wk_stop s = false →
  schedule [b] = [b] → (refresh snap (wk_registry s)).1 = Ok tt →
  ∃ s',
    interleave [true; false; false; false; true; true; false; true; false; false]
      (reconcile_co snap) (shutdown_co schedule) s =
    (Ret (Err (KeyError b)), Ret (Ok tt), s') ∧
    wk_stop s' = true ∧ wk_runners s' = [] ∧ wk_locks s' = [].
Proof.
  intros Hsm Hkeys Hen Hab Hr Hl Hst Hsch Href. destruct s as [reg ? ? ? e0]. cbn -[refresh] in Hr, Hl, Hst, Href. subst.
  destruct (sm_stop _ Hsm ha e0) as [e1 H1]. destruct (sm_halt _ Hsm e1) as [e2 H2].
  destruct (sm_stop _ Hsm hb e2) as [e3 H3].
  destruct (release_keys worker_id held Hkeys la (we_join ha (we_join hb e3))) as (l4 & e4 & H4 & _).
  destruct (release_keys worker_id held Hkeys lb e4) as (l5 & e5 & H5 & _).
  destruct (sm_bus _ Hsm e5) as (e6 & H6 & _). destruct (sm_db _ Hsm e6) as (e7 & H7 & _).
  assert (∀ V (v w : V), ddel a [(a, v); (b, w)] = [(b, w)]) as Hda.
  { intros V v w. unfold ddel. rewrite !filter_cons, filter_nil. cbn. by rewrite decide_False, decide_True by naive_solver. }
  assert (∀ V (w : V), ddel b [(b, w)] = []) as Hdb.
  { intros V w. unfold ddel. rewrite !filter_cons, filter_nil. cbn. by rewrite decide_False by naive_solver. }
  cbn [interleave]. unfold reconcile_co at 1. erewrite resume_now by (apply refresh_run, Href). rewrite Hen. tasks.
  rewrite (decide_True (P:=a = a)) by done. evaluate. rewrite Hda. go_on H1. tasks. go_on H2. tasks.
  go_on Hsch. tasks. rewrite (decide_True (P:=b = b)) by done. evaluate. rewrite Hdb. go_on H3. tasks.
  rewrite (decide_True (P:=a = a)) by done. evaluate. rewrite Hda. go_on H4. tasks.
  go_on H5. go_on H6. tasks. go_on H7. by eexists.
Qed.
End interrupt.

#[local] Existing Instances WorkerSample.healthy WorkerSample.redis WorkerSample.starts.

(** ** The worker of [WorkerSample], interrupted *)
Module InterruptSample.
Import WorkerSample.

Lemma smooth_sample : smooth (W:=world) (WorkerEnv0:=healthy) live.
Proof.
  split.
  - intros h sn e. by eexists.
  - intros h e. by eexists.
  - intros e. by eexists.
  - intros e. by eexists.
  - intros e. by eexists.
  - intros h e. cbn. set_solver.
Qed.

Definition two_running : Worker world := (reconcile (L:=ToyLib.lib) "w" (snap ["eth"; "sol"]) w0).2.
End InterruptSample.

(** Two snapshots, then the stop, next to a worker that holds the lock of "sol" *)
Lemma run_worker_drains_witness :
  ∃ s' (e : WorkerSample.world),
    run_worker (L:=ToyLib.lib) "w" false [WorkerSample.snap ["eth"; "bsc"; "sol"]; WorkerSample.snap ["bsc"]] None
      [false] false reverse (worker_init WorkerSample.contended) = (Ok tt, s') ∧
    wk_runners s' = [] ∧ WorkerSample.live e = ∅ ∧ WorkerSample.held e "chain_indexer:lock:bsc" ≠ Some "w".
Proof.
  destruct (run_worker_drains (L:=ToyLib.lib) (WorkerEnv0:=WorkerSample.healthy) (Redis0:=WorkerSample.redis)
    "w" (StartEnv0:=WorkerSample.starts) WorkerSample.live WorkerSample.held
    false [WorkerSample.snap ["eth"; "bsc"; "sol"]; WorkerSample.snap ["bsc"]] [false] false (@reverse string)
    WorkerSample.contended WorkerSample.orderly_ok WorkerSample.keys_ok WorkerSample.start_ok)
    as (r & s' & e & H1 & H2 & H3 & _ & _ & H4 & H5 & _).
  - intros l. apply reverse_Permutation.
  - reflexivity.
  - intros k. unfold WorkerSample.held, WorkerSample.contended. cbn. intros [_ H]%lookup_singleton_Some. done.
  - exists s', e. split; [|split; [exact H3|split; [exact H4|apply H5]]]. rewrite H1. f_equal. rewrite H2. vm_compute. reflexivity.
Defined.

Lemma shutdown_orphans_runner_witness :
  ∃ h s' (e : WorkerSample.world),
    run_worker (L:=ToyLib.lib) "w" false [] (Some (WorkerSample.snap ["eth"]))
      [true; true; false; false; true; false; false] false id (worker_init WorkerSample.empty) = (Ok tt, s') ∧
    wk_runners s' = [("eth", h)] ∧ h ∈ WorkerSample.live (wk_env s') ∧
    WorkerSample.held e "chain_indexer:lock:eth" ≠ Some "w".
Proof.
  destruct (shutdown_orphans_runner (L:=ToyLib.lib) (WorkerEnv0:=WorkerSample.healthy)
    (Redis0:=WorkerSample.redis) "w" (StartEnv0:=WorkerSample.starts) WorkerSample.live WorkerSample.held false
    (WorkerSample.snap ["eth"]) "eth" (WorkerSample.chain "eth") false id WorkerSample.empty WorkerSample.w0
    InterruptSample.smooth_sample WorkerSample.keys_ok) as (h & s' & e & H1 & _ & H2 & _ & _ & H4 & _ & H5);
    try reflexivity.
  exists h, s', e. split; [exact H1|]. split; [exact H2|]. split; [exact H5|exact H4].
Defined.

Lemma shutdown_breaks_reconcile_witness :
  ∃ s', interleave [true; false; false; false; true; true; false; true; false; false]
      (reconcile_co (L:=ToyLib.lib) "w" (WorkerSample.snap []))
      (shutdown_co id) InterruptSample.two_running = (Ret (Err (KeyError "sol")), Ret (Ok tt), s') ∧
    wk_runners s' = [].
Proof.
  destruct (shutdown_breaks_reconcile (L:=ToyLib.lib) (WorkerEnv0:=WorkerSample.healthy)
    (Redis0:=WorkerSample.redis) "w" WorkerSample.live WorkerSample.held (WorkerSample.snap []) "eth" "sol" 0%nat 1%nat
    (mkLock "chain_indexer:lock:eth" "w" true) (mkLock "chain_indexer:lock:sol" "w" true) id
    InterruptSample.two_running InterruptSample.smooth_sample WorkerSample.keys_ok) as (s' & H1 & _ & H2 & _);
    [reflexivity|discriminate|vm_compute; reflexivity..|].
  exists s'. split; [exact H1|exact H2].
Defined.
