(* ===== verification/Settings.v ===== *)
(** * The settings of the two processes (core/settings.py)

    [load_settings] reads a YAML file, and pydantic-settings merges it with what three further sources found: the
    environment, a dotenv file and secret files.  Each source is a nested dictionary; merging and coercing
    are the class [PydanticSettings].  Seconds that are floats are in thousandths. *)
From S2P Require Import Prelude PyStr PyVal.

Abbreviation dict := (list (string * pyval)).

(** [deep_update low high] is pydantic's merge; a coercion is None for a value that its type refuses. *)
Class PydanticSettings := {
  deep_update : dict → dict → dict;
  coerce_str : pyval → option string;
  coerce_bool : pyval → option bool;
  coerce_int : pyval → option Z;
  coerce_float : pyval → option Z;
}.

Definition is_dict (v : pyval) : bool := match v with PDict _ => true | _ => false end.

(** Values of [high] replace those of [low], dictionaries are merged. *)
Class PydanticSettingsLaws `{PydanticSettings} := {
  deep_update_get k low high :
    dget k (deep_update low high) =
    match dget k low, dget k high with
    | Some (PDict l), Some (PDict h) => Some (PDict (deep_update l h))
    | l, None => l
    | _, Some v => Some v
    end;
}.

(** ** The models and their defaults *)
Record DatabaseSettings := mkDatabaseSettings { url : string; echo : bool }.
Record RedisSettings := mkRedisSettings { redis_url : string }.
Record WorkerSettings := mkWorkerSettings {
  default_confirmation_blocks : Z;
  default_poll_interval_ms : Z;
  notify_concurrency : Z;
  config_reload_interval_s : Z;
  shutdown_grace_s : Z;
}.
Record WebSettings := mkWebSettings { host : string; web_port : Z }.
Record LoggingSettings := mkLoggingSettings { level : string; format : string }.
Record MetricsSettings := mkMetricsSettings { enabled : bool; metrics_port : Z }.
Record RpcPoolSettings := mkRpcPoolSettings { failure_threshold : Z; cooldown_s : Z }.
Record DeliveryRecordsSettings := mkDeliveryRecordsSettings {
  max_success_rows : Z;
  cleanup_interval_seconds : Z;
  cleanup_batch_size : Z;
}.
Record ReplaySettings := mkReplaySettings { max_replay_blocks : Z }.

Record Settings := mkSettings {
  database : DatabaseSettings;
  redis : RedisSettings;
  worker : WorkerSettings;
  web : WebSettings;
  logging : LoggingSettings;
  delivery_records : DeliveryRecordsSettings;
  metrics : MetricsSettings;
  rpc_pool : RpcPoolSettings;
  replay : ReplaySettings;
}.

Section settings.
Context `{PydanticSettings}.

(** One field: coerced when it is given, else its default, if it has one *)
Definition field {A} (coerce : pyval → option A) (dflt : option A) (v : option pyval) : option A :=
  match v with Some v => coerce v | None => dflt end.

Definition literal (allowed : list string) (v : pyval) : option string :=
  match v with PStr s => if bool_decide (s ∈ allowed) then Some s else None | _ => None end.

Definition get_fields : Type := string → option pyval.

Definition DatabaseSettings_of (get : get_fields) : option DatabaseSettings :=
  u ← field coerce_str None (get "url");
  e ← field coerce_bool (Some false) (get "echo");
  Some (mkDatabaseSettings u e).

Definition RedisSettings_of (get : get_fields) : option RedisSettings :=
  u ← field coerce_str None (get "url"); Some (mkRedisSettings u).

Definition WorkerSettings_of (get : get_fields) : option WorkerSettings :=
  c ← field coerce_int (Some 12) (get "default_confirmation_blocks");
  p ← field coerce_int (Some 3000) (get "default_poll_interval_ms");
  n ← field coerce_int (Some 50) (get "notify_concurrency");
  r ← field coerce_int (Some 5) (get "config_reload_interval_s");
  g ← field coerce_int (Some 30) (get "shutdown_grace_s");
  Some (mkWorkerSettings c p n r g).

Definition WebSettings_of (get : get_fields) : option WebSettings :=
  h ← field coerce_str (Some "0.0.0.0") (get "host");
  p ← field coerce_int (Some 8000) (get "port");
  Some (mkWebSettings h p).

Definition LoggingSettings_of (get : get_fields) : option LoggingSettings :=
  l ← field (literal ["DEBUG"; "INFO"; "WARNING"; "ERROR"]) (Some "INFO") (get "level");
  f ← field (literal ["json"; "console"]) (Some "json") (get "format");
  Some (mkLoggingSettings l f).

Definition MetricsSettings_of (get : get_fields) : option MetricsSettings :=
  e ← field coerce_bool (Some true) (get "enabled");
  p ← field coerce_int (Some 9091) (get "port");
  Some (mkMetricsSettings e p).

Definition RpcPoolSettings_of (get : get_fields) : option RpcPoolSettings :=
  f ← field coerce_int (Some 3) (get "failure_threshold");
  c ← field coerce_float (Some 30000) (get "cooldown_s");
  Some (mkRpcPoolSettings f c).

Definition DeliveryRecordsSettings_of (get : get_fields) : option DeliveryRecordsSettings :=
  m ← field coerce_int (Some 50000) (get "max_success_rows");
  i ← field coerce_int (Some 300) (get "cleanup_interval_seconds");
  b ← field coerce_int (Some 1000) (get "cleanup_batch_size");
  Some (mkDeliveryRecordsSettings m i b).

Definition ReplaySettings_of (get : get_fields) : option ReplaySettings :=
  m ← field coerce_int (Some 10000) (get "max_replay_blocks"); Some (mkReplaySettings m).

(** [default_factory] of a section: [database] and [redis] have one with a URL, the other models are called without values. *)
Definition absent : get_fields := λ _, None.
Definition default_database : option DatabaseSettings :=
  Some (mkDatabaseSettings "sqlite+aiosqlite:///./chain_indexer.db" false).
Definition default_redis : option RedisSettings := Some (mkRedisSettings "redis://localhost:6379/0").

(** A section that is given must be a dictionary; keys that the model does not have are ignored. *)
Definition in_section {A} (model : get_fields → option A) (dflt : option A) (v : option pyval) : option A :=
  match v with
  | None => dflt
  | Some (PDict d) => model (λ k, dget k d)
  | Some _ => None
  end.

(** The fields of [Settings], each with what [sec] says of its section *)
Definition Settings_fields (sec : ∀ A, (get_fields → option A) → option A → string → option A) : option Settings :=
  d ← sec _ DatabaseSettings_of default_database "database";
  r ← sec _ RedisSettings_of default_redis "redis";
  w ← sec _ WorkerSettings_of (WorkerSettings_of absent) "worker";
  b ← sec _ WebSettings_of (WebSettings_of absent) "web";
  l ← sec _ LoggingSettings_of (LoggingSettings_of absent) "logging";
  c ← sec _ DeliveryRecordsSettings_of (DeliveryRecordsSettings_of absent) "delivery_records";
  m ← sec _ MetricsSettings_of (MetricsSettings_of absent) "metrics";
  p ← sec _ RpcPoolSettings_of (RpcPoolSettings_of absent) "rpc_pool";
  y ← sec _ ReplaySettings_of (ReplaySettings_of absent) "replay";
  Some (mkSettings d r w b l c m p y).

(** [settings_customise_sources] *)
Definition settings_customise_sources (init env dotenv file_secret : dict) : list dict :=
  [env; init; dotenv; file_secret].

(** Each further source is merged below those before it. *)
Definition merged (sources : list dict) : dict := foldl (λ state source, deep_update source state) [] sources.

(** [Settings] applied to the keyword arguments [base] *)
Definition Settings_init (env dotenv file_secret base : dict) : option Settings :=
  let d := merged (settings_customise_sources base env dotenv file_secret) in
  Settings_fields (λ A model dflt name, in_section model dflt (dget name d)).

(** [yaml.safe_load(f) or {}] *)
Definition or_empty (v : pyval) : pyval :=
  match v with
  | PNone | PBool false | PInt 0 | PStr "" | PList [] | PDict [] => PDict []
  | _ => v
  end.

(** [load_settings]; [file] is None when the path does not exist, else what [yaml.safe_load] answers. *)
Definition load_settings (env dotenv file_secret : dict) (file : option (result pyval)) : result Settings :=
  rbind (match file with
         | None => Ok (PDict [])
         | Some r => rmap or_empty r
         end) (λ base,
  match base with
  | PDict base =>
      match Settings_init env dotenv file_secret base with
      | Some s => Ok s
      | None => Err (OtherError "ValidationError" "Settings")
      end
  | _ => Err (TypeError "argument after ** must be a mapping")
  end).
End settings.

(** ** Precedence, leaf by leaf *)

Definition sections : list string :=
  ["database"; "redis"; "worker"; "web"; "logging"; "delivery_records"; "metrics"; "rpc_pool"; "replay"].

(** What a source says of a field of a section *)
Definition leaf (d : dict) (sec k : string) : option pyval :=
  match dget sec d with Some (PDict e) => dget k e | _ => None end.

(** The first source that says something of it *)
Fixpoint pick (sources : list dict) (sec k : string) : option pyval :=
  match sources with
  | [] => None
  | d :: t => match leaf d sec k with Some v => Some v | None => pick t sec k end
  end.

(** The settings read field by field, without merging: a section that no source has takes its default, the fields of the
    others are those of the first source that has them *)
Definition Settings_reference `{PydanticSettings} (sources : list dict) : option Settings :=
  Settings_fields (λ A model dflt name,
    if existsb (λ d, dmem name d) sources then model (pick sources name) else dflt).

(** In a source the sections are dictionaries of plain values. *)
Definition plain (d : dict) : Prop :=
  ∀ sec v, sec ∈ sections → dget sec d = Some v →
    ∃ e, v = PDict e ∧ ∀ k x, dget k e = Some x → is_dict x = false.

Section precedence.
Context `{PydanticSettingsLaws}.

Lemma leaf_dict d sec e k : dget sec d = Some (PDict e) → leaf d sec k = dget k e.
Proof. unfold leaf. by intros ->. Qed.

Lemma update_plain sec low high e :
  plain low → plain high → sec ∈ sections → dget sec (deep_update low high) = Some (PDict e) →
  ∀ k, dget k e = match leaf high sec k with Some v => Some v | None => leaf low sec k end.
Proof.
  intros Hl Hh Hsec. rewrite deep_update_get.
  destruct (dget sec low) as [vl|] eqn:El, (dget sec high) as [vh|] eqn:Eh; intros He k.
  - destruct (Hl sec vl Hsec El) as (el & -> & Hel), (Hh sec vh Hsec Eh) as (eh & -> & Heh). simplify_eq.
    rewrite (leaf_dict _ _ _ _ El), (leaf_dict _ _ _ _ Eh), deep_update_get.
    destruct (dget k el) as [x|] eqn:Ex, (dget k eh) as [y|] eqn:Ey; try done.
    + specialize (Hel k x Ex). specialize (Heh k y Ey). by destruct x, y.
    + by destruct x.
  - destruct (Hl sec vl Hsec El) as (el & -> & _). simplify_eq. unfold leaf. by rewrite El, Eh.
  - destruct (Hh sec vh Hsec Eh) as (eh & -> & _). simplify_eq. unfold leaf. rewrite El, Eh. by destruct (dget k e).
  - done.
Qed.

Lemma update_is_plain low high : plain low → plain high → plain (deep_update low high).
Proof.
  intros Hl Hh sec v Hsec Hv.
  assert (∃ e, v = PDict e) as [e ->].
  { rewrite deep_update_get in Hv.
    destruct (dget sec low) as [vl|] eqn:El; [destruct (Hl sec vl Hsec El) as (el & -> & _)|];
      (destruct (dget sec high) as [vh|] eqn:Eh; [destruct (Hh sec vh Hsec Eh) as (eh & -> & _)|]);
      simplify_eq; by eexists. }
  exists e. split; [done|]. intros k x Hx. rewrite (update_plain _ _ _ _ Hl Hh Hsec Hv) in Hx. unfold leaf in Hx.
  destruct (dget sec high) as [vh|] eqn:Eh.
  - destruct (Hh sec vh Hsec Eh) as (eh & -> & Heh). destruct (dget k eh) as [y|] eqn:Ey.
    + simplify_eq. by eapply Heh.
    + destruct (dget sec low) as [vl|] eqn:El; [|done]. destruct (Hl sec vl Hsec El) as (el & -> & Hel). by eapply Hel.
  - destruct (dget sec low) as [vl|] eqn:El; [|done]. destruct (Hl sec vl Hsec El) as (el & -> & Hel). by eapply Hel.
Qed.

Lemma update_has sec low high : dmem sec (deep_update low high) = dmem sec low || dmem sec high.
Proof.
  unfold dmem. rewrite deep_update_get. destruct (dget sec low) as [[]|], (dget sec high) as [[]|]; done.
Qed.

Lemma merged_get sources sec state :
  plain state → Forall plain sources → sec ∈ sections →
  let d := foldl (λ state source, deep_update source state) state sources in
  dmem sec d = dmem sec state || existsb (λ d, dmem sec d) sources ∧ plain d ∧
  ∀ k, leaf d sec k = match leaf state sec k with Some v => Some v | None => pick sources sec k end.
Proof.
  intros Hst Hsrc Hsec. revert state Hst. induction Hsrc as [|d sources Hd Hsrc IH]; intros state Hst; cbn [foldl].
  - cbn. rewrite orb_false_r. split_and!; [done..|]. intros k. by destruct (leaf state sec k).
  - destruct (IH (deep_update d state)) as (H1 & H2 & H3); [by apply update_is_plain|]. split_and!; [|done|].
    + rewrite H1, update_has. cbn [existsb]. destruct (dmem sec d), (dmem sec state); done.
    + intros k. rewrite H3. cbn [pick].
      assert (leaf (deep_update d state) sec k =
        match leaf state sec k with Some v => Some v | None => leaf d sec k end) as ->.
      { unfold leaf at 1. destruct (dget sec (deep_update d state)) as [v|] eqn:Ev.
        - destruct (update_is_plain d state Hd Hst sec v Hsec Ev) as (e & -> & _).
          by apply (update_plain sec d state e).
        - rewrite deep_update_get in Ev. unfold leaf.
          by destruct (dget sec d) as [[]|], (dget sec state) as [[]|]. }
      by destruct (leaf state sec k).
Qed.

Lemma model_ext :
  (∀ g g', (∀ k, g k = g' k) → DatabaseSettings_of g = DatabaseSettings_of g') ∧
  (∀ g g', (∀ k, g k = g' k) → RedisSettings_of g = RedisSettings_of g') ∧
  (∀ g g', (∀ k, g k = g' k) → WorkerSettings_of g = WorkerSettings_of g') ∧
  (∀ g g', (∀ k, g k = g' k) → WebSettings_of g = WebSettings_of g') ∧
  (∀ g g', (∀ k, g k = g' k) → LoggingSettings_of g = LoggingSettings_of g') ∧
  (∀ g g', (∀ k, g k = g' k) → DeliveryRecordsSettings_of g = DeliveryRecordsSettings_of g') ∧
  (∀ g g', (∀ k, g k = g' k) → MetricsSettings_of g = MetricsSettings_of g') ∧
  (∀ g g', (∀ k, g k = g' k) → RpcPoolSettings_of g = RpcPoolSettings_of g') ∧
  (∀ g g', (∀ k, g k = g' k) → ReplaySettings_of g = ReplaySettings_of g').
Proof.
  split_and!; intros g g' Hg;
    unfold DatabaseSettings_of, RedisSettings_of, WorkerSettings_of, WebSettings_of, LoggingSettings_of,
      DeliveryRecordsSettings_of, MetricsSettings_of, RpcPoolSettings_of, ReplaySettings_of; by rewrite !Hg.
Qed.

(** C37 The settings are those of the documented precedence, field by field: each field has the value of the first of the
    environment, the configuration file, the dotenv file and the secret files that has it, whatever else those sources say
    of its section, and its default otherwise; a value that its type refuses makes loading fail, and so does
    a section for the database or Redis that no source gives a URL, for then the default URL does not apply. *)
Theorem settings_precedence env dotenv file_secret base :
  plain env → plain dotenv → plain file_secret → plain base →
  load_settings env dotenv file_secret (Some (Ok (PDict base))) =
  match Settings_reference [env; base; dotenv; file_secret] with
  | Some s => Ok s
  | None => Err (OtherError "ValidationError" "Settings")
  end.
Proof.
  intros He Hd Hf Hb. unfold load_settings. cbn [rmap rbind].
  assert (or_empty (PDict base) = PDict base) as -> by by destruct base. cbn [rbind].
  unfold Settings_init, settings_customise_sources, merged.
  assert (∀ A (model : get_fields → option A) dflt sec, sec ∈ sections → (∀ g g', (∀ k, g k = g' k) → model g = model g') →
    in_section model dflt (dget sec (foldl (λ state source, deep_update source state) [] [env; base; dotenv; file_secret])) =
    if existsb (λ d, dmem sec d) [env; base; dotenv; file_secret] then model (pick [env; base; dotenv; file_secret] sec)
    else dflt) as Hsec.
  { intros A model dflt sec Hsec Hext.
    destruct (merged_get [env; base; dotenv; file_secret] sec []) as (H1 & H2 & H3);
      [by intros s v ?|by repeat constructor|done|].
    cbn [leaf dget] in H3. set (d := foldl _ _ _) in *.
    transitivity (if dmem sec d then model (pick [env; base; dotenv; file_secret] sec) else dflt); [|by rewrite H1].
    unfold dmem. destruct (dget sec d) as [v|] eqn:Ev; [|done]. destruct (H2 sec v Hsec Ev) as (e & -> & _). cbn.
    apply Hext. intros k. rewrite <- (leaf_dict _ _ _ k Ev). exact (H3 k). }
  destruct model_ext as (M1 & M2 & M3 & M4 & M5 & M6 & M7 & M8 & M9).
  unfold Settings_reference, Settings_fields.
  rewrite !Hsec by (done || (unfold sections; set_solver)). done.
Qed.
End precedence.

(** ** A merge with its law, and strict coercions that also read decimal strings of the environment *)
Module SettingsSample.
Fixpoint update (low : option pyval) (high : pyval) : pyval :=
  match low, high with
  | Some (PDict l), PDict h =>
      PDict ((fix go (h : dict) : dict :=
        match h with [] => l | (k, v) :: t => dset k (update (dget k l) v) (go t) end) h)
  | _, _ => high
  end.

#[export] Instance settings : PydanticSettings := {|
  deep_update low high := match update (Some (PDict low)) (PDict high) with PDict d => d | _ => [] end;
  coerce_str v := match v with PStr s => Some s | _ => None end;
  coerce_bool v := match v with PBool b => Some b | PStr "true" => Some true | _ => None end;
  coerce_int v := match v with PInt z => Some z | PStr "9000" => Some 9000 | _ => None end;
  coerce_float v := match v with PInt z => Some (1000 * z) | _ => None end;
|}.

Lemma update_get k l h :
  dget k (deep_update l h) =
  match dget k h with Some v => Some (update (dget k l) v) | None => dget k l end.
Proof.
  cbn. induction h as [|[k' v] h IH]; cbn [dget]; [done|]. destruct (decide (k' = k)) as [->|Hne].
  - apply dget_dset_eq.
  - by rewrite dget_dset_ne.
Qed.

#[export] Instance laws : PydanticSettingsLaws.
Proof.
  constructor. intros k l h. rewrite update_get.
  destruct (dget k l) as [[]|], (dget k h) as [[]|]; done.
Qed.

(** The environment sets the port, and switches the echo of the database on. *)
Definition env : dict := [("web", PDict [("port", PStr "9000")]); ("database", PDict [("echo", PStr "true")])].
Definition file : dict :=
  [("web", PDict [("host", PStr "127.0.0.1"); ("port", PInt 80)]); ("database", PDict [("url", PStr "sqlite://")])].

Lemma plain_check d :
  forallb (λ kv, match kv.2 with PDict e => forallb (λ kx, negb (is_dict kx.2)) e | _ => false end) d = true → plain d.
Proof.
  intros Hd sec v _ Hv%dget_elem_of. rewrite forallb_forall in Hd. apply list_elem_of_In, Hd in Hv. cbn in Hv.
  destruct v as [| | | | | | |e]; try done. exists e. split; [done|]. intros k x Hx%dget_elem_of%list_elem_of_In.
  rewrite forallb_forall in Hv. by apply Hv, negb_true_iff in Hx.
Qed.
End SettingsSample.

Lemma settings_precedence_witness :
  (s ← (match load_settings (H:=SettingsSample.settings) SettingsSample.env [] [] (Some (Ok (PDict SettingsSample.file))) with
        | Ok s => Some s | Err _ => None end);
   Some (host (web s), web_port (web s), url (database s), echo (database s), metrics_port (metrics s)))
  = Some ("127.0.0.1", 9000, "sqlite://", true, 9091) ∧
  load_settings (H:=SettingsSample.settings) SettingsSample.env [] [] (Some (Ok (PDict [("web", PDict [])]))) =
    Err (OtherError "ValidationError" "Settings").
Proof.
  assert (plain []) as Hnil by (apply SettingsSample.plain_check; reflexivity).
  assert (plain SettingsSample.env) as Henv by (apply SettingsSample.plain_check; reflexivity).
  split.
  - rewrite (settings_precedence (H:=SettingsSample.settings) (H0:=SettingsSample.laws) SettingsSample.env [] []
      SettingsSample.file Henv Hnil Hnil ltac:(apply SettingsSample.plain_check; reflexivity)).
    vm_compute. reflexivity.
  - rewrite (settings_precedence (H:=SettingsSample.settings) (H0:=SettingsSample.laws) SettingsSample.env [] []
      [("web", PDict [])] Henv Hnil Hnil ltac:(apply SettingsSample.plain_check; reflexivity)).
    vm_compute. reflexivity.
Defined.
