(* ===== verification/Metrics.v ===== *)
(** * Counting RPC calls (core/metrics.py: [track_rpc])

    The two adapters wrap each of their methods in [track_rpc], which times it and counts it under its chain, its
    method and a status.  A body that awaits can also be cancelled; CancelledError is no Exception, so [track_rpc] passes it on
    with the status that it began with. *)
From S2P Require Import Prelude.

Inductive outcome (A : Type) :=
  | Finished (r : result A)
  | Cancelled.
Arguments Finished {A}. Arguments Cancelled {A}.

(** RPC_REQUESTS_TOTAL, and the observations of RPC_REQUEST_SECONDS, newest first *)
Record RpcMetrics := mkRpcMetrics {
  rpc_requests_total : gmap (string * string * string) Z;
  rpc_request_seconds : gmap (string * string) (list Z);
}.

Section track.
Context {W : Type} (perf_counter : W → Z).

Definition rpc_status {A} (o : outcome A) : string :=
  match o with Finished (Err _) => "error" | _ => "success" end.

Definition track_rpc {A} (chain method : string) (body : W → outcome A * W) : RpcMetrics * W → outcome A * (RpcMetrics * W) :=
  λ '(mkRpcMetrics total seconds, w),
  let t0 := perf_counter w in
  let '(o, w') := body w in
  let key := (chain, method, rpc_status o) in
  (o, (mkRpcMetrics (<[key := default 0 (total !! key) + 1]> total)
         (<[(chain, method) := (perf_counter w' - t0) :: default [] (seconds !! (chain, method))]> seconds), w')).

(** Calls one after the other, whatever becomes of each *)
Fixpoint track_all {A} (calls : list (string * string * (W → outcome A * W))) (s : RpcMetrics * W)
    : list (string * string * outcome A) * (RpcMetrics * W) :=
  match calls with
  | [] => ([], s)
  | (chain, method, body) :: t =>
      let '(o, s1) := track_rpc chain method body s in
      let '(os, s2) := track_all t s1 in ((chain, method, o) :: os, s2)
  end.

Definition requests (s : RpcMetrics * W) (chain method status : string) : Z :=
  default 0 (rpc_requests_total s.1 !! (chain, method, status)).

Definition counts_as {A} (chain method status : string) (c : string * string * outcome A) : bool :=
  bool_decide (c.1.1 = chain) && bool_decide (c.1.2 = method) && bool_decide (rpc_status c.2 = status).

(** Tracking does not change what a call does. *)
Lemma track_transparent {A} chain method (body : W → outcome A * W) s :
  let '(o, s') := track_rpc chain method body s in (o, s'.2) = body s.2.
Proof. destruct s as [[total seconds] w]. cbn. by destruct (body w) as [o w']. Qed.

(** Every call is counted once, under the status of its own outcome. *)
Lemma track_counts {A} (calls : list (string * string * (W → outcome A * W))) s chain method status :
  let '(os, s') := track_all calls s in
  requests s' chain method status =
  requests s chain method status + Z.of_nat (length (filter (λ c, counts_as chain method status c = true) os)).
Proof.
  revert s. induction calls as [|[[c m] body] calls IH]; intros s; cbn [track_all]; [cbn; lia|].
  destruct s as [[total seconds] w]. cbn [track_rpc]. destruct (body w) as [o w'].
  set (s1 := (mkRpcMetrics _ _, w')). specialize (IH s1). destruct (track_all calls s1) as [os s2]. rewrite IH.
  assert (requests s1 chain method status = requests (mkRpcMetrics total seconds, w) chain method status +
    if counts_as chain method status (c, m, o) then 1 else 0) as ->.
  { unfold requests, counts_as. cbn.
    destruct (decide ((c, m, rpc_status o) = (chain, method, status))) as [[= -> -> <-]|Hne].
    - by rewrite lookup_insert_eq, !bool_decide_eq_true_2.
    - rewrite lookup_insert_ne by done. repeat case_bool_decide; cbn; try lia. congruence. }
  rewrite filter_cons. destruct (counts_as chain method status (c, m, o)); case_decide; cbn; try done; lia.
Qed.
End track.
