(* ===== verification/SendPool.v ===== *)
(** * The sends of a notifier (core/notifier/notifier.py: [_get_sem], [_send_one], [dispatch]; chain_runner.py: [_tracked_dispatch])

    [Notifier.dispatch] of [Notifier.v] performs the sends of one event one after the other.  Here the tasks of all
    dispatches of one notifier run side by side: each waits for one of [max_concurrency] permits of a
    semaphore, sends, calls back and is counted, and may be cancelled wherever it awaits.  A run is a list
    of events; the semaphore may wake the waiting tasks in any order. *)
From S2P Require Import Prelude PyStr PyVal Types Snapshot Repositories Notifier Callbacks.

(** Where [_send_one] is: before [async with], in [ch.send], in the callback that follows the answer, or
    at its end with the status it was counted under (none when it never had a permit) *)
Inductive phase :=
  | Waiting
  | Sending
  | Answered (r : result unit)
  | Done (status : option string).

Inductive pool_event {Ch : Type} :=
  | Spawn (channels : list (string * Ch)) (event : Event)
      (hits : list (SnapshotSubscription * list SnapshotChannel)) (replay : bool)  (** a dispatch begins *)
  | Acquire (i : nat)
  | Send (i : nat)
  | Settle (i : nat)    (** the callback returns; the [finally] clause and the release follow at once *)
  | Cancel (i : nat)
  | Return (d : nat).   (** the gather of a dispatch has all its tasks *)
Arguments pool_event : clear implicits.

Definition is_done (ph : phase) : bool := match ph with Done _ => true | _ => false end.

(** Inside [async with] *)
Definition holding (ph : phase) : bool := match ph with Sending | Answered _ => true | _ => false end.

Definition send_status (r : result unit) : string := if is_ok r then "success" else "failed".

(** ** Counting tasks *)
Fixpoint total {A} (f : A → nat) (l : list A) : nat :=
  match l with [] => 0 | x :: t => f x + total f t end.

Lemma total_app {A} (f : A → nat) l1 l2 : total f (l1 ++ l2) = (total f l1 + total f l2)%nat.
Proof. induction l1 as [|x l1 IH]; cbn; lia. Qed.

Lemma total_insert {A} (f : A → nat) l i x y :
  l !! i = Some x → (total f (<[i := y]> l) + f x = total f l + f y)%nat.
Proof.
  revert i. induction l as [|a l IH]; intros [|i] H; cbn in H; simplify_eq; [cbn; lia|].
  specialize (IH i H). change (f a + total f (<[i := y]> l) + f x = f a + total f l + f y)%nat. lia.
Qed.

Lemma total_none {A} (f : A → nat) l : (∀ x, x ∈ l → f x = 0%nat) → total f l = 0%nat.
Proof.
  induction l as [|a l IH]; intros H; cbn; [done|]. rewrite (H a) by left. apply IH. intros x Hx. apply H. by right.
Qed.

Lemma total_some {A} (f : A → nat) l x : x ∈ l → (f x <= total f l)%nat.
Proof. induction 1; cbn; lia. Qed.

Definition one (b : bool) : nat := if b then 1 else 0.

Section pool.
Context {Ch W : Type} `{!ChannelEnv Ch W}.
Context (on_failure on_success : callback W).
Context (ch_type : Ch → string).           (** the attribute [type] of a driver *)
Context (max_concurrency : nat).

Record Task := mkTask {
  t_job : job (Ch:=Ch);
  t_dispatch : nat;
  t_phase : phase;
}.

(** [pl_sem] is [_sem] (the permits left of a semaphore that is made on first use); [pl_dispatches] has for each dispatch
    whether it is tracked (those of blocks are, those of replays are not) and whether it has returned.  [pl_in_flight] and [pl_sends] are
    DISPATCH_IN_FLIGHT and CHANNEL_SENDS_TOTAL by type and status.  [pl_settled] is history. *)
Record Pool := mkPool {
  pl_sem : option nat;
  pl_tasks : list Task;
  pl_dispatches : list (bool * bool);
  pl_in_flight : Z;
  pl_sends : gmap (string * string) Z;
  pl_world : W;
  pl_settled : list nat;
}.

Definition Notifier_init (w : W) : Pool := mkPool None [] [] 0 ∅ w [].

(** [_get_sem] *)
Definition get_sem (p : Pool) : nat := default max_concurrency (pl_sem p).

Definition set_phase (i : nat) (t : Task) (ph : phase) (p : Pool) : Pool :=
  mkPool (pl_sem p) (<[i := mkTask (t_job t) (t_dispatch t) ph]> (pl_tasks p)) (pl_dispatches p)
    (pl_in_flight p) (pl_sends p) (pl_world p) (pl_settled p).
Definition set_permits (n : nat) (p : Pool) : Pool :=
  mkPool (Some n) (pl_tasks p) (pl_dispatches p) (pl_in_flight p) (pl_sends p) (pl_world p) (pl_settled p).
Definition set_pool_world (w : W) (p : Pool) : Pool :=
  mkPool (pl_sem p) (pl_tasks p) (pl_dispatches p) (pl_in_flight p) (pl_sends p) w (pl_settled p).
Definition note_settled (i : nat) (p : Pool) : Pool :=
  mkPool (pl_sem p) (pl_tasks p) (pl_dispatches p) (pl_in_flight p) (pl_sends p) (pl_world p) (pl_settled p ++ [i]).

(** The [finally] clause and the end of [async with] *)
Definition leave (i : nat) (t : Task) (status : string) (p : Pool) : Pool :=
  let key := (ch_type (job_ch (t_job t)), status) in
  set_permits (S (get_sem p))
    (mkPool (pl_sem p) (<[i := mkTask (t_job t) (t_dispatch t) (Done (Some status))]> (pl_tasks p)) (pl_dispatches p)
       (pl_in_flight p) (<[key := default 0 (pl_sends p !! key) + 1]> (pl_sends p)) (pl_world p) (pl_settled p)).

(** The callback after the answer [r] *)
Definition call_back (j : job (Ch:=Ch)) (r : result unit) : W → W :=
  match r with
  | Ok _ => run_callback on_success j None 1
  | Err exc => run_callback on_failure j (Some exc) (exn_attempts exc)
  end.

(** [_tracked_dispatch] around a dispatch: the gauge before it and in its [finally] clause *)
Definition tracked_begin (tracked : bool) (gauge : Z) : Z := if tracked then gauge + 1 else gauge.
Definition tracked_end (tracked : bool) (gauge : Z) : Z := if tracked then gauge - 1 else gauge.

Definition pool_step (e : pool_event Ch) (p : Pool) : option Pool :=
  match e with
  | Spawn channels event hits replay =>
      let '(js, w) := dispatch_jobs channels event hits replay (pl_world p) in
      let d := length (pl_dispatches p) in
      Some (mkPool (pl_sem p) (pl_tasks p ++ ((λ j, mkTask j d Waiting) <$> js))
              (pl_dispatches p ++ [(negb replay, false)])
              (tracked_begin (negb replay) (pl_in_flight p)) (pl_sends p) w (pl_settled p))
  | Acquire i =>
      t ← pl_tasks p !! i;
      match t_phase t, get_sem p with
      | Waiting, S n => Some (set_phase i t Sending (set_permits n p))
      | _, _ => None
      end
  | Send i =>
      t ← pl_tasks p !! i;
      match t_phase t with
      | Sending =>
          let '(r, w) := ch_send (job_ch (t_job t)) (job_payload (t_job t)) (pl_world p) in
          Some (set_phase i t (Answered r) (set_pool_world w p))
      | _ => None
      end
  | Settle i =>
      t ← pl_tasks p !! i;
      match t_phase t with
      | Answered r =>
          Some (note_settled i (leave i t (send_status r) (set_pool_world (call_back (t_job t) r (pl_world p)) p)))
      | _ => None
      end
  | Cancel i =>
      t ← pl_tasks p !! i;
      match t_phase t with
      | Waiting => Some (set_phase i t (Done None) p)
      | Sending => Some (leave i t "failed" p)
      | Answered r => Some (leave i t (send_status r) p)
      | Done _ => None
      end
  | Return d =>
      match pl_dispatches p !! d with
      | Some (tracked, false) =>
          if forallb (λ t, negb (Nat.eqb (t_dispatch t) d) || is_done (t_phase t)) (pl_tasks p) then
            Some (mkPool (pl_sem p) (pl_tasks p) (<[d := (tracked, true)]> (pl_dispatches p))
                    (tracked_end tracked (pl_in_flight p)) (pl_sends p) (pl_world p) (pl_settled p))
          else None
      | _ => None
      end
  end.

Fixpoint pool_run (es : list (pool_event Ch)) (p : Pool) : option Pool :=
  match es with
  | [] => Some p
  | e :: es' => pool_step e p ≫= pool_run es'
  end.

(** ** What every run keeps *)

(** Counted by the metric with these labels *)
Definition counted (ty st : string) (t : Task) : bool :=
  match t_phase t with
  | Done (Some s) => String.eqb s st && String.eqb (ch_type (job_ch (t_job t))) ty
  | _ => false
  end.

Definition open_tracked (d : bool * bool) : bool := d.1 && negb d.2.

Definition in_flight (p : Pool) : nat := total (λ t, one (holding (t_phase t))) (pl_tasks p).

Record pool_ok (p : Pool) : Prop := {
  ok_permits : (get_sem p + in_flight p)%nat = max_concurrency;
  ok_sends ty st : default 0 (pl_sends p !! (ty, st)) = Z.of_nat (total (λ t, one (counted ty st t)) (pl_tasks p));
  ok_gauge : pl_in_flight p = Z.of_nat (total (λ d, one (open_tracked d)) (pl_dispatches p));
}.

Lemma init_ok w : pool_ok (Notifier_init w).
Proof. split; [apply Nat.add_0_r|..]; done. Qed.

(** What replacing one task asks of the permits and of the counter *)
Lemma replace_ok i t t' sem sends w st p :
  pl_tasks p !! i = Some t →
  (default max_concurrency sem + one (holding (t_phase t')) = get_sem p + one (holding (t_phase t)))%nat →
  (∀ ty s, default 0 (sends !! (ty, s)) + Z.of_nat (one (counted ty s t)) =
           default 0 (pl_sends p !! (ty, s)) + Z.of_nat (one (counted ty s t'))) →
  pool_ok p →
  pool_ok (mkPool sem (<[i := t']> (pl_tasks p)) (pl_dispatches p) (pl_in_flight p) sends w st).
Proof.
  intros Ht Hsem Hsends [H1 H2 H3]. split; cbn [pl_tasks pl_sends pl_dispatches pl_in_flight]; [| |done].
  - unfold get_sem, in_flight in *. cbn [pl_sem pl_tasks].
    pose proof (total_insert (λ t, one (holding (t_phase t))) _ _ _ t' Ht). cbn beta in *. lia.
  - intros ty s. specialize (H2 ty s). specialize (Hsends ty s).
    pose proof (total_insert (λ t, one (counted ty s t)) _ _ _ t' Ht). cbn beta in *. lia.
Qed.

Lemma leave_ok i t s w st p :
  pl_tasks p !! i = Some t → holding (t_phase t) = true → pool_ok p →
  pool_ok (let p' := leave i t s p in
           mkPool (pl_sem p') (pl_tasks p') (pl_dispatches p') (pl_in_flight p') (pl_sends p') w st).
Proof.
  intros Ht Hh Hok. cbn [leave set_permits pl_sem pl_tasks pl_dispatches pl_in_flight pl_sends].
  apply (replace_ok i t); [done| |intros ty s'|done].
  - cbn. rewrite Hh. cbn. lia.
  - destruct t as [j d ph]. unfold counted. cbn [t_job t_phase] in *.
    assert (match ph with Done (Some _) => false | _ => true end = true) as Hph by by destruct ph.
    destruct (decide ((ch_type (job_ch j), s) = (ty, s'))) as [[= <- <-]|Hne].
    + rewrite lookup_insert_eq, !String.eqb_refl. cbn. destruct ph as [| | |[]]; cbn in *; try done; lia.
    + rewrite lookup_insert_ne by done. destruct (String.eqb_spec s s'), (String.eqb_spec (ch_type (job_ch j)) ty);
        cbn; try congruence; destruct ph as [| | |[]]; cbn in *; try done; lia.
Qed.

Lemma pool_step_ok e p p' : pool_step e p = Some p' → pool_ok p → pool_ok p'.
Proof.
  intros H Hok. destruct e as [chs ev hits replay|i|i|i|i|d]; cbn [pool_step] in H.
  - destruct (dispatch_jobs _ _ _ _ _) as [js w]. simplify_eq. destruct Hok as [H1 H2 H3].
    assert (∀ f, (∀ j, f (mkTask j (length (pl_dispatches p)) Waiting) = 0%nat) →
      total f (pl_tasks p ++ ((λ j, mkTask j (length (pl_dispatches p)) Waiting) <$> js)) = total f (pl_tasks p)) as Hnew.
    { intros f Hf. rewrite total_app, (total_none f (_ <$> js)); [lia|]. by intros t (j & -> & _)%list_elem_of_fmap. }
    split; unfold get_sem, in_flight in *; cbn [pl_sem pl_tasks pl_sends pl_dispatches pl_in_flight].
    + rewrite Hnew by done. lia.
    + intros ty st. by rewrite Hnew.
    + rewrite total_app. destruct replay; cbn; lia.
  - destruct (pl_tasks p !! i) as [t|] eqn:Ht; cbn in H; [|done]. destruct t as [j d ph]. cbn [t_phase] in H.
    destruct ph, (get_sem p) as [|n] eqn:Hn; simplify_eq.
    apply (replace_ok i (mkTask j d Waiting) _ _ _ _ _ p); [done|rewrite Hn; cbn; lia| |done]. done.
  - destruct (pl_tasks p !! i) as [t|] eqn:Ht; cbn in H; [|done]. destruct t as [j d ph]. cbn [t_phase t_job] in H.
    destruct ph; try done. destruct (ch_send _ _ _) as [r w]. simplify_eq.
    apply (replace_ok i (mkTask j d Sending) _ _ _ _ _ p); [done|done| |done]. done.
  - destruct (pl_tasks p !! i) as [t|] eqn:Ht; cbn in H; [|done]. destruct t as [j d ph]. cbn [t_phase t_job] in H.
    destruct ph; simplify_eq. by apply (leave_ok i (mkTask j d (Answered r)) _ _ _ p).
  - destruct (pl_tasks p !! i) as [t|] eqn:Ht; cbn in H; [|done]. destruct t as [j d ph]. cbn [t_phase t_job] in H.
    destruct ph; simplify_eq.
    + apply (replace_ok i (mkTask j d Waiting) _ _ _ _ _ p); [done|done| |done]. done.
    + by apply (leave_ok i (mkTask j d Sending) "failed" (pl_world p) (pl_settled p) p).
    + by apply (leave_ok i (mkTask j d (Answered r)) _ (pl_world p) (pl_settled p) p).
  - destruct (pl_dispatches p !! d) as [[tracked []]|] eqn:Hd; [done| |done].
    destruct (forallb _ _); [|done]. simplify_eq. destruct Hok as [H1 H2 H3]. split; [done..|].
    cbn [pl_in_flight pl_dispatches].
    pose proof (total_insert (λ d, one (open_tracked d)) _ _ _ (tracked, true) Hd) as H. cbn beta in H.
    unfold open_tracked in H at 2 4. cbn in H. rewrite andb_true_r, andb_false_r in H. destruct tracked; cbn in H |- *; lia.
Qed.

Lemma pool_run_ok es p p' : pool_run es p = Some p' → pool_ok p → pool_ok p'.
Proof.
  revert p. induction es as [|e es IH]; intros p H Hok; cbn in H; [by simplify_eq|].
  destruct (pool_step e p) as [p1|] eqn:Hs; [|done]. eapply IH; [done|]. by eapply pool_step_ok.
Qed.

(** ** Every dispatch comes to its end *)

(** The events of a notifier left to itself: nobody dispatches or cancels. *)
Definition working (e : pool_event Ch) : bool := match e with Spawn _ _ _ _ | Cancel _ => false | _ => true end.
Definition no_spawn (e : pool_event Ch) : bool := match e with Spawn _ _ _ _ => false | _ => true end.

Definition steps_left (ph : phase) : nat :=
  match ph with Waiting => 3 | Sending => 2 | Answered _ => 1 | Done _ => 0 end.

Definition measure (p : Pool) : nat :=
  (total (λ t, steps_left (t_phase t)) (pl_tasks p) + total (λ d, one (negb d.2)) (pl_dispatches p))%nat.

Lemma step_measure e p p' :
  no_spawn e = true → pool_step e p = Some p' → (measure p' < measure p)%nat.
Proof.
  intros Hns H. destruct e as [chs ev hits replay|i|i|i|i|d]; [done|..]; cbn [pool_step] in H.
  1-4: destruct (pl_tasks p !! i) as [t|] eqn:Ht; cbn in H; [|done]; destruct t as [j d ph]; cbn [t_phase t_job] in H;
    pose proof (λ t', total_insert (λ t, steps_left (t_phase t)) _ _ _ t' Ht) as Hm; cbn beta in Hm;
    cbn [t_phase] in Hm; unfold measure.
  - destruct ph, (get_sem p); simplify_eq. specialize (Hm (mkTask j d Sending)). cbn in Hm |- *. lia.
  - destruct ph; try done. destruct (ch_send _ _ _) as [r w]. simplify_eq.
    specialize (Hm (mkTask j d (Answered r))). cbn in Hm |- *. lia.
  - destruct ph as [| |r|]; simplify_eq. specialize (Hm (mkTask j d (Done (Some (send_status r))))). cbn in Hm |- *. lia.
  - destruct ph as [| |r|]; simplify_eq.
    + specialize (Hm (mkTask j d (Done None))). cbn in Hm |- *. lia.
    + specialize (Hm (mkTask j d (Done (Some "failed")))). cbn in Hm |- *. lia.
    + specialize (Hm (mkTask j d (Done (Some (send_status r))))). cbn in Hm |- *. lia.
  - destruct (pl_dispatches p !! d) as [[tracked []]|] eqn:Hd; [done| |done].
    destruct (forallb _ _); [|done]. simplify_eq. unfold measure. cbn [pl_tasks pl_dispatches].
    pose proof (total_insert (λ d, one (negb d.2)) _ _ _ (tracked, true) Hd) as H. cbn in H. lia.
Qed.

Lemma run_measure es p p' :
  Forall (λ e, no_spawn e = true) es → pool_run es p = Some p' → (length es + measure p' <= measure p)%nat.
Proof.
  intros Hes. revert p. induction Hes as [|e es He Hes IH]; intros p H; cbn in H; [simplify_eq; cbn; lia|].
  destruct (pool_step e p) as [p1|] eqn:Hs; [|done]. apply step_measure in Hs; [|done].
  specialize (IH _ H). cbn. lia.
Qed.

(** All tasks have ended and all dispatches have returned. *)
Definition drained (p : Pool) : bool :=
  forallb (λ t, is_done (t_phase t)) (pl_tasks p) && forallb snd (pl_dispatches p).

Lemma forallb_witness {A} (f : A → bool) l : forallb f l = false → ∃ i x, l !! i = Some x ∧ f x = false.
Proof.
  induction l as [|x l IH]; cbn; [done|]. destruct (f x) eqn:Hf; [|by exists 0%nat, x].
  intros (i & y & Hi & Hy)%IH. by exists (S i), y.
Qed.

Lemma pool_progress p :
  (0 < max_concurrency)%nat → pool_ok p → drained p = false →
  ∃ e, working e = true ∧ is_Some (pool_step e p).
Proof.
  intros Hmax Hok Hd. unfold drained in Hd.
  destruct (forallb (λ t, is_done (t_phase t)) (pl_tasks p)) eqn:Hall.
  - apply forallb_witness in Hd as (d & [tracked b] & Hd & Hb). cbn in Hb. subst b. exists (Return d). split; [done|].
    cbn. rewrite Hd, (proj2 (forallb_forall _ _)); [done|]. intros t Ht.
    rewrite forallb_forall in Hall. rewrite Hall by done. apply orb_true_r.
  - apply forallb_witness in Hall as (i & t & Ht & Hph).
    destruct (forallb (λ t, negb (holding (t_phase t))) (pl_tasks p)) eqn:Hhold.
    + exists (Acquire i). split; [done|]. cbn. rewrite Ht. cbn.
      rewrite forallb_forall in Hhold. pose proof (Hhold t) as Ht'.
      assert (holding (t_phase t) = false) as Hh.
      { apply negb_true_iff, Ht', list_elem_of_In. by eapply list_elem_of_lookup_2. }
      pose proof (ok_permits _ Hok) as Hp. unfold in_flight in Hp. rewrite (total_none _ (pl_tasks p)) in Hp.
      2: { intros x Hx%list_elem_of_In%Hhold%negb_true_iff. by rewrite Hx. }
      destruct (t_phase t); try done. destruct (get_sem p); [lia|done].
    + apply forallb_witness in Hhold as (i' & t' & Ht' & Hh%negb_false_iff).
      destruct (t_phase t') as [| |r|] eqn:Hph'; try done.
      * exists (Send i'). split; [done|]. cbn. rewrite Ht'. cbn. rewrite Hph'. by destruct (ch_send _ _ _).
      * exists (Settle i'). split; [done|]. cbn. rewrite Ht'. cbn. by rewrite Hph'.
Qed.

Lemma drains p :
  (0 < max_concurrency)%nat → pool_ok p →
  ∃ es p', Forall (λ e, working e = true) es ∧ pool_run es p = Some p' ∧ drained p' = true.
Proof.
  intros Hmax. remember (measure p) as n eqn:Hn. revert p Hn. induction (lt_wf n) as [n _ IH]. intros p -> Hok.
  destruct (drained p) eqn:Hd; [by exists [], p|].
  destruct (pool_progress p Hmax Hok Hd) as (e & He & p1 & Hs).
  destruct (IH (measure p1)) with (p := p1) as (es & p' & Hes & Hrun & Hd'); [|done|by eapply pool_step_ok|].
  - eapply step_measure; [|exact Hs]. by destruct e.
  - exists (e :: es), p'. split; [by constructor|]. split; [cbn; by rewrite Hs|done].
Qed.

Lemma drained_at_rest p :
  pool_ok p → drained p = true → in_flight p = 0%nat ∧ get_sem p = max_concurrency ∧ pl_in_flight p = 0.
Proof.
  intros [H1 H2 H3] [Ht Hd]%andb_true_iff. rewrite forallb_forall in Ht, Hd.
  assert (in_flight p = 0%nat) as Hf.
  { apply total_none. intros t Hin%list_elem_of_In%Ht. by destruct (t_phase t). }
  split; [done|]. split; [lia|]. rewrite H3, total_none; [done|].
  intros d Hin%list_elem_of_In%Hd. unfold open_tracked. by rewrite Hin, andb_false_r.
Qed.

(** C36 However the tasks of all dispatches of a notifier interleave, and whichever of them are cancelled while they
    wait, send or call back: at most [max_concurrency] sends are under way, no permit is lost, every task that held a
    permit is counted once under its type and status, and DISPATCH_IN_FLIGHT is the number of tracked
    dispatches that have not returned.  When the limit is positive the tasks are never stuck:
    left alone they need at most [measure] further steps, after which every dispatch has returned, all permits are free
    and the gauge is back at zero. *)
Theorem send_pool_drains es w p :
  pool_run es (Notifier_init w) = Some p →
  (in_flight p <= max_concurrency)%nat ∧ (get_sem p + in_flight p)%nat = max_concurrency ∧
  (∀ ty st, default 0 (pl_sends p !! (ty, st)) = Z.of_nat (total (λ t, one (counted ty st t)) (pl_tasks p))) ∧
  pl_in_flight p = Z.of_nat (total (λ d, one (open_tracked d)) (pl_dispatches p)) ∧
  (∀ es' p', Forall (λ e, no_spawn e = true) es' → pool_run es' p = Some p' → (length es' <= measure p)%nat) ∧
  ((0 < max_concurrency)%nat →
   (drained p = false → ∃ e, working e = true ∧ is_Some (pool_step e p)) ∧
   ∃ es' p', Forall (λ e, working e = true) es' ∧ pool_run es' p = Some p' ∧ drained p' = true ∧
     in_flight p' = 0%nat ∧ get_sem p' = max_concurrency ∧ pl_in_flight p' = 0).
Proof.
  intros Hrun. pose proof (pool_run_ok _ _ _ Hrun (init_ok w)) as Hok. destruct (Hok) as [H1 H2 H3].
  split; [lia|]. split_and!; [done..| |].
  - intros es' p' Hes Hrun'. pose proof (run_measure _ _ _ Hes Hrun'). lia.
  - intros Hmax. split; [by apply pool_progress|]. destruct (drains p Hmax Hok) as (es' & p' & Hes & Hrun' & Hd).
    exists es', p'. split_and!; [done..| | |]; eapply drained_at_rest; eauto using pool_run_ok.
Qed.

(** ** The concurrent sends of a dispatch are those of [Notifier.dispatch] in some order *)

Definition send_of (j : job (Ch:=Ch)) (w : W) : result unit * W := ch_send (job_ch j) (job_payload j) w.

(** Two sends, or a send and the callback of another task, can be exchanged: each server and the store
    behind the callbacks see only what is addressed to them. *)
Record sends_independent : Prop := {
  si_sends j1 j2 w :
    let '(r1, w1) := send_of j1 w in let '(r2, w2) := send_of j2 w1 in
    ∃ w', send_of j2 w = (r2, w') ∧ send_of j1 w' = (r1, w2);
  si_callback j1 j2 r w :
    let '(r1, w1) := send_of j1 w in send_of j1 (call_back j2 r w) = (r1, call_back j2 r w1);
}.

Lemma send_one_split j w :
  send_one on_failure on_success j w = let '(r, w1) := send_of j w in call_back j r w1.
Proof. unfold send_one, send_of. by destruct (ch_send _ _ _) as [[[]|x] w1]. Qed.

(** The sends [l] one after the other, with their answers *)
Inductive sent : list (job (Ch:=Ch) * result unit) → W → W → Prop :=
  | sent_nil w : sent [] w w
  | sent_cons j r l w w1 w2 : send_of j w = (r, w1) → sent l w1 w2 → sent ((j, r) :: l) w w2.

Lemma sent_snoc l j r w w1 w2 : sent l w w1 → send_of j w1 = (r, w2) → sent (l ++ [(j, r)]) w w2.
Proof. induction 1; cbn; intros H'; econstructor; eauto. constructor. Qed.

Lemma sent_first (Hi : sends_independent) l1 l2 j r w w2 :
  sent (l1 ++ (j, r) :: l2) w w2 → ∃ w1, send_of j w = (r, w1) ∧ sent (l1 ++ l2) w1 w2.
Proof.
  revert w. induction l1 as [|[j1 r1] l1 IH]; intros w H; inversion H as [|? ? ? ? w1 ? H1 H2]; subst.
  - by exists w1.
  - apply IH in H2 as (w3 & H3 & H4). pose proof (si_sends Hi j1 j w) as H5. rewrite H1, H3 in H5.
    destruct H5 as (w' & H5 & H6). exists w'. split; [done|]. by econstructor.
Qed.

Lemma sent_call_back (Hi : sends_independent) l j r w w2 :
  sent l w w2 → sent l (call_back j r w) (call_back j r w2).
Proof.
  induction 1 as [w|j1 r1 l w w1 w2 H1 _ IH]; [constructor|]. econstructor; [|exact IH].
  pose proof (si_callback Hi j1 j r w) as H2. by rewrite H1 in H2.
Qed.

(** The events of one dispatch that nobody cancels *)
Definition task_event (e : pool_event Ch) : bool :=
  match e with Acquire _ | Send _ | Settle _ => true | _ => false end.

Definition jobs_at (js : list (job (Ch:=Ch))) (order : list nat) : list (job (Ch:=Ch)) := omap (js !!.) order.

Definition sent_all (js : list (job (Ch:=Ch))) (w : W) : W := foldl (λ w j, send_one on_failure on_success j w) w js.

(** [pending]: the answers that have no callback yet, in the order they came *)
Record in_order (js : list (job (Ch:=Ch))) (w0 : W) (p : Pool)
    (pending : list (nat * (job (Ch:=Ch) * result unit))) : Prop := {
  io_jobs : t_job <$> pl_tasks p = js;
  io_pending i j r : (i, (j, r)) ∈ pending ↔ ∃ d, pl_tasks p !! i = Some (mkTask j d (Answered r));
  io_done i : i ∈ pl_settled p ↔ ∃ j d s, pl_tasks p !! i = Some (mkTask j d (Done s));
  io_pending_nodup : NoDup pending;
  io_settled_nodup : NoDup (pl_settled p);
  io_world : sent pending.*2 (sent_all (jobs_at js (pl_settled p)) w0) (pl_world p);
}.

Lemma jobs_kept i t ph (ts : list Task) :
  ts !! i = Some t → t_job <$> <[i := mkTask (t_job t) (t_dispatch t) ph]> ts = t_job <$> ts.
Proof. intros H. rewrite list_fmap_insert. apply list_insert_id. by rewrite list_lookup_fmap, H. Qed.

Lemma lookup_task i i' t' (ts : list Task) :
  (i < length ts)%nat → <[i := t']> ts !! i' = if decide (i = i') then Some t' else ts !! i'.
Proof. intros H. case_decide as He; [subst; by apply list_lookup_insert_eq|by apply list_lookup_insert_ne]. Qed.

Lemma total_two {A} (f : A → nat) l i i' x y :
  l !! i = Some x → l !! i' = Some y → i ≠ i' → (f x + f y <= total f l)%nat.
Proof.
  revert i i'. induction l as [|a l IH]; intros [|i] [|i'] H1 H2 Hne; cbn in *; simplify_eq.
  - pose proof (total_some f l y (list_elem_of_lookup_2 _ _ _ H2)). lia.
  - pose proof (total_some f l x (list_elem_of_lookup_2 _ _ _ H1)). lia.
  - specialize (IH i i' H1 H2 ltac:(congruence)). lia.
Qed.

(** With a single permit nothing else is pending. *)
Lemma only_pending js w0 p l1 l2 i j r :
  max_concurrency = 1%nat → pool_ok p → in_order js w0 p (l1 ++ (i, (j, r)) :: l2) → l1 = [] ∧ l2 = [].
Proof.
  intros Hmax Hok [_ Hp _ Hnd _ _].
  assert (∀ y, y ∉ l1 ++ l2) as Hno.
  { intros [i' [j' r']] Hy.
    destruct (proj1 (Hp i j r)) as [d Hd]; [set_solver|].
    destruct (proj1 (Hp i' j' r')) as [d' Hd']; [set_solver|].
    assert (i ≠ i') as Hne.
    { intros <-. rewrite Hd in Hd'. simplify_eq. apply NoDup_app in Hnd as (_ & Hn1 & Hn2%NoDup_cons).
      apply elem_of_app in Hy as [Hy|Hy]; [by apply (Hn1 _ Hy); left|by apply Hn2]. }
    pose proof (total_two (λ t, one (holding (t_phase t))) _ _ _ _ _ Hd Hd' Hne) as Ht. cbn in Ht.
    pose proof (ok_permits _ Hok) as Hpm. unfold in_flight in Hpm. lia. }
  destruct l1 as [|y l1]; [|by destruct (Hno y); left]. split; [done|].
  destruct l2 as [|y l2]; [done|by destruct (Hno y); left].
Qed.

Lemma order_moves js w0 p sem w i t ph pending :
  pl_tasks p !! i = Some t → (∀ s, t_phase t ≠ Done s) → (∀ r, t_phase t ≠ Answered r) → ph = Sending →
  w = pl_world p → in_order js w0 p pending →
  in_order js w0 (mkPool sem (<[i := mkTask (t_job t) (t_dispatch t) ph]> (pl_tasks p)) (pl_dispatches p)
    (pl_in_flight p) (pl_sends p) w (pl_settled p)) pending.
Proof.
  intros Ht Hnd Hna -> -> [H1 H2 H3 H4 H5 H6]. assert (i < length (pl_tasks p))%nat as Hi by by eapply lookup_lt_Some.
  split; cbn [pl_tasks pl_settled pl_world]; [by rewrite jobs_kept| | |done..].
  - intros i' j r. rewrite H2, lookup_task by done. case_decide as He; [subst i'|done].
    rewrite Ht. split; intros [d Hd]; [|done]. simplify_eq. by destruct (Hna r).
  - intros i'. rewrite H3, lookup_task by done. case_decide as He; [subst i'|done].
    rewrite Ht. split; intros (j & d & s & Hd); [|done]. simplify_eq. by destruct (Hnd s).
Qed.

Lemma order_settles js w0 p pending i j d r :
  max_concurrency = 1%nat ∨ sends_independent → pool_ok p → in_order js w0 p pending →
  pl_tasks p !! i = Some (mkTask j d (Answered r)) →
  ∃ pending', in_order js w0 (note_settled i (leave i (mkTask j d (Answered r)) (send_status r)
    (set_pool_world (call_back j r (pl_world p)) p))) pending'.
Proof.
  intros Hor Hok Hin Ht. assert (i < length (pl_tasks p))%nat as Hi by by eapply lookup_lt_Some.
  assert ((i, (j, r)) ∈ pending) as Hp by (apply (io_pending _ _ _ _ Hin); by exists d).
  apply list_elem_of_split in Hp as (l1 & l2 & ->). exists (l1 ++ l2).
  assert (∃ w1, send_of j (sent_all (jobs_at js (pl_settled p)) w0) = (r, w1) ∧
    sent (l1 ++ l2).*2 (call_back j r w1) (call_back j r (pl_world p))) as (w1 & Hw1 & Hsent).
  { pose proof (io_world _ _ _ _ Hin) as Hw. rewrite fmap_app in Hw. cbn in Hw. destruct Hor as [Hone|Hind].
    - destruct (only_pending _ _ _ _ _ _ _ _ Hone Hok Hin) as [-> ->]. cbn in *.
      inversion Hw as [|? ? ? ? w1 ? H1 H2]; subst. inversion H2; subst. exists (pl_world p). split; [done|constructor].
    - apply sent_first in Hw as (w1 & H1 & H2); [|done]. exists w1. split; [done|].
      rewrite fmap_app. by apply sent_call_back. }
  destruct Hin as [H1 H2 H3 H4 H5 H6].
  assert (js !! i = Some j) as Hj by by rewrite <- H1, list_lookup_fmap, Ht.
  assert (i ∉ pl_settled p) as Hns by (rewrite H3, Ht; naive_solver).
  split; cbn [note_settled leave set_permits set_pool_world pl_tasks pl_settled pl_world t_job t_dispatch].
  + by rewrite (jobs_kept i (mkTask j d (Answered r))).
  + intros i' j' r'. rewrite lookup_task by done. specialize (H2 i' j' r').
    apply NoDup_app in H4 as (Hn1 & Hn2 & Hn3). apply NoDup_cons in Hn3 as [Hn3 Hn4].
    rewrite elem_of_app, elem_of_cons in H2. rewrite elem_of_app. case_decide as He'; [subst i'|naive_solver].
    split; [|naive_solver]. intros Hl. assert (∃ d', pl_tasks p !! i = Some (mkTask j' d' (Answered r'))) as [d' Hd']
      by (apply H2; naive_solver). rewrite Ht in Hd'. simplify_eq.
    destruct Hl as [Hl|Hl]; [|done]. by apply Hn2 in Hl; destruct Hl; left.
  + intros i'. rewrite elem_of_app, list_elem_of_singleton, H3, lookup_task by done.
    case_decide as He'; [subst i'|naive_solver]. split; [intros _; by do 3 eexists|intros _; by right].
  + apply NoDup_app in H4 as (Hn1 & Hn2 & Hn3). apply NoDup_cons in Hn3 as [Hn3 Hn4].
    apply NoDup_app. split_and!; [done| |done]. intros x Hx Hx'. apply (Hn2 x Hx). by right.
  + apply NoDup_app. split_and!; [done| |apply NoDup_singleton]. by intros x Hx ->%list_elem_of_singleton.
  + unfold jobs_at, sent_all in *. rewrite omap_app, foldl_app. cbn. rewrite Hj. cbn. rewrite send_one_split.
    rewrite Hw1. done.
Qed.

Lemma order_step js w0 e p p' pending :
  max_concurrency = 1%nat ∨ sends_independent → task_event e = true → pool_ok p → pool_step e p = Some p' →
  in_order js w0 p pending → ∃ pending', in_order js w0 p' pending'.
Proof.
  intros Hor He Hok H Hin. destruct e as [| i|i|i| |]; try done; cbn [pool_step] in H;
    destruct (pl_tasks p !! i) as [t|] eqn:Ht; cbn in H; try done; destruct t as [j d ph]; cbn [t_phase t_job] in H;
    assert (i < length (pl_tasks p))%nat as Hi by by eapply lookup_lt_Some.
  - destruct ph, (get_sem p) as [|n]; simplify_eq. exists pending.
    by apply (order_moves js w0 p (Some n) (pl_world p) i (mkTask j d Waiting) Sending).
  - destruct ph; try done. destruct (ch_send (job_ch j) _ _) as [r w] eqn:Hs. simplify_eq.
    exists (pending ++ [(i, (j, r))]). destruct Hin as [H1 H2 H3 H4 H5 H6].
    split; cbn [set_phase set_pool_world pl_tasks pl_settled pl_world t_job t_dispatch].
    + by rewrite (jobs_kept i (mkTask j d Sending)).
    + intros i' j' r'. rewrite elem_of_app, list_elem_of_singleton, H2, lookup_task by done.
      case_decide as He'; [subst i'|naive_solver]. rewrite Ht. naive_solver.
    + intros i'. rewrite H3, lookup_task by done. case_decide as He'; [subst i'|done]. rewrite Ht. naive_solver.
    + apply NoDup_app. split; [done|]. split; [|apply NoDup_singleton]. intros [i' [j' r']] [d' Hx]%H2 Hx'%list_elem_of_singleton.
      simplify_eq.
    + done.
    + rewrite fmap_app. by eapply sent_snoc.
  - destruct ph as [| |r|]; simplify_eq. by apply (order_settles js w0 p pending i j d r).
Qed.

Lemma order_run js w0 es p p' pending :
  max_concurrency = 1%nat ∨ sends_independent → Forall (λ e, task_event e = true) es → pool_ok p →
  pool_run es p = Some p' → in_order js w0 p pending → ∃ pending', in_order js w0 p' pending'.
Proof.
  intros Hor Hes. revert p pending. induction Hes as [|e es He Hes IH]; intros p pending Hok H Hin; cbn in H.
  - simplify_eq. by exists pending.
  - destruct (pool_step e p) as [p1|] eqn:Hs; [|done].
    destruct (order_step js w0 e p p1 pending Hor He Hok Hs Hin) as [pending1 Hin1].
    eapply IH; [by eapply pool_step_ok|done|done].
Qed.

(** One task from its permit to its end *)
Definition whole (i : nat) : list (pool_event Ch) := [Acquire i; Send i; Settle i].

Lemma run_whole i j d n p :
  pl_tasks p !! i = Some (mkTask j d Waiting) → get_sem p = S n →
  ∃ p' s, pool_run (whole i) p = Some p' ∧ pl_tasks p' = <[i := mkTask j d (Done s)]> (pl_tasks p) ∧
    get_sem p' = S n ∧ pl_world p' = send_one on_failure on_success j (pl_world p).
Proof.
  intros Ht Hn. assert (i < length (pl_tasks p))%nat as Hi by by eapply lookup_lt_Some.
  cbn [whole pool_run pool_step]. rewrite Ht. cbn. rewrite Hn. cbn. rewrite list_lookup_insert_eq by done. cbn.
  destruct (ch_send (job_ch j) (job_payload j) (pl_world p)) as [r w] eqn:Hs. cbn.
  rewrite !list_insert_insert_eq, list_lookup_insert_eq by done. cbn. do 2 eexists. split; [done|]. cbn.
  rewrite !list_insert_insert_eq. split_and!; [done..|]. by rewrite send_one_split; unfold send_of; rewrite Hs.
Qed.

Lemma run_app es1 es2 p : pool_run (es1 ++ es2) p = pool_run es1 p ≫= pool_run es2.
Proof.
  revert p. induction es1 as [|e es1 IH]; intros p; cbn; [done|]. destruct (pool_step e p); [apply IH|done].
Qed.

Lemma run_in_order js order n p :
  NoDup order → (∀ i, i ∈ order → ∃ j d, js !! i = Some j ∧ pl_tasks p !! i = Some (mkTask j d Waiting)) →
  get_sem p = S n →
  ∃ p', pool_run (order ≫= whole) p = Some p' ∧ pl_world p' = sent_all (jobs_at js order) (pl_world p) ∧
    ∀ i, (i ∈ order → ∃ t s, pl_tasks p' !! i = Some t ∧ t_phase t = Done s) ∧
         (i ∉ order → pl_tasks p' !! i = pl_tasks p !! i).
Proof.
  intros Hnd. revert p. induction Hnd as [|i order Hi Hnd IH]; intros p Hw Hn.
  - exists p. split_and!; [done..|]. intros i. split; [by intros ?%elem_of_nil|done].
  - destruct (Hw i) as (j & d & Hj & Ht); [by left|].
    destruct (run_whole i j d n p Ht Hn) as (p1 & s & Hrun & Hts & Hn1 & Hw1).
    assert (i < length (pl_tasks p))%nat as Hlt by by eapply lookup_lt_Some.
    destruct (IH p1) as (p' & Hrun' & Hw' & Hts').
    + intros i' Hi'. destruct (Hw i') as (j' & d' & Hj' & Ht'); [by right|]. exists j', d'. split; [done|].
      rewrite Hts, lookup_task by done. rewrite decide_False; [done|]. by intros ->.
    + done.
    + exists p'. rewrite bind_cons, run_app, Hrun. cbn [mbind option_bind]. split; [done|]. split.
      * rewrite Hw', Hw1. unfold jobs_at, sent_all. cbn. rewrite Hj. done.
      * intros i'. destruct (Hts' i') as [Ha Hb]. split.
        -- intros [->|Hin]%elem_of_cons; [|by apply Ha]. rewrite Hb, Hts, list_lookup_insert_eq by done. by do 2 eexists.
        -- intros [Hne Hn']%not_elem_of_cons. rewrite (Hb Hn'), Hts, lookup_task by done. by rewrite decide_False by congruence.
Qed.

(** A permutation as an order of indices *)
Lemma lookups_tail {A} (x : A) l (ids : list nat) : omap ((x :: l) !!.) (S <$> ids) = omap (l !!.) ids.
Proof. induction ids as [|i ids IH]; [done|]. cbn. destruct (l !! i); by rewrite <- IH. Qed.

Lemma lookups_all {A} (l : list A) : omap (l !!.) (seq 0 (length l)) = l.
Proof.
  induction l as [|x l IH]; [done|]. cbn [length seq]. rewrite <- fmap_S_seq.
  transitivity (x :: omap ((x :: l) !!.) (S <$> seq 0 (length l))); [done|]. by rewrite lookups_tail, IH.
Qed.

Lemma order_of_permutation {A} (l js : list A) :
  l ≡ₚ js → ∃ order, order ≡ₚ seq 0 (length js) ∧ l = omap (js !!.) order.
Proof.
  intros (Hlen & f & Hf & Hl)%Permutation_inj. exists (f <$> seq 0 (length l)). split.
  - rewrite <- Hlen. apply submseteq_length_Permutation; [|by rewrite length_fmap, !length_seq].
    apply NoDup_submseteq; [apply NoDup_fmap_2, NoDup_seq; done|]. intros x (i & -> & Hi)%list_elem_of_fmap.
    apply elem_of_seq in Hi. apply elem_of_seq. split; [lia|]. rewrite Hlen. eapply lookup_lt_is_Some_1.
    rewrite <- Hl. apply lookup_lt_is_Some_2. lia.
  - rewrite <- (lookups_all l) at 1. induction (seq 0 (length l)) as [|i ids IH]; cbn; [done|].
    rewrite <- Hl. by destruct (l !! i); rewrite IH.
Qed.

Lemma spawned chs ev hits replay w js w1 :
  dispatch_jobs chs ev hits replay w = (js, w1) →
  ∃ p, pool_step (Spawn chs ev hits replay) (Notifier_init w) = Some p ∧ pool_ok p ∧ get_sem p = max_concurrency ∧
    pl_tasks p = (λ j, mkTask j 0 Waiting) <$> js ∧ in_order js w1 p [] ∧ pl_world p = w1.
Proof.
  intros Hjs. destruct (pool_step (Spawn chs ev hits replay) (Notifier_init w)) as [p|] eqn:Hs;
    pose proof Hs as Hs'; cbn [pool_step Notifier_init pl_world] in Hs; rewrite Hjs in Hs; [|done]. simplify_eq.
  eexists. split; [done|]. split; [eapply pool_step_ok; [done|apply init_ok]|]. split_and!; try done.
  split; cbn [pl_tasks pl_settled pl_world Notifier_init app]; [|intros i j r|intros i|apply NoDup_nil_2..|constructor].
  - rewrite <- list_fmap_compose. apply list_fmap_id.
  - split; [by intros ?%elem_of_nil|]. intros [d Hd]. rewrite list_lookup_fmap in Hd. by destruct (js !! i).
  - split; [by intros ?%elem_of_nil|]. intros (j & d & s & Hd). rewrite list_lookup_fmap in Hd. by destruct (js !! i).
Qed.

(** C23 The concurrent sends of an event do what sending one after the other in some order does: when the servers and
    the store act independently, or a single permit is given out, the worlds in which the tasks of a
    dispatch can end, over all interleavings in which the semaphore lets them in, send and call back, are
    exactly the worlds that [Notifier.dispatch] reaches for some order of its sends. *)
Theorem send_pool_is_dispatch chs ev hits replay w w' :
  (0 < max_concurrency)%nat → max_concurrency = 1%nat ∨ sends_independent →
  (∃ es p, Forall (λ e, task_event e = true) es ∧
     pool_run (Spawn chs ev hits replay :: es) (Notifier_init w) = Some p ∧
     forallb (λ t, is_done (t_phase t)) (pl_tasks p) = true ∧ pl_world p = w') ↔
  (∃ schedule, (∀ js, schedule js ≡ₚ js) ∧
     dispatch on_failure on_success schedule ev hits replay (chs, w) = (chs, w')).
Proof.
  intros Hmax Hor. unfold dispatch. cbn [fst snd].
  destruct (dispatch_jobs chs ev hits replay w) as [js w1] eqn:Hjs.
  destruct (spawned _ _ _ _ _ _ _ Hjs) as (p0 & Hs & Hok & Hsem & Htasks & Hin & Hw0).
  cbn [pool_run]. rewrite Hs. cbn [mbind option_bind]. split.
  - intros (es & p & Hes & Hrun & Hdone & <-).
    destruct (order_run js w1 es p0 p [] Hor Hes Hok Hrun Hin) as [pending [H1 H2 H3 H4 H5 H6]].
    rewrite forallb_forall in Hdone.
    assert (pending = []) as ->.
    { destruct pending as [|[i [j r]] l]; [done|]. destruct (proj1 (H2 i j r)) as [d Hd]; [by left|].
      apply list_elem_of_lookup_2, list_elem_of_In, Hdone in Hd. done. }
    inversion H6 as [w2 Hw2 Hw3|]; subst w2. 
    assert (pl_settled p ≡ₚ seq 0 (length js)) as Hperm.
    { apply NoDup_Permutation; [done|apply NoDup_seq|]. intros i. rewrite H3, elem_of_seq, <- H1, length_fmap. split.
      - intros (j & d & s & Hd%lookup_lt_Some). lia.
      - intros [_ Hi]. destruct (lookup_lt_is_Some_2 (pl_tasks p) i Hi) as [[j d ph] Ht].
        pose proof Ht as Hph%list_elem_of_lookup_2%list_elem_of_In%Hdone. destruct ph; try done. by do 3 eexists. }
    exists (λ l, if decide (length l = length js) then jobs_at l (pl_settled p) else l). split.
    + intros l. case_decide as Hl; [|done]. unfold jobs_at. rewrite Hperm, <- Hl, lookups_all. done.
    + rewrite decide_True by done. done.
  - intros (schedule & Hsched & [= <-]). destruct (order_of_permutation _ _ (Hsched js)) as (order & Hord & ->).
    assert (NoDup order) as Hnd by (rewrite Hord; apply NoDup_seq).
    assert (get_sem p0 = S (pred max_concurrency)) as Hn by lia.
    destruct (run_in_order js order (pred max_concurrency) p0 Hnd) as (p & Hrun & Hw & Ht); [|exact Hn|].
    + intros i Hi. rewrite Hord in Hi. apply elem_of_seq in Hi as [_ Hi]. destruct (lookup_lt_is_Some_2 js i Hi) as [j Hj].
      exists j, 0%nat. by rewrite Htasks, list_lookup_fmap, Hj.
    + exists (order ≫= whole), p. split_and!; [|done| |by rewrite Hw, Hw0].
      * apply Forall_bind, Forall_true. intros i. by repeat constructor.
      * apply forallb_forall. intros t (i & Hi)%list_elem_of_In%list_elem_of_lookup_1. destruct (Ht i) as [Ha Hb].
        destruct (decide (i ∈ order)) as [Hi'|Hi'].
        -- destruct (Ha Hi') as (t' & s & Ht' & Hph). simplify_eq. by rewrite Hph.
        -- rewrite (Hb Hi'), Htasks, list_lookup_fmap in Hi. destruct (js !! i) as [j|] eqn:Hj; [|done].
           destruct Hi'. rewrite Hord. apply elem_of_seq. split; [lia|]. by eapply lookup_lt_Some.
Qed.
End pool.

(** ** Samples: the two channels of [LedgerSample], with the callbacks of the worker *)
Module PoolSample.
Definition run (max : nat) (es : list (pool_event (result unit))) : option (Pool (Ch:=result unit) (W:=Store nat)) :=
  pool_run (ChannelEnv0:=stored (ChannelEnv0:=LedgerSample.channels))
    (on_delivery_failure (L:=ToySql) (CallbackEnv0:=LedgerSample.env))
    (on_delivery_success (L:=ToySql) (CallbackEnv0:=LedgerSample.env))
    (λ _, "http") max es (Notifier_init (mkStore empty_db 0%nat)).

Definition begin : pool_event (result unit) := Spawn LedgerSample.drivers sample_event LedgerSample.hits false.
(** The second send is let in first and cancelled while the first has its answer. *)
Definition events : list (pool_event (result unit)) := [begin; Acquire 1; Acquire 0; Send 0; Cancel 1; Settle 0].
End PoolSample.

(** With two permits both sends are under way; the cancelled one is counted as failed and leaves no record. *)
Example pool_sample :
  (λ p, (in_flight p, pl_in_flight p)) <$> PoolSample.run 2 (take 4 PoolSample.events) = Some (2%nat, 1) ∧
  PoolSample.run 1 (take 3 PoolSample.events) = None ∧
  (λ p, (pl_sends p !! ("http", "success"), pl_sends p !! ("http", "failed"), size (db_deliveries (st_db (pl_world p)))))
    <$> PoolSample.run 2 PoolSample.events = Some (Some 1, Some 1, 1%nat).
Proof. split_and!; vm_compute; reflexivity. Qed.

Lemma send_pool_drains_witness :
  ∃ p p' : Pool (Ch:=result unit) (W:=Store nat),
    PoolSample.run 1 [PoolSample.begin; Acquire 1] = Some p ∧ in_flight p = 1%nat ∧ pl_in_flight p' = 0 ∧
    in_flight p' = 0%nat ∧ get_sem 1 p' = 1%nat.
Proof.
  destruct (PoolSample.run 1 [PoolSample.begin; Acquire 1]) as [p|] eqn:H; [|vm_compute in H; discriminate].
  destruct (send_pool_drains _ _ _ _ _ _ _ H) as (_ & _ & _ & _ & _ & Hd).
  destruct (Hd (le_n 1)) as (_ & es & p' & _ & _ & _ & H1 & H2 & H3). exists p, p'. split; [reflexivity|].
  split; [|split; [exact H3|split; [exact H1|exact H2]]].
  vm_compute in H. injection H as <-. reflexivity.
Defined.

Lemma sample_independent :
  sends_independent (ChannelEnv0:=stored (ChannelEnv0:=LedgerSample.channels))
    (on_delivery_failure (L:=ToySql) (CallbackEnv0:=LedgerSample.env))
    (on_delivery_success (L:=ToySql) (CallbackEnv0:=LedgerSample.env)).
Proof.
  assert (∀ j w, send_of (ChannelEnv0:=stored (ChannelEnv0:=LedgerSample.channels)) j w = (job_ch j, w)) as H
    by by intros j [db e].
  split; intros j1 j2; intros.
  - rewrite !H. exists w. by rewrite !H.
  - by rewrite !H.
Qed.

(** Either send can come first; the records of both orders are what the two permits can lead to. *)
Lemma send_pool_is_dispatch_witness :
  ∃ es p, Forall (λ e, task_event e = true) es ∧ PoolSample.run 2 (PoolSample.begin :: es) = Some p ∧
    forallb (λ t, is_done (t_phase t)) (pl_tasks p) = true ∧ size (db_deliveries (st_db (pl_world p))) = 2%nat.
Proof.
  destruct (send_pool_is_dispatch (ChannelEnv0:=stored (ChannelEnv0:=LedgerSample.channels))
    (on_delivery_failure (L:=ToySql) (CallbackEnv0:=LedgerSample.env))
    (on_delivery_success (L:=ToySql) (CallbackEnv0:=LedgerSample.env)) (λ _, "http") 2
    LedgerSample.drivers sample_event LedgerSample.hits false (mkStore empty_db 0%nat)
    (dispatch (ChannelEnv0:=stored (ChannelEnv0:=LedgerSample.channels))
      (on_delivery_failure (L:=ToySql) (CallbackEnv0:=LedgerSample.env))
      (on_delivery_success (L:=ToySql) (CallbackEnv0:=LedgerSample.env)) reverse sample_event LedgerSample.hits false
      (LedgerSample.drivers, mkStore empty_db 0%nat)).2) as [_ H].
  - apply Nat.lt_0_2.
  - right. exact sample_independent.
  - destruct H as (es & p & Hes & Hrun & Hdone & Hw).
    + exists reverse. split; [intros js; apply reverse_Permutation|reflexivity].
    + exists es, p. split; [exact Hes|]. split; [exact Hrun|]. split; [exact Hdone|]. rewrite Hw. vm_compute. reflexivity.
Defined.
