(* ===== verification/PoolLedger.v ===== *)
(** * The delivery records of concurrent sends (core/notifier/notifier.py, apps/worker/main.py)

    The tasks of [SendPool] with the callbacks of the worker, which write the table of delivery records: what any run of any
    number of dispatches, some of whose tasks may be cancelled, leaves in the database. *)
From S2P Require Import Prelude PyStr PyVal Types Snapshot Repositories Notifier Callbacks SendPool.

Section ledger.
Context {L : Sql} {E Ch : Type} `{!CallbackEnv E, !ChannelEnv Ch E}.
Context (used : E → gset string).
Context (ch_type : Ch → string) (max_concurrency : nat).
#[local] Existing Instance stored.

Abbreviation Tasks := (Pool (Ch:=Ch) (W:=Store E)).
Definition step : pool_event Ch → Tasks → option Tasks :=
  pool_step on_delivery_failure on_delivery_success ch_type max_concurrency.
Definition runs : list (pool_event Ch) → Tasks → option Tasks :=
  pool_run on_delivery_failure on_delivery_success ch_type max_concurrency.

(** Subscription and channel of every task, and of every send that the dispatches of a run ask for *)
Definition task_ids (t : Task (Ch:=Ch)) : string * string := (job_subscription_id (t_job t), job_channel_id (t_job t)).
Definition recipients_of (es : list (pool_event Ch)) : list (string * string) :=
  es ≫= λ e, match e with Spawn chs _ hits _ => Ledger.recipients chs hits | _ => [] end.
Definition no_cancel (e : pool_event Ch) : bool := match e with Cancel _ => false | _ => true end.

(** What a step does to the tasks, the world and the history *)
Definition step_view (e : pool_event Ch) (p p' : Tasks) : Prop :=
  match e with
  | Spawn chs ev hits replay =>
      let '(js, w) := dispatch_jobs chs ev hits replay (pl_world p) in
      pl_tasks p' = pl_tasks p ++ ((λ j, mkTask j (length (pl_dispatches p)) Waiting) <$> js) ∧
      pl_world p' = w ∧ pl_settled p' = pl_settled p
  | Send i => ∃ j d r w, pl_tasks p !! i = Some (mkTask j d Sending) ∧
      ch_send (job_ch j) (job_payload j) (pl_world p) = (r, w) ∧
      pl_tasks p' = <[i := mkTask j d (Answered r)]> (pl_tasks p) ∧ pl_world p' = w ∧ pl_settled p' = pl_settled p
  | Settle i => ∃ j d r, pl_tasks p !! i = Some (mkTask j d (Answered r)) ∧
      pl_tasks p' = <[i := mkTask j d (Done (Some (send_status r)))]> (pl_tasks p) ∧
      pl_world p' = call_back on_delivery_failure on_delivery_success j r (pl_world p) ∧
      pl_settled p' = pl_settled p ++ [i]
  | Acquire i => ∃ j d, pl_tasks p !! i = Some (mkTask j d Waiting) ∧
      pl_tasks p' = <[i := mkTask j d Sending]> (pl_tasks p) ∧ pl_world p' = pl_world p ∧ pl_settled p' = pl_settled p
  | Cancel i => ∃ j d ph s, pl_tasks p !! i = Some (mkTask j d ph) ∧ is_done ph = false ∧
      pl_tasks p' = <[i := mkTask j d (Done s)]> (pl_tasks p) ∧ pl_world p' = pl_world p ∧ pl_settled p' = pl_settled p
  | Return _ => pl_tasks p' = pl_tasks p ∧ pl_world p' = pl_world p ∧ pl_settled p' = pl_settled p
  end.

Lemma step_views e p p' : step e p = Some p' → step_view e p p'.
Proof.
  intros H. unfold step in H. destruct e as [chs ev hits replay|i|i|i|i|d]; cbn [pool_step step_view] in *.
  1: { destruct (dispatch_jobs _ _ _ _ _) as [js w]. by simplify_eq. }
  5: { destruct (pl_dispatches p !! d) as [[tracked []]|]; [done| |done]. destruct (forallb _ _); by simplify_eq. }
  all: destruct (pl_tasks p !! i) as [[j d ph]|] eqn:Ht; cbn in H; [|done].
  - destruct ph, (get_sem max_concurrency p); simplify_eq. by exists j, d.
  - destruct ph; try done. destruct (on_env _ _) as [r w] eqn:Hs. simplify_eq. by exists j, d, r, w.
  - destruct ph; simplify_eq. by exists j, d, r.
  - destruct ph; simplify_eq; by do 4 eexists.
Qed.

(** A task that has ended stays as it is. *)
Lemma done_stays e p p' i t s :
  step e p = Some p' → pl_tasks p !! i = Some t → t_phase t = Done s → pl_tasks p' !! i = Some t.
Proof.
  intros H%step_views Ht Hs. destruct e as [chs ev hits replay|k|k|k|k|d]; cbn [step_view] in H.
  - destruct (dispatch_jobs _ _ _ _ _) as [js w]. destruct H as (-> & _). by apply lookup_app_l_Some.
  - destruct H as (j & d & Hk & -> & _). rewrite list_lookup_insert_ne; [done|]. intros ->. by simplify_eq.
  - destruct H as (j & d & r & w & Hk & _ & -> & _). rewrite list_lookup_insert_ne; [done|]. intros ->. by simplify_eq.
  - destruct H as (j & d & r & Hk & -> & _). rewrite list_lookup_insert_ne; [done|]. intros ->. by simplify_eq.
  - destruct H as (j & d & ph & s' & Hk & Hph & -> & _). rewrite list_lookup_insert_ne; [done|]. intros ->.
    simplify_eq. cbn in Hs. by subst ph.
  - by destruct H as (-> & _).
Qed.

(** The tasks of a run, in the order in which the dispatches ask for them *)
Lemma step_ids e p p' :
  step e p = Some p' → task_ids <$> pl_tasks p' = (task_ids <$> pl_tasks p) ++ recipients_of [e].
Proof.
  intros H%step_views. unfold recipients_of. cbn. rewrite app_nil_r.
  assert (∀ i j d ph ph', pl_tasks p !! i = Some (mkTask j d ph) →
    task_ids <$> <[i := mkTask j d ph']> (pl_tasks p) = task_ids <$> pl_tasks p) as Hsame.
  { intros i j d ph ph' Hi. rewrite list_fmap_insert. apply list_insert_id. by rewrite list_lookup_fmap, Hi. }
  destruct e as [chs ev hits replay|k|k|k|k|d]; cbn [step_view] in H; rewrite ?app_nil_r.
  - pose proof (dispatch_jobs_stored used chs ev hits replay (pl_world p)) as Hj.
    destruct (dispatch_jobs chs ev hits replay (pl_world p)) as [js w]. destruct Hj as (Hj & _), H as (-> & _).
    by rewrite fmap_app, <- list_fmap_compose, <- Hj.
  - destruct H as (j & d & Hk & -> & _). by eapply Hsame.
  - destruct H as (j & d & r & w & Hk & _ & -> & _). by eapply Hsame.
  - destruct H as (j & d & r & Hk & -> & _). by eapply Hsame.
  - destruct H as (j & d & ph & s' & Hk & Hph & -> & _). by eapply Hsame.
  - by destruct H as (-> & _).
Qed.

(** In the run [es] the send of task [i], whose job is [j], was answered with [out]. *)
Definition sent (s0 : Store E) (es : list (pool_event Ch)) (i : nat) (j : job (Ch:=Ch)) (out : result unit) : Prop :=
  ∃ es1 es2 p1 d, es = es1 ++ Send i :: es2 ∧ runs es1 (Notifier_init s0) = Some p1 ∧
    pl_tasks p1 !! i = Some (mkTask j d Sending) ∧
    (ch_send (job_ch j) (job_payload j) (st_env (pl_world p1))).1 = out.

Lemma sent_later s0 es e i j out : sent s0 es i j out → sent s0 (es ++ [e]) i j out.
Proof.
  intros (es1 & es2 & p1 & d & -> & H). exists es1, (es2 ++ [e]), p1, d. split; [|exact H]. by rewrite <- app_assoc.
Qed.

(** Every task has the payload of an event, and its answer is the one of its send. *)
Definition task_ok (s0 : Store E) (es : list (pool_event Ch)) (i : nat) (t : Task (Ch:=Ch)) : Prop :=
  (∃ c, dget "chain_id" (job_payload (t_job t)) = Some (PStr c)) ∧
  ∀ r, t_phase t = Answered r → sent s0 es i (t_job t) r.

(** The record of a task that has settled *)
Definition row_filed (s0 : Store E) (es : list (pool_event Ch)) (p : Tasks) (i : nat)
    (a : string * DeliveryRecordRow) : Prop :=
  ∃ t s out, pl_tasks p !! i = Some t ∧ t_phase t = Done s ∧ sent s0 es i (t_job t) out ∧ row_for out (t_job t) a.2.

(** [added]: the records of the run, at most one per settled task, in the order the tasks settled *)
Record filed (s0 : Store E) (es : list (pool_event Ch)) (p : Tasks) (kept : list nat)
    (added : list (string * DeliveryRecordRow)) : Prop := {
  fi_tasks i t : pl_tasks p !! i = Some t → task_ok s0 es i t;
  fi_rows : Forall2 (row_filed s0 es p) kept added;
  fi_kept : NoDup kept;
  fi_nodup : NoDup added.*1;
  fi_fresh id : id ∈ added.*1 → db_deliveries (st_db s0) !! id = None;
  fi_db : st_db (pl_world p) = set_deliveries (list_to_map added ∪ db_deliveries (st_db s0)) (st_db s0);
  fi_exact : ledger_laws used → ids_used used s0 →
    ids_used used (pl_world p) ∧ (accepts_records → kept = pl_settled p);
}.

Lemma rows_stay s0 es e p p' kept added :
  step e p = Some p' → Forall2 (row_filed s0 es p) kept added →
  Forall2 (row_filed s0 (es ++ [e]) p') kept added.
Proof.
  intros Hstep H. eapply Forall2_impl; [exact H|]. intros i a (t & s & out & Ht & Hs & Ho & Hr).
  exists t, s, out. split; [by eapply done_stays|]. split; [done|]. split; [by apply sent_later|done].
Qed.

(** A step that neither settles a task nor touches the database *)
Lemma filed_keeps s0 es e p p' kept added :
  step e p = Some p' → pl_settled p' = pl_settled p → st_db (pl_world p') = st_db (pl_world p) →
  (ledger_laws used → used (st_env (pl_world p)) ⊆ used (st_env (pl_world p'))) →
  (∀ i t, pl_tasks p' !! i = Some t → task_ok s0 (es ++ [e]) i t) →
  filed s0 es p kept added → filed s0 (es ++ [e]) p' kept added.
Proof.
  intros Hstep Hset Hdb Hused Hts [H2 H3 H4 H5 H6 H7 H8]. split; rewrite ?Hset, ?Hdb; try done.
  - by eapply rows_stay.
  - intros Hl Hs. destruct (H8 Hl Hs) as [H1 Hk]. split; [|done]. unfold ids_used in *. rewrite Hdb.
    exact (transitivity H1 (Hused Hl)).
Qed.

(** What becomes of the tasks when one of them changes *)
Lemma tasks_ok_insert s0 es e p kept added i t :
  filed s0 es p kept added → task_ok s0 (es ++ [e]) i t →
  ∀ k t', <[i := t]> (pl_tasks p) !! k = Some t' → task_ok s0 (es ++ [e]) k t'.
Proof.
  intros Hf Ht k t' [(-> & <- & _)|[_ Hk]]%list_lookup_insert_Some; [done|].
  destruct (fi_tasks _ _ _ _ _ Hf _ _ Hk) as [Hc Hr]. split; [done|]. intros r Hp. by apply sent_later, Hr.
Qed.

Lemma filed_settles s0 es p p' kept added i :
  step (Settle i) p = Some p' → filed s0 es p kept added →
  ∃ kept' added', filed s0 (es ++ [Settle i]) p' kept' added'.
Proof.
  intros Hstep Hf. pose proof Hf as [H2 H3 H4 H5 H6 H7 H8].
  pose proof Hstep as (j & d & r & Hi & Hts & Hw & Hset)%step_views.
  assert (i < length (pl_tasks p))%nat as Hlt by by eapply lookup_lt_Some.
  destruct (H2 _ _ Hi) as [[c Hc] Hr]. cbn [t_job t_phase] in *. specialize (Hr r eq_refl).
  destruct (callback_saved used j c r (pl_world p) Hc) as (id & row & Hrow & Hsaved).
  assert (saved used id row (pl_world p) (pl_world p')) as [Hwritten Hsure] by (rewrite Hw; by destruct r).
  assert (∀ k t, pl_tasks p' !! k = Some t → task_ok s0 (es ++ [Settle i]) k t) as Htasks.
  { rewrite Hts. eapply tasks_ok_insert; [exact Hf|]. split; [by exists c|done]. }
  assert (i ∉ kept) as Hnk.
  { intros [n Hk]%list_elem_of_lookup_1.
    destruct (Forall2_lookup_l _ _ _ _ _ H3 Hk) as (a & _ & t & s & o & Ht & Hs & _). rewrite Hi in Ht. by simplify_eq. }
  pose proof (rows_stay s0 es _ p p' kept added Hstep H3) as Hrows.
  destruct Hwritten as [[Hnew Hdb]|Hdb].
  - rewrite H7 in Hnew, Hdb. cbn in Hnew, Hdb. apply lookup_union_None in Hnew as [Hn1 Hn2].
    assert (id ∉ added.*1) as Hid by by apply not_elem_of_list_to_map.
    exists (kept ++ [i]), (added ++ [(id, row)]). split.
    + exact Htasks.
    + apply Forall2_app; [exact Hrows|]. constructor; [|done]. do 3 eexists.
      rewrite Hts, list_lookup_insert_eq by done. split; [done|]. split; [done|].
      split; [by apply sent_later, Hr|exact Hrow].
    + apply NoDup_app. split_and!; [done| |apply NoDup_singleton]. by intros k Hk ->%list_elem_of_singleton.
    + rewrite fmap_app. apply NoDup_app. split_and!; [done| |apply NoDup_singleton].
      by intros x Hx ->%list_elem_of_singleton.
    + intros x. rewrite fmap_app, elem_of_app. change ([(id, row)].*1) with [id]. rewrite list_elem_of_singleton.
      intros [Hx| ->]; [by apply H6|done].
    + rewrite Hdb, insert_union_l, (list_to_map_snoc (M:=gmap string)); done.
    + intros Hl Hs. destruct (H8 Hl Hs) as [H1 Hk]. split; [by apply Hsure|]. intros Ha. by rewrite Hset, (Hk Ha).
  - exists kept, added. split; [exact Htasks|exact Hrows|done|done|done|by rewrite Hdb|].
    intros Hl Hs. destruct (H8 Hl Hs) as [H1 Hk], (Hsure Hl H1) as [H1' Hrec]. split; [done|]. intros Ha. exfalso.
    destruct (Hrec Ha) as [Hn Hdb']. rewrite Hdb in Hdb'.
    assert (db_deliveries (st_db (pl_world p)) !! id = Some row) as Hr'; [|congruence].
    apply (f_equal db_deliveries) in Hdb'. cbn in Hdb'. rewrite Hdb'. apply lookup_insert_eq.
Qed.

Lemma filed_step s0 es e p p' kept added :
  runs es (Notifier_init s0) = Some p → step e p = Some p' → filed s0 es p kept added →
  ∃ kept' added', filed s0 (es ++ [e]) p' kept' added'.
Proof.
  intros Hrun Hstep Hf. pose proof (step_views _ _ _ Hstep) as Hv.
  destruct e as [chs ev hits replay|i|i|i|i|d]; cbn [step_view] in Hv.
  - pose proof (dispatch_jobs_stored used chs ev hits replay (pl_world p)) as Hj.
    destruct (dispatch_jobs chs ev hits replay (pl_world p)) as [js w].
    destruct Hj as (_ & Hjs & Hdb & Hu), Hv as (Ht & <- & Hset).
    exists kept, added. apply (filed_keeps s0 es _ p p' kept added Hstep Hset); try done. rewrite Ht.
    intros i t [Hi|[_ Hi]]%lookup_app_Some.
    + destruct (fi_tasks _ _ _ _ _ Hf _ _ Hi) as [Hc Hr]. split; [done|]. intros r Hp. by apply sent_later, Hr.
    + rewrite list_lookup_fmap in Hi. apply fmap_Some in Hi as (j & Hj & ->).
      destruct (proj1 (Forall_lookup _ _) Hjs _ _ Hj) as (_ & Hc & _). split; [by eexists|done].
  - destruct Hv as (j & d & Hi & Ht & Hw & Hset). exists kept, added.
    apply (filed_keeps s0 es _ p p' kept added Hstep Hset); rewrite ?Hw; try done. rewrite Ht.
    eapply tasks_ok_insert; [exact Hf|]. destruct (fi_tasks _ _ _ _ _ Hf _ _ Hi) as [Hc _]. by split.
  - destruct Hv as (j & d & r & w & Hi & Hs & Ht & Hw & Hset). exists kept, added.
    cbn [ch_send stored] in Hs. unfold on_env, mzoom in Hs.
    pose proof (λ Hl, ll_send used Hl (job_ch j) (job_payload j) (st_env (pl_world p))) as Hsub.
    destruct (ch_send (job_ch j) (job_payload j) (st_env (pl_world p))) as [r' e'] eqn:Es.
    cbn [fst snd] in *. injection Hs as <- <-.
    apply (filed_keeps s0 es _ p p' kept added Hstep Hset); rewrite ?Hw; [done|exact Hsub| |exact Hf]. rewrite Ht.
    eapply tasks_ok_insert; [exact Hf|]. destruct (fi_tasks _ _ _ _ _ Hf _ _ Hi) as [Hc _]. split; [done|].
    cbn. intros r0 [= <-]. exists es, [], p, d. by rewrite Es.
  - by eapply filed_settles.
  - destruct Hv as (j & d & ph & s & Hi & Hph & Ht & Hw & Hset). exists kept, added.
    apply (filed_keeps s0 es _ p p' kept added Hstep Hset); rewrite ?Hw; try done. rewrite Ht.
    eapply tasks_ok_insert; [exact Hf|]. destruct (fi_tasks _ _ _ _ _ Hf _ _ Hi) as [Hc _]. by split.
  - destruct Hv as (Ht & Hw & Hset). exists kept, added.
    apply (filed_keeps s0 es _ p p' kept added Hstep Hset); rewrite ?Hw; try done. rewrite Ht.
    intros i t Hi. destruct (fi_tasks _ _ _ _ _ Hf _ _ Hi) as [Hc Hr]. split; [done|]. intros r Hp. by apply sent_later, Hr.
Qed.

Lemma runs_snoc es e p p' : runs (es ++ [e]) p = Some p' → ∃ q, runs es p = Some q ∧ step e q = Some p'.
Proof.
  unfold runs, step. revert p. induction es as [|e' es IH]; intros p; cbn [app pool_run].
  - destruct (pool_step _ _ _ _ e p) as [p1|] eqn:Hs; cbn; [|done]. intros [= <-]. by exists p.
  - destruct (pool_step _ _ _ _ e' p) as [p1|] eqn:Hs; cbn; [|done]. apply IH.
Qed.

Lemma runs_inv (P : Tasks → Prop) es p p' :
  (∀ e p p', e ∈ es → step e p = Some p' → P p → P p') → runs es p = Some p' → P p → P p'.
Proof.
  revert p. induction es as [|e es IH]; intros p Hstep Hrun HP; unfold runs in Hrun; cbn in Hrun; [by simplify_eq|].
  destruct (pool_step _ _ _ _ e p) as [p1|] eqn:Hs; [|done]. eapply (IH p1); [|exact Hrun|].
  - intros e' q q' He'. apply Hstep. by right.
  - eapply Hstep; [by left|exact Hs|done].
Qed.

Lemma runs_filed s0 es p : runs es (Notifier_init s0) = Some p → ∃ kept added, filed s0 es p kept added.
Proof.
  revert p. induction es as [|e es IH] using rev_ind; intros p Hrun.
  - unfold runs in Hrun. cbn in Hrun. simplify_eq. exists [], []. split; try done; try constructor.
    + by intros id ?%elem_of_nil.
    + cbn. rewrite (left_id_L ∅ (∪)). by destruct (st_db s0).
  - apply runs_snoc in Hrun as (q & Hq & Hs). destruct (IH q Hq) as (kept & added & Hf). by eapply filed_step.
Qed.

Lemma runs_ids es p p' :
  runs es p = Some p' → task_ids <$> pl_tasks p' = (task_ids <$> pl_tasks p) ++ recipients_of es.
Proof.
  revert p. induction es as [|e es IH]; intros p Hrun; unfold runs in Hrun; cbn in Hrun.
  - simplify_eq. by rewrite app_nil_r.
  - destruct (pool_step _ _ _ _ e p) as [p1|] eqn:Hs; [|done]. rewrite (IH _ Hrun), (step_ids e p p1 Hs).
    unfold recipients_of. cbn. by rewrite app_nil_r, app_assoc.
Qed.

(** When nobody cancels, only settling ends a task. *)
Lemma runs_settled s0 es p :
  Forall (λ e, no_cancel e = true) es → runs es (Notifier_init s0) = Some p →
  ∀ i t s, pl_tasks p !! i = Some t → t_phase t = Done s → i ∈ pl_settled p.
Proof.
  intros Hes Hrun.
  apply (runs_inv (λ p, ∀ i t s, pl_tasks p !! i = Some t → t_phase t = Done s → i ∈ pl_settled p) es (Notifier_init s0) p);
    [|exact Hrun|done]. 
  intros e q q' He Hstep IH i t s Hi Hs. rewrite Forall_forall in Hes. specialize (Hes e He).
  apply step_views in Hstep. destruct e as [chs ev hits replay|k|k|k|k|d]; cbn [step_view] in Hstep; [..|done|].
  - destruct (dispatch_jobs _ _ _ _ _) as [js w]. destruct Hstep as (Ht & _ & ->). rewrite Ht in Hi.
    apply lookup_app_Some in Hi as [Hi|[_ Hi]]; [by eapply IH|].
    rewrite list_lookup_fmap in Hi. apply fmap_Some in Hi as (j & _ & ->). done.
  - destruct Hstep as (j & d & Hk & Ht & _ & ->). rewrite Ht in Hi.
    apply list_lookup_insert_Some in Hi as [(-> & <- & _)|[_ Hi]]; [done|by eapply IH].
  - destruct Hstep as (j & d & r & w & Hk & _ & Ht & _ & ->). rewrite Ht in Hi.
    apply list_lookup_insert_Some in Hi as [(-> & <- & _)|[_ Hi]]; [done|by eapply IH].
  - destruct Hstep as (j & d & r & Hk & Ht & _ & ->). rewrite Ht in Hi. apply elem_of_app.
    apply list_lookup_insert_Some in Hi as [(-> & <- & _)|[_ Hi]]; [right; by left|left; by eapply IH].
  - destruct Hstep as (Ht & _ & ->). rewrite Ht in Hi. by eapply IH.
Qed.

Lemma row_ids s0 es (p : Tasks) kept (added : list (string * DeliveryRecordRow)) :
  Forall2 (row_filed s0 es p) kept added →
  (λ r, (d_subscription_id r, d_channel_id r)) <$> added.*2 = omap ((task_ids <$> pl_tasks p) !!.) kept.
Proof.
  induction 1 as [|i [id r] kept added (t & s & o & Ht & _ & _ & H1 & H2 & _) _ IH]; [done|]. csimpl.
  rewrite list_lookup_fmap, Ht. cbn. unfold task_ids at 1. cbn in H1, H2. by rewrite H1, H2, <- IH.
Qed.

Lemma omap_submseteq {A B} (f : A → option B) l k : l ⊆+ k → omap f l ⊆+ omap f k.
Proof. intros (k' & ->)%submseteq_Permutation. rewrite omap_app. by apply submseteq_inserts_r. Qed.

(** C6 The ledger of concurrent dispatches.  However the tasks of any number of dispatches interleave under the semaphore,
    whatever the channels answer, whichever tasks are cancelled and whichever records the table refuses, the run adds to
    the table of delivery records at most one record per started channel of each hit and changes nothing else in the
    database; every record carries the payload of its task and tells the very answer of the send of that task in
    this run.  When the ids that are drawn are fresh, the table refuses no record, nobody cancels and all
    tasks have ended, there is exactly one. *)
Theorem send_pool_records es s0 p :
  runs es (Notifier_init s0) = Some p →
  ∃ added : list (string * DeliveryRecordRow),
    st_db (pl_world p) = set_deliveries (list_to_map added ∪ db_deliveries (st_db s0)) (st_db s0) ∧
    NoDup added.*1 ∧ (∀ id, id ∈ added.*1 → db_deliveries (st_db s0) !! id = None) ∧
    (λ r, (d_subscription_id r, d_channel_id r)) <$> added.*2 ⊆+ recipients_of es ∧
    Forall (λ a, ∃ i t out, pl_tasks p !! i = Some t ∧ sent s0 es i (t_job t) out ∧ row_for out (t_job t) a.2) added ∧
    (ledger_laws used → ids_used used s0 → accepts_records →
     Forall (λ e, no_cancel e = true) es → forallb (λ t, is_done (t_phase t)) (pl_tasks p) = true →
     (λ r, (d_subscription_id r, d_channel_id r)) <$> added.*2 ≡ₚ recipients_of es).
Proof.
  intros Hrun. destruct (runs_filed s0 es p Hrun) as (kept & added & [H2 H3 H4 H5 H6 H7 H8]).
  pose proof (runs_ids _ _ _ Hrun) as Hr. cbn [pl_tasks Notifier_init fmap list_fmap app] in Hr.
  assert (∀ i, i ∈ kept → i ∈ seq 0 (length (task_ids <$> pl_tasks p))) as Hlt.
  { intros i [n Hi]%list_elem_of_lookup_1. destruct (Forall2_lookup_l _ _ _ _ _ H3 Hi) as (a & _ & t & s & o & Ht & _).
    apply elem_of_seq. rewrite length_fmap. apply lookup_lt_Some in Ht. lia. }
  exists added. rewrite (row_ids s0 es p _ _ H3), <- Hr. split_and!; [done..| | |].
  - transitivity (omap ((task_ids <$> pl_tasks p) !!.) (seq 0 (length (task_ids <$> pl_tasks p))));
      [|by rewrite lookups_all]. apply omap_submseteq. by apply NoDup_submseteq.
  - apply Forall_forall. intros a [n Ha]%list_elem_of_lookup_1.
    destruct (Forall2_lookup_r _ _ _ _ _ H3 Ha) as (i & _ & t & s & o & Ht & _ & Hrow). by exists i, t, o.
  - intros Hl Hs Ha Hes Hdone. destruct (H8 Hl Hs) as [_ Hk]. specialize (Hk Ha). rewrite Hk in *.
    assert (pl_settled p ≡ₚ seq 0 (length (task_ids <$> pl_tasks p))) as ->; [|by rewrite lookups_all].
    apply NoDup_Permutation; [done|apply NoDup_seq|]. intros i. split; [apply Hlt|].
    rewrite elem_of_seq, length_fmap. intros [_ Hi]. destruct (lookup_lt_is_Some_2 _ _ Hi) as [t Ht].
    rewrite forallb_forall in Hdone. pose proof Ht as Hph%list_elem_of_lookup_2%list_elem_of_In%Hdone.
    destruct (t_phase t) as [| | |s] eqn:E0; try done. by eapply (runs_settled s0 es p Hes Hrun).
Qed.
End ledger.

(** Two sends that overlap, the second answered and recorded first *)
Lemma send_pool_records_witness :
  ∃ added : list (string * DeliveryRecordRow),
    (λ r, (d_subscription_id r, d_channel_id r)) <$> added.*2 ≡ₚ [("s1", "a"); ("s1", "b")] ∧ NoDup added.*1.
Proof.
  destruct (runs (L:=ToySql) (CallbackEnv0:=LedgerSample.env) (ChannelEnv0:=LedgerSample.channels) (λ _, "http") 2
    [PoolSample.begin; Acquire 0; Acquire 1; Send 1; Send 0; Settle 1; Settle 0]
    (Notifier_init (mkStore empty_db 0%nat))) as [p|] eqn:Hrun; [|vm_compute in Hrun; discriminate].
  destruct (send_pool_records (L:=ToySql) (CallbackEnv0:=LedgerSample.env) (ChannelEnv0:=LedgerSample.channels)
    LedgerSample.used (λ _, "http") 2 [PoolSample.begin; Acquire 0; Acquire 1; Send 1; Send 0; Settle 1; Settle 0] (mkStore empty_db 0%nat) p) as
    (added & _ & H2 & _ & _ & _ & H6); [exact Hrun|].
  exists added. split; [|exact H2]. apply H6.
  - exact LedgerSample.sample_laws.
  - unfold ids_used. cbn. set_solver.
  - intros id r. reflexivity.
  - repeat (apply Forall_cons; split; [reflexivity|]). apply Forall_nil_2.
  - vm_compute in Hrun. injection Hrun as <-. reflexivity.
Defined.
