(* ===== verification/Adapters.v ===== *)
(** * The construction of adapters (core/chains/evm.py, core/chains/solana.py, apps/worker/main.py)

    The constructors of the two adapters on what the worker's factory hands them, which loop they follow the heads with, and
    the pauses of Solana's websocket loop between its connections.  A chain that the API has accepted always yields an
    adapter. *)
From S2P Require Import Prelude PyStr PyVal Snapshot Repositories Schemas WebApi Resubmit Callbacks.

Inductive CommitmentLevel := Confirmed | Finalized.

Definition COMMITMENT_MAP : list (string * CommitmentLevel) := [("confirmed", Confirmed); ("finalized", Finalized)].

(** The attributes that [EvmAdapter.__init__] sets; the two periods are in milliseconds, and the pool and the
    first handle are None until [connect]. *)
Record EvmFields := mkEvmFields {
  ef_chain_id : string;
  ef_confirmations : Z;
  ef_http_urls : list string;
  ef_rpc_ws : option string;
  ef_poll_interval_ms : Z;
  ef_rpc_timeout_ms : Z;
  ef_failure_threshold : Z;
  ef_cooldown : Z;
}.

Record SolanaFields := mkSolanaFields {
  sf_chain_id : string;
  sf_http_urls : list string;
  sf_rpc_ws : option string;
  sf_commitment : CommitmentLevel;
  sf_poll_interval_ms : Z;
  sf_rpc_timeout_ms : Z;
  sf_failure_threshold : Z;
  sf_cooldown : Z;
}.

Definition EvmAdapter_init (chain_id rpc_http : string) (rpc_ws : option string) (confirmations poll_interval_ms : Z)
    (pool : pool_args) : EvmFields :=
  mkEvmFields chain_id confirmations (rpc_http :: pa_rpc_http_fallbacks pool) rpc_ws poll_interval_ms
    (pa_rpc_timeout_ms pool) (pa_failure_threshold pool) (pa_cooldown_s pool).

(** [_COMMITMENT_MAP] raises for a level it does not have. *)
Definition SolanaAdapter_init (chain_id rpc_http commitment : string) (poll_interval_ms : Z) (rpc_ws : option string)
    (pool : pool_args) : result SolanaFields :=
  match dget commitment COMMITMENT_MAP with
  | None => Err (KeyError commitment)
  | Some level =>
      Ok (mkSolanaFields chain_id (rpc_http :: pa_rpc_http_fallbacks pool) rpc_ws level poll_interval_ms
            (pa_rpc_timeout_ms pool) (pa_failure_threshold pool) (pa_cooldown_s pool))
  end.

(** The object that [factory(cfg)] returns *)
Definition construct (a : adapter) : result (EvmFields + SolanaFields) :=
  match a with
  | EvmAdapter cid http ws conf poll pool => Ok (inl (EvmAdapter_init cid http ws conf poll pool))
  | SolanaAdapter cid http commitment poll ws pool => rmap inr (SolanaAdapter_init cid http commitment poll ws pool)
  end.

Definition build_adapter (failure_threshold cooldown_s : Z) (cfg : SnapshotChain) : result (EvmFields + SolanaFields) :=
  rbind (make_adapter_factory failure_threshold cooldown_s cfg) construct.

Inductive head_source := FromWebsocket | FromPolling.

(** [SolanaAdapter.subscribe_heads] *)
Definition sol_subscribe_heads (f : SolanaFields) : head_source :=
  match sf_rpc_ws f with Some _ => FromWebsocket | None => FromPolling end.

(** What becomes of one connection of [_ws_heads]: it is refused; it is lost, or a message raises, after the
    subscription was sent; or the server closes it, which ends the loop over messages without an exception. *)
Inductive connection := Refused | Lost | Closed.

(** The pauses after each connection, in seconds; None when the next one is tried at once *)
Fixpoint ws_pauses (backoff : Z) (cs : list connection) : list (option Z) :=
  match cs with
  | [] => []
  | Refused :: t => Some backoff :: ws_pauses (Z.min (backoff * 4) 60) t
  | Lost :: t => Some 1 :: ws_pauses (Z.min (1 * 4) 60) t
  | Closed :: t => None :: ws_pauses 1 t
  end.

Lemma ws_pauses_bounded b cs : 1 <= b <= 60 → Forall (λ p, ∀ d, p = Some d → 1 <= d <= 60) (ws_pauses b cs).
Proof.
  revert b. induction cs as [|[] cs IH]; intros b Hb; cbn; constructor; try (intros d [= <-]; lia); try done; apply IH; lia.
Qed.

(** A server that keeps refusing is asked after 1, 4, 16 and then every 60 seconds; one that keeps closing, at once. *)
Lemma ws_pauses_refused n : ws_pauses 1 (replicate (3 + n) Refused) = Some 1 :: Some 4 :: Some 16 :: replicate n (Some 60).
Proof. cbn. do 3 f_equal. induction n as [|n IH]; cbn; [done|]. by f_equal. Qed.

Lemma ws_pauses_closed b n : ws_pauses b (replicate n Closed) = replicate n None.
Proof. revert b. induction n as [|n IH]; intros b; cbn; [done|]. by rewrite IH. Qed.

(** The row that POST /chains makes of an accepted body yields an adapter of its kind, whose endpoints are the primary one and
    the fallbacks. *)
Lemma created_chain_builds ft cd p q kind id :
  chain_create_validate p = Ok q → ChainKind_of (cc_kind q) = Some kind →
  ∃ o, build_adapter ft cd (snapshot_chain (id, chain_row kind q)) = Ok o ∧
    match o with
    | inl f => kind = ChainKind_evm ∧ ef_http_urls f = cc_rpc_http q :: cc_rpc_http_fallbacks q
    | inr f => kind = ChainKind_solana ∧ sf_http_urls f = cc_rpc_http q :: cc_rpc_http_fallbacks q
    end.
Proof.
  unfold chain_create_validate, require. destruct (chain_create_fields p) eqn:Hf; cbn [rbind]; [|done].
  destruct (check_kind_fields p) as [[]|] eqn:Hk; cbn [rbind]; [|done]. intros [= <-]. cbn [cc_kind].
  intros Hkind. unfold chain_create_fields in Hf. rewrite !andb_true_iff in Hf.
  destruct Hf as ((((((((_ & _) & _) & _) & _) & Hc) & _) & _) & _). apply bool_decide_eq_true in Hc.
  unfold check_kind_fields in Hk. apply ChainKind_value_of in Hkind. rewrite Hkind in Hk.
  destruct kind; cbn in Hk; [by eexists|]. case_bool_decide as Hn; [done|].
  apply elem_of_cons in Hc as [Hc|[Hc|[Hc|[]%elem_of_nil]%elem_of_cons]%elem_of_cons]; [done|..];
    (eexists; split; [unfold build_adapter, make_adapter_factory; cbn; by rewrite Hc|done]).
Qed.
