(* ===== verification/HotReload.v ===== *)
(** * A configuration change while blocks are being processed (apps/worker/chain_runner.py)

    The main loop of the worker calls [apply_snapshot] while the runner's own task is somewhere in
    [_catchup_evm] or [_handle_evm_head].  Both tasks are written here as coroutines, suspended where the
    source awaits; run without interruption they are the operations of [ChainRunner].  [_snap_lock] is
    taken by [apply_snapshot] alone and orders nothing between the two.  What an interruption does is stated of
    [System]. *)
From S2P Require Import Prelude Hoare Coroutine PyStr PyVal Types Snapshot Repositories Matcher Decoder.
From S2P Require Import AbiLookup Registry Pipeline EvmParsers SolanaParsers EventTypes FilterSet Notifier.
From S2P Require Import ChainRunner EndToEnd Callbacks System Interrupt.

(** ** The two tasks *)
Section tasks.
Context {L : AbiLib} {W : Type} {env : RunnerEnv W} (chain : SnapshotChain).

(** [apply_snapshot] *)
Definition apply_snapshot_co (snap : ConfigSnapshot) : co W unit :=
  now (mmodify (re_update (set_matcher (Matcher_init snap))) ;;* mgets (r_notifier ∘ re_runner)) (λ old,
  await (re_notifier_stop old) (λ _,
  now (let* n := new_notifier in mmodify (re_update (set_notifier n)) ;;* mret n) (λ n,
  await (re_notifier_start n (snap_channels snap)) (λ _,
  now (mmodify (re_update (set_snap snap)) ;;* mmodify (rebuild_filter chain snap)) return_)))).

(** [_process_block_with_prefetched_logs]: parsing, the dispatches (which the gather awaits), the
    traces, the checkpoint and the callback *)
Definition process_block_co (number : Z) (block : Block) (prefetched_logs : list Log)
    (matcher : Matcher) (notifier : nat) : co W unit :=
  let block := with_logs block prefetched_logs in
  now (λ w, let '(events, w1) := evm_events chain block w in (Ok events, w1)) (λ events,
  await (λ w, let '(matched, w1) := dispatch_events matcher notifier false events w in (Ok matched, w1)) (λ matched,
  await (process_internal_calls chain number block matcher notifier) (λ _,
  await (re_cp_save (chain_id chain) (hdr_number (blk_header block)) (hdr_hash (blk_header block))) (λ _,
  awaited (mmodify (λ w, if decide (matched = ∅) then w
                         else re_on_block matched (hdr_number (blk_header block)) w)))))).

(** The blocks of one window, with the matcher and the notifier read when the window was started *)
Fixpoint catchup_blocks_co (count : nat) (n : Z) (logs_by_block : gmap Z (list Log))
    (matcher : Matcher) (notifier : nat) : co W bool :=
  match count with
  | O => return_ false
  | S count' =>
      now (mgets (r_stop ∘ re_runner)) (λ stopped : bool,
        if stopped then return_ true else
        await (re_fetch_block n) (λ block,
        co_bind (process_block_co n block (default [] (logs_by_block !! n)) matcher notifier) (λ _,
        catchup_blocks_co count' (n + 1) logs_by_block matcher notifier)))
  end.

(** *** Uninterrupted, they are the operations of [ChainRunner] *)
Lemma run_apply_snapshot snap w : complete (apply_snapshot_co snap) w = apply_snapshot chain snap w.
Proof.
  unfold apply_snapshot_co, apply_snapshot. rewrite complete_now, mbind_assoc. apply bind_ext; [done|].
  intros [] w1. rewrite !bind_run. unfold mgets. rewrite complete_await. apply bind_ext; [done|]. intros [] w2.
  rewrite complete_now, mbind_assoc. apply bind_ext; [done|]. intros n w3. rewrite mbind_assoc, !bind_modify.
  rewrite bind_run. unfold mret. rewrite complete_await. apply bind_ext; [done|]. intros [] w4.
  rewrite complete_now. by unfold mbind, mmodify.
Qed.

Lemma run_process_block n b lgs m k w :
  complete (process_block_co n b lgs m k) w = process_block chain n b lgs m k w.
Proof.
  unfold process_block_co, process_block. rewrite complete_now. unfold mbind at 1.
  destruct (evm_events chain (with_logs b lgs) w) as [events w1]. rewrite complete_await. unfold mbind at 1.
  destruct (dispatch_events m k false events w1) as [matched w2]. rewrite complete_await.
  apply bind_ext; [done|]. intros [] w3. rewrite complete_await. unfold finish_block.
  apply bind_ext; [done|]. intros [] w4. apply complete_awaited.
Qed.

Lemma run_catchup_blocks count n lbb m k w :
  complete (catchup_blocks_co count n lbb m k) w = catchup_blocks chain count n lbb m k w.
Proof.
  revert n w. induction count as [|count IH]; intros n w; [done|]. cbn [catchup_blocks_co catchup_blocks].
  rewrite complete_now, bind_run. unfold mgets, compose. destruct (r_stop (re_runner w)); [done|].
  rewrite complete_await. apply bind_ext; [done|]. intros b w1. rewrite complete_bind.
  apply bind_ext; [apply run_process_block|]. intros [] w2. apply IH.
Qed.
End tasks.

(** ** A notifier that has been stopped *)
Section silence.
Context {L : AbiLib} {Q : Sql} {Ch E : Type} `{!CallbackEnv E, !ChannelEnv Ch E, !NodeEnv E}.
Context (schedule : list (job (Ch:=Ch)) → list (job (Ch:=Ch))) (iter : gset string → list string).
Context (Hschedule : ∀ js, schedule js ≡ₚ js).
#[local] Instance here : RunnerEnv (Sys Ch E) := system schedule iter.
Context (chain : SnapshotChain) (k : nat) (dels : gmap string DeliveryRecordRow).
Let cid := chain_id chain.

(** Notifier [k] has no channels, and [dels] is the table of delivery records. *)
Record silenced (s : Sys Ch E) : Prop := {
  si_notifier : sy_notifiers s !! k = Some [];
  si_records : db_deliveries (sy_db s) = dels;
}.

Lemma keeps_node {A} (op : M E A) : keeps silenced (on_node op).
Proof.
  intros [rn rg nt [db e]] [H1 H2]. unfold wp, on_node, on_store, on_env, mzoom. cbn.
  by destruct (op e) as [[a|x] e'].
Qed.

Lemma no_jobs event hits replay st :
  ∃ e, dispatch_jobs (ChannelEnv0:=stored) ([] : list (string * Ch)) event hits replay st = ([], mkStore (st_db st) e).
Proof.
  revert st. induction hits as [|[sub chans] t IH]; intros [db e]; [by exists e|]. cbn [dispatch_jobs env_uuid env_now stored].
  cbn [st_env st_db]. destruct (env_uuid e) as [uid e1]. destruct (IH (mkStore db e1)) as [e2 ->].
  exists e2. f_equal. rewrite app_nil_r. unfold hit_jobs. by induction chans.
Qed.

Lemma silenced_dispatch ev hits replay s : silenced s → silenced (re_dispatch k ev hits replay s).
Proof.
  intros [H1 H2]. cbn [re_dispatch here system]. unfold on_notifier. rewrite H1. unfold dispatch. cbn [fst snd].
  destruct (no_jobs ev hits replay (sy_store s)) as [e ->].
  assert (schedule [] = []) as -> by apply Permutation_nil_r, Hschedule. cbn.
  split; cbn; [|done]. by apply list_lookup_insert_eq, (lookup_lt_Some _ _ [] H1).
Qed.

Lemma silenced_dispatches m replay events s :
  silenced s → silenced (dispatch_events m k replay events s).2.
Proof.
  revert s. induction events as [|ev events IH]; intros s Hs; cbn [dispatch_events]; [done|].
  destruct (event_hits m ev) as [|h hs]; [by apply IH|].
  specialize (IH _ (silenced_dispatch ev (h :: hs) replay s Hs)). by destruct (dispatch_events m k replay events _).
Qed.

Lemma silenced_gen {A} (g : gen AbiRegistry A) s : silenced s → silenced (run_gen g s).2.
Proof.
  intros Hs. unfold run_gen. cbn [re_registry re_set_registry here system].
  destruct (sy_registry s) as [r|]; [destruct (g r)|destruct (g AbiRegistry_init)]; [|done]. by destruct Hs.
Qed.

Lemma keeps_internal_calls n b m : keeps silenced (process_internal_calls chain n b m k).
Proof.
  intros s Hs. unfold wp, process_internal_calls. cbn [re_trace_block re_registry here system].
  destruct (chain_trace_internal_calls chain && _); [|done].
  destruct ne_trace_block as [f|]; cbn [fmap option_fmap option_map]; [|done]. unfold mbind.
  pose proof (keeps_node (f n) s Hs) as Hn. unfold wp in Hn.
  destruct (on_node (f n) s) as [[[|t ts]|x] s1]; [done| |done].
  pose proof (silenced_gen (internal_call_parse (chain_id chain) (t :: ts) b) s1 Hn) as H.
  destruct (run_gen _ s1) as [[events exc] s2]. cbn [snd] in H.
  pose proof (silenced_dispatches m false events s2 H) as H2. destruct (dispatch_events m k false events s2) as [ids s3].
  by destruct exc.
Qed.

Lemma silenced_save n h s :
  let '(r, s') := re_cp_save cid n h s in
  (silenced s → silenced s') ∧ (is_ok r = true → checkpoint_get cid (sy_db s') = Some (mkCheckpointRow n h)).
Proof.
  pose proof (save_checkpoint schedule iter chain n h s) as H. change (chain_id chain) with cid in H.
  change (@re_cp_save _ (System.here schedule iter)) with (@re_cp_save _ here) in H.
  destruct (re_cp_save cid n h s) as [r s']. destruct H as (_ & _ & Hn & _ & Hdb & _). split.
  - intros [H1 H2]. split; [by rewrite Hn|]. rewrite Hdb. by destruct r.
  - destruct r; [|done]. intros _. unfold checkpoint_get. rewrite Hdb. cbn. by rewrite lookup_insert_eq.
Qed.

Lemma silenced_on_block ids n s :
  let s' := re_on_block ids n s in
  (silenced s → silenced s') ∧ checkpoint_get cid (sy_db s') = checkpoint_get cid (sy_db s).
Proof.
  pose proof (block_recorded schedule iter ids n s) as H. cbv zeta in H |- *.
  change (@re_on_block _ (System.here schedule iter)) with (@re_on_block _ here) in H.
  destruct H as (_ & _ & Hn & _ & subs & Hdb). split.
  - intros [H1 H2]. split; [by rewrite Hn|by rewrite Hdb].
  - unfold checkpoint_get. by rewrite Hdb.
Qed.

(** Processing a block through notifier [k] delivers nothing, and checkpoints the block like any other. *)
Lemma silenced_block n b lgs m s :
  silenced s →
  let '(r, s') := process_block chain n b lgs m k s in
  silenced s' ∧
  (r = Ok tt → checkpoint_get cid (sy_db s') =
     Some (mkCheckpointRow (hdr_number (blk_header b)) (hdr_hash (blk_header b)))).
Proof.
  intros Hs. unfold process_block.
  assert (silenced (evm_events chain (with_logs b lgs) s).2) as Hs1.
  { unfold evm_events. pose proof (silenced_gen (pipeline_run (evm_parsers (chain_id chain)
      (bool_decide (is_Some (re_registry s)))) (with_logs b lgs)) s Hs) as H.
    by destruct (run_gen _ s) as [[evs exc] s1]. }
  destruct (evm_events chain (with_logs b lgs) s) as [evs s1]. cbn [snd] in Hs1.
  pose proof (silenced_dispatches m false evs s1 Hs1) as Hs2. destruct (dispatch_events m k false evs s1) as [ids s2].
  cbn [snd] in Hs2. unfold mbind.
  pose proof (keeps_internal_calls n (with_logs b lgs) m s2 Hs2) as Hs3. unfold wp in Hs3.
  destruct (process_internal_calls _ _ _ _ _ s2) as [[[]|x] s3]; [|done]. unfold finish_block, mbind, mmodify.
  cbn [with_logs blk_header].
  pose proof (silenced_save (hdr_number (blk_header b)) (hdr_hash (blk_header b)) s3) as Hsave. fold cid.
  destruct (re_cp_save cid _ _ s3) as [[[]|x] s4]; destruct Hsave as [Hk Hc]; [|by split; [apply Hk|]].
  specialize (Hc eq_refl). case_decide as Hids; [by split; [apply Hk|]|].
  destruct (silenced_on_block ids (hdr_number (blk_header b)) s4) as [Hk' Hc'].
  split; [by apply Hk', Hk|]. intros _. by rewrite Hc'.
Qed.

Lemma silenced_window count n lbb m s :
  (∀ i e b e', ne_fetch_block i e = (Ok b, e') → hdr_number (blk_header b) = i) →
  silenced s →
  let '(r, s') := catchup_blocks chain count n lbb m k s in
  silenced s' ∧
  (r = Ok false → (0 < count)%nat →
   ∃ h, checkpoint_get cid (sy_db s') = Some (mkCheckpointRow (n + Z.of_nat count - 1) h)).
Proof.
  intros Hnum. revert n s. induction count as [|count IH]; intros n s Hs; cbn [catchup_blocks]; [by split; [|lia]|].
  destruct (r_stop (re_runner s)); [by split|]. unfold mbind.
  pose proof (keeps_node (ne_fetch_block n) s Hs) as H1. unfold wp in H1.
  change (re_fetch_block n) with (on_node (Ch:=Ch) (ne_fetch_block n)).
  destruct (on_node (ne_fetch_block n) s) as [[b|x] s1] eqn:Ef; [|by split].
  assert (hdr_number (blk_header b) = n) as Hb.
  { unfold on_node, on_store, on_env, mzoom in Ef. destruct (ne_fetch_block n (st_env (sy_store s))) as [r e] eqn:Efetch.
    injection Ef as -> _. by apply Hnum in Efetch. }
  pose proof (silenced_block n b (default [] (lbb !! n)) m s1 H1) as H2.
  destruct (process_block _ _ _ _ _ _ s1) as [[[]|x] s2]; destruct H2 as [H2 Hc]; [|by split].
  specialize (Hc eq_refl). specialize (IH (n + 1) s2 H2).
  destruct (catchup_blocks chain count (n + 1) lbb m k s2) as [r s'] eqn:Er. destruct IH as [H3 H4]. split; [done|].
  intros -> _. destruct count as [|count].
  - cbn in Er. injection Er as <-. exists (hdr_hash (blk_header b)). rewrite Hc, Hb. do 2 f_equal. lia.
  - destruct (H4 eq_refl ltac:(lia)) as [h ->]. exists h. do 2 f_equal. lia.
Qed.
End silence.

(** ** [apply_snapshot] silences the notifier that it replaces *)
Section reload.
Context {L : AbiLib} {Q : Sql} {Ch E : Type} `{!CallbackEnv E, !ChannelEnv Ch E, !NodeEnv E}.
Context (schedule : list (job (Ch:=Ch)) → list (job (Ch:=Ch))) (iter : gset string → list string).
Context (Hschedule : ∀ js, schedule js ≡ₚ js).
#[local] Instance here' : RunnerEnv (Sys Ch E) := system schedule iter.
Context (chain : SnapshotChain).

Lemma stop_empties chs (st : Store E) :
  ∃ e, notifier_stop (ChannelEnv0:=stored) (chs : list (string * Ch), st) = (Ok tt, ([], mkStore (st_db st) e)).
Proof.
  unfold notifier_stop, mbind, mget. cbn [fst].
  enough (∀ l c st, ∃ e, mfor l (λ kv : string * Ch, mcatch (in_world (ch_stop (ChannelEnv:=stored) kv.2)) (λ _, mret tt))
    (c : list (string * Ch), st : Store E) = (Ok tt, (c, mkStore (st_db st) e))) as H.
  { destruct (H chs chs st) as [e ->]. by exists e. }
  clear. induction l as [|[i ch] l IH]; intros c [db e]; cbn [mfor]; [by exists e|].
  unfold mbind, mcatch, in_world. cbn [ch_stop stored snd]. unfold on_env, mzoom. cbn [st_env st_db].
  destruct (ch_stop ch e) as [[[]|x] e1]; apply (IH c (mkStore db e1)).
Qed.

Lemma start_touches channels (k : nat) (s : Sys Ch E) i dels :
  i ≠ k → silenced i dels s → silenced i dels (on_notifier k (notifier_start (ChannelEnv0:=stored) channels) s).2.
Proof.
  intros Hne [H1 H2]. unfold on_notifier. destruct (sy_notifiers s !! k) as [chs|]; [|done].
  assert (st_db (notifier_start (ChannelEnv0:=stored) channels (chs, sy_store s)).2.2 = st_db (sy_store s)) as Hdb.
  { enough (wp (notifier_start (ChannelEnv0:=stored) channels)
      (λ _ st', st_db st'.2 = st_db (sy_store s)) (λ _ st', st_db st'.2 = st_db (sy_store s)) (chs, sy_store s)) as Hw
      by by apply wp_state in Hw.
    apply wp_mfor_inv; [done|]. intros cfg [c [db e]] _ Hst. cbn in Hst. subst db.
    unfold wp, mbind, in_world. cbn [ch_factory stored]. unfold on_env, mzoom. cbn [st_env st_db].
    destruct (ch_factory cfg e) as [[inst|x] e1]; [|done].
    cbn [ch_start stored]. unfold on_env, mzoom. cbn [st_env st_db].
    by destruct (ch_start inst e1) as [[[]|x] e2]. }
  destruct (notifier_start _ (chs, sy_store s)) as [r [chs' st]]. cbn [fst snd] in *.
  split; cbn; [by rewrite list_lookup_insert_ne|]. unfold sy_db in *. cbn. by rewrite Hdb.
Qed.

Lemma apply_silences snap k chs (s : Sys Ch E) :
  r_notifier (sy_runner s) = k → sy_notifiers s !! k = Some chs →
  silenced k (db_deliveries (sy_db s)) (apply_snapshot chain snap s).2.
Proof.
  intros Hk Hchs. set (dels := db_deliveries (sy_db s)). apply (wp_state _ (silenced k dels)).
  unfold apply_snapshot. apply wp_bind, wp_modify, wp_bind. unfold wp at 1, mgets, compose.
  cbn -[on_notifier notifier_start notifier_stop]. rewrite Hk. apply wp_bind. unfold wp at 1, on_notifier at 1.
  cbn [sy_notifiers sy_store]. rewrite Hchs.
  destruct (stop_empties chs (sy_store s)) as [e Hstop]. cbn [sy_store]. rewrite Hstop.
  assert (k < length (sy_notifiers s))%nat as Hlt by by eapply lookup_lt_Some.
  apply wp_bind. unfold wp at 1, new_notifier. cbn -[on_notifier notifier_start].
  apply wp_bind, wp_modify, wp_bind. cbn -[on_notifier notifier_start].
  match goal with |- wp (on_notifier ?j ?op) _ _ ?s1 => set (s2 := s1); assert (silenced k dels s2) as H2 end.
  { split; cbn; [|done]. rewrite lookup_app_l by (by rewrite length_insert). by apply list_lookup_insert_eq. }
  clearbody s2. assert (length (sy_notifiers s) ≠ k) as Hne by lia.
  rewrite length_insert. apply (wp_mono _ (λ _, silenced k dels) _ (λ _, silenced k dels));
    [by apply wp_state, start_touches| |done].
  intros _ s3 [H4 H5]. apply wp_bind, wp_modify, wp_modify. unfold rebuild_filter.
  destruct (is_solana _); by split.
Qed.

(** *** A snapshot applied between two windows *)
Context (used : E → gset string) (r0 : AbiRegistry) (Hcoherent : coherent r0).
Context (Hsl : start_laws (Ch:=Ch) used) (Hstop : ∀ (ch : Ch) e, used e ⊆ used (ch_stop ch e).2).

Lemma notifier_stop_keeps (st : list (string * Ch) * Store E) :
  let st' := (notifier_stop (ChannelEnv0:=stored) st).2 in
  st_db st'.2 = st_db st.2 ∧ used (st_env st.2) ⊆ used (st_env st'.2).
Proof.
  set (I := λ st' : list (string * Ch) * Store E,
    st_db st'.2 = st_db st.2 ∧ used (st_env st.2) ⊆ used (st_env st'.2)).
  enough (wp (notifier_stop (ChannelEnv0:=stored)) (λ _, I) (λ _, I) st) as Hw by by apply wp_state in Hw.
  unfold notifier_stop. apply wp_bind, wp_get, wp_bind, (wp_mono _ (λ _, I) _ (λ _, I)); [|by intros [] [c t]|done].
  apply wp_mfor_inv; [by split|].
  intros [i ch] [c [db e]] _ [H1 H2]. cbn in H1, H2.
  unfold wp, mcatch, in_world. cbn [ch_stop stored snd]. unfold on_env, mzoom. cbn [st_env st_db].
  pose proof (Hstop ch e) as Hs. destruct (ch_stop ch e) as [[[]|x] e1]; cbn [snd] in Hs; unfold I; cbn;
    (split; [done|set_solver]).
Qed.

(** Applied without interruption, the snapshot is the one that the runner is at work on from then on. *)
Lemma applied_at_work snap chs s s' :
  is_solana chain = false → idle used chain r0 s → sy_notifiers s' !! length (sy_notifiers s) = Some chs →
  apply_snapshot chain snap s = (Ok tt, s') →
  at_work used chain snap (length (sy_notifiers s)) chs r0 s'.
Proof.
  intros Hsol Hidle Hchs Happly. set (k := length (sy_notifiers s)) in *.
  assert (wp (apply_snapshot chain snap) (λ _ s', idle used chain r0 s' ∧ r_matcher (sy_runner s') = Matcher_init snap ∧
    r_notifier (sy_runner s') = k ∧
    r_filter (sy_runner s') = build_evm_log_filter snap (chain_id chain) (Some r0)) (λ _ _, True) s) as Hw.
  { unfold apply_snapshot. apply wp_bind, wp_modify, wp_bind. unfold wp at 1, mgets.
    cbn -[on_notifier notifier_start notifier_stop].
    apply wp_bind. eapply env_op_wp; [by apply env_op_notifier, notifier_stop_keeps|destruct Hidle; by split|].
    intros [] t1 I1 R1 N1. apply wp_bind. unfold wp at 1, new_notifier. cbn -[on_notifier notifier_start].
    apply wp_bind, wp_modify, wp_bind. cbn -[on_notifier notifier_start].
    eapply env_op_wp; [by apply env_op_notifier, (notifier_start_keeps used)|destruct I1; by split|].
    intros [] t2 I2 R2 N2. apply wp_bind, wp_modify, wp_modify. unfold rebuild_filter. rewrite Hsol.
    cbn -[on_notifier notifier_start] in *. rewrite (id_registry _ _ _ _ I2). cbn. split; [destruct I2; by split|].
    rewrite R2. cbn. rewrite R1. cbn. split; [done|]. split; [by rewrite N1|done]. }
  apply (wp_run _ _ _ _ _ _ Happly) in Hw as ([H1 H2 H3 H4] & M1 & M2 & M3).
  split; try done. split; [exists r0; by split_and!|done..].
Qed.

(** C39 A window of the catch-up, or the confirmed blocks of a head, that is being processed when a new
    configuration arrives can be lost for every subscription: the loop took hold of the notifier before its first
    await, and [apply_snapshot] removes all channels of that notifier.  For some order in which the event loop
    runs the two tasks, every block of the window is matched and dispatched to nobody, the table of delivery
    records does not change, and the checkpoint nevertheless stands at the last block of the window, so
    no restart looks at these blocks again. *)
Theorem reload_silences_window (s : Sys Ch E) chs snap count n lbb m :
  sy_notifiers s !! r_notifier (sy_runner s) = Some chs →
  (∀ i e b e', ne_fetch_block i e = (Ok b, e') → hdr_number (blk_header b) = i) →
  ∃ steps r1 r2 s',
    interleave steps (catchup_blocks_co chain count n lbb m (r_notifier (sy_runner s))) (apply_snapshot_co chain snap) s
      = (Ret r1, Ret r2, s') ∧
    r1 = (catchup_blocks chain count n lbb m (r_notifier (sy_runner s)) (apply_snapshot chain snap s).2).1 ∧
    db_deliveries (sy_db s') = db_deliveries (sy_db s) ∧
    (r1 = Ok false → (0 < count)%nat →
     ∃ h, checkpoint_get (chain_id chain) (sy_db s') = Some (mkCheckpointRow (n + Z.of_nat count - 1) h)).
Proof.
  intros Hchs Hnum. set (k := r_notifier (sy_runner s)) in *.
  destruct (second_then_first (catchup_blocks_co chain count n lbb m k) (apply_snapshot_co chain snap) s) as [steps Hrun].
  rewrite run_apply_snapshot in Hrun. pose proof (apply_silences snap k chs s eq_refl Hchs) as Hs.
  destruct (apply_snapshot chain snap s) as [r2 s2]. cbn [snd] in *. rewrite run_catchup_blocks in Hrun.
  pose proof (silenced_window schedule iter Hschedule chain k _ count n lbb m s2 Hnum Hs) as H.
  change (system schedule iter) with here' in H. change (here schedule iter) with here' in H.
  destruct (catchup_blocks chain count n lbb m k s2) as [r1 s1]. destruct H as [[_ H1] H2].
  exists steps, r1, r2, s1. exact (conj Hrun (conj eq_refl (conj H1 H2))).
Qed.
End reload.

(** The window of blocks 5 and 6 of [SystemSample], whose payment one subscription wants: run alone it
    leaves a record, overtaken by a snapshot it leaves none and the same checkpoint. *)
Lemma reload_silences_window_witness :
  let env := system (L:=ToySql) (CallbackEnv0:=LedgerSample.env) (ChannelEnv0:=LedgerSample.channels)
    (NodeEnv0:=SystemSample.node) reverse elements in
  let s := SystemSample.start in
  let window := catchup_blocks_co (L:=ToyLib.lib) (env:=env) SystemSample.chain 2 5 {[5 := SystemSample.logs 5]}
    (r_matcher (sy_runner s)) 0 in
  let alone := (complete window s).2 in
  (size (db_deliveries (sy_db alone)), checkpoint_get "eth" (sy_db alone)) = (1%nat, Some (mkCheckpointRow 6 "6")) ∧
  ∃ steps r1 r2 s',
    interleave steps window (apply_snapshot_co (env:=env) SystemSample.chain EndToEndSample.snapshot) s =
      (Ret r1, Ret r2, s') ∧
    db_deliveries (sy_db s') = ∅ ∧ r1 = Ok false ∧
    ∃ h, checkpoint_get "eth" (sy_db s') = Some (mkCheckpointRow 6 h).
Proof.
  intros env s window alone. split; [vm_compute; reflexivity|].
  destruct (reload_silences_window (L:=ToyLib.lib) (Q:=ToySql) (CallbackEnv0:=LedgerSample.env)
    (ChannelEnv0:=LedgerSample.channels) (NodeEnv0:=SystemSample.node) reverse elements (λ js, reverse_Permutation js)
    SystemSample.chain s SystemSample.drivers EndToEndSample.snapshot 2 5 {[5 := SystemSample.logs 5]}
    (r_matcher (sy_runner s)) eq_refl) as (steps & r1 & r2 & s' & Hrun & Hr & Hd & Hc).
  - by intros i e b e' [= <- _].
  - exists steps, r1, r2, s'. split; [exact Hrun|]. split; [rewrite Hd; vm_compute; reflexivity|].
    assert (r1 = Ok false) as Hfalse by (rewrite Hr; vm_compute; reflexivity).
    split; [exact Hfalse|]. apply Hc; [exact Hfalse|lia].
Defined.
