(* ===== verification/ReplayPath.v ===== *)
(** * A replay request from the API to the runner

    [POST /subscriptions/{id}/replay] (apps/web/routers/subscriptions.py) publishes a message,
    [_on_replay_request] (apps/worker/main.py) hands it to the runner of its chain, and the runner
    (apps/worker/chain_runner.py, [replay]) rebuilds a subscription and channels from it.  The
    message crosses Redis as JSON, which keeps the JSON values it is made of. *)
From S2P Require Import Prelude Hoare PyStr PyVal Snapshot Repositories Watchers AbiLookup Decoder.
From S2P Require Import Registry ChainLock Retry HttpChannel Notifier Channels Schemas WebApi Worker.

(** ** The runner's reading of the message *)

(** [cls( **d )] with a missing or an unexpected keyword *)
Definition keyword (d : list (string * pyval)) (k : string) : result pyval :=
  match dget k d with
  | Some v => Ok v
  | None => Err (TypeError ("missing required argument: '" +:+ k +:+ "'"))
  end.
Definition keywords_only (ks : list string) (d : list (string * pyval)) : result unit :=
  match List.find (λ kv, negb (existsb (String.eqb kv.1) ks)) d with
  | None => Ok tt
  | Some kv => Err (TypeError ("got an unexpected keyword argument '" +:+ kv.1 +:+ "'"))
  end.

(** The dataclasses check no types; a value that does not fit the record's field is refused here. *)
Definition as_str (v : pyval) : result string :=
  match v with PStr s => Ok s | _ => Err (TypeError "str") end.
Definition as_opt_str (v : pyval) : result (option string) :=
  match v with PStr s => Ok (Some s) | PNone => Ok None | _ => Err (TypeError "str | None") end.
Definition as_opt_int (v : pyval) : result (option Z) :=
  match v with PInt z => Ok (Some z) | PNone => Ok None | _ => Err (TypeError "int | None") end.
Definition as_int (v : pyval) : result Z :=
  match v with PInt z => Ok z | _ => Err (TypeError "int") end.
Definition as_dict (v : pyval) : result (list (string * pyval)) :=
  match v with PDict d => Ok d | _ => Err (TypeError "dict") end.
Definition as_list (v : pyval) : result (list pyval) :=
  match v with PList l => Ok l | _ => Err (TypeError "list") end.
Definition as_bool (v : pyval) : result bool :=
  match v with PBool b => Ok b | _ => Err (TypeError "bool") end.

Definition subscription_keywords : list string :=
  ["id"; "name"; "chain_id"; "address"; "abi_id"; "match_kind"; "match_name"; "arg_filters"; "enabled";
   "channel_ids"; "start_block"; "business_name"].

(** [SnapshotSubscription( **v )] *)
Definition parse_subscription (v : pyval) : result SnapshotSubscription :=
  let? d := as_dict v in
  let? _ := keywords_only subscription_keywords d in
  let? id := rbind (keyword d "id") as_str in
  let? name := rbind (keyword d "name") as_str in
  let? chain_id := rbind (keyword d "chain_id") as_str in
  let? address := rbind (keyword d "address") as_opt_str in
  let? abi_id := rbind (keyword d "abi_id") as_opt_str in
  let? match_kind := rbind (keyword d "match_kind") as_str in
  let? match_name := rbind (keyword d "match_name") as_opt_str in
  let? arg_filters := rbind (keyword d "arg_filters") as_dict in
  let? enabled := rbind (keyword d "enabled") as_bool in
  let? ids := as_list (default (PList []) (dget "channel_ids" d)) in
  let? channel_ids := rtraverse as_str ids in
  let? start_block := as_opt_int (default PNone (dget "start_block" d)) in
  let? business_name := as_opt_str (default PNone (dget "business_name" d)) in
  Ok (mkSub id name chain_id address abi_id match_kind match_name arg_filters enabled channel_ids
        start_block business_name).

(** [SnapshotChannel( **v )] *)
Definition parse_channel (v : pyval) : result SnapshotChannel :=
  let? d := as_dict v in
  let? _ := keywords_only ["id"; "name"; "type"; "config"] d in
  let? id := rbind (keyword d "id") as_str in
  let? name := rbind (keyword d "name") as_str in
  let? type := rbind (keyword d "type") as_str in
  let? config := rbind (keyword d "config") as_dict in
  Ok (mkChannel id name type config).

(** What [replay] and [_replay_evm] or [_replay_solana] read of the message *)
Definition parse_replay (msg : pyval)
    : result (SnapshotSubscription * list SnapshotChannel * Z * Z) :=
  let? sub := rbind (py_getitem msg "subscription") parse_subscription in
  let? cs := rbind (py_getitem msg "channels") as_list in
  let? channels := rtraverse parse_channel cs in
  let? from_block := rbind (py_getitem msg "from_block") as_int in
  let? to_block := rbind (py_getitem msg "to_block") as_int in
  Ok (sub, channels, from_block, to_block).

(** ** The message is what the runner expects *)

Lemma parse_subscription_fields sid row cids :
  parse_subscription (PDict (replay_subscription_fields sid row cids)) =
  Ok (mkSub sid (s_name row) (s_chain_id row) (s_address row) (s_abi_id row)
        (MatchKind_value (s_match_kind row)) (s_match_name row) (s_arg_filters row) true cids None
        (s_business_name row)).
Proof.
  assert (rtraverse as_str (PStr <$> cids) = Ok cids) as Hids.
  { induction cids as [|c cids IH]; [done|]. csimpl. by rewrite IH. }
  assert (∀ o, as_opt_str (opt_str o) = Ok o) as Hopt by by intros [].
  unfold parse_subscription. cbn [as_dict rbind]. set (d := replay_subscription_fields sid row cids).
  assert (∀ k v, dget k d = Some v → keyword d k = Ok v) as Hk.
  { unfold keyword. by intros k v ->. }
  rewrite (eq_refl : keywords_only subscription_keywords d = Ok tt).
  rewrite (Hk "id" _ eq_refl), (Hk "name" _ eq_refl), (Hk "chain_id" _ eq_refl), (Hk "address" _ eq_refl),
    (Hk "abi_id" _ eq_refl), (Hk "match_kind" _ eq_refl), (Hk "match_name" _ eq_refl),
    (Hk "arg_filters" _ eq_refl), (Hk "enabled" _ eq_refl).
  rewrite (eq_refl : dget "channel_ids" d = Some (PList (PStr <$> cids))),
    (eq_refl : dget "start_block" d = Some PNone),
    (eq_refl : dget "business_name" d = Some (opt_str (s_business_name row))).
  cbn [rbind default from_option as_str as_list as_dict as_bool as_opt_int]. unfold id.
  rewrite !Hopt. cbn [rbind as_list]. rewrite Hids. cbn [rbind as_opt_int]. done.
Qed.

Lemma parse_channel_fields c : parse_channel (PDict (replay_channel_fields c)) = Ok (snapshot_channel c).
Proof. done. Qed.

Lemma parse_replay_message rid sid row cids chans from to :
  parse_replay (PDict (replay_message rid sid row cids chans from to)) =
  Ok (mkSub sid (s_name row) (s_chain_id row) (s_address row) (s_abi_id row)
        (MatchKind_value (s_match_kind row)) (s_match_name row) (s_arg_filters row) true cids None
        (s_business_name row), snapshot_channel <$> chans, from, to).
Proof.
  assert (rtraverse parse_channel ((λ c, PDict (replay_channel_fields c)) <$> chans) =
          Ok (snapshot_channel <$> chans)) as Hcs.
  { induction chans as [|c chans IH]; [done|]. rewrite !fmap_cons.
    cbn [rtraverse]. rewrite parse_channel_fields, IH. done. }
  unfold parse_replay. set (msg := PDict (replay_message rid sid row cids chans from to)).
  rewrite (eq_refl : py_getitem msg "subscription" = Ok (PDict (replay_subscription_fields sid row cids))),
    (eq_refl : py_getitem msg "channels" = Ok (PList ((λ c, PDict (replay_channel_fields c)) <$> chans))),
    (eq_refl : py_getitem msg "from_block" = Ok (PInt from)),
    (eq_refl : py_getitem msg "to_block" = Ok (PInt to)).
  cbn [rbind as_list as_int]. rewrite parse_subscription_fields. cbn [rbind as_list].
  rewrite Hcs. done.
Qed.

(** ** From the request to the runner *)
Section path.
Context {L : Sql} {LS : SqlLaws} {J : JsonSchema} {D W V : Type}.
Context `{!Arith D, !Brokers W, !HttpLib W, !WebEnv W} `{!WorkerEnv V}.
Variables (one four : D) (sleep : D → W → W) (operand : pyval → D).
Variables (max_replay_blocks : Z).

(** C29 An accepted replay request is one the runner can carry out.  The message published for it names
    the subscription's chain, so the worker that runs this chain, and no other, hands it to its runner;
    the runner reads back from it the stored subscription, enabled and without its start block, the
    channels bound to it that exist, and a range of at least one and at most the allowed number of
    blocks; and the request changes nothing in the database. *)
Theorem replay_request_reaches_runner sid p w r w' :
  serve one four sleep operand max_replay_blocks (ReplaySubscription sid p) w = (Ok r, w') →
  ∃ rid row cids chans msg e,
    r = RReplay (rid, s_chain_id row, rr_to_block p - rr_from_block p + 1) ∧
    subscription_get sid (w_db w) = Some row ∧ w_db w' = w_db w ∧
    web_publish "replay_request" msg e = (Ok tt, w_env w') ∧
    parse_replay (PDict msg) =
      Ok (mkSub sid (s_name row) (s_chain_id row) (s_address row) (s_abi_id row)
            (MatchKind_value (s_match_kind row)) (s_match_name row) (s_arg_filters row) true cids None
            (s_business_name row), snapshot_channel <$> chans, rr_from_block p, rr_to_block p) ∧
    0 ≤ rr_from_block p ≤ rr_to_block p ∧
    rr_to_block p - rr_from_block p + 1 ≤ max_replay_blocks ∧
    (∀ c, c ∈ cids ↔ (sid, c) ∈ db_bindings (w_db w)) ∧
    (∀ c h, (c, h) ∈ chans ↔ (sid, c) ∈ db_bindings (w_db w) ∧ channel_get c (w_db w) = Some h) ∧
    ∀ s : Worker V, on_replay_request (PDict msg) s =
      match dget (s_chain_id row) (wk_runners s) with
      | Some h => (Ok tt, set_env (we_replay h (PDict msg) (wk_env s)) s)
      | None => (Ok tt, s)
      end.
Proof.
  unfold serve. intros H.
  destruct (handle one four sleep operand max_replay_blocks (ReplaySubscription sid p)
              (mkWeb (w_db w) (w_db w) (w_env w))) as [r0 w1] eqn:Eh. injection H as -> <-.
  revert Eh. cbn [handle]. unfold answer, mbind, mlift, replay_request_validate, require.
  destruct (0 <=? rr_from_block p) eqn:E0; [|done]. destruct (0 <=? rr_to_block p) eqn:E1; [|done].
  cbn [andb rbind]. unfold replay_subscription, mbind, found, read, mgets, compose. cbn [w_view].
  unfold mbind, mgets, compose, mret, mthrow. cbn [w_view].
  destruct (subscription_get sid (w_db w)) as [row|] eqn:Es; [|done].
  destruct (rr_to_block p <? rr_from_block p) eqn:E2; [done|].
  destruct (max_replay_blocks <? rr_to_block p - rr_from_block p + 1) eqn:E3; [done|].
  unfold fresh_uuid, on_env, mzoom, mbind, mgets, compose, mret. cbn [w_view w_env w_db].
  destruct (web_uuid (w_env w)) as [rid e]. cbn [w_view w_env w_db].
  set (cids := bound_channel_ids sid (w_db w)).
  set (chans := omap (λ cid, (λ r, (cid, r)) <$> channel_get cid (w_db w)) cids).
  set (msg := replay_message rid sid row cids chans (rr_from_block p) (rr_to_block p)).
  destruct (web_publish "replay_request" msg e) as [[[]|x] e'] eqn:Ep; [|done]. intros [= <- <-].
  assert (∀ c, c ∈ cids ↔ (sid, c) ∈ db_bindings (w_db w)) as Hcids.
  { intros c. unfold cids, bound_channel_ids. rewrite sql_scan_perm, list_elem_of_fmap. split.
    - by intros ([s c'] & -> & [Heq ?%elem_of_elements]%list_elem_of_filter); simpl in Heq; subst.
    - intros Hb. exists (sid, c). split; [done|]. apply list_elem_of_filter. by rewrite elem_of_elements. }
  exists rid, row, cids, chans, msg, e. split; [done|]. split; [done|]. split; [done|]. split; [done|].
  split; [apply parse_replay_message|]. split; [lia|]. split; [lia|]. split; [done|]. split.
  - intros c h. unfold chans. rewrite list_elem_of_omap. split.
    + by intros (c' & Hin%Hcids & (h' & Hg & [= -> ->])%fmap_Some).
    + intros [Hin%Hcids Hg]. exists c. split; [done|]. by rewrite Hg.
  - intros s. unfold on_replay_request, mbind, mlift, mget.
    rewrite (eq_refl : py_get (PDict msg) "chain_id" PNone = Ok (PStr (s_chain_id row))).
    by destruct (dget (s_chain_id row) (wk_runners s)).
Qed.
End path.

Lemma replay_request_reaches_runner_witness :
  let w := ApiSample.start toy_db [] in
  let r := ApiSample.api (ReplaySubscription "s" (mkReplayRequest 10 20)) w in
  ∃ rid row msg sub channels, r.1 = Ok (RReplay (rid, "eth", 11)) ∧
    subscription_get "s" toy_db = Some row ∧
    parse_replay (PDict msg) = Ok (sub, channels, 10, 20) ∧ sub_id sub = "s" ∧ sub_enabled sub = true.
Proof.
  intros w r. destruct r as [res w'] eqn:Er.
  assert (is_ok res = true) as Hok.
  { change res with (res, w').1. rewrite <- Er. vm_compute. reflexivity. }
  destruct res as [resp|]; [|discriminate Hok].
  destruct (replay_request_reaches_runner (Arith0:=py_ints) (L:=ToySql) (LS:=ToySql_laws) (J:=ToySchema)
    (Brokers0:=ScriptBroker.brokers ApiSample.ser) (HttpLib0:=ScriptBroker.http ApiSample.ser)
    (WebEnv0:=ApiSample.env) (WorkerEnv0:=WorkerSample.healthy)
    (PInt 1) (PInt 4) (λ _ w, w) id 1000 "s" (mkReplayRequest 10 20) w resp w' Er)
    as (rid & row & cids & chans & msg & e & H1 & H2 & _ & _ & H3 & _).
  exists rid, row, msg. eexists _, _. cbn [fst rr_to_block rr_from_block] in *.
  assert (s_chain_id row = "eth") as Hc.
  { assert (fmap s_chain_id (subscription_get "s" toy_db) = Some "eth") as Hg by (vm_compute; reflexivity).
    change (w_db w) with toy_db in H2. rewrite H2 in Hg. by injection Hg. }
  rewrite Hc in H1. split; [by rewrite H1|]. split; [exact H2|]. split; [exact H3|]. split; reflexivity.
Defined.
