(* ===== verification/ConfigPath.v ===== *)
(** * A configuration change from the API to the running chains

    A request of the management API commits ([WebApi]); the watcher of a worker reads what is committed and puts
    snapshots on the worker's queue ([Watchers]); the main loop reconciles the runners with each snapshot it
    dequeues ([Worker]).  The files of the three components prove what each promises; here the promises meet. *)
From S2P Require Import Prelude Hoare PyStr PyVal Filters Snapshot Repositories Watchers AbiLookup Decoder.
From S2P Require Import RpcPool Registry ChainLock Retry HttpChannel Notifier Channels Schemas WebApi Callbacks Worker.

(** ** What a request owes the watcher *)
Section served.
Context {L : Sql} {J : JsonSchema} {D W : Type} `{!Arith D, !Brokers W, !HttpLib W, !WebEnv W}.
Variables (one four : D) (sleep : D → W → W) (operand : pyval → D).
Variable max_replay : Z.

Lemma deliveries_same_config dels d : same_config d (set_deliveries dels d).
Proof. by split_and!. Qed.

(** Whatever a request commits keeps the version's promise: the configuration is as before, or the version is the
    next. *)
Lemma request_versioned w w' :
  request_step one four sleep operand max_replay w w' → versioned (w_db w) (w_db w').
Proof.
  intros (req & r & H). destruct (config_write req) eqn:Hreq.
  - apply (serve_config_write _ _ _ _ _ _ _ _ _ Hreq) in H. destruct r as [x|e].
    + destruct H as (d & Hc & ->). right. apply version_get_bump. by destruct Hc as (_ & ? & _).
    + left. by rewrite H.
  - left. apply serve_fresh in H as (w1 & Hh & ->). destruct (delivery_write req) eqn:Hdel.
    + destruct (delivery_request_records one four sleep operand max_replay req Hdel (mkWeb (w_db w) (w_db w) (w_env w))
        eq_refl) as [dels Hd].
      rewrite Hh in Hd. cbn [snd w_db] in Hd. rewrite Hd. apply deliveries_same_config.
    + destruct (read_request_reads one four sleep operand max_replay req Hreq Hdel
        (mkWeb (w_db w) (w_db w) (w_env w))) as [Hd _].
      rewrite Hh in Hd. cbn [snd w_db] in Hd. by rewrite Hd.
Qed.
End served.

(** ** The chains a configuration wants to run *)

(** An enabled chain that some enabled subscription with a bound channel watches *)
Definition chain_enabled (d : Db) (c : string) : Prop := ∃ r, db_chains d !! c = Some r ∧ c_enabled r = true.
Definition chain_watched (d : Db) (c : string) : Prop := ∃ sid s ch,
  db_subscriptions d !! sid = Some s ∧ s_enabled s = true ∧ s_chain_id s = c ∧
  (sid, ch) ∈ db_bindings d ∧ is_Some (db_channels d !! ch).
Definition wanted_chain (d : Db) (c : string) : Prop := chain_enabled d c ∧ chain_watched d c.

Lemma chain_enabled_same d d' c : same_config d d' → chain_enabled d c → chain_enabled d' c.
Proof. intros (_ & Hc & _). unfold chain_enabled. by rewrite Hc. Qed.

Lemma chain_watched_same d d' c : same_config d d' → chain_watched d c → chain_watched d' c.
Proof.
  intros (_ & _ & _ & Hs & Hch & Hb) (sid & s & ch & Hsub & Hen & Hid & Hbind & Hchan).
  rewrite Hb in Hbind. rewrite Hch in Hchan.
  assert ((clear_progress <$> db_subscriptions d) !! sid = Some (clear_progress s)) as Hl
    by by rewrite lookup_fmap, Hsub.
  rewrite Hs, lookup_fmap in Hl. destruct (db_subscriptions d' !! sid) as [s'|] eqn:E; [|done].
  injection Hl as _ H2 _ _ _ _ _ H8 _ _. exists sid, s', ch. split_and!; congruence.
Qed.

Section wanted.
Context {L : Sql} {SL : SqlLaws}.

Lemma channels_of_nonempty sid d :
  channels_of sid d ≠ [] ↔ ∃ ch, (sid, ch) ∈ db_bindings d ∧ is_Some (db_channels d !! ch).
Proof.
  split.
  - intros H. destruct (channels_of sid d) as [|[ch r] l] eqn:E; [done|].
    assert ((ch, r) ∈ channels_of sid d) as Hin by (rewrite E; left).
    apply elem_of_channels_of in Hin as [? ?]. exists ch. eauto.
  - intros (ch & Hb & r & Hr) E. assert ((ch, r) ∈ channels_of sid d) as Hin by by apply elem_of_channels_of.
    rewrite E in Hin. by apply not_elem_of_nil in Hin.
Qed.

Lemma enabled_chain_listed d c : c ∈ (chain_list_enabled d).*1 ↔ chain_enabled d c.
Proof.
  unfold chain_list_enabled, chain_enabled. rewrite list_elem_of_fmap. split.
  - intros ([k r] & -> & [He Hin%elem_of_map_to_list]%elem_of_scan%list_elem_of_filter). by exists r.
  - intros (r & Hr & He). exists (c, r). split; [done|].
    apply elem_of_scan, list_elem_of_filter. split; [done|]. by apply elem_of_map_to_list.
Qed.

Lemma watched_chain_listed d c :
  c ∈ (λ sb, s_chain_id sb.1.2) <$> filter (λ sb, sb.2 ≠ []) (list_enabled_with_channels d) ↔ chain_watched d c.
Proof.
  unfold chain_watched. rewrite list_elem_of_fmap. split.
  - intros ([[sid s] chs] & -> & (Hs & He & -> & (ch & Hb & Hr)%channels_of_nonempty)%elem_of_bindings).
    by exists sid, s, ch.
  - intros (sid & s & ch & Hs & He & <- & Hb & Hr). exists ((sid, s), channels_of sid d). split; [done|].
    apply elem_of_bindings. split_and!; try done. apply channels_of_nonempty. by exists ch.
Qed.

(** The chains of a snapshot that was read from a configuration are those the configuration wants. *)
Lemma snapshot_chains_wanted d x c : snapshot_of d x → c ∈ (enabled_chains x).*1 ↔ wanted_chain d c.
Proof.
  intros (d1 & d2 & d3 & H1 & _ & H3 & ->). rewrite build_snapshot_eq. cbv zeta.
  match goal with |- c ∈ (enabled_chains ?snap).*1 ↔ _ => destruct (enabled_chains_spec snap) as (_ & Hk & Hin) end.
  cbn [snap_chains] in Hk, Hin.
  assert (∀ c', c' ∈ (sub_chain_id <$> ((λ sb, snapshot_subscription sb.1 sb.2) <$>
    filter (λ sb, sb.2 ≠ []) (list_enabled_with_channels d3))) ↔ chain_watched d c') as Hw.
  { intros c'. rewrite <-list_fmap_compose. rewrite (watched_chain_listed d3 c' : _ ↔ _).
    split; apply chain_watched_same; [done|by symmetry]. }
  assert (∀ c', chain_enabled d1 c' ↔ chain_enabled d c') as He
    by (intros c'; split; apply chain_enabled_same; [done|by symmetry]).
  split.
  - intros ([k cfg] & -> & Hkc)%list_elem_of_fmap. destruct (Hk _ Hkc) as [Hid Hc]. cbn [fst snd] in *. subst k.
    apply list_elem_of_filter in Hc as [Hact Hc]. rewrite elem_of_list_to_set in Hact.
    apply list_elem_of_fmap in Hc as ([id r] & -> & Hr). split; [|by apply Hw].
    apply He, enabled_chain_listed, list_elem_of_fmap. by exists (id, r).
  - intros [Hen Hwa]. apply He, enabled_chain_listed, list_elem_of_fmap in Hen as ([id r] & -> & Hr).
    apply (Hin (snapshot_chain (id, r))). apply list_elem_of_filter. split.
    + rewrite elem_of_list_to_set. by apply Hw.
    + apply list_elem_of_fmap. by exists (id, r).
Qed.
End wanted.

(** ** The adapters of a stored configuration *)
Section adapters.
Context {L : Sql} {SL : SqlLaws}.

(** For a chain that was stored the factory fails in one case only: a Solana chain without a commitment. *)
Lemma factory_fails_only d c ft cd :
  c ∈ snap_chains (load_snapshot d) →
  is_ok (make_adapter_factory ft cd c) = false ↔ chain_kind c = "solana" ∧ chain_commitment c = None.
Proof.
  intros (id & r & _ & ->)%loaded_chain. unfold make_adapter_factory. cbn.
  destruct (c_kind r); cbn; [split; [done|by intros [? _]]|]. destruct (c_commitment r); cbn; by split; [|intros []].
Qed.

(** The pool of an adapter that is built from a configuration the API has stored can be built: it has the chain's primary
    endpoint first, then its fallbacks, and no endpoint twice. *)
Lemma configured_endpoints d c ft cd a :
  rows_ok d → c ∈ snap_chains (load_snapshot d) → make_adapter_factory ft cd c = Ok a →
  http_urls a = chain_rpc_http c :: chain_rpc_http_fallbacks c ∧ NoDup (http_urls a) ∧
  ∃ p, pool_init (http_urls a) ft cd = Ok p ∧ pool_handles p = http_urls a.
Proof.
  intros [Hrows _] (id & r & Hr & ->)%loaded_chain Ha.
  destruct (ok_endpoints _ (Hrows id r Hr)) as [_ Hnd].
  assert (http_urls a = c_rpc_http r :: c_rpc_http_fallbacks r) as ->.
  { unfold make_adapter_factory in Ha. cbn in Ha. destruct (c_kind r); cbn in Ha.
    - by injection Ha as <-.
    - destruct (c_commitment r); [by injection Ha as <-|done]. }
  split; [done|]. split; [done|]. eexists. split; [reflexivity|].
  unfold pool_handles. cbn [pool_eps]. rewrite fmap_imap. cbn. f_equal.
  etrans; [|apply list_fmap_id]. etrans; [|apply (imap_const (λ u, u))]. by apply imap_ext.
Qed.
End adapters.

(** ** The main loop on a sequence of snapshots *)
Section loop.
Context {A : AbiLib} {V : Type} `{!WorkerEnv V, !Redis V}.
Variable worker_id : string.

(** In the states [I], which no operation leaves, nothing that a reconcile calls raises, and the lock of a chain is refused
    exactly when the chain is one of those whose locks other workers hold throughout, [elsewhere]. *)
Record undisturbed (I : V → Prop) (elsewhere : gset string) : Prop := {
  ud_new cfg e : I e → I (we_new_runner cfg e).2;
  ud_start h snap e : I e → ∃ e', we_start h snap e = (Ok tt, e') ∧ I e';
  ud_apply h snap e : I e → ∃ e', we_apply h snap e = (Ok tt, e') ∧ I e';
  ud_stop h e : I e → ∃ e', we_stop h e = (Ok tt, e') ∧ I e';
  ud_spawn h e : I e → I (we_spawn h e);
  ud_join h e : I e → I (we_join h e);
  ud_acquire c e : I e →
    ∃ l e', acquire (lock_init c worker_id, e) = (Ok (bool_decide (c ∉ elsewhere)), (l, e')) ∧ I e';
  ud_release l e : cl_worker_id l = worker_id → I e → ∃ l' e', release (l, e) = (Ok tt, (l', e')) ∧ I e';
}.

(** The registry takes the snapshot. *)
Definition readable (snap : ConfigSnapshot) : Prop := ∀ r, (refresh snap r).1 = Ok tt.

Context (I : V → Prop) (elsewhere : gset string) (Hcalm : undisturbed I elsewhere).

(** The state of a worker that runs no chain of [elsewhere] and whose locks are its own *)
Record calm (s : Worker V) : Prop := {
  cm_env : I (wk_env s);
  cm_runners c : c ∈ (wk_runners s).*1 → c ∉ elsewhere;
  cm_locks c l : (c, l) ∈ wk_locks s → cl_worker_id l = worker_id;
}.

Lemma acquire_id l e : cl_worker_id (acquire (W:=V) (l, e)).2.1 = cl_worker_id l.
Proof using Type.
  unfold acquire, command, mbind, set_renewing, mmodify, mgets. destruct (rd_set_nx_ex _ _ _ e) as [[[]|] e1]; cbn; [done| |done].
  destruct (rd_get _ e1) as [[r|] e2]; cbn; [|done]. by case_decide.
Qed.

Lemma env_returns {B} (m : M V B) (Q : B → Worker V → Prop) E s a e :
  m (wk_env s) = (Ok a, e) → Q a (set_env e s) → wp (env m) Q E s.
Proof. intros Hm HQ. apply env_iff. unfold wp. by rewrite Hm. Qed.

Lemma lock_returns {B} l (m : M (ChainLock * V) B) (Q : B * ChainLock → Worker V → Prop) E s a l' e :
  m (l, wk_env s) = (Ok a, (l', e)) → Q (a, l') (set_env e s) → wp (on_lock l m) Q E s.
Proof. intros Hm HQ. eapply env_returns; [by rewrite Hm|done]. Qed.

Lemma stop_and_release_calm c s :
  c ∈ (wk_runners s).*1 → calm s →
  wp (stop_runner c ;;* pop_and_release c)
    (λ _ s', calm s' ∧ ∀ k, k ≠ c → k ∈ (wk_runners s).*1 → k ∈ (wk_runners s').*1) (λ _ _, False) s.
Proof.
  intros [h Hh]%dget_key [Hi Hr Hown]. unfold stop_runner, set_runners. wp_steps. rewrite Hh. wp_steps.
  set (s1 := mkWorker _ _ _ _ _). destruct (ud_stop _ _ Hcalm h (wk_env s1) Hi) as (e1 & He1 & Hi1).
  eapply env_returns; [exact He1|]. apply (env_returns _ _ _ _ tt (we_join h e1)); [done|].
  apply (ud_join _ _ Hcalm h) in Hi1.
  assert (∀ k, k ≠ c → k ∈ (wk_runners s).*1 → k ∈ (ddel c (wk_runners s)).*1) as Hkeep
    by (intros k ??; by apply ddel_keys).
  assert (∀ k, k ∈ (ddel c (wk_runners s)).*1 → k ∉ elsewhere) as Hout by (intros k [_ ?]%ddel_keys; by apply Hr).
  unfold pop_and_release. wp_steps. cbn [wk_locks set_env s1].
  destruct (dget c (wk_locks s)) as [l|] eqn:El; wp_steps; [|by split; [split|]].
  unfold set_locks. wp_steps. destruct (ud_release _ _ Hcalm l (we_join h e1) (Hown c l (dget_elem_of _ _ _ El)) Hi1) as (l' & e2 & He2 & Hi2).
  eapply lock_returns; [exact He2|]. wp_steps. split; [split|done]; [done|done|].
  cbn. intros c' l2 [_ Hin]%list_elem_of_filter. by apply (Hown c').
Qed.

Lemma stop_loop_calm (enabled : list (string * SnapshotChain)) chains s :
  NoDup chains → (∀ c, c ∈ chains → c ∈ (wk_runners s).*1) → calm s →
  wp (mfor chains (λ c, if dmem c enabled then mret tt else stop_runner c ;;* pop_and_release c))
    (λ _, calm) (λ _ _, False) s.
Proof.
  intros Hnd. revert s. induction Hnd as [|c t Hc Hnd IH]; intros s Hin Hs; [done|]. cbn [mfor]. wp_steps.
  destruct (dmem c enabled).
  - wp_steps. apply IH; [|done]. intros k Hk. apply Hin. by right.
  - eapply wp_mono; [apply stop_and_release_calm; [apply Hin; left|done]| |done]. intros [] s' [Hs' Hkeep].
    apply IH; [|done]. intros k Hk. apply Hkeep; [by intros ->|]. apply Hin. by right.
Qed.

Lemma reconcile_chain_calm snap cfg s :
  calm s →
  wp (reconcile_chain worker_id snap cfg)
    (λ _ s', calm s' ∧ (∀ c, c ∈ (wk_runners s).*1 → c ∈ (wk_runners s').*1) ∧
       (chain_id cfg ∉ elsewhere → chain_id cfg ∈ (wk_runners s').*1)) (λ _ _, False) s.
Proof.
  intros [Hi Hr Hown]. unfold reconcile_chain. wp_steps.
  destruct (dget (chain_id cfg) (wk_runners s)) as [h|] eqn:Eh.
  { destruct (ud_apply _ _ Hcalm h snap (wk_env s) Hi) as (e1 & He1 & Hi1). eapply env_returns; [exact He1|].
    split; [by split|]. split; [done|]. intros _. apply dget_key. by exists h. }
  destruct (ud_acquire _ _ Hcalm (chain_id cfg) (wk_env s) Hi) as (l & e1 & He1 & Hi1). wp_steps.
  pose proof (acquire_id (lock_init (chain_id cfg) worker_id) (wk_env s)) as Hid. rewrite He1 in Hid. cbn in Hid.
  eapply lock_returns; [exact He1|]. cbn [fst snd]. case_bool_decide as Hfree; cbn [negb].
  2: { wp_steps. split; [by split|]. by split. }
  unfold set_locks at 1. wp_steps. cbn [wk_registry wk_runners wk_locks wk_stop wk_env set_env].
  pose proof (ud_new _ _ Hcalm cfg e1 Hi1) as Hi2. destruct (we_new_runner cfg e1) as [h e2] eqn:En.
  eapply env_returns; [cbn; by rewrite En|]. wp_steps. cbn [snd] in Hi2.
  destruct (ud_start _ _ Hcalm h snap e2 Hi2) as (e3 & He3 & Hi3).
  eapply env_returns; [exact He3|]. wp_steps. apply (env_returns _ _ _ _ tt (we_spawn h e3)); [done|].
  unfold set_runners. wp_steps. cbn.
  split; [split|split].
  - by apply (ud_spawn _ _ Hcalm).
  - intros c [->|Hc]%dset_key_in; [done|by apply Hr].
  - intros c l' [[= -> ->]|Hin]%dset_elem; [done|by apply (Hown c)].
  - intros c Hc. apply dset_key_in. by right.
  - intros _. apply dset_key_in. by left.
Qed.

Lemma start_loop_calm snap (enabled : list (string * SnapshotChain)) s :
  (∀ kc, kc ∈ enabled → kc.1 = chain_id kc.2) → calm s →
  wp (mfor enabled (λ kc, reconcile_chain worker_id snap kc.2))
    (λ _ s', calm s' ∧ ∀ c, c ∈ enabled.*1 → c ∉ elsewhere → c ∈ (wk_runners s').*1) (λ _ _, False) s.
Proof.
  intros Hid Hs.
  apply (wp_mfor (λ done s', calm s' ∧ ∀ c, c ∈ done.*1 → c ∉ elsewhere → c ∈ (wk_runners s').*1)).
  - split; [done|]. by intros c ?%elem_of_nil.
  - intros done kc todo s1 Henabled [Hs1 Hdone].
    eapply wp_mono; [by apply reconcile_chain_calm| |done]. intros [] s2 (Hs2 & Hkeep & Hnew). split; [exact Hs2|].
    assert (kc.1 = chain_id kc.2) as Hk by (apply Hid; rewrite Henabled; set_solver).
    intros c. rewrite fmap_app, elem_of_app. change ([kc].*1) with [kc.1]. rewrite list_elem_of_singleton.
    intros [Hc|Hc] Hout; [by apply Hkeep, Hdone|]. rewrite Hc, Hk in *. by apply Hnew.
Qed.

(** In these states a reconcile reaches the configuration: it returns, and exactly the enabled chains that no other
    worker has locked run. *)
Lemma reconcile_reaches snap s :
  readable snap → worker_inv s → calm s →
  ∃ s', reconcile worker_id snap s = (Ok tt, s') ∧ worker_inv s' ∧ calm s' ∧
    ∀ c, c ∈ (wk_runners s').*1 ↔ c ∈ (enabled_chains snap).*1 ∧ c ∉ elsewhere.
Proof.
  intros Hread Hs Hcs.
  assert (wp (reconcile worker_id snap) (λ _ s', calm s' ∧
    ∀ c, c ∈ (enabled_chains snap).*1 → c ∉ elsewhere → c ∈ (wk_runners s').*1) (λ _ _, False) s) as Hw.
  { unfold reconcile. wp_steps. apply wp_zoom. unfold wp at 1. pose proof (Hread (wk_registry s)) as Hr.
    destruct (refresh snap (wk_registry s)) as [r reg]. cbn [fst] in Hr. subst r. wp_steps.
    eapply wp_mono; [apply stop_loop_calm; [apply Hs|done|by destruct Hcs]| |done]. intros [] s1 Hs1.
    apply start_loop_calm; [|done]. intros kc Hkc. by apply (proj1 (proj2 (enabled_chains_spec snap))). }
  apply wp_ok in Hw as ([] & s' & Hrun & Hc' & Hall). exists s'. split; [done|].
  destruct (wp_run _ _ _ _ _ _ Hrun (reconcile_wp worker_id snap s Hs)) as (s0 & D1 & _ & J).
  split; [apply J|]. split; [done|]. intros c. split; [|intros []; by apply Hall].
  intros Hc. split; [|by apply Hc']. apply (st_keys _ _ _ _ _ J) in Hc as [Hc|Hc]; [|done].
  apply (dropped_keys _ _ _ _ _ D1) in Hc as [? Hc]. auto.
Qed.

Lemma main_loop_reaches snaps x s b :
  Forall readable (snaps ++ [x]) → worker_inv s → calm s → wk_stop s = false →
  ∃ s', Worker.run worker_id (Some <$> snaps ++ [x]) (s, b) = (Ok tt, (s', true)) ∧
    ∀ c, c ∈ (wk_runners s').*1 ↔ c ∈ (enabled_chains x).*1 ∧ c ∉ elsewhere.
Proof.
  revert s b. induction snaps as [|y snaps IH]; intros s b [Hread Hrest]%Forall_cons Hs Hcs Hstop;
    [change [] with ([] : list ConfigSnapshot) in *|];
    cbn [app fmap list_fmap Worker.run fst]; rewrite Hstop.
  - destruct (reconcile_reaches x s Hread Hs Hcs) as (s' & -> & _ & _ & Hc). by exists s'.
  - pose proof (keeps_state _ _ _ (keeps_stop_reconcile worker_id false y) Hstop) as Hstop'.
    destruct (reconcile_reaches y s Hread Hs Hcs) as (s' & Hr & Hs' & Hcs' & _).
    rewrite Hr in Hstop' |- *. exact (IH s' true Hrest Hs' Hcs' Hstop').
Qed.
End loop.

Section path.
Context {L : Sql} {SL : SqlLaws} {J : JsonSchema} {D W : Type}.
Context `{!Arith D, !Brokers W, !HttpLib W, !WebEnv W}.
Context {A : AbiLib} {V : Type} `{!WorkerEnv V, !Redis V}.
Variables (one four : D) (sleep : D → W → W) (operand : pyval → D).
Variable max_replay : Z.
Variable worker_id : string.

(** [s] after another process has committed [d] *)
Definition committed (d : Db) (s : ConfigWatcher) : ConfigWatcher :=
  mkWatcher d (cw_last_version s) (cw_pc s) (cw_started s) (cw_stopped s) (cw_taken s) (cw_queue s).

Lemma request_watched s w w' :
  w_db w = cw_db s → (∀ t x, cw_pc s t ≠ Putting x) →
  request_step one four sleep operand max_replay w w' → watcher_step s (committed (w_db w') s).
Proof.
  intros Hdb Hno Hr. exists (Commit (w_db w')). split_and!; [done| |done].
  intros d [= <-]. rewrite <-Hdb. by eapply request_versioned.
Qed.

(** C13 A request of the API reaches the running chains.  From any state that the watcher of a worker
    reaches while other processes keep the version's promise, in which neither of its tasks is loading, it may poll and the
    queue has room, let the API serve any request, whatever it is and however it
    ends, and let one poll follow.  A fresh worker whose main loop works off what the watcher has emitted by then runs
    exactly the enabled chains that an enabled subscription with a
    bound channel watches in the database as the request has left it, except those whose locks other workers hold.
    This is so when the registry can take every snapshot, nothing that the reconciles call raises, and the locks of
    the chains [elsewhere] are held by other workers throughout, the other locks by none. *)
Theorem configuration_reaches_runners d s w w' (I : V → Prop) elsewhere e :
  rtc watcher_step (watcher_init d) s → w_db w = cw_db s →
  request_step one four sleep operand max_replay w w' →
  (∀ t, cw_pc s t = Idle) → may_run TPoll s = true → has_room s = true →
  undisturbed worker_id I elsewhere → I e →
  ∃ s', wrun (reload TPoll) (committed (w_db w') s) = Some s' ∧
    (Forall readable (emitted s') →
     ∃ st, Worker.run worker_id (dequeues (length (emitted s')) (emitted s') false) (worker_init e, false) = (Ok tt, (st, true)) ∧
       ∀ c, c ∈ (wk_runners st).*1 ↔ wanted_chain (w_db w') c ∧ c ∉ elsewhere).
Proof.
  intros Hreach Hdb Hreq Hidle Hrun Hroom Hcalm He.
  destruct (reachable_ok d (committed (w_db w') s)) as [Hok _].
  { eapply rtc_r; [exact Hreach|]. apply (request_watched s w w' Hdb); [|done]. intros t x. by rewrite Hidle. }
  destruct (reload_current TPoll _ Hok (Hidle TPoll) Hrun ltac:(done) Hroom) as (s' & Hs' & Hd & (x & Hx & Hof) & _).
  exists s'. split; [exact Hs'|]. intros Hread. apply last_Some in Hx as [snaps Hem].
  rewrite dequeues_all. rewrite Hem in Hread |- *.
  destruct (main_loop_reaches worker_id I elsewhere Hcalm snaps x (worker_init e) false Hread) as (st & Hst & Hc);
    [split; [constructor|constructor|done]|split; [done|by intros c ?%elem_of_nil|by intros c l ?%elem_of_nil]|done|].
  exists st. split; [done|]. intros c. rewrite Hc.
  rewrite Hd in Hof. pose proof (snapshot_chains_wanted _ _ c Hof). tauto.
Qed.
End path.

(** ** A chain is added while another is watched *)
#[local] Existing Instances py_ints WorkerSample.healthy WorkerSample.redis ApiSample.env.

Lemma toy_readable snap : snap_abis snap = [] → readable (A:=ToyLib.lib) snap.
Proof. intros Ha r. unfold refresh, new_abis. rewrite Ha. reflexivity. Qed.

(** Another worker holds the lock of "solana", nobody else than this worker any other. *)
Definition solana_elsewhere (e : WorkerSample.world) : Prop :=
  WorkerSample.keys e !! (LOCK_PREFIX +:+ "solana") = Some "other" ∧
  ∀ k v, WorkerSample.keys e !! k = Some v → k = LOCK_PREFIX +:+ "solana" ∨ v = "w".

Lemma sample_undisturbed : undisturbed "w" solana_elsewhere {["solana"]}.
Proof.
  split; try done; try by (intros; eexists).
  - intros c e [Hsol He]. unfold acquire, lock_init, command, mbind. cbn [rd_set_nx_ex WorkerSample.redis cl_key cl_worker_id].
    destruct (decide (c = "solana")) as [->|Hc].
    + rewrite Hsol, decide_False by done. cbn. rewrite Hsol. cbn. rewrite bool_decide_eq_false_2 by set_solver.
      by do 2 eexists.
    + rewrite bool_decide_eq_true_2 by set_solver.
      assert (LOCK_PREFIX +:+ c ≠ LOCK_PREFIX +:+ "solana") as Hk by by intros ?%(inj (String.append LOCK_PREFIX)).
      set (key := LOCK_PREFIX +:+ c) in *. clearbody key.
      destruct (WorkerSample.keys e !! key) as [v|] eqn:Ek.
      * destruct (He _ _ Ek) as [| ->]; [done|]. rewrite decide_False by done. cbn. rewrite Ek. cbn. by do 2 eexists.
      * cbn. do 2 eexists. split; [done|]. split; cbn [WorkerSample.keys].
        -- by rewrite lookup_insert_ne.
        -- intros k v Hkv. apply lookup_insert_Some in Hkv as [[_ <-]|[_ Hkv]]; [by right|by apply He].
  - intros l e Hid [Hsol He]. unfold release, command, mbind, set_renewing, mmodify, mgets. cbn. rewrite Hid.
    case_decide as Hl; cbn; [|by do 2 eexists]. do 2 eexists. split; [done|]. split; cbn [WorkerSample.keys].
    + rewrite lookup_delete_ne; [done|]. intros Heq. rewrite Heq in Hl. congruence.
    + intros k v [_ Hkv]%lookup_delete_Some. by apply He.
Qed.

(** The chain "solana" is added too, and its lock is held elsewhere. *)
Lemma configuration_reaches_runners_witness :
  let w := ApiSample.start (cw_db toy_started) [] in
  let w' := (ApiSample.api (CreateChain (ApiSample.solana "solana" (Some "finalized"))) w).2 in
  let e := WorkerSample.mkWorld 0 ∅ {[LOCK_PREFIX +:+ "solana" := "other"]} in
  ∃ s' st,
    snap_version <$> emitted s' = [1; 2] ∧
    Worker.run (L:=ToyLib.lib) "w" (dequeues 2 (emitted s') false) (worker_init e, false) =
      (Ok tt, (st, true)) ∧
    "eth" ∈ (wk_runners st).*1 ∧ "solana" ∉ (wk_runners st).*1.
Proof.
  intros w w' e.
  destruct (configuration_reaches_runners (L:=ToySql) (SL:=ToySql_laws) (J:=ToySchema)
    (Brokers0:=ScriptBroker.brokers ApiSample.ser) (HttpLib0:=ScriptBroker.http ApiSample.ser) (WebEnv0:=ApiSample.env)
    (A:=ToyLib.lib) (V:=WorkerSample.world) (PInt 1) (PInt 4) (λ _ w, w) id 1000 "w"
    _ _ w w' solana_elsewhere {["solana"]} e toy_started_reachable) as (s' & Hs & H).
  - reflexivity.
  - eexists _, _. apply surjective_pairing.
  - intros t. by destruct t; vm_compute.
  - vm_compute. reflexivity.
  - vm_compute. reflexivity.
  - exact sample_undisturbed.
  - split; [apply lookup_singleton_eq|]. intros k v Hkv. unfold e in Hkv. cbn [WorkerSample.keys] in Hkv. apply lookup_singleton_Some in Hkv as [<- _]. by left.
  - assert (snap_version <$> emitted s' = [1; 2] ∧ snap_abis <$> emitted s' = [[]; []]) as [Hv Ha].
    { assert (option_map (λ s, (snap_version <$> emitted s, snap_abis <$> emitted s)) (Some s') =
        Some ([1; 2], [[]; []])) as E by (rewrite <-Hs; vm_compute; reflexivity).
      cbn [option_map] in E. by injection E as -> ->. }
    destruct H as (st & Hr & Hc).
    { apply Forall_forall. intros x Hx. apply toy_readable. apply (list_elem_of_fmap_2 snap_abis) in Hx.
      rewrite Ha in Hx. apply list_elem_of_In in Hx as [<-|[<-|[]]]; reflexivity. }
    exists s', st. split; [done|]. split.
    { assert (length (emitted s') = 2%nat) as Hl by (rewrite <-(length_fmap snap_version), Hv; reflexivity).
      rewrite Hl in Hr. exact Hr. }
    split; [|intros [_ Hout]%Hc; by apply Hout, elem_of_singleton]. apply Hc. split; [split|].
    + eexists. split; [vm_compute; reflexivity|reflexivity].
    + eexists "s", _, "c". split_and!; [vm_compute; reflexivity|reflexivity|reflexivity| |].
      * apply (bool_decide_unpack _). vm_cast_no_check I.
      * apply (bool_decide_unpack _). vm_cast_no_check I.
    + by intros ?%elem_of_singleton.
Defined.
